(* ===== verification/_CoqProject ===== *)
-Q . S2P
Prelude.v
Exec.v
Kernel.v
Devices.v
Memory.v
Cstring.v
Arrays.v
User.v
Programs.v
ProgramLogic.v
Mmu.v
Mm.v
Start.v
Paging.v
Queue.v
QueueLogic.v
Sched.v
SchedInv.v
SchedSteps.v
Dispatch.v
Algorithms.v
Lottery.v
Aging.v
Handlers.v
Fairness.v
Multilevel.v
Processes.v
System.v
Waking.v
Ipc.v
Crowd.v
AddressSpace.v
Fork.v
Creation.v
Loading.v
SchedTheorems.v
IpcTheorems.v
MemoryTheorems.v
StartTheorems.v
FatTypes.v
FatBytes.v
FatNames.v
FatTable.v
FatDir.v
FatFile.v
FatLogic.v
FatChain.v
FatAlloc.v
FatIO.v
FatStream.v
FatCodec.v
FatDemo.v
FatVolume.v
FatTheorems.v
Sd.v
SdLogic.v
SdRuns.v
SdDemo.v
DeviceTheorems.v
Mailbox.v
ScreenLogic.v
ScreenTheorems.v
Machine.v
Uart.v
Filesystem.v
Boot.v
Syscalls.v
Diagnostics.v
Vectors.v
Shell.v
ShellLogic.v
Commands.v
Console.v
Transmit.v
Descriptors.v
Arguments.v
SystemTheorems.v
VectorTheorems.v
LoadTheorems.v
UserTheorems.v
