(* ===== verification/Prelude.v ===== *)
(** * demoOS in Rocq

    A model of demoOS, an operating system for the Raspberry Pi 3 written in C,
    and the theorems that make it correct.

    ** The program and the files

    The kernel is a scheduler with seven algorithms, a page allocator with the
    page tables of the processes, process creation, messages and signals, a
    FAT32 library over the SD card, drivers, and the system calls and interrupts
    that drive them; above it run a shell and small programs.  Each C function is
    a definition of the same name; the files follow the sources.

    - [Prelude]: machine integers ([u8] ... [s64]), generic lemmas, tactics.
    - [Exec]: the state monad of every component.  A run is [Done] with a value
      and a state, [Stuck] (undefined behaviour: a null or dangling pointer, an
      index outside an array), or [OutOfFuel].  [wp] is total correctness.
    - [Kernel]: [struct PCB] and the globals of libs/scheduler.c and libs/mm.c as
      the record [kstate]; the class [Kernel], by which code on a larger state
      calls the functions of the kernel.
    - [Devices] (arch/mmio.h, printing of drivers/uart/uart.c): the registers of a
      device, and the class [Bus] by which a component reaches them.
    - Scheduler (libs/scheduler.c): [Queue] and [Sched] translate it.  [QueueLogic]
      views a kernel state as an [astate], in which the intrusive queues are
      lists ([repr] is the refinement relation, [awp] its program logic).
      [SchedInv], [SchedSteps] and [Dispatch] hold the invariant [inv] and what
      the common steps do to it; [Algorithms], [Lottery], [Aging], [Multilevel]
      the algorithms; [Handlers] the tick; [Processes] registration, parameters
      and exit; [System] the step relation of the whole scheduler, its initial
      state and the reachable states; [Fairness] sequences of decisions.
    - Memory (common/memory.S, common/string.c, libs/mm.c): [Memory], [Cstring],
      [Mm]; [Arrays] has the string functions on local arrays; [Paging] and
      [AddressSpace] are their theory: the tables as a tree, fresh pages with
      given contents.  [Mmu] is the address translation of the processor, from
      the architecture and not from the kernel: which descriptors are valid, the
      access flag, the permissions of a program.  [Paging] and [StartTheorems]
      prove that it takes the tables of the kernel as they are meant.
    - Processes (libs/fork.c): [Fork]; [Creation] is the theory of [copy_process],
      [Loading] of [copy_code] and [move_to_user_mode].
    - Messages (libs/ipc.c): [Waking] has the loop shared with the UART, [Ipc] the
      operations and the rings as lists of texts.
    - FAT32 (libs/fat32/fat.c): [FatTypes] the data and the error monad, [FatNames]
      names and dates, [FatTable] the buffer and the allocation table, [FatDir]
      directories, [FatFile] files and volumes.  Their theory: [FatBytes] fields
      of a sector, [FatLogic] the buffered view of the device, [FatChain] the
      table as a function, [FatAlloc] chains of clusters, [FatIO] and [FatStream]
      a file as a list of bytes, [FatCodec] the encodings, [FatDemo] a volume in
      memory and [FatVolume] the same volume on any device.
    - SD card (drivers/sd/sd.c): [Sd] translates the driver; [SdLogic] verifies it
      over a controller with a card, [SdRuns] over any controller, and [SdDemo] is
      a controller in memory.
    - [Mailbox] (drivers/mbox/mbox.c, uart_init, drivers/framebuffer): messages to
      the GPU and the screen; [ScreenLogic] has the picture of a text.
    - The start: [Start] is boot/start.S, from reset to [kernel_main], and [Boot]
      has the functions of kernel/kernel.c.
    - Above them: [Machine] joins the kernel, the library, the open files and the
      devices in one state; [Uart] (drivers/uart/uart.c, drivers/timer/timer.c,
      drivers/irq/controller.c), [Filesystem] (libs/filesystem.c) and [Syscalls]
      (libs/syscalls.c) compose the parts.  [Console] is the theory of the input
      ring and the line editor, [Transmit] of what the UART sends, [Descriptors] of
      the files of a process, [Arguments] of the arguments of exec.
    - [Vectors] (drivers/irq/entry.S): the frame an exception saves and loads, the
      vector table, the exceptions of user programs, the first return of a
      process.  [Diagnostics] prints an exception that is not served, and the ring
      of a process.
    - User programs: [User] is their monad and the system calls they make
      (common/user_syscalls.h), [Programs] the first process, spawn_process and the
      programs of app/, [Shell] the shell.  [ProgramLogic], [ShellLogic] (paths)
      and [Commands] are their theory.
    - [Crowd] is an example kernel; [SchedTheorems], [IpcTheorems],
      [MemoryTheorems], [StartTheorems], [LoadTheorems], [VectorTheorems],
      [FatTheorems], [SystemTheorems], [DeviceTheorems], [ScreenTheorems] and
      [UserTheorems] state the properties.

    ** How state is represented

    A [struct PCB*] is [init_process] or the kernel page that holds the PCB; PCBs,
    [Fat], [Dir], [File] and [FatResource] structures live in maps by address, so
    a dangling pointer is a missing key.  Other memory is [ram], a byte at every
    address: page tables, saved registers, the buffers of system calls.  The
    fields of a structure in a map are not also bytes of [ram]: a write past the
    end of a buffer does not show in the structures of another page.  An address
    below [VA_START] is what the running process sees at that address; the
    translation by its page tables is the subject of [Mmu] and [Paging], and the two views
    of a user page, by its user and by its kernel address, are not identified.
    A local array starts with unknown contents, a parameter ([stack]).

    A function that calls [schedule] gives the CPU away.  In the scheduler this is
    the switch of [current_process]; the code above takes a list [others] of what
    the other processes do each time, until this one runs again.

    ** What the theorems show

    - C1 to C13, the scheduler: the invariant holds in every reachable state of
      each algorithm; each algorithm chooses the process it should and keeps the
      others queued; the lottery is fair and the aging and lottery loops end; the
      tick, the multilevel hook and exit do what they mean to; the queues
      implement lists; round robin starves nobody.  C2 is a flaw: a stopped
      process is never resumed.
    - C14 and C15, messages: delivery in order.
    - C16 to C18, calls and interrupts: the line editor, the receive interrupt,
      paths.  C16 is what the code does, and the documentation of the call says
      otherwise: a zero does not end a line, and a full buffer does not end the
      call.
    - C19 and C20, memory: the processor translates the addresses of a page that
      is mapped to it and all others as before; fork with private memory.
    - C21, the start: from reset to [kernel_main] with the bss cleared and the
      memory of the machine mapped.
    - C22, the first user program: the kernel thread loads it in fresh pages and
      reaches the [eret] to user mode.
    - C23 to C25, exceptions: the registers of the interrupted program come back,
      a fault of a user program never does and the line that is printed is the
      wrong one, and a system call that writes a string makes the UART send it, from [svc] to [eret].
    - C26 to C33, FAT32: table entries, freeing and extending chains (on damaged
      tables too), write-back, what the short name of a name is, and files as
      arrays of bytes that are read, written (they grow until no cluster is free)
      and stored on the device with their directory entry and the counters.  Short
      names have no digits, which is a flaw.
    - C34 to C36, the SD card: the driver is the block device the library asks
      for, so a file that has been synchronised is on the card; transfers end
      whatever the controller does.
    - C37, the screen: the text that is printed is a reference picture, byte by byte.
    - C38 to C40, user programs: the meaning of a path and of cd, and the program
      that a line of the shell runs when it begins with no command.
    - The theorems without a number are about the same definitions: among them
      first fit of the page allocator, the children of kernel threads, the
      arguments of exec, the overrun of a message ring, the wait of [sd_init] that
      never ends, the divisor of its clock, descriptors that are never given back,
      [get_fat] after [put_fat], the system call that reads the clock, [spawn_process], [print_int].

    ** Fuel

    Recursion that is not structural takes fuel, and the theorems are about runs
    that end.  A walk over a ready queue gets [loop_fuel], one more than the
    process table; an aging decision [epoch_fuel] epochs, since a counter becomes
    positive within as many halvings as it has bits; [body_fuel], [path_fuel] and
    [argument_fuel] are the sizes of the arrays a string has to fit in, and one
    for the terminator.  Walks of directories follow links on the disk, which may
    be circular, and waits for a device depend on the device: their fuel is a
    parameter, as is that of strings in user memory.  The polling loops of the SD
    driver count down and recurse on their counter.  A loop over a string in an
    array ends at the end of the array ([array_fuel]); the endless loops of the
    programs run out of fuel.  The scan for a free cluster
    and the removal of a chain get the number of clusters.

    ** Parameters

    The timer value is a stream of readings in [kstate]; [ret_from_fork] is a
    linker symbol in [Fork] (the code at it is in [Vectors]), and the addresses of
    the linker script are arguments of [_start].  The block device of the FAT32 library is a [DiskOps],
    [Reliable] when its transfers succeed: [sd_reliable] proves that the SD driver
    is one.  The registers of a device are [Registers].  Four classes state what
    the code relies on: [Pl011], that reading the data register of the UART takes a
    word off the FIFO and that the flags say whether there is one and whether a
    character can be sent; [Pl011Transmit], that a character written while there is
    room is sent next; [Timer], that a reading of the clock takes time, of which
    the value that is read may be too coarse to show the passing; [Sdhc], that the EMMC controller answers commands with the
    events of the specification and moves a block through its data register.  The
    SD controller and the other devices are separate register files.  A user
    program runs over a [System], which answers its calls; [transcript] records
    them.

    ** Not modelled

    - user_syscalls.S, which loads the number of a call and executes [svc].
    - The nesting of exceptions: an interrupt of the kernel runs between two
      steps of what it interrupts, and [handle_irq] is verified on its own.
    - The two loops of [kernel_main] and of the idle process, which do nothing.
    - A write to a file of a negative length, and the extra byte the [memcpy] of
      the kernel copies for a count of zero where fat.c could ask for one (an
      empty volume name, an empty long name): fat.c is modelled with the [memcpy]
      of the C standard. *)

From Stdlib Require Export ZArith Lia Sorted.
From stdpp Require Export base tactics numbers option gmap list.

#[global] Set Default Goal Selector "!".
#[global] Unset Printing Implicit Defensive.
#[global] Open Scope Z_scope.

(** ** Machine integers

    The kernel is compiled for AArch64: [int] has 32 bits, [long] and
    pointers have 64.  A machine integer is the [Z] it denotes; each C
    assignment that can leave the range of its type goes through one of the
    wrapping functions below. *)

Definition u8 (z : Z) : Z := z `mod` 2 ^ 8.
Definition u16 (z : Z) : Z := z `mod` 2 ^ 16.
Definition u32 (z : Z) : Z := z `mod` 2 ^ 32.
Definition u64 (z : Z) : Z := z `mod` 2 ^ 64.
Definition s32 (z : Z) : Z := (z + 2 ^ 31) `mod` 2 ^ 32 - 2 ^ 31.
Definition s64 (z : Z) : Z := (z + 2 ^ 63) `mod` 2 ^ 64 - 2 ^ 63.

Create Rewrite HintDb machine.

Section MachineIntegers.
Implicit Types z : Z.

Lemma s32_id z : - 2 ^ 31 <= z < 2 ^ 31 -> s32 z = z.
Proof. intros H. unfold s32. rewrite Z.mod_small; lia. Qed.

Lemma s64_id z : - 2 ^ 63 <= z < 2 ^ 63 -> s64 z = z.
Proof. intros H. unfold s64. rewrite Z.mod_small; lia. Qed.

Lemma s32_range z : - 2 ^ 31 <= s32 z < 2 ^ 31.
Proof. unfold s32. pose proof (Z.mod_pos_bound (z + 2 ^ 31) (2 ^ 32)). lia. Qed.

Lemma s64_range z : - 2 ^ 63 <= s64 z < 2 ^ 63.
Proof. unfold s64. pose proof (Z.mod_pos_bound (z + 2 ^ 63) (2 ^ 64)). lia. Qed.

Lemma u8_id z : 0 <= z < 2 ^ 8 -> u8 z = z.
Proof. apply Z.mod_small. Qed.

Lemma u16_id z : 0 <= z < 2 ^ 16 -> u16 z = z.
Proof. apply Z.mod_small. Qed.

Lemma u32_id z : 0 <= z < 2 ^ 32 -> u32 z = z.
Proof. apply Z.mod_small. Qed.

Lemma u64_id z : 0 <= z < 2 ^ 64 -> u64 z = z.
Proof. apply Z.mod_small. Qed.

Lemma u8_range z : 0 <= u8 z < 2 ^ 8.
Proof. apply Z.mod_pos_bound. lia. Qed.

Lemma u32_range z : 0 <= u32 z < 2 ^ 32.
Proof. apply Z.mod_pos_bound. lia. Qed.

Lemma u64_range z : 0 <= u64 z < 2 ^ 64.
Proof. apply Z.mod_pos_bound. lia. Qed.

(** Undoing an increment that wrapped: the two wraps compose. *)
Lemma s32_succ_pred z : - 2 ^ 31 <= z < 2 ^ 31 -> s32 (s32 (z + 1) - 1) = z.
Proof.
  intros H. unfold s32.
  replace ((z + 1 + 2 ^ 31) `mod` 2 ^ 32 - 2 ^ 31 - 1 + 2 ^ 31)
    with ((z + 1 + 2 ^ 31) `mod` 2 ^ 32 - 1) by lia.
  rewrite Zminus_mod_idemp_l. rewrite Z.mod_small; lia.
Qed.
End MachineIntegers.

(** A cell of type [uint8_t]. *)
Definition is_byte (b : Z) : Prop := 0 <= b < 2 ^ 8.

#[export] Instance is_byte_decision b : Decision (is_byte b).
Proof. unfold is_byte. apply _. Defined.

#[export] Hint Rewrite s32_id s64_id u8_id u16_id u32_id u64_id using lia : machine.

(** ** Bit masks

    [flags & mask] as a condition, [flags |= mask] and [flags &= ~mask]. *)

Definition has (flags mask : Z) : bool := negb (Z.land flags mask =? 0).
Definition raise (flags mask : Z) : Z := Z.lor flags mask.
Definition clear (flags mask : Z) : Z := Z.land flags (Z.lnot mask).

Lemma land_pow2_testbit (z k : Z) :
  0 <= k -> (Z.land z (Z.shiftl 1 k) =? 0) = negb (Z.testbit z k).
Proof.
  intros Hk. destruct (Z.testbit z k) eqn:E; simpl.
  - apply Z.eqb_neq. intros H0.
    apply (f_equal (fun x => Z.testbit x k)) in H0.
    rewrite Z.land_spec, Z.shiftl_spec, Z.sub_diag, Z.bits_0, E in H0 by lia.
    discriminate.
  - apply Z.eqb_eq. apply Z.bits_inj'. intros n Hn.
    rewrite Z.land_spec, Z.shiftl_spec, Z.bits_0 by lia.
    destruct (decide (n = k)) as [->|Hne]; [by rewrite E|].
    destruct (decide (n < k)).
    + rewrite (Z.testbit_neg_r 1) by lia. by rewrite andb_false_r.
    + rewrite (Z.bits_above_log2 1) by (simpl; lia). by rewrite andb_false_r.
Qed.

(** ** Tactics *)

(** Turn boolean comparisons of the code into the propositions they decide. *)
Ltac reflect_bool :=
  repeat match goal with
  | H : (_ && _)%bool = true |- _ => apply andb_true_iff in H; destruct H
  | H : (_ || _)%bool = false |- _ => apply orb_false_iff in H; destruct H
  | H : negb _ = true |- _ => apply negb_true_iff in H
  | H : negb _ = false |- _ => apply negb_false_iff in H
  | H : (_ =? _) = true |- _ => apply Z.eqb_eq in H
  | H : (_ =? _) = false |- _ => apply Z.eqb_neq in H
  | H : (_ <? _) = true |- _ => apply Z.ltb_lt in H
  | H : (_ <? _) = false |- _ => apply Z.ltb_ge in H
  | H : (_ <=? _) = true |- _ => apply Z.leb_le in H
  | H : (_ <=? _) = false |- _ => apply Z.leb_gt in H
  | H : bool_decide _ = true |- _ => apply bool_decide_eq_true in H
  | H : bool_decide _ = false |- _ => apply bool_decide_eq_false in H
  end.

(** Case analysis on the scrutinee of the first [if] or [match] of the goal. *)
Ltac case_scrutinee :=
  match goal with
  | |- context [if ?b then _ else _] => let E := fresh "E" in destruct b eqn:E
  | |- context [match ?x with _ => _ end] => let E := fresh "E" in destruct x eqn:E
  end.

(** A property of every record [y] whose first two parts hold by computation and
    whose last is about the fields of a record. *)
Ltac inert_field := intros y; split; [done|]; split; [done|]; intros []; by constructor.

(** Decides the comparisons of the goal. *)
Ltac range_cases :=
  repeat match goal with
  | |- context [?x <=? ?y] => destruct (Z.leb_spec x y)
  | |- context [?x <? ?y] => destruct (Z.ltb_spec x y)
  end; cbn [andb].
