(* ===== verification/Exec.v ===== *)
(** * Executions: state, undefined behaviour and fuel

    The C functions are translated into a state monad over the state of the
    component they belong to.  An execution either finishes with a value and
    a state, or is [Stuck] (the C code dereferences a null or dangling pointer
    or indexes outside an array: undefined behaviour), or runs out of the fuel
    given to a loop.  [wp] is total correctness: it rules the last two out. *)

From S2P Require Import Prelude.

Inductive outcome (S A : Type) : Type :=
  | Done (a : A) (s : S)
  | Stuck
  | OutOfFuel.
Arguments Done {S A} a s.
Arguments Stuck {S A}.
Arguments OutOfFuel {S A}.

Definition Exec (S A : Type) : Type := S -> outcome S A.

#[export] Instance exec_ret S : MRet (Exec S) := fun A a s => Done a s.

#[export] Instance exec_bind S : MBind (Exec S) := fun A B f m s =>
  match m s with
  | Done a s' => f a s'
  | Stuck => Stuck
  | OutOfFuel => OutOfFuel
  end.

Section Primitives.
Context {S : Type}.

Definition stuck {A} : Exec S A := fun _ => Stuck.
Definition out_of_fuel {A} : Exec S A := fun _ => OutOfFuel.
(** Read a component of the state. *)
Definition gets {A} (f : S -> A) : Exec S A := fun s => Done (f s) s.
Definition modify (f : S -> S) : Exec S unit := fun s => Done tt (f s).
(** The value of an access that is undefined behaviour when it is [None]. *)
Definition defined {A} (o : option A) : Exec S A :=
  match o with Some a => mret a | None => stuck end.
Definition when (b : bool) (m : Exec S unit) : Exec S unit :=
  if b then m else mret tt.
End Primitives.

(** The result of a run and the state it leaves. *)
Definition final {S A} (o : outcome S A) (default : S) : S :=
  match o with Done _ s => s | _ => default end.

Definition returned {S A} (o : outcome S A) : option A := match o with Done a _ => Some a | _ => None end.

Lemma returned_done {S A} (o : outcome S A) a : returned o = Some a -> exists s, o = Done a s.
Proof. destruct o; simpl; [|done..]. intros [= ->]. by eexists. Qed.

(** A sequence returns when both parts do. *)
Lemma bind_done {S A B} (m : Exec S A) (f : A -> Exec S B) s b s' :
  (m ≫= f) s = Done b s' -> exists a s1, m s = Done a s1 /\ f a s1 = Done b s'.
Proof. unfold mbind, exec_bind. destruct (m s) as [a s1| |]; [|done..]. by exists a, s1. Qed.

(** ** Weakest preconditions *)

Definition wp {S A} (m : Exec S A) (Q : A -> S -> Prop) (s : S) : Prop :=
  match m s with Done a s' => Q a s' | Stuck | OutOfFuel => False end.

Section WP.
Context {S : Type}.
Implicit Types s : S.

Lemma wp_ret {A} (a : A) (Q : A -> S -> Prop) s : Q a s -> wp (mret a) Q s.
Proof. done. Qed.

Lemma wp_bind {A B} (m : Exec S A) (f : A -> Exec S B) Q s :
  wp m (fun a s' => wp (f a) Q s') s -> wp (m ≫= f) Q s.
Proof. unfold wp, mbind, exec_bind. by destruct (m s). Qed.

Lemma wp_mono {A} (m : Exec S A) (P Q : A -> S -> Prop) s :
  wp m P s -> (forall a s', P a s' -> Q a s') -> wp m Q s.
Proof. unfold wp. destruct (m s); auto. Qed.

Lemma wp_gets {A} (f : S -> A) Q s : Q (f s) s -> wp (gets f) Q s.
Proof. done. Qed.

Lemma wp_modify (f : S -> S) Q s : Q tt (f s) -> wp (modify f) Q s.
Proof. done. Qed.

Lemma wp_defined {A} (o : option A) a Q s :
  o = Some a -> Q a s -> wp (defined o) Q s.
Proof. by intros ->. Qed.

Lemma wp_when (b : bool) m Q s :
  (b = true -> wp m Q s) -> (b = false -> Q tt s) -> wp (when b m) Q s.
Proof. intros Ht Hf. destruct b; [by apply Ht|by apply Hf]. Qed.

Lemma wp_inv {A} (m : Exec S A) Q s :
  wp m Q s <-> exists a s', m s = Done a s' /\ Q a s'.
Proof. unfold wp. split; [destruct (m s); naive_solver|by intros (?&?&->&?)]. Qed.

(** An execution that finishes, read as an equation. *)
Lemma wp_done {A} (m : Exec S A) a s s' Q : m s = Done a s' -> Q a s' -> wp m Q s.
Proof. unfold wp. by intros ->. Qed.
End WP.

(** One symbolic-execution step on a [wp] goal; the side conditions of partial
    primitives are left to the caller. *)
Ltac wp_step :=
  lazymatch goal with
  | |- wp (_ ≫= _) _ _ => apply wp_bind
  | |- wp (mret _) _ _ => apply wp_ret
  | |- wp (gets _) _ _ => apply wp_gets
  | |- wp (modify _) _ _ => apply wp_modify
  | |- wp (defined _) _ _ => eapply wp_defined
  end; cbv beta.

Ltac wp_steps := repeat wp_step.
