(* ===== verification/Kernel.v ===== *)
(** * The kernel's data: process control blocks and global variables

    Models [libs/scheduler.h], the globals of [libs/scheduler.c] and
    [libs/mm.c], and the constants those files share ([common/ipc_types.h],
    [common/syscalls_types.h]).  The accessors at the end are the only
    primitives the kernel components use to read and write the state. *)

From S2P Require Import Prelude Exec.

(** ** Constants *)

Definition N_PROCESSES : Z := 64.
Definition MAX_FILES_PER_PROCESS : Z := 16.
Definition MAX_PROCESS_PAGES : Z := 16.
Definition MAX_MESSAGES_PER_PROCESS : Z := 4.
Definition MAX_MESSAGES_BODY_SIZE : Z := 256.
Definition PF_KTHREAD : Z := 2.
Definition ML_MAX_LEVELS : Z := 5.
Definition MLFQ_BOOST_PERIOD : Z := 300.
Definition QUEUE_PRIORITY_HIGHEST : Z := 0.

Definition PROCESS_RUNNING : Z := 1.
Definition PROCESS_ZOMBIE : Z := 2.
Definition PROCESS_WAITING_UART_INPUT : Z := 3.
Definition PROCESS_WAITING_TO_RECEIVE_MESSAGE : Z := 4.
Definition PROCESS_WAITING_TO_SEND_MESSAGE : Z := 5.
Definition PROCESS_WAITING_ANOTHER_PROCESS : Z := 6.
Definition PROCESS_STOPPED : Z := 7.
Definition PROCESS_READY : Z := 8.

Definition SIGNAL_KILL : Z := 1.
Definition SIGNAL_STOP : Z := 2.
Definition SIGNAL_RESUME : Z := 3.

Definition SCHED_PARAM_PRIORITY : Z := 0.
Definition SCHED_PARAM_TICKETS : Z := 1.
Definition SCHED_PARAM_QUEUE_PRIORITY : Z := 2.

#[global] Arguments N_PROCESSES : simpl never.

(** ** Data types *)

(** A non-null [struct PCB*]: the static [init_process] of scheduler.c, or the
    kernel page (at its kernel virtual address) that [copy_process] took for a
    PCB.  A pointer that may be [NULL] is an [option pcb_ptr]. *)
Inductive pcb_ptr : Type :=
  | init_process
  | page_pcb (page_kernel_address : Z).

#[export] Instance pcb_ptr_eq_dec : EqDecision pcb_ptr.
Proof. solve_decision. Defined.

#[export] Instance pcb_ptr_countable : Countable pcb_ptr.
Proof.
  refine (inj_countable'
    (fun p => match p with init_process => None | page_pcb a => Some a end)
    (fun o => match o with None => init_process | Some a => page_pcb a end) _).
  by intros [].
Defined.

(** [struct cpu_context]: the registers a context switch saves. *)
Record cpu_context : Type := mkCtx {
  x19 : Z; x20 : Z; x21 : Z; x22 : Z; x23 : Z;
  x24 : Z; x25 : Z; x26 : Z; x27 : Z; x28 : Z;
  fp : Z; sp : Z; pc : Z;
}.

Definition zero_context : cpu_context := mkCtx 0 0 0 0 0 0 0 0 0 0 0 0 0.

Record user_page : Type := mkUserPage {
  physical_address : Z;
  virtual_address : Z;
}.

Record mm_struct : Type := mkMm {
  pgd : Z;
  n_user_pages : Z;
  user_pages : list user_page;
  n_kernel_pages : Z;
  kernel_pages : list Z;
}.

(** A [struct mm_struct] whose bytes are all zero. *)
Definition zero_mm : mm_struct :=
  mkMm 0 0 (replicate (Z.to_nat MAX_PROCESS_PAGES) (mkUserPage 0 0))
       0 (replicate (Z.to_nat MAX_PROCESS_PAGES) 0).

Record Message : Type := mkMessage {
  source_process : option pcb_ptr;
  destination_process : option pcb_ptr;
  body : list Z;  (* char body[MAX_MESSAGES_BODY_SIZE] *)
}.

Definition zero_Message : Message :=
  mkMessage None None (replicate (Z.to_nat MAX_MESSAGES_BODY_SIZE) 0).

Record MessagesCircularBuffer : Type := mkBuffer {
  head : Z;
  tail : Z;
  buffer : list Message;  (* struct Message buffer[MAX_MESSAGES_PER_PROCESS] *)
}.

Definition zero_buffer : MessagesCircularBuffer :=
  mkBuffer 0 0 (replicate (Z.to_nat MAX_MESSAGES_PER_PROCESS) zero_Message).

(** [struct PCB] of scheduler.h, field by field. *)
Record PCB : Type := mkPCB {
  ctx : cpu_context;  (* cpu_context *)
  state : Z;  (* long *)
  counter : Z;  (* long: residual time slice in ticks *)
  priority : Z;  (* long *)
  est_burst : Z;  (* long *)
  burst_ticks : Z;  (* long *)
  queue_priority : Z;  (* int *)
  tickets : Z;  (* long *)
  preempt_disabled : Z;  (* int *)
  pid : Z;  (* long *)
  flags : Z;  (* unsigned long *)
  files : list (option Z);  (* FatResource *files[MAX_FILES_PER_PROCESS] *)
  mm : mm_struct;
  messages_buffer : MessagesCircularBuffer;
  pending_signals : Z;  (* int *)
  pid_to_wait : Z;  (* int *)
  next_ready : option pcb_ptr;  (* struct PCB* *)
}.

(** A PCB in a page that was just cleared. *)
Definition zero_PCB : PCB :=
  mkPCB zero_context 0 0 0 0 0 0 0 0 0 0
        (replicate (Z.to_nat MAX_FILES_PER_PROCESS) None) zero_mm zero_buffer 0 0 None.

(** The initial value of [init_process]. *)
Definition INIT_PROCESS : PCB :=
  mkPCB zero_context 0 1 1 0 0 QUEUE_PRIORITY_HIGHEST 10 0 0 0
        (replicate (Z.to_nat MAX_FILES_PER_PROCESS) None) zero_mm zero_buffer 0 (-1) None.

(** [ProcessQueue]: an intrusive list through the [next_ready] fields. *)
Record ProcessQueue : Type := mkQueue {
  q_head : option pcb_ptr;
  q_tail : option pcb_ptr;
}.

Definition QUEUE_INIT : ProcessQueue := mkQueue None None.

Record MultilevelPolicy : Type := mkPolicy {
  n_levels : Z;
  quantum : list Z;  (* long quantum[ML_MAX_LEVELS] *)
  demote_on_expiry : Z;
  boost_period : Z;
}.

(** The function pointers of a [SchedAlgorithm]: each constructor is the
    address of the function of scheduler.c it is named after. *)
Inductive enqueue_fn : Type :=
  | fn_enqueue_fifo
  | fn_enqueue_sjf
  | fn_enqueue_multilevel.

Inductive pick_next_fn : Type :=
  | fn_schedule_round_robin
  | fn_schedule_queue_head
  | fn_schedule_lottery
  | fn_schedule_priority_aging
  | fn_schedule_multilevel.

Inductive on_tick_fn : Type :=
  | fn_multilevel_on_tick.

Record SchedAlgorithm : Type := mkAlgorithm {
  enqueue : enqueue_fn;
  pick_next : pick_next_fn;
  on_tick : option on_tick_fn;  (* NULL if unused *)
  is_preemptive : Z;
  ml_policy : option MultilevelPolicy;
}.

(** The state of the kernel: the PCBs, the globals of scheduler.c and mm.c, and
    the registers of the core the assembly routines act on. *)
Record kstate : Type := mkK {
  pcbs : gmap pcb_ptr PCB;  (* the PCBs that exist, by address *)
  current_process : pcb_ptr;
  processes : list (option pcb_ptr);  (* struct PCB *processes[N_PROCESSES] *)
  n_processes : Z;  (* int *)
  ready_queue : ProcessQueue;
  ml_queues : list ProcessQueue;  (* ProcessQueue ml_queues[ML_MAX_LEVELS] *)
  queue_level : list Z;  (* int queue_level[N_PROCESSES] *)
  active_algorithm : SchedAlgorithm;  (* const SchedAlgorithm* *)
  lottery_rng_state : Z;  (* unsigned long *)
  ml_ticks_since_boost : Z;  (* int *)
  cpu : cpu_context;  (* the callee-saved registers of the core *)
  ttbr0 : Z;  (* translation table base register 0 *)
  irq_enabled : bool;  (* DAIF.I clear *)
  system_timer : nat -> Z;  (* the values successive reads of TIMER_CLO return *)
  timer_reads : nat;  (* how many reads have been made *)
  memory_pages : gmap Z Z;  (* unsigned short memory_pages[N_PAGES], absent = 0 *)
  ram : Z -> Z;  (* the byte at each kernel virtual address *)
  fault_index : Z;  (* static int index of mm.c *)
}.

(** ** Field updates *)

Definition set_ctx (v : cpu_context) (r : PCB) : PCB :=
  mkPCB v (state r) (counter r) (priority r) (est_burst r) (burst_ticks r)
    (queue_priority r) (tickets r) (preempt_disabled r) (pid r) (flags r) (files r)
    (mm r) (messages_buffer r) (pending_signals r) (pid_to_wait r) (next_ready r).
Definition set_state (v : Z) (r : PCB) : PCB :=
  mkPCB (ctx r) v (counter r) (priority r) (est_burst r) (burst_ticks r)
    (queue_priority r) (tickets r) (preempt_disabled r) (pid r) (flags r) (files r)
    (mm r) (messages_buffer r) (pending_signals r) (pid_to_wait r) (next_ready r).
Definition set_counter (v : Z) (r : PCB) : PCB :=
  mkPCB (ctx r) (state r) v (priority r) (est_burst r) (burst_ticks r)
    (queue_priority r) (tickets r) (preempt_disabled r) (pid r) (flags r) (files r)
    (mm r) (messages_buffer r) (pending_signals r) (pid_to_wait r) (next_ready r).
Definition set_priority (v : Z) (r : PCB) : PCB :=
  mkPCB (ctx r) (state r) (counter r) v (est_burst r) (burst_ticks r) (queue_priority r)
    (tickets r) (preempt_disabled r) (pid r) (flags r) (files r) (mm r)
    (messages_buffer r) (pending_signals r) (pid_to_wait r) (next_ready r).
Definition set_est_burst (v : Z) (r : PCB) : PCB :=
  mkPCB (ctx r) (state r) (counter r) (priority r) v (burst_ticks r) (queue_priority r)
    (tickets r) (preempt_disabled r) (pid r) (flags r) (files r) (mm r)
    (messages_buffer r) (pending_signals r) (pid_to_wait r) (next_ready r).
Definition set_burst_ticks (v : Z) (r : PCB) : PCB :=
  mkPCB (ctx r) (state r) (counter r) (priority r) (est_burst r) v (queue_priority r)
    (tickets r) (preempt_disabled r) (pid r) (flags r) (files r) (mm r)
    (messages_buffer r) (pending_signals r) (pid_to_wait r) (next_ready r).
Definition set_queue_priority (v : Z) (r : PCB) : PCB :=
  mkPCB (ctx r) (state r) (counter r) (priority r) (est_burst r) (burst_ticks r) v
    (tickets r) (preempt_disabled r) (pid r) (flags r) (files r) (mm r)
    (messages_buffer r) (pending_signals r) (pid_to_wait r) (next_ready r).
Definition set_tickets (v : Z) (r : PCB) : PCB :=
  mkPCB (ctx r) (state r) (counter r) (priority r) (est_burst r) (burst_ticks r)
    (queue_priority r) v (preempt_disabled r) (pid r) (flags r) (files r) (mm r)
    (messages_buffer r) (pending_signals r) (pid_to_wait r) (next_ready r).
Definition set_preempt_disabled (v : Z) (r : PCB) : PCB :=
  mkPCB (ctx r) (state r) (counter r) (priority r) (est_burst r) (burst_ticks r)
    (queue_priority r) (tickets r) v (pid r) (flags r) (files r) (mm r)
    (messages_buffer r) (pending_signals r) (pid_to_wait r) (next_ready r).
Definition set_pid (v : Z) (r : PCB) : PCB :=
  mkPCB (ctx r) (state r) (counter r) (priority r) (est_burst r) (burst_ticks r)
    (queue_priority r) (tickets r) (preempt_disabled r) v (flags r) (files r) (mm r)
    (messages_buffer r) (pending_signals r) (pid_to_wait r) (next_ready r).
Definition set_flags (v : Z) (r : PCB) : PCB :=
  mkPCB (ctx r) (state r) (counter r) (priority r) (est_burst r) (burst_ticks r)
    (queue_priority r) (tickets r) (preempt_disabled r) (pid r) v (files r) (mm r)
    (messages_buffer r) (pending_signals r) (pid_to_wait r) (next_ready r).
Definition set_files (v : list (option Z)) (r : PCB) : PCB :=
  mkPCB (ctx r) (state r) (counter r) (priority r) (est_burst r) (burst_ticks r)
    (queue_priority r) (tickets r) (preempt_disabled r) (pid r) (flags r) v (mm r)
    (messages_buffer r) (pending_signals r) (pid_to_wait r) (next_ready r).
Definition set_mm (v : mm_struct) (r : PCB) : PCB :=
  mkPCB (ctx r) (state r) (counter r) (priority r) (est_burst r) (burst_ticks r)
    (queue_priority r) (tickets r) (preempt_disabled r) (pid r) (flags r) (files r) v
    (messages_buffer r) (pending_signals r) (pid_to_wait r) (next_ready r).
Definition set_messages_buffer (v : MessagesCircularBuffer) (r : PCB) : PCB :=
  mkPCB (ctx r) (state r) (counter r) (priority r) (est_burst r) (burst_ticks r)
    (queue_priority r) (tickets r) (preempt_disabled r) (pid r) (flags r) (files r)
    (mm r) v (pending_signals r) (pid_to_wait r) (next_ready r).
Definition set_pending_signals (v : Z) (r : PCB) : PCB :=
  mkPCB (ctx r) (state r) (counter r) (priority r) (est_burst r) (burst_ticks r)
    (queue_priority r) (tickets r) (preempt_disabled r) (pid r) (flags r) (files r)
    (mm r) (messages_buffer r) v (pid_to_wait r) (next_ready r).
Definition set_pid_to_wait (v : Z) (r : PCB) : PCB :=
  mkPCB (ctx r) (state r) (counter r) (priority r) (est_burst r) (burst_ticks r)
    (queue_priority r) (tickets r) (preempt_disabled r) (pid r) (flags r) (files r)
    (mm r) (messages_buffer r) (pending_signals r) v (next_ready r).
Definition set_next_ready (v : option pcb_ptr) (r : PCB) : PCB :=
  mkPCB (ctx r) (state r) (counter r) (priority r) (est_burst r) (burst_ticks r)
    (queue_priority r) (tickets r) (preempt_disabled r) (pid r) (flags r) (files r)
    (mm r) (messages_buffer r) (pending_signals r) (pid_to_wait r) v.

Definition set_pcbs (v : gmap pcb_ptr PCB) (r : kstate) : kstate :=
  mkK v (current_process r) (processes r) (n_processes r) (ready_queue r) (ml_queues r)
    (queue_level r) (active_algorithm r) (lottery_rng_state r) (ml_ticks_since_boost r)
    (cpu r) (ttbr0 r) (irq_enabled r) (system_timer r) (timer_reads r) (memory_pages r)
    (ram r) (fault_index r).
Definition set_current_process (v : pcb_ptr) (r : kstate) : kstate :=
  mkK (pcbs r) v (processes r) (n_processes r) (ready_queue r) (ml_queues r)
    (queue_level r) (active_algorithm r) (lottery_rng_state r) (ml_ticks_since_boost r)
    (cpu r) (ttbr0 r) (irq_enabled r) (system_timer r) (timer_reads r) (memory_pages r)
    (ram r) (fault_index r).
Definition set_processes (v : list (option pcb_ptr)) (r : kstate) : kstate :=
  mkK (pcbs r) (current_process r) v (n_processes r) (ready_queue r) (ml_queues r)
    (queue_level r) (active_algorithm r) (lottery_rng_state r) (ml_ticks_since_boost r)
    (cpu r) (ttbr0 r) (irq_enabled r) (system_timer r) (timer_reads r) (memory_pages r)
    (ram r) (fault_index r).
Definition set_n_processes (v : Z) (r : kstate) : kstate :=
  mkK (pcbs r) (current_process r) (processes r) v (ready_queue r) (ml_queues r)
    (queue_level r) (active_algorithm r) (lottery_rng_state r) (ml_ticks_since_boost r)
    (cpu r) (ttbr0 r) (irq_enabled r) (system_timer r) (timer_reads r) (memory_pages r)
    (ram r) (fault_index r).
Definition set_ready_queue (v : ProcessQueue) (r : kstate) : kstate :=
  mkK (pcbs r) (current_process r) (processes r) (n_processes r) v (ml_queues r)
    (queue_level r) (active_algorithm r) (lottery_rng_state r) (ml_ticks_since_boost r)
    (cpu r) (ttbr0 r) (irq_enabled r) (system_timer r) (timer_reads r) (memory_pages r)
    (ram r) (fault_index r).
Definition set_ml_queues (v : list ProcessQueue) (r : kstate) : kstate :=
  mkK (pcbs r) (current_process r) (processes r) (n_processes r) (ready_queue r) v
    (queue_level r) (active_algorithm r) (lottery_rng_state r) (ml_ticks_since_boost r)
    (cpu r) (ttbr0 r) (irq_enabled r) (system_timer r) (timer_reads r) (memory_pages r)
    (ram r) (fault_index r).
Definition set_queue_level (v : list Z) (r : kstate) : kstate :=
  mkK (pcbs r) (current_process r) (processes r) (n_processes r) (ready_queue r)
    (ml_queues r) v (active_algorithm r) (lottery_rng_state r) (ml_ticks_since_boost r)
    (cpu r) (ttbr0 r) (irq_enabled r) (system_timer r) (timer_reads r) (memory_pages r)
    (ram r) (fault_index r).
Definition set_active_algorithm (v : SchedAlgorithm) (r : kstate) : kstate :=
  mkK (pcbs r) (current_process r) (processes r) (n_processes r) (ready_queue r)
    (ml_queues r) (queue_level r) v (lottery_rng_state r) (ml_ticks_since_boost r)
    (cpu r) (ttbr0 r) (irq_enabled r) (system_timer r) (timer_reads r) (memory_pages r)
    (ram r) (fault_index r).
Definition set_lottery_rng_state (v : Z) (r : kstate) : kstate :=
  mkK (pcbs r) (current_process r) (processes r) (n_processes r) (ready_queue r)
    (ml_queues r) (queue_level r) (active_algorithm r) v (ml_ticks_since_boost r)
    (cpu r) (ttbr0 r) (irq_enabled r) (system_timer r) (timer_reads r) (memory_pages r)
    (ram r) (fault_index r).
Definition set_ml_ticks_since_boost (v : Z) (r : kstate) : kstate :=
  mkK (pcbs r) (current_process r) (processes r) (n_processes r) (ready_queue r)
    (ml_queues r) (queue_level r) (active_algorithm r) (lottery_rng_state r) v (cpu r)
    (ttbr0 r) (irq_enabled r) (system_timer r) (timer_reads r) (memory_pages r) (ram r)
    (fault_index r).
Definition set_cpu (v : cpu_context) (r : kstate) : kstate :=
  mkK (pcbs r) (current_process r) (processes r) (n_processes r) (ready_queue r)
    (ml_queues r) (queue_level r) (active_algorithm r) (lottery_rng_state r)
    (ml_ticks_since_boost r) v (ttbr0 r) (irq_enabled r) (system_timer r)
    (timer_reads r) (memory_pages r) (ram r) (fault_index r).
Definition set_ttbr0 (v : Z) (r : kstate) : kstate :=
  mkK (pcbs r) (current_process r) (processes r) (n_processes r) (ready_queue r)
    (ml_queues r) (queue_level r) (active_algorithm r) (lottery_rng_state r)
    (ml_ticks_since_boost r) (cpu r) v (irq_enabled r) (system_timer r) (timer_reads r)
    (memory_pages r) (ram r) (fault_index r).
Definition set_irq_enabled (v : bool) (r : kstate) : kstate :=
  mkK (pcbs r) (current_process r) (processes r) (n_processes r) (ready_queue r)
    (ml_queues r) (queue_level r) (active_algorithm r) (lottery_rng_state r)
    (ml_ticks_since_boost r) (cpu r) (ttbr0 r) v (system_timer r) (timer_reads r)
    (memory_pages r) (ram r) (fault_index r).
Definition set_system_timer (v : nat -> Z) (r : kstate) : kstate :=
  mkK (pcbs r) (current_process r) (processes r) (n_processes r) (ready_queue r)
    (ml_queues r) (queue_level r) (active_algorithm r) (lottery_rng_state r)
    (ml_ticks_since_boost r) (cpu r) (ttbr0 r) (irq_enabled r) v (timer_reads r)
    (memory_pages r) (ram r) (fault_index r).
Definition set_timer_reads (v : nat) (r : kstate) : kstate :=
  mkK (pcbs r) (current_process r) (processes r) (n_processes r) (ready_queue r)
    (ml_queues r) (queue_level r) (active_algorithm r) (lottery_rng_state r)
    (ml_ticks_since_boost r) (cpu r) (ttbr0 r) (irq_enabled r) (system_timer r) v
    (memory_pages r) (ram r) (fault_index r).
Definition set_memory_pages (v : gmap Z Z) (r : kstate) : kstate :=
  mkK (pcbs r) (current_process r) (processes r) (n_processes r) (ready_queue r)
    (ml_queues r) (queue_level r) (active_algorithm r) (lottery_rng_state r)
    (ml_ticks_since_boost r) (cpu r) (ttbr0 r) (irq_enabled r) (system_timer r)
    (timer_reads r) v (ram r) (fault_index r).
Definition set_ram (v : Z -> Z) (r : kstate) : kstate :=
  mkK (pcbs r) (current_process r) (processes r) (n_processes r) (ready_queue r)
    (ml_queues r) (queue_level r) (active_algorithm r) (lottery_rng_state r)
    (ml_ticks_since_boost r) (cpu r) (ttbr0 r) (irq_enabled r) (system_timer r)
    (timer_reads r) (memory_pages r) v (fault_index r).
Definition set_fault_index (v : Z) (r : kstate) : kstate :=
  mkK (pcbs r) (current_process r) (processes r) (n_processes r) (ready_queue r)
    (ml_queues r) (queue_level r) (active_algorithm r) (lottery_rng_state r)
    (ml_ticks_since_boost r) (cpu r) (ttbr0 r) (irq_enabled r) (system_timer r)
    (timer_reads r) (memory_pages r) (ram r) v.

(** ** Accessors *)

Abbreviation K := (Exec kstate).

(** [p->f] read through a valid pointer. *)
Definition deref (p : pcb_ptr) : K PCB :=
  s ← gets pcbs; defined (s !! p).

(** [p->f = ...]: rewrites the fields [f] says of the PCB at [p]. *)
Definition update (p : pcb_ptr) (f : PCB -> PCB) : K unit :=
  _ ← deref p;
  modify (fun s => set_pcbs (alter f p (pcbs s)) s).

(** A pointer that is dereferenced must not be [NULL]. *)
Definition non_null {A} (p : option A) : K A := defined p.

(** Reading and writing a cell of a C array: undefined outside its bounds. *)
Definition array_get {A} (l : list A) (i : Z) : option A :=
  if i <? 0 then None else l !! Z.to_nat i.

Definition array_set {A} (l : list A) (i : Z) (v : A) : option (list A) :=
  if (0 <=? i) && (i <? Z.of_nat (length l)) then Some (<[Z.to_nat i := v]> l) else None.

Definition get_current : K PCB := p ← gets current_process; deref p.

(** A [ProcessQueue*] of scheduler.c: [&ready_queue] or [&ml_queues[i]]. *)
Inductive queue_ref : Type :=
  | RQ
  | ML (level : Z).

#[export] Instance queue_ref_eq_dec : EqDecision queue_ref.
Proof. solve_decision. Defined.

Definition queue_at (s : kstate) (q : queue_ref) : option ProcessQueue :=
  match q with
  | RQ => Some (ready_queue s)
  | ML i => array_get (ml_queues s) i
  end.

Definition set_queue_at (q : queue_ref) (v : ProcessQueue) (s : kstate) : kstate :=
  match q with
  | RQ => set_ready_queue v s
  | ML i => set_ml_queues (<[Z.to_nat i := v]> (ml_queues s)) s
  end.

Definition get_queue (q : queue_ref) : K ProcessQueue :=
  o ← gets (fun s => queue_at s q); defined o.

Definition put_queue (q : queue_ref) (v : ProcessQueue) : K unit :=
  _ ← get_queue q; modify (set_queue_at q v).

(** ** Calls into the kernel

    Code that also works on other state (devices, open files) runs a kernel
    function on its kernel component.  A process that calls [schedule] stops
    until it is switched in again: what runs meanwhile is an argument of the
    code that blocks. *)

Class Kernel (S : Type) : Type := call : forall A, K A -> Exec S A.
#[global] Arguments call {S _ A} m.

#[export] Instance kernel_itself : Kernel kstate := fun A m => m.
