(* ===== verification/Devices.v ===== *)
(** * The registers of the devices, and printing

    [arch/mmio.h] and the output functions of [drivers/uart/uart.c].

    A device is not code under src/: its registers are a type [U] with the
    functions that read and write them, a parameter of every definition that
    touches a register.  A register is named by its offset from [MMIO_BASE].
    [Bus] locates the registers in the state of the component that uses them. *)

From Stdlib Require Import Strings.Ascii Strings.String.
From S2P Require Import Prelude Exec Kernel.

(** Reading a register may change the device, as taking a byte off a FIFO does. *)
Record Registers (U : Type) : Type := mkRegisters {
  reg_read : Z -> U -> Z * U;
  reg_write : Z -> Z -> U -> U;
}.
Arguments mkRegisters {U}.
Arguments reg_read {U}.
Arguments reg_write {U}.

Class Bus (M U : Type) : Type := mkBus {
  bus : M -> U;
  set_bus : U -> M -> M;
}.

Class BusLaws (M U : Type) `{!Bus M U} : Prop := mkBusLaws {
  bus_set_bus (u : U) (s : M) : bus (set_bus u s) = u;
  set_bus_set_bus (u v : U) (s : M) : set_bus u (set_bus v s) = set_bus u s;
  set_bus_bus (s : M) : set_bus (bus s) s = s;
}.

Definition UART0_DR : Z := 0x201000.
Definition UART0_FR : Z := 0x201018.
Definition UART0_IBRD : Z := 0x201024.
Definition UART0_FBRD : Z := 0x201028.
Definition UART0_LCRH : Z := 0x20102C.
Definition UART0_CR : Z := 0x201030.
Definition UART0_IMSC : Z := 0x201038.
Definition UART0_MIS : Z := 0x201040.
Definition UART0_ICR : Z := 0x201044.

(** The bytes of a string literal. *)
Fixpoint literal (s : string) : list Z :=
  match s with
  | EmptyString => []
  | String a s => Z.of_nat (nat_of_ascii a) :: literal s
  end.

(** The hexadecimal digit of a nibble. *)
Definition hex_digit (nibble : Z) : Z :=
  default 0 (array_get (literal "0123456789ABCDEF") nibble).

Section Registers.
Context {M U : Type} `{!Bus M U} (regs : Registers U).

Definition mmio_read (reg : Z) : Exec M Z :=
  u ← gets bus;
  let (v, u) := reg_read regs reg u in
  modify (set_bus u);;
  mret (u32 v).

Definition mmio_write (reg data : Z) : Exec M unit :=
  modify (fun s => set_bus (reg_write regs reg (u32 data) (bus s)) s).

(** A read, and a write of what [f] makes of it. *)
Definition mmio_update (reg : Z) (f : Z -> Z) : Exec M unit :=
  v ← mmio_read reg;
  mmio_write reg (f v).

(** [while (mmio_read(reg) & mask) {}] *)
Fixpoint wait_clear (n : nat) (reg mask : Z) : Exec M unit :=
  match n with
  | O => out_of_fuel
  | S n =>
    v ← mmio_read reg;
    if has v mask then wait_clear n reg mask else mret tt
  end.

(** [delay] of [utils_asm.S] counts down in a register. *)
Definition delay (cycles : Z) : Exec M unit := mret tt.

(** ** Printing.  [fuel] bounds the iterations of a loop that waits for the UART. *)

Context (fuel : nat).

Definition uart_putc (c : Z) : Exec M unit :=
  wait_clear fuel UART0_FR (Z.shiftl 1 5);;
  mmio_write UART0_DR (u8 c).

Definition uart_getc : Exec M Z :=
  wait_clear fuel UART0_FR (Z.shiftl 1 4);;
  v ← mmio_read UART0_DR;
  mret (u8 v).

(** [uart_puts] of a string literal. *)
Fixpoint puts (l : list Z) : Exec M unit :=
  match l with
  | [] => mret tt
  | c :: l => uart_putc c;; puts l
  end.

(** [for (int i = from; i >= 0; i -= 4)], [n] iterations being left. *)
Fixpoint hex_loop (n : nat) (num i : Z) : Exec M unit :=
  match n with
  | O => mret tt
  | S n =>
    uart_putc (hex_digit (Z.land (Z.shiftr num i) 0xF));;
    hex_loop n num (i - 4)
  end.

Definition uart_hex (num : Z) : Exec M unit :=
  puts (literal "0x");;
  hex_loop 16 (u64 num) 60.
End Registers.

(** ** Rules *)

Section Rules.
Context {M U : Type} `{!Bus M U} (regs : Registers U).
Implicit Types (s : M).

Lemma wp_bus_read reg (Q : Z -> M -> Prop) s :
  Q (u32 (reg_read regs reg (bus s)).1) (set_bus (reg_read regs reg (bus s)).2 s) ->
  wp (mmio_read regs reg) Q s.
Proof. intros HQ. unfold mmio_read. wp_step. wp_step. destruct (reg_read regs reg (bus s)). by wp_steps. Qed.

Lemma wp_bus_write reg data (Q : unit -> M -> Prop) s :
  Q tt (set_bus (reg_write regs reg (u32 data) (bus s)) s) -> wp (mmio_write regs reg data) Q s.
Proof. done. Qed.
End Rules.

(** ** The UART

    [Pl011] states what the code relies on. *)

(** The receive FIFO holds the words [received]; the transmitter is ready
    after [busy] reads of the flags. *)
Class Pl011 {U : Type} (regs : Registers U) : Type := mkPl011 {
  received : U -> list Z;
  busy : U -> nat;
  busy_limit : nat;
  pl011_busy u : (busy u <= busy_limit)%nat;
  pl011_flags u : let r := reg_read regs UART0_FR u in
    has (u32 r.1) (Z.shiftl 1 4) = bool_decide (received u = []) /\
    has (u32 r.1) (Z.shiftl 1 5) = bool_decide (busy u <> 0%nat) /\
    received r.2 = received u /\ busy r.2 = Nat.pred (busy u);
  pl011_data u w ws : received u = w :: ws ->
    let r := reg_read regs UART0_DR u in u32 r.1 = w /\ received r.2 = ws;
  pl011_status u : received (reg_read regs UART0_MIS u).2 = received u;
  pl011_write reg v u : received (reg_write regs reg v u) = received u;
}.

Section Printing.
Context {M U : Type} `{!Bus M U, !BusLaws M U} (regs : Registers U) `{!Pl011 regs} (fuel : nat).
Context (Hfuel : (busy_limit < fuel)%nat).
Implicit Types (s : M) (u : U) (Q : unit -> M -> Prop).

(** Only the registers have changed, and no word has been lost. *)
Definition printed Q s : Prop := forall u, received u = received (bus s) -> Q tt (set_bus u s).

Lemma printed_trans Q s u : printed Q s -> received u = received (bus s) -> printed Q (set_bus u s).
Proof using BusLaws0.
  intros HQ Hu v Hv. rewrite bus_set_bus in Hv. rewrite set_bus_set_bus. apply HQ. congruence.
Qed.

Lemma printed_done Q s : printed Q s -> Q tt s.
Proof using BusLaws0. intros HQ. rewrite <- (set_bus_bus s). by apply HQ. Qed.

Lemma wp_wait_transmitter n s Q :
  (busy (bus s) < n)%nat -> printed Q s -> wp (wait_clear regs n UART0_FR (Z.shiftl 1 5)) Q s.
Proof using BusLaws0.
  clear Hfuel.
  revert s. induction n as [|n IH]; intros s Hn HQ; [lia|]. cbn [wait_clear]. wp_step.
  apply wp_bus_read. destruct (pl011_flags (bus s)) as (_ & -> & Hr & Hb). case_bool_decide.
  - apply IH; [rewrite bus_set_bus, Hb; lia|]. by apply printed_trans.
  - wp_step. by apply HQ.
Qed.

Lemma wp_bus_putc c s Q : printed Q s -> wp (uart_putc regs fuel c) Q s.
Proof using BusLaws0 Hfuel.
  intros HQ. unfold uart_putc. wp_step. apply wp_wait_transmitter.
  { pose proof (pl011_busy (bus s)). lia. }
  intros u Hu. apply wp_bus_write. rewrite bus_set_bus, set_bus_set_bus. apply HQ. by rewrite pl011_write.
Qed.

Lemma wp_bus_puts l s Q : printed Q s -> wp (puts regs fuel l) Q s.
Proof using BusLaws0 Hfuel.
  revert s. induction l as [|c l IH]; intros s HQ; cbn [puts]; [by apply wp_ret, printed_done|].
  wp_step. apply wp_bus_putc. intros u Hu. by apply IH, printed_trans.
Qed.

Lemma wp_bus_hex num s Q : printed Q s -> wp (uart_hex regs fuel num) Q s.
Proof using BusLaws0 Hfuel.
  intros HQ. unfold uart_hex. wp_step. apply wp_bus_puts. intros u Hu. apply (printed_trans _ _ u) in HQ; [|done].
  generalize HQ; clear HQ. generalize (set_bus u s) 60 (u64 num). generalize 16%nat. clear num s u Hu. intros n s i v HQ. revert s i HQ.
  induction n as [|n IH]; intros s i HQ; cbn [hex_loop]; [by apply wp_ret, printed_done|].
  wp_step. apply wp_bus_putc. intros u Hu. by apply IH, printed_trans.
Qed.
End Printing.
