(* ===== verification/Memory.v ===== *)
(** * Raw memory

    The bytes the kernel reads and writes through plain pointers, and the
    routines of [common/memory.S].  [ram] gives the byte at every kernel
    virtual address; words are little-endian.  The assembly loops test their
    counter after the first iteration: [memzero] clears at least one word and
    [memcpy] copies at least one byte. *)

From S2P Require Import Prelude Exec Kernel.

(** ** Bytes and words *)

Fixpoint read_le (n : nat) (m : Z -> Z) (a : Z) : Z :=
  match n with
  | O => 0
  | S n => m a + 2 ^ 8 * read_le n m (a + 1)
  end.

Definition write_le (n : nat) (a v : Z) (m : Z -> Z) (b : Z) : Z :=
  if (a <=? b) && (b <? a + Z.of_nat n) then u8 (Z.shiftr v (8 * (b - a))) else m b.

Definition read64 : (Z -> Z) -> Z -> Z := read_le 8.
Definition write64 : Z -> Z -> (Z -> Z) -> Z -> Z := write_le 8.

(** The bytes [m] with the [n] bytes from [a] set to [c]. *)
Definition filled (a n c : Z) (m : Z -> Z) (b : Z) : Z :=
  if (a <=? b) && (b <? a + n) then c else m b.

(** The bytes [m] with the [n] bytes from [dest] taken from [src]. *)
Definition copied (dest src n : Z) (m : Z -> Z) (b : Z) : Z :=
  if (dest <=? b) && (b <? dest + n) then u8 (m (src + (b - dest))) else m b.

Definition load8 (a : Z) : K Z := gets (fun s => ram s a).
Definition store8 (a v : Z) : K unit := modify (fun s => set_ram (write_le 1 a v (ram s)) s).
Definition load64 (a : Z) : K Z := gets (fun s => read64 (ram s) a).
Definition store64 (a v : Z) : K unit := modify (fun s => set_ram (write64 a v (ram s)) s).

(** ** [common/memory.S] *)

(** [subs x1, x1, #8; b.gt]: the loop goes on while the counter, read as a
    signed integer, was above 8. *)
Fixpoint memzero_loop (fuel : nat) (x0 x1 : Z) : K unit :=
  match fuel with
  | O => out_of_fuel
  | S fuel =>
    store64 x0 0;;
    if 8 <? s64 x1 then memzero_loop fuel (u64 (x0 + 8)) (u64 (x1 - 8)) else mret tt
  end.

Definition memzero (src n : Z) : K unit := memzero_loop (S (Z.to_nat (s64 n / 8))) src n.

(** The counter of [memcpy] is the low half [w2] of its argument. *)
Fixpoint memcpy_loop (fuel : nat) (x0 x1 w2 : Z) : K unit :=
  match fuel with
  | O => out_of_fuel
  | S fuel =>
    w3 ← load8 x1;
    store8 x0 w3;;
    if 1 <? s32 w2 then memcpy_loop fuel (u64 (x0 + 1)) (u64 (x1 + 1)) (u32 (w2 - 1)) else mret tt
  end.

Definition memcpy (dest src count : Z) : K unit :=
  memcpy_loop (S (Z.to_nat (s32 count))) dest src (u32 count).

(** [memcmp] stops at the first difference and returns it. *)
Fixpoint memcmp_loop (fuel : nat) (x0 x1 x2 : Z) : K Z :=
  match fuel with
  | O => out_of_fuel
  | S fuel =>
    w3 ← load8 x0;
    w4 ← load8 x1;
    if negb (s32 (w3 - w4) =? 0) then mret (s32 (w3 - w4)) else
    if negb (u64 (x2 - 1) =? 0) then memcmp_loop fuel (u64 (x0 + 1)) (u64 (x1 + 1)) (u64 (x2 - 1))
    else mret 0
  end.

Definition memcmp (src1 src2 n : Z) : K Z :=
  if n =? 0 then mret 0 else memcmp_loop (Z.to_nat n) src1 src2 n.

Fixpoint memset_loop (fuel : nat) (x0 w1 x2 : Z) : K unit :=
  if x2 =? 0 then mret tt else
  match fuel with
  | O => out_of_fuel
  | S fuel =>
    store8 x0 w1;;
    memset_loop fuel (u64 (x0 + 1)) w1 (u64 (x2 - 1))
  end.

Definition memset (dest c count : Z) : K unit := memset_loop (Z.to_nat count) dest (u32 c) count.

(** ** Words *)

Lemma read_le_ext n m m' a :
  (forall b, a <= b < a + Z.of_nat n -> m b = m' b) -> read_le n m a = read_le n m' a.
Proof.
  revert a. induction n as [|n IH]; intros a H; simpl; [done|].
  rewrite H by lia. f_equal. f_equal. apply IH. intros b Hb. apply H. lia.
Qed.

Lemma read_le_shift n k a v m :
  0 <= k -> read_le n (fun b => if (a <=? b) && (b <? a + k + Z.of_nat n)
                                then u8 (Z.shiftr v (8 * (b - a))) else m b) (a + k)
  = Z.shiftr v (8 * k) `mod` 2 ^ (8 * Z.of_nat n).
Proof.
  revert k. induction n as [|n IH]; intros k Hk; simpl read_le.
  { by rewrite Z.mul_0_r, Z.pow_0_r, Z.mod_1_r. }
  rewrite (proj2 (Z.leb_le a (a + k))), (proj2 (Z.ltb_lt (a + k) _)) by lia. cbn [andb].
  replace (a + k + 1) with (a + (k + 1)) by lia.
  rewrite (read_le_ext n _ (fun b => if (a <=? b) && (b <? a + (k + 1) + Z.of_nat n)
    then u8 (Z.shiftr v (8 * (b - a))) else m b)).
  2: { intros b Hb. by replace (a + k + Z.of_nat (S n)) with (a + (k + 1) + Z.of_nat n) by lia. }
  rewrite IH by lia. unfold u8. replace (a + k - a) with k by lia.
  replace (8 * (k + 1)) with (8 * k + 8) by lia.
  rewrite <- Z.shiftr_shiftr by lia. set (w := Z.shiftr v (8 * k)).
  rewrite (Z.shiftr_div_pow2 w 8) by lia.
  replace (8 * Z.of_nat (S n)) with (8 + 8 * Z.of_nat n) by lia.
  rewrite Z.pow_add_r by lia. rewrite Z.rem_mul_r by (try lia; apply Z.pow_nonzero; lia). done.
Qed.

Lemma read64_write64 m a v : 0 <= v < 2 ^ 64 -> read64 (write64 a v m) a = v.
Proof.
  intros Hv. pose proof (read_le_shift 8 0 a v m) as H.
  rewrite Z.shiftr_0_r, Z.mod_small, Z.add_0_r in H by lia. by apply H.
Qed.

Lemma read64_write64_ne m a a' v : a' + 8 <= a \/ a + 8 <= a' -> read64 (write64 a v m) a' = read64 m a'.
Proof.
  intros H. apply read_le_ext. intros b Hb. unfold write64, write_le.
  destruct (Z.leb_spec a b), (Z.ltb_spec b (a + Z.of_nat 8)); simpl; try done; lia.
Qed.

(** ** Arrays of words *)

(** The words [ws] are stored from [a] on. *)
Definition words_at (m : Z -> Z) (a : Z) (ws : list Z) : Prop :=
  forall i w, ws !! i = Some w -> read64 m (a + 8 * Z.of_nat i) = w.

Fixpoint store_words (a : Z) (ws : list Z) (m : Z -> Z) : Z -> Z :=
  match ws with [] => m | w :: ws => store_words (a + 8) ws (write64 a w m) end.

Definition word64 (w : Z) : Prop := 0 <= w < 2 ^ 64.

Lemma store_words_app a ws ws' m :
  store_words a (ws ++ ws') m = store_words (a + 8 * Z.of_nat (length ws)) ws' (store_words a ws m).
Proof.
  revert a m. induction ws as [|w ws IH]; intros a m; simpl; [by rewrite Z.add_0_r|].
  rewrite IH. f_equal. lia.
Qed.

Lemma store_words_outside a ws m b :
  b < a \/ a + 8 * Z.of_nat (length ws) <= b -> store_words a ws m b = m b.
Proof.
  revert a m. induction ws as [|w ws IH]; intros a m Hb; simpl in *; [done|].
  rewrite IH by lia. unfold write64, write_le. range_cases; try done; lia.
Qed.

Lemma read64_store_words a ws m b :
  b + 8 <= a \/ a + 8 * Z.of_nat (length ws) <= b -> read64 (store_words a ws m) b = read64 m b.
Proof. intros Hb. apply read_le_ext. intros c Hc. apply store_words_outside. lia. Qed.

Lemma store_words_at a ws m : Forall word64 ws -> words_at (store_words a ws m) a ws.
Proof.
  intros H. revert a m. induction H as [|w ws Hw Hws IH]; intros a m i v Hi; [done|].
  destruct i as [|i]; simpl in Hi |- *.
  - injection Hi as ->. change (8 * Z.of_nat 0) with 0. rewrite Z.add_0_r.
    transitivity (read64 (write64 a v m) a); [|by apply read64_write64].
    apply read_le_ext. intros b Hb. apply store_words_outside. lia.
  - replace (a + 8 * Z.of_nat (S i)) with (a + 8 + 8 * Z.of_nat i) by lia. by apply IH.
Qed.

Lemma words_at_ext m m' a ws :
  (forall b, a <= b < a + 8 * Z.of_nat (length ws) -> m' b = m b) -> words_at m a ws -> words_at m' a ws.
Proof.
  intros E H i w Hi. rewrite <- (H i w Hi). pose proof (lookup_lt_Some _ _ _ Hi).
  apply read_le_ext. intros b Hb. apply E. lia.
Qed.

Lemma words_at_app m a ws ws' :
  words_at m a (ws ++ ws') -> words_at m a ws /\ words_at m (a + 8 * Z.of_nat (length ws)) ws'.
Proof.
  intros H. split; intros i w Hi; [apply H; by apply lookup_app_l_Some|].
  rewrite <- (H (length ws + i)%nat w); [f_equal; lia|]. rewrite lookup_app_r by lia. by rewrite Nat.add_comm, Nat.add_sub.
Qed.

Lemma words_at_first m a ws w : word64 w -> words_at m a ws -> words_at (write64 a w m) a (<[0%nat := w]> ws).
Proof.
  intros Hw H i v Hi. destruct i as [|i].
  - change (8 * Z.of_nat 0) with 0. rewrite Z.add_0_r, read64_write64 by done.
    destruct ws; [done|]. by injection Hi.
  - rewrite list_lookup_insert_ne in Hi by done. rewrite read64_write64_ne by lia. by apply H.
Qed.

(** ** What the routines of memory.S compute *)

Section Routines.
Implicit Types (s : kstate) (m : Z -> Z).

(** A range of addresses that does not wrap around. *)
Definition in_memory (a n : Z) : Prop := 0 <= a /\ a + n <= 2 ^ 64.

Lemma wp_memzero_loop fuel (k : Z) x0 s :
  0 < k -> (Z.to_nat k <= fuel)%nat -> 8 * k < 2 ^ 63 -> in_memory x0 (8 * k) ->
  wp (memzero_loop fuel x0 (8 * k))
     (fun _ s' => exists m, s' = set_ram m s /\ forall b, m b = filled x0 (8 * k) 0 (ram s) b) s.
Proof.
  revert k x0 s. induction fuel as [|fuel IH]; intros k x0 s Hk Hf Hb [Ha Hm]; [lia|].
  cbn [memzero_loop]. unfold store64. wp_steps. rewrite s64_id by lia.
  set (s1 := set_ram _ s).
  assert (Hz : forall b, ram s1 b = filled x0 8 0 (ram s) b).
  { intros b. unfold s1, filled, write64, write_le. simpl. destruct (_ && _); [|done].
    by rewrite Z.shiftr_0_l. }
  destruct (Z.ltb_spec 8 (8 * k)).
  - rewrite !u64_id by lia. replace (8 * k - 8) with (8 * (k - 1)) by lia.
    eapply wp_mono; [apply IH; [lia|lia|lia|split; lia]|].
    intros _ s' (m & -> & Hm'). exists m. split; [by destruct s|].
    intros b. rewrite Hm'. unfold filled. rewrite Hz. unfold filled.
    range_cases; try done; lia.
  - assert (k = 1) as -> by lia. exists (ram s1). split; [by destruct s|done].
Qed.

Lemma wp_memzero src n s :
  0 < n -> n < 2 ^ 63 -> (8 | n) -> in_memory src n ->
  wp (memzero src n)
     (fun _ s' => exists m, s' = set_ram m s /\ forall b, m b = filled src n 0 (ram s) b) s.
Proof.
  intros H0 Hn [k ->] Hm. unfold memzero. rewrite s64_id by lia.
  rewrite Z.div_mul by lia. rewrite (Z.mul_comm k 8) in *. apply wp_memzero_loop; [lia..|done].
Qed.

Lemma wp_memcpy_loop fuel dest src n s :
  0 < n -> (Z.to_nat n <= fuel)%nat -> n < 2 ^ 31 ->
  in_memory dest n -> in_memory src n -> (dest + n <= src \/ src + n <= dest) ->
  wp (memcpy_loop fuel dest src n)
     (fun _ s' => exists m, s' = set_ram m s /\ forall b, m b = copied dest src n (ram s) b) s.
Proof.
  revert dest src n s. induction fuel as [|fuel IH]; intros dest src n s H0 Hf Hn [Hd Hd'] [Hs Hs'] Hdis; [lia|].
  cbn [memcpy_loop]. unfold load8, store8. wp_steps. rewrite s32_id by lia.
  set (s1 := set_ram _ s).
  assert (H1 : forall b, ram s1 b = copied dest src 1 (ram s) b).
  { intros b. unfold s1, copied, write_le. simpl. range_cases; [|lia..|done].
    replace (b - dest) with 0 by lia. by rewrite Z.shiftr_0_r, Z.add_0_r. }
  destruct (Z.ltb_spec 1 n).
  - rewrite !u64_id, u32_id by lia.
    eapply wp_mono; [apply IH; [lia|lia|lia|split; lia|split; lia|lia]|].
    intros _ s' (m & -> & Hm'). exists m. split; [by destruct s|].
    intros b. rewrite Hm'. unfold copied at 1. rewrite !H1. unfold copied.
    replace (src + 1 + (b - (dest + 1))) with (src + (b - dest)) by lia.
    range_cases; try done; lia.
  - assert (n = 1) as -> by lia. exists (ram s1). split; [by destruct s|done].
Qed.

Lemma wp_memcpy dest src n s :
  0 < n -> n < 2 ^ 31 -> in_memory dest n -> in_memory src n -> (dest + n <= src \/ src + n <= dest) ->
  wp (memcpy dest src n)
     (fun _ s' => exists m, s' = set_ram m s /\ forall b, m b = copied dest src n (ram s) b) s.
Proof. intros. unfold memcpy. rewrite s32_id, u32_id by lia. apply wp_memcpy_loop; auto; lia. Qed.

(** The first difference of two ranges. *)
Fixpoint first_difference (n : nat) m (x0 x1 : Z) : Z :=
  match n with
  | O => 0
  | S n => if m x0 =? m x1 then first_difference n m (x0 + 1) (x1 + 1) else m x0 - m x1
  end.

Definition bytes m : Prop := forall a, 0 <= m a < 2 ^ 8.

Lemma wp_memcmp_loop fuel x0 x1 n s :
  bytes (ram s) -> 0 < n -> (Z.to_nat n <= fuel)%nat -> in_memory x0 n -> in_memory x1 n ->
  wp (memcmp_loop fuel x0 x1 n)
     (fun r s' => s' = s /\ r = first_difference (Z.to_nat n) (ram s) x0 x1) s.
Proof.
  intros Hb. revert x0 x1 n. induction fuel as [|fuel IH]; intros x0 x1 n H0 Hf [Ha Ha'] [Hc Hc']; [lia|].
  cbn [memcmp_loop]. unfold load8. wp_steps. pose proof (Hb x0). pose proof (Hb x1).
  rewrite s32_id by lia. replace (Z.to_nat n) with (S (Z.to_nat (n - 1))) by lia. cbn [first_difference].
  destruct (Z.eqb_spec (ram s x0) (ram s x1)) as [E|E], (Z.eqb_spec (ram s x0 - ram s x1) 0); try lia;
    cbn [negb]; [|by wp_steps].
  rewrite (u64_id (n - 1)) by lia. destruct (Z.eqb_spec (n - 1) 0) as [E'|]; cbn [negb].
  - wp_steps. by rewrite E'.
  - rewrite !u64_id by lia. apply IH; [lia|lia|split; lia|split; lia].
Qed.

Lemma first_difference_0 n m x0 x1 :
  first_difference n m x0 x1 = 0 <-> forall i, 0 <= i < Z.of_nat n -> m (x0 + i) = m (x1 + i).
Proof.
  revert x0 x1. induction n as [|n IH]; intros x0 x1; simpl.
  { split; [intros _ i Hi; lia|done]. }
  destruct (Z.eqb_spec (m x0) (m x1)) as [E|E].
  - rewrite IH. split; intros H i Hi.
    + destruct (decide (i = 0)) as [->|]; [by rewrite !Z.add_0_r|].
      specialize (H (i - 1)). replace (x0 + i) with (x0 + 1 + (i - 1)) by lia.
      replace (x1 + i) with (x1 + 1 + (i - 1)) by lia. apply H. lia.
    + rewrite <- !Z.add_assoc. apply H. lia.
  - split; [lia|]. intros H. specialize (H 0). rewrite !Z.add_0_r in H. lia.
Qed.

Lemma wp_memset_loop fuel x0 c n s :
  0 <= n -> (Z.to_nat n <= fuel)%nat -> in_memory x0 n ->
  wp (memset_loop fuel x0 c n)
     (fun _ s' => exists m, s' = set_ram m s /\ forall b, m b = filled x0 n (u8 c) (ram s) b) s.
Proof.
  revert x0 n s. induction fuel as [|fuel IH]; intros x0 n s H0 Hf [Ha Hm]; simpl.
  - assert (n = 0) as -> by lia. simpl. wp_steps. exists (ram s). split; [by destruct s|].
    intros b. unfold filled. range_cases; try done; lia.
  - destruct (Z.eqb_spec n 0) as [->|].
    + wp_steps. exists (ram s). split; [by destruct s|]. intros b. unfold filled. range_cases; try done; lia.
    + unfold store8. wp_steps. rewrite (u64_id (n - 1)) by lia. set (s1 := set_ram _ s).
      assert (H1 : forall b, ram s1 b = filled x0 1 (u8 c) (ram s) b).
      { intros b. unfold s1, filled, write_le. simpl. range_cases; [|lia..|done].
        replace (b - x0) with 0 by lia. by rewrite Z.shiftr_0_r. }
      destruct (decide (n = 1)) as [->|].
      * assert (forall x, memset_loop fuel x c (1 - 1) = mret tt) as -> by by destruct fuel.
        wp_steps. exists (ram s1). split; [by destruct s|done].
      * rewrite u64_id by lia. eapply wp_mono; [apply IH; [lia|lia|split; lia]|].
        intros _ s' (m & -> & Hm'). exists m. split; [by destruct s|].
        intros b. rewrite Hm'. unfold filled at 1. rewrite H1. unfold filled. range_cases; try done; lia.
Qed.
End Routines.
