(* ===== verification/Cstring.v ===== *)
(** * C strings

    The functions of [common/string.c].  A [char*] of the kernel or of a user
    program is an address of [ram]; the member of a structure or a local array
    is a list, whose bounds count.  [strcpy] is used with both, so it takes the
    two accesses as parameters.  [fuel] bounds the characters a loop visits. *)

From S2P Require Import Prelude Exec Kernel Memory.

(** ** Arrays *)

(** The characters of an array before the terminator. *)
Fixpoint c_text (l : list Z) : list Z :=
  match l with
  | [] => []
  | c :: l => if c =? 0 then [] else c :: c_text l
  end.

(** Reading a cell of a fixed array, and writing one of the array in the state. *)
Definition cell {S} (l : list Z) (i : Z) : Exec S Z := defined (array_get l i).

Definition get_cell (i : Z) : Exec (list Z) Z := l ← gets id; cell l i.

Definition set_cell (i c : Z) : Exec (list Z) unit :=
  l ← gets id;
  l ← defined (array_set l i c);
  modify (fun _ => l).

(** Runs [m] on an array of the caller: the result is the array it leaves. *)
Definition into_array {S A} (l : list Z) (m : Exec (list Z) A) : Exec S (list Z) := fun s =>
  match m l with Done _ l' => Done l' s | Stuck => Stuck | OutOfFuel => OutOfFuel end.

(** ** The functions of string.c *)

Section Functions.
Implicit Types (fuel : nat) (str dest src pointer : Z).

Fixpoint strlen_loop {S} (load : Z -> Exec S Z) fuel str (len : Z) : Exec S Z :=
  match fuel with
  | O => out_of_fuel
  | Datatypes.S fuel =>
    c ← load (u64 (str + len));
    if c =? 0 then mret len else strlen_loop load fuel str (u64 (len + 1))
  end.

Definition strlen fuel str : K Z := strlen_loop load8 fuel str 0.

(** [while ( *pointer != 0) pointer++;] *)
Fixpoint end_of {S} (load : Z -> Exec S Z) fuel pointer : Exec S Z :=
  match fuel with
  | O => out_of_fuel
  | Datatypes.S fuel =>
    c ← load pointer;
    if c =? 0 then mret pointer else end_of load fuel (u64 (pointer + 1))
  end.

Fixpoint copy_loop {S} (load : Z -> Exec S Z) (store : Z -> Z -> Exec S unit) fuel dest pointer : Exec S unit :=
  match fuel with
  | O => out_of_fuel
  | Datatypes.S fuel =>
    c ← load pointer;
    if c =? 0 then store dest 0 else
    store dest c;;
    copy_loop load store fuel (u64 (dest + 1)) (u64 (pointer + 1))
  end.

(** The value of [strcat] and [strcpy] is their first argument. *)
Definition strcat fuel dest src : K Z :=
  pointer ← end_of load8 fuel dest;
  copy_loop load8 store8 fuel pointer src;;
  mret dest.

Definition strcpy fuel dest src : K Z :=
  copy_loop load8 store8 fuel dest src;;
  mret dest.

(** The characters that end a line. *)
Definition ends_line (c : Z) : bool := (c =? 0) || (c =? 13) || (c =? 10).

(** The inner loop of [strsplit]: returns the advanced pointers. *)
Fixpoint split_rest {S} (load : Z -> Exec S Z) (store : Z -> Z -> Exec S unit) fuel dest2 pointer : Exec S (Z * Z) :=
  match fuel with
  | O => out_of_fuel
  | Datatypes.S fuel =>
    c ← load pointer;
    if ends_line c then mret (dest2, pointer) else
    store dest2 c;;
    split_rest load store fuel (u64 (dest2 + 1)) (u64 (pointer + 1))
  end.

(** The stores are those to [dest1], to [dest2], and to [src], into which
    [dest2] is left pointing after the delimiter. *)
Fixpoint split_loop {S} (load : Z -> Exec S Z) (store1 store2 store_src : Z -> Z -> Exec S unit) fuel
    (delimiter dest1 dest2 pointer : Z) : Exec S unit :=
  match fuel with
  | O => out_of_fuel
  | Datatypes.S fuel =>
    c ← load pointer;
    if ends_line c then mret tt else
    if c =? delimiter then
      store1 dest1 0;;
      let pointer := u64 (pointer + 1) in
      let dest2_start := pointer in
      '(_, pointer) ← split_rest load store2 fuel dest2 pointer;
      split_loop load store1 store_src store_src fuel delimiter dest1 dest2_start pointer
    else
      store1 dest1 c;;
      split_loop load store1 store2 store_src fuel delimiter (u64 (dest1 + 1)) dest2 (u64 (pointer + 1))
  end.

Definition strsplit fuel src (delimiter dest1 dest2 : Z) : K unit :=
  split_loop load8 store8 store8 store8 fuel delimiter dest1 dest2 src.

(** The loop goes through all [size] characters, past a terminator too. *)
Fixpoint strcmp_loop (n : nat) src1 src2 (i : Z) : K Z :=
  match n with
  | O => mret 0
  | S n =>
    a ← load8 (u64 (src1 + i));
    b ← load8 (u64 (src2 + i));
    if negb (a =? b) then mret 1 else strcmp_loop n src1 src2 (i + 1)
  end.

Definition strcmp src1 src2 (size : Z) : K Z := strcmp_loop (Z.to_nat size) src1 src2 0.
End Functions.

(** ** Strings in memory *)

(** The bytes [l] lie in [m] from address [a]. *)
Definition bytes_at (m : Z -> Z) (a : Z) (l : list Z) : Prop :=
  forall i c, l !! i = Some c -> m (a + Z.of_nat i) = c.

(** Characters other than the terminator. *)
Definition chars (l : list Z) : Prop := Forall (fun c => 0 < c < 2 ^ 8) l.

(** [m] holds at [a] the string [l], and does not wrap around. *)
Definition string_at (m : Z -> Z) (a : Z) (l : list Z) : Prop :=
  chars l /\ bytes_at m a (l ++ [0]) /\ in_memory a (Z.of_nat (length l) + 1).

(** [m] with the bytes [l] stored from [a]. *)
Fixpoint stored_bytes (a : Z) (l : list Z) (m : Z -> Z) : Z -> Z :=
  match l with
  | [] => m
  | c :: l => stored_bytes (a + 1) l (write_le 1 a c m)
  end.

(** The ranges do not overlap. *)
Definition apart (a n b k : Z) : Prop := a + n <= b \/ b + k <= a.

Section Lemmas.
Implicit Types (m : Z -> Z) (a b : Z) (l : list Z) (s : kstate).

Lemma write_byte a c m b : 0 <= c < 2 ^ 8 -> write_le 1 a c m b = if b =? a then c else m b.
Proof.
  intros Hc. unfold write_le. destruct (Z.eqb_spec b a) as [->|]; range_cases; try lia; try done.
  rewrite Z.sub_diag, Z.shiftr_0_r. unfold u8. by rewrite Z.mod_small.
Qed.

Lemma bytes_at_cons m a c l : bytes_at m a (c :: l) <-> m a = c /\ bytes_at m (a + 1) l.
Proof.
  unfold bytes_at. split.
  - intros H. split; [rewrite <- (Z.add_0_r a); by apply (H 0%nat)|].
    intros i d Hi. rewrite <- (H (S i) d Hi). f_equal. lia.
  - intros [Ha H] [|i] d Hi; simpl in Hi; [injection Hi as <-; by rewrite Z.add_0_r|].
    rewrite <- (H i d Hi). f_equal. lia.
Qed.

Lemma bytes_at_ext m m' a l :
  (forall b, a <= b < a + Z.of_nat (length l) -> m' b = m b) -> bytes_at m a l -> bytes_at m' a l.
Proof. intros E H i c Hi. pose proof (lookup_lt_Some _ _ _ Hi). rewrite E by lia. by apply H. Qed.

Lemma stored_outside a l m b :
  b < a \/ a + Z.of_nat (length l) <= b -> stored_bytes a l m b = m b.
Proof.
  revert a m. induction l as [|c l IH]; intros a m; simpl; [done|]. intros H.
  rewrite IH by lia. unfold write_le. range_cases; [lia..|done].
Qed.

Lemma stored_inside a l m : Forall (fun c => 0 <= c < 2 ^ 8) l -> bytes_at (stored_bytes a l m) a l.
Proof.
  revert a m. induction l as [|c l IH]; intros a m Hl; [done|]. apply Forall_cons in Hl as [Hc Hl].
  apply bytes_at_cons. simpl. split; [|by apply IH].
  rewrite stored_outside by lia. rewrite write_byte by done. by rewrite Z.eqb_refl.
Qed.

Lemma stored_app a l1 l2 m :
  stored_bytes a (l1 ++ l2) m = stored_bytes (a + Z.of_nat (length l1)) l2 (stored_bytes a l1 m).
Proof.
  revert a m. induction l1 as [|c l1 IH]; intros a m; simpl; [by rewrite Z.add_0_r|].
  rewrite IH. f_equal. lia.
Qed.

Lemma chars_terminated l : chars l -> Forall (fun c => 0 <= c < 2 ^ 8) (l ++ [0]).
Proof.
  intros H. apply Forall_app. split; [|by repeat constructor].
  eapply Forall_impl; [exact H|]. simpl. lia.
Qed.

(** A string that was just stored. *)
Lemma string_stored m a l :
  chars l -> in_memory a (Z.of_nat (length l) + 1) -> string_at (stored_bytes a (l ++ [0]) m) a l.
Proof. intros Hl Ha. split; [done|]. split; [|done]. by apply stored_inside, chars_terminated. Qed.

Lemma c_text_string l t : chars l -> c_text (l ++ 0 :: t) = l.
Proof.
  induction l as [|c l IH]; intros Hl; simpl; [done|]. apply Forall_cons in Hl as [Hc Hl].
  destruct (Z.eqb_spec c 0); [lia|]. by rewrite IH.
Qed.

(** The same on concrete memory, by computation. *)
Definition string_check (m : Z -> Z) (a : Z) (l : list Z) : bool :=
  forallb (fun c => (0 <? c) && (c <? 2 ^ 8)) l &&
  forallb (fun '(i, c) => m (a + Z.of_nat i) =? c) (imap pair (l ++ [0])) &&
  (0 <=? a) && (a + (Z.of_nat (length l) + 1) <=? 2 ^ 64).

Lemma string_at_compute m a l : string_check m a l = true -> string_at m a l.
Proof.
  unfold string_check. rewrite !andb_true_iff, !forallb_forall. intros [[[H1 H2] H3] H4].
  split; [|split; [|split; lia]].
  - apply Forall_forall. intros c Hc. apply list_elem_of_In, H1, andb_true_iff in Hc as [? ?]. lia.
  - intros i c Hi. specialize (H2 (i, c)). apply Z.eqb_eq, H2, list_elem_of_In, elem_of_lookup_imap. by exists i, c.
Qed.

Lemma string_at_nil m a : string_at m a [] <-> m a = 0 /\ in_memory a 1.
Proof.
  unfold string_at. simpl. rewrite bytes_at_cons. split; [by intros (_ & [? _] & ?)|]. intros [H1 H2].
  split; [by constructor|]. by split; [split|].
Qed.

Lemma string_at_cons m a c l :
  string_at m a (c :: l) -> m a = c /\ 0 < c < 2 ^ 8 /\ 0 <= a /\ a + 1 < 2 ^ 64 /\ string_at m (a + 1) l.
Proof.
  intros (Hl & Hb & [Ha1 Ha2]). apply Forall_cons in Hl as [Hc Hl]. simpl in *.
  apply bytes_at_cons in Hb as [Hm Hb]. split; [done|]. split; [done|]. split; [lia|]. split; [lia|].
  split; [done|]. split; [done|]. split; lia.
Qed.

Lemma string_at_ext m m' a l :
  (forall b, a <= b <= a + Z.of_nat (length l) -> m' b = m b) -> string_at m a l -> string_at m' a l.
Proof.
  intros E (Hl & Hb & Ha). split; [done|]. split; [|done]. eapply bytes_at_ext; [|done].
  intros b Hb'. apply E. rewrite length_app in Hb'. simpl in Hb'. lia.
Qed.

Lemma string_at_app m a l1 l2 : string_at m a (l1 ++ l2) -> string_at m (a + Z.of_nat (length l1)) l2.
Proof.
  revert a. induction l1 as [|c l1 IH]; intros a H; simpl; [by rewrite Z.add_0_r|].
  apply string_at_cons in H as (_ & _ & _ & _ & H). apply IH in H.
  by replace (a + Z.of_nat (S (length l1))) with (a + 1 + Z.of_nat (length l1)) by lia.
Qed.

(** ** Copies *)

(** A source that holds the string [l] at [a], whatever the state. *)
Definition gives {S} (load : Z -> Exec S Z) (a : Z) (l : list Z) (t : S) : Prop :=
  forall i c, (l ++ [0]) !! i = Some c -> load (a + Z.of_nat i) t = Done c t.

Lemma gives_here {S} (load : Z -> Exec S Z) a c l t : gives load a (c :: l) t -> load a t = Done c t.
Proof. intros H. pose proof (H 0%nat c eq_refl) as E. by rewrite Z.add_0_r in E. Qed.

Lemma gives_end {S} (load : Z -> Exec S Z) a t : gives load a [] t -> load a t = Done 0 t.
Proof. intros H. pose proof (H 0%nat 0 eq_refl) as E. by rewrite Z.add_0_r in E. Qed.

Lemma gives_next {S} (load : Z -> Exec S Z) a c l t : gives load a (c :: l) t -> gives load (a + 1) l t.
Proof. intros H i d Hi. rewrite <- (H (Datatypes.S i) d Hi). f_equal. lia. Qed.

Lemma gives_memory a l s : string_at (ram s) a l -> gives load8 a l s.
Proof. intros (_ & Hb & _) i c Hi. unfold load8, gets. f_equal. by apply Hb. Qed.

Lemma strlen_loop_gives {S} (load : Z -> Exec S Z) fuel str len l t :
  chars l -> gives load (str + len) l t -> 0 <= str -> 0 <= len -> (length l < fuel)%nat ->
  str + len + Z.of_nat (length l) < 2 ^ 64 ->
  strlen_loop load fuel str len t = Done (len + Z.of_nat (length l)) t.
Proof.
  revert len l. induction fuel as [|fuel IH]; intros len l Hl Hg Hs Hn Hf Hm; [lia|].
  cbn [strlen_loop]. unfold mbind, exec_bind. rewrite u64_id by lia. destruct l as [|c l].
  - rewrite (gives_end _ _ _ Hg). simpl. by rewrite Z.add_0_r.
  - rewrite (gives_here _ _ _ _ _ Hg). apply Forall_cons in Hl as [Hc Hl]. destruct (Z.eqb_spec c 0); [lia|].
    simpl in Hf, Hm. rewrite u64_id by lia. rewrite (IH (len + 1) l); [f_equal; simpl; lia|done| |lia..].
    rewrite Z.add_assoc. by apply gives_next with c.
Qed.

Lemma end_of_gives {S} (load : Z -> Exec S Z) fuel a l t :
  chars l -> gives load a l t -> 0 <= a -> (length l < fuel)%nat -> a + Z.of_nat (length l) < 2 ^ 64 ->
  end_of load fuel a t = Done (a + Z.of_nat (length l)) t.
Proof.
  revert a l. induction fuel as [|fuel IH]; intros a l Hl Hg Ha Hf Hm; [lia|].
  cbn [end_of]. unfold mbind, exec_bind. destruct l as [|c l].
  - rewrite (gives_end _ _ _ Hg). simpl. by rewrite Z.add_0_r.
  - rewrite (gives_here _ _ _ _ _ Hg). apply Forall_cons in Hl as [Hc Hl]. destruct (Z.eqb_spec c 0); [lia|].
    simpl in Hf, Hm. rewrite u64_id by lia. rewrite (IH (a + 1) l); [f_equal; simpl; lia|done| |lia..].
    by apply gives_next with c.
Qed.

Lemma wp_strlen fuel str l s :
  string_at (ram s) str l -> (length l < fuel)%nat ->
  wp (strlen fuel str) (fun r s' => r = Z.of_nat (length l) /\ s' = s) s.
Proof.
  intros Hl Hf. pose proof Hl as (Hc & _ & [? ?]). unfold strlen, wp.
  rewrite (strlen_loop_gives load8 fuel str 0 l s); [done|done| |lia..].
  rewrite Z.add_0_r. by apply gives_memory.
Qed.

(** A copy to memory, from a source that stores outside the copy do not change. *)
Lemma wp_copy_out fuel (load : Z -> K Z) dest src l s :
  chars l -> in_memory src (Z.of_nat (length l) + 1) -> in_memory dest (Z.of_nat (length l) + 1) ->
  (length l < fuel)%nat ->
  (forall i c m', (l ++ [0]) !! i = Some c ->
     (forall b, b < dest \/ dest + Z.of_nat (length l) + 1 <= b -> m' b = ram s b) ->
     load (src + Z.of_nat i) (set_ram m' s) = Done c (set_ram m' s)) ->
  wp (copy_loop load store8 fuel dest src)
     (fun _ s' => s' = set_ram (stored_bytes dest (l ++ [0]) (ram s)) s) s.
Proof.
  revert dest src l s. induction fuel as [|fuel IH]; intros dest src l s Hl [Hs1 Hs2] [Hd1 Hd2] Hf Hload; [lia|].
  cbn [copy_loop]. apply wp_bind.
  assert (E : forall c, (l ++ [0]) !! 0%nat = Some c -> load src s = Done c s).
  { intros c Hc. pose proof (Hload 0%nat c (ram s) Hc (fun _ _ => eq_refl)) as E.
    rewrite Z.add_0_r in E. by destruct s. }
  destruct l as [|c l]; (eapply wp_done; [by apply E|]).
  - simpl. by unfold store8.
  - apply Forall_cons in Hl as [Hc Hl]. destruct (Z.eqb_spec c 0); [lia|].
    apply wp_bind. unfold store8 at 1. apply wp_modify. simpl in Hf, Hs2, Hd2. rewrite !u64_id by lia.
    eapply wp_mono; [apply (IH (dest + 1) (src + 1) l); [done|split; lia|split; lia|lia|]|].
    + intros i d m' Hi Hm. replace (src + 1 + Z.of_nat i) with (src + Z.of_nat (S i)) by lia.
      apply (Hload (S i) d m'); [done|]. intros b Hb. simpl in Hb. rewrite Hm by lia. simpl.
      unfold write_le. range_cases; try done; lia.
    + intros _ s' ->. by destruct s.
Qed.

(** The copy from memory to memory. *)
Lemma wp_copy_loop fuel dest src l s :
  string_at (ram s) src l -> (length l < fuel)%nat -> in_memory dest (Z.of_nat (length l) + 1) ->
  apart dest (Z.of_nat (length l) + 1) src (Z.of_nat (length l) + 1) ->
  wp (copy_loop load8 store8 fuel dest src)
     (fun _ s' => s' = set_ram (stored_bytes dest (l ++ [0]) (ram s)) s) s.
Proof.
  intros (Hl & Hb & Hs) Hf Hd Ha. apply wp_copy_out; try done. intros i c m' Hi Hm.
  unfold load8, gets. simpl. f_equal. pose proof (lookup_lt_Some _ _ _ Hi) as Hlt.
  rewrite length_app in Hlt. simpl in Hlt. unfold apart in Ha. rewrite Hm by lia. by apply Hb.
Qed.

(** Storing the characters [l] in an array from index [i]. *)
Definition splice (i : nat) (l t : list Z) : list Z := take i t ++ l ++ drop (i + length l) t.

Lemma splice_length i l t : (i + length l <= length t)%nat -> length (splice i l t) = length t.
Proof. intros. unfold splice. rewrite !length_app, length_take, length_drop. lia. Qed.

Lemma splice_cons i c l t :
  (i + length (c :: l) <= length t)%nat -> splice (S i) l (<[i := c]> t) = splice i (c :: l) t.
Proof.
  intros H. simpl in H. unfold splice. rewrite drop_insert_lt by lia. simpl.
  rewrite Nat.add_succ_r. rewrite (take_S_r _ i c) by (apply list_lookup_insert_eq; lia).
  rewrite take_insert_ge by lia. by rewrite <- app_assoc.
Qed.

(** A copy into an array: the string, its terminator included, must fit. *)
Lemma wp_copy_array fuel (load : Z -> Exec (list Z) Z) dest src l t :
  chars l -> (forall i c t', (l ++ [0]) !! i = Some c -> load (src + Z.of_nat i) t' = Done c t') ->
  in_memory src (Z.of_nat (length l) + 1) -> (length l < fuel)%nat ->
  (dest + length l < length t)%nat -> Z.of_nat (length t) < 2 ^ 64 ->
  copy_loop load set_cell fuel (Z.of_nat dest) src t = Done tt (splice dest (l ++ [0]) t).
Proof.
  revert dest src l t. induction fuel as [|fuel IH]; intros dest src l t Hl Hload [Hs1 Hs2] Hf Hd Ht; [lia|].
  cbn [copy_loop]. unfold mbind, exec_bind at 1.
  assert (Hset : forall c, set_cell (Z.of_nat dest) c t = Done tt (<[dest := c]> t)).
  { intros c. unfold set_cell, mbind, exec_bind, gets, id, array_set.
    destruct (Z.leb_spec 0 (Z.of_nat dest)); [|lia].
    destruct (Z.ltb_spec (Z.of_nat dest) (Z.of_nat (length t))); [|lia]. simpl. by rewrite Nat2Z.id. }
  destruct l as [|c l].
  - pose proof (Hload 0%nat 0 t eq_refl) as E. rewrite Z.add_0_r in E. rewrite E, Z.eqb_refl, Hset. f_equal.
    change ([] ++ [0]) with [0]. rewrite <- (splice_cons dest 0 [] t) by (simpl; lia). unfold splice. simpl.
    by rewrite Nat.add_0_r, take_drop.
  - apply Forall_cons in Hl as [Hc Hl]. pose proof (Hload 0%nat c t eq_refl) as E.
    rewrite Z.add_0_r in E. rewrite E.
    destruct (Z.eqb_spec c 0); [lia|]. unfold exec_bind. rewrite Hset. simpl in Hf, Hd, Hs2.
    rewrite !u64_id by lia. replace (Z.of_nat dest + 1) with (Z.of_nat (S dest)) by lia.
    rewrite (IH (S dest) (src + 1) l).
    + f_equal. rewrite (splice_cons dest c (l ++ [0]) t); [done|]. simpl. rewrite length_app. simpl. lia.
    + done.
    + intros i d t' Hi. rewrite <- (Hload (S i) d t' Hi). f_equal. lia.
    + split; lia.
    + lia.
    + rewrite length_insert. lia.
    + by rewrite length_insert.
Qed.

(** A string that does not fit overruns the array. *)
Lemma copy_array_overrun fuel (load : Z -> Exec (list Z) Z) dest src l t :
  (forall i c t', l !! i = Some c -> load (src + Z.of_nat i) t' = Done c t' /\ 0 < c < 2 ^ 8) ->
  in_memory src (Z.of_nat (length l)) -> (length t - dest < length l)%nat -> (length l <= fuel)%nat ->
  Z.of_nat (length t) < 2 ^ 64 -> (dest <= length t)%nat ->
  copy_loop load set_cell fuel (Z.of_nat dest) src t = Stuck.
Proof.
  revert dest src l t. induction fuel as [|fuel IH]; intros dest src l t Hload [Hs1 Hs2] Hd Hf Ht Hle; [lia|].
  destruct l as [|c l]; simpl in *; [lia|]. cbn [copy_loop]. unfold mbind, exec_bind at 1.
  destruct (Hload 0%nat c t eq_refl) as [E Hc]. rewrite Z.add_0_r in E. rewrite E.
  destruct (Z.eqb_spec c 0); [lia|]. unfold exec_bind, set_cell, mbind, exec_bind, gets, id, array_set.
  destruct (Z.leb_spec 0 (Z.of_nat dest)); [|lia].
  destruct (Z.ltb_spec (Z.of_nat dest) (Z.of_nat (length t))); simpl; [|done].
  rewrite !u64_id by lia. replace (Z.of_nat dest + 1) with (Z.of_nat (S dest)) by lia. rewrite Nat2Z.id.
  apply (IH (S dest) (src + 1) l); rewrite ?length_insert; try lia; [|split; lia].
  intros i d t' Hi. destruct (Hload (S i) d t' Hi) as [<- ?]. split; [|done]. f_equal. lia.
Qed.
End Lemmas.

(** ** Splitting a line *)

(** The text before the first [d], and the text after it. *)
Fixpoint fields (d : Z) (l : list Z) : list Z * option (list Z) :=
  match l with
  | [] => ([], None)
  | c :: l => if c =? d then ([], Some l) else let (w, rest) := fields d l in (c :: w, rest)
  end.

(** [m] holds at [a] the characters [l] followed by the end of the line. *)
Definition line_at (m : Z -> Z) (a : Z) (l : list Z) : Prop :=
  Forall (fun c => 0 <= c < 2 ^ 8 /\ ends_line c = false) l /\ bytes_at m a l /\
  ends_line (m (a + Z.of_nat (length l))) = true /\ in_memory a (Z.of_nat (length l) + 1).

(** What [strsplit] leaves in memory: [dest1] is terminated only if there is a
    delimiter, [dest2] never is. *)
Definition split_memory (d dest1 dest2 : Z) (l : list Z) (m : Z -> Z) : Z -> Z :=
  match fields d l with
  | (w, None) => stored_bytes dest1 w m
  | (w, Some rest) => stored_bytes dest2 rest (stored_bytes dest1 (w ++ [0]) m)
  end.

Section Splitting.
Implicit Types (m : Z -> Z) (a b d : Z) (l : list Z) (s : kstate).

Lemma line_at_nil m a : line_at m a [] -> ends_line (m a) = true.
Proof. intros (_ & _ & H & _). by rewrite Z.add_0_r in H. Qed.

Lemma line_at_cons m a c l :
  line_at m a (c :: l) ->
  m a = c /\ 0 <= c < 2 ^ 8 /\ ends_line c = false /\ 0 <= a /\ a + 1 < 2 ^ 64 /\ line_at m (a + 1) l.
Proof.
  intros (Hl & Hb & He & [Ha1 Ha2]). apply Forall_cons in Hl as [[Hc Hn] Hl]. simpl in *.
  apply bytes_at_cons in Hb as [Hm Hb]. split; [done|]. split; [done|]. split; [done|]. split; [lia|].
  split; [lia|]. split; [done|]. split; [done|]. split; [|split; lia].
  by replace (a + 1 + Z.of_nat (length l)) with (a + Z.of_nat (S (length l))) by lia.
Qed.

Lemma line_at_ext m m' a l :
  (forall b, a <= b <= a + Z.of_nat (length l) -> m' b = m b) -> line_at m a l -> line_at m' a l.
Proof.
  intros E (Hl & Hb & He & Ha). split; [done|]. split; [|split; [|done]].
  - eapply bytes_at_ext; [|done]. intros b Hb'. apply E. lia.
  - rewrite E by lia. done.
Qed.

Lemma wp_split_rest fuel dest2 a l s :
  line_at (ram s) a l -> (length l < fuel)%nat -> in_memory dest2 (Z.of_nat (length l) + 1) ->
  apart dest2 (Z.of_nat (length l)) a (Z.of_nat (length l) + 1) ->
  wp (split_rest load8 store8 fuel dest2 a)
     (fun r s' => snd r = a + Z.of_nat (length l) /\ s' = set_ram (stored_bytes dest2 l (ram s)) s) s.
Proof.
  revert dest2 a l s. induction fuel as [|fuel IH]; intros dest2 a l s Hl Hf [Hd1 Hd2] Ha; [lia|].
  cbn [split_rest]. unfold load8. apply wp_bind, wp_gets. destruct l as [|c l].
  - rewrite (line_at_nil _ _ Hl). wp_steps. simpl. split; [lia|by destruct s].
  - apply line_at_cons in Hl as (-> & Hc & -> & H0 & H1 & Hl). unfold store8. wp_steps.
    simpl in Hf, Hd2, Ha. unfold apart in Ha. rewrite !u64_id by lia.
    eapply wp_mono; [apply (IH (dest2 + 1) (a + 1) l); [|lia|split; lia|unfold apart; lia]|].
    + eapply line_at_ext; [|done]. intros b Hb. simpl. rewrite write_byte by lia.
      destruct (Z.eqb_spec b dest2); [lia|done].
    + intros [? r] s' [Er ->]. simpl in *. split; [lia|by destruct s].
Qed.

Lemma wp_split_loop fuel d dest1 dest2 a l s :
  line_at (ram s) a l -> (length l + 1 < fuel)%nat ->
  in_memory dest1 (Z.of_nat (length l) + 1) -> in_memory dest2 (Z.of_nat (length l) + 1) ->
  apart dest1 (Z.of_nat (length l)) a (Z.of_nat (length l) + 1) ->
  apart dest2 (Z.of_nat (length l)) a (Z.of_nat (length l) + 1) ->
  wp (split_loop load8 store8 store8 store8 fuel d dest1 dest2 a)
     (fun _ s' => s' = set_ram (split_memory d dest1 dest2 l (ram s)) s) s.
Proof.
  revert dest1 a l s. induction fuel as [|fuel IH]; intros dest1 a l s Hl Hf [Hd1 Hd1'] [Hd2 Hd2'] Ha1 Ha2; [lia|].
  cbn [split_loop]. unfold load8. apply wp_bind, wp_gets. unfold apart in *. unfold split_memory.
  destruct l as [|c l].
  { rewrite (line_at_nil _ _ Hl). wp_steps. by destruct s. }
  apply line_at_cons in Hl as (-> & Hc & -> & H0 & H1 & Hl). simpl in Hf, Hd1', Hd2', Ha1, Ha2. cbn [fields].
  assert (Hpast : forall v, 0 <= v < 2 ^ 8 -> line_at (write_le 1 dest1 v (ram s)) (a + 1) l).
  { intros v Hv. eapply line_at_ext; [|done]. intros b Hb. rewrite write_byte by done.
    destruct (Z.eqb_spec b dest1); [lia|done]. }
  unfold store8. destruct (Z.eqb_spec c d).
  - cbv zeta. wp_steps. rewrite u64_id by lia.
    eapply wp_mono; [apply (wp_split_rest _ _ (a + 1) l); [by apply Hpast|lia|split; lia|unfold apart; lia]|].
    intros [? r] s' [Er ->]. simpl in Er. subst r.
    destruct fuel as [|fuel]; [lia|]. cbn [split_loop]. unfold load8. apply wp_bind, wp_gets. simpl ram.
    rewrite stored_outside by lia. destruct (Hpast 0) as (_ & _ & -> & _); [lia|]. wp_steps. by destruct s.
  - wp_steps. rewrite !u64_id by lia.
    eapply wp_mono; [apply (IH (dest1 + 1) (a + 1) l); [by apply Hpast|lia|split; lia|split; lia|unfold apart; lia|unfold apart; lia]|].
    intros _ s' ->. unfold split_memory. simpl. destruct (fields d l) as [w [rest|]]; by destruct s.
Qed.

Lemma fields_app d l1 l2 : d ∉ l1 -> fields d (l1 ++ d :: l2) = (l1, Some l2).
Proof.
  induction l1 as [|c l1 IH]; simpl; intros Hd; [by rewrite Z.eqb_refl|].
  apply not_elem_of_cons in Hd as [Hc Hd]. destruct (Z.eqb_spec c d); [done|]. by rewrite IH.
Qed.

Lemma fields_none d l : d ∉ l -> fields d l = (l, None).
Proof.
  induction l as [|c l IH]; simpl; intros Hd; [done|].
  apply not_elem_of_cons in Hd as [Hc Hd]. destruct (Z.eqb_spec c d); [done|]. by rewrite IH.
Qed.

(** ** Comparing *)

Lemma wp_strcmp_loop n src1 src2 i s :
  0 <= i -> in_memory src1 (i + Z.of_nat n) -> in_memory src2 (i + Z.of_nat n) ->
  wp (strcmp_loop n src1 src2 i) (fun r s' => s' = s /\
    (r = 0 /\ (forall k, i <= k < i + Z.of_nat n -> ram s (src1 + k) = ram s (src2 + k)) \/
     r = 1 /\ exists k, i <= k < i + Z.of_nat n /\ ram s (src1 + k) <> ram s (src2 + k))) s.
Proof.
  revert i. induction n as [|n IH]; intros i Hi [H1 H1'] [H2 H2']; simpl.
  { wp_steps. split; [done|]. left. split; [done|]. lia. }
  unfold load8. wp_steps. rewrite !u64_id by lia.
  destruct (Z.eqb_spec (ram s (src1 + i)) (ram s (src2 + i))) as [E|E]; simpl.
  - eapply wp_mono; [apply IH; [lia|split; lia|split; lia]|].
    intros r s' [-> [[-> Hk]|[-> (k & Hk & Hne)]]]; (split; [done|]).
    + left. split; [done|]. intros k Hk'. destruct (decide (k = i)) as [->|]; [done|]. apply Hk. lia.
    + right. split; [done|]. exists k. split; [lia|done].
  - wp_steps. split; [done|]. right. split; [done|]. exists i. split; [lia|done].
Qed.
End Splitting.
