(* ===== verification/Arrays.v ===== *)
(** * Strings in arrays

    The functions of [common/string.c] and [common/memory.S] on local arrays: an
    array is the list of its characters, and an access outside it is undefined
    behaviour.  A loop over a string ends at the latest at the end of the array,
    so its fuel is one more than the length. *)

From S2P Require Import Prelude Exec Kernel Memory Cstring.

Section Functions.
Context {S : Type}.
Implicit Types (str dest src : list Z).

(** Reading and writing the cells of a local array. *)
Definition set_element (l : list Z) (i c : Z) : Exec S (list Z) := defined (array_set l i c).

(** An array of [n] characters after [memzero(array, n)]. *)
Definition zeroed (n : nat) : list Z := replicate n 0.

Definition array_fuel (l : list Z) : nat := Datatypes.S (length l).

(** The characters of the string an array holds. *)
Definition text_of str : Exec S (list Z) :=
  n ← strlen_loop (cell str) (array_fuel str) 0 0;
  mret (take (Z.to_nat n) str).

Definition array_strlen str : Exec S Z := strlen_loop (cell str) (array_fuel str) 0 0.

Definition array_strcat dest src : Exec S (list Z) :=
  into_array dest
    (pointer ← end_of get_cell (array_fuel dest) 0;
     copy_loop (cell src) set_cell (array_fuel src) pointer 0).

Definition array_strcpy dest src : Exec S (list Z) :=
  into_array dest (copy_loop (cell src) set_cell (array_fuel src) 0 0).

(** The cells of the two destinations of [strsplit]. *)
Definition set_first (i c : Z) : Exec (list Z * list Z) unit :=
  l ← gets fst;
  l ← defined (array_set l i c);
  modify (fun s => (l, s.2)).

Definition set_second (i c : Z) : Exec (list Z * list Z) unit :=
  l ← gets snd;
  l ← defined (array_set l i c);
  modify (fun s => (s.1, l)).

(** Both destinations afterwards.  The source is constant: a store into it is
    undefined behaviour. *)
Definition array_strsplit src (delimiter : Z) dest1 dest2 : Exec S (list Z * list Z) := fun s =>
  match split_loop (cell src) set_first set_second (fun _ _ => stuck) (array_fuel src) delimiter 0 0 0 (dest1, dest2) with
  | Done _ d => Done d s
  | Stuck => Stuck
  | OutOfFuel => OutOfFuel
  end.

(** [n] cells from [i] on. *)
Fixpoint zero_cells (n : nat) (i : Z) (l : list Z) : Exec S (list Z) :=
  match n with
  | O => mret l
  | Datatypes.S n => l ← set_element l i 0; zero_cells n (i + 1) l
  end.

(** Whole words are cleared, and at least one. *)
Definition array_memzero (l : list Z) (n : Z) : Exec S (list Z) :=
  zero_cells (8 * Z.to_nat (Z.max 1 ((n + 7) / 8))) 0 l.

Fixpoint copy_cells (n : nat) (i : Z) dest src : Exec S (list Z) :=
  match n with
  | O => mret dest
  | Datatypes.S n =>
    c ← cell src i;
    dest ← set_element dest i c;
    copy_cells n (i + 1) dest src
  end.

(** At least one byte is copied. *)
Definition array_memcpy dest src (count : Z) : Exec S (list Z) :=
  copy_cells (Z.to_nat (Z.max 1 count)) 0 dest src.

Fixpoint compare_cells (n : nat) (i : Z) (src1 src2 : list Z) : Exec S Z :=
  match n with
  | O => mret 0
  | Datatypes.S n =>
    a ← cell src1 i;
    b ← cell src2 i;
    if negb (s32 (a - b) =? 0) then mret (s32 (a - b)) else compare_cells n (i + 1) src1 src2
  end.

Definition array_memcmp (src1 src2 : list Z) (n : Z) : Exec S Z := compare_cells (Z.to_nat n) 0 src1 src2.
End Functions.

(** ** Cells *)

Lemma cell_gives {S} l t (s : S) : gives (cell (l ++ 0 :: t)) 0 l s.
Proof.
  intros i c Hi. unfold cell, array_get. rewrite Z.add_0_l. destruct (Z.ltb_spec (Z.of_nat i) 0); [lia|].
  rewrite Nat2Z.id. replace (l ++ 0 :: t) with ((l ++ [0]) ++ t) by by rewrite <- app_assoc.
  by rewrite (lookup_app_l_Some _ _ _ _ Hi).
Qed.

(** Comparing a string with a prefix it does not have. *)
Lemma compare_cells_differs {S} (x : list Z) i a b l t t' (s : S) :
  Forall (fun c => 0 < c < 2 ^ 8) x -> Forall (fun c => 0 < c < 2 ^ 8) l -> ~ x `prefix_of` l ->
  drop i a = l ++ 0 :: t -> drop i b = x ++ t' ->
  exists r, r <> 0 /\ compare_cells (length x) (Z.of_nat i) a b s = Done r s.
Proof.
  intros Hx. assert (Hcell : forall (v : list Z) j c w, drop j v = c :: w -> cell v (Z.of_nat j) s = Done c s).
  { intros v j c w E. unfold cell, array_get. rewrite (proj2 (Z.ltb_ge _ 0)), Nat2Z.id by lia.
    assert (v !! j = Some c) as ->; [|done]. by rewrite <- (Nat.add_0_r j), <- lookup_drop, E. }
  assert (Hnext : forall (v : list Z) j c w, drop j v = c :: w -> drop (Datatypes.S j) v = w).
  { intros v j c w E. rewrite <- Nat.add_1_r, <- drop_drop, E. done. }
  revert i l. induction Hx as [|c x Hc Hx IH]; intros i l Hl Hp Ha Hb; [by destruct Hp; apply prefix_nil|].
  cbn [length compare_cells]. unfold mbind, exec_bind.
  destruct l as [|d l].
  - rewrite (Hcell a i 0 t), (Hcell b i c (x ++ t')) by done. rewrite s32_id by lia. rewrite (proj2 (Z.eqb_neq (0 - c) 0)) by lia.
    exists (0 - c). split; [lia|done].
  - rewrite (Hcell a i d (l ++ 0 :: t)), (Hcell b i c (x ++ t')) by done. apply Forall_cons in Hl as [Hd Hl]. rewrite s32_id by lia.
    destruct (Z.eqb_spec (d - c) 0) as [E|E]; [|by exists (d - c)]. cbn [negb].
    replace (Z.of_nat i + 1) with (Z.of_nat (Datatypes.S i)) by lia. apply (IH _ l); [done| |by eapply Hnext..].
    intros Hpre. apply Hp. assert (d = c) as -> by lia. by apply prefix_cons.
Qed.

Lemma get_cell_gives l t : gives get_cell 0 l (l ++ 0 :: t).
Proof. intros i c Hi. unfold get_cell, mbind, exec_bind, gets, id. by apply cell_gives. Qed.

Lemma splice_start l t : splice 0 (l ++ [0]) t = l ++ 0 :: drop (S (length l)) t.
Proof. unfold splice. simpl. rewrite <- app_assoc. simpl. do 2 f_equal. rewrite length_app. simpl. f_equal. lia. Qed.

Lemma splice_after l1 l2 t :
  (length l1 + length l2 < length t)%nat ->
  splice (length l1) (l2 ++ [0]) (l1 ++ 0 :: drop (S (length l1)) t) = (l1 ++ l2) ++ 0 :: drop (S (length (l1 ++ l2))) t.
Proof.
  intros H. unfold splice. rewrite take_app_length. rewrite <- !app_assoc. do 2 f_equal. simpl. f_equal.
  rewrite drop_app_ge by lia. rewrite !length_app. simpl.
  replace (length l1 + (length l2 + 1) - length l1)%nat with (S (length l2)) by lia. simpl.
  rewrite drop_drop. done.
Qed.

Lemma wp_into_array {S} l (m : Exec (list Z) unit) l' (Q : list Z -> S -> Prop) (s : S) :
  m l = Done tt l' -> Q l' s -> wp (into_array l m) Q s.
Proof. intros E HQ. unfold wp, into_array. by rewrite E. Qed.

(** ** Strings *)

(** The array of [n] cells holds the string [l], with its terminator. *)
Definition holds (n : nat) (array l : list Z) : Prop :=
  chars l /\ length array = n /\ exists rest, array = l ++ 0 :: rest.

(** Sizes of the arrays of a program. *)
Definition small (n : nat) : Prop := Z.of_nat n < 2 ^ 62.

Lemma holds_gives {S} n (a l : list Z) (s : S) : holds n a l -> gives (cell a) 0 l s.
Proof. intros (_ & _ & rest & ->). apply cell_gives. Qed.

Section Strings.
Context {S : Type}.
Implicit Types (s : S) (l a b d : list Z) (n m : nat).

Lemma holds_length n a l : holds n a l -> (length l < n)%nat.
Proof. intros (_ & <- & rest & ->). rewrite length_app. simpl. lia. Qed.

Lemma holds_string l rest : chars l -> holds (length (l ++ 0 :: rest)) (l ++ 0 :: rest) l.
Proof. intros H. split; [done|]. split; [done|]. by exists rest. Qed.

Lemma holds_zeroed n : (0 < n)%nat -> holds n (zeroed n) [].
Proof.
  intros H. split; [constructor|]. split; [apply length_replicate|]. destruct n as [|n]; [lia|]. by exists (zeroed n).
Qed.

Lemma array_strlen_holds n a l s : small n -> holds n a l -> array_strlen a s = Done (Z.of_nat (length l)) s.
Proof.
  intros Hn H. pose proof (holds_length _ _ _ H). pose proof H as (Hc & Hl & _). unfold array_strlen, array_fuel, small in *.
  rewrite (strlen_loop_gives _ _ _ _ l); [done|done|by eapply holds_gives|lia..].
Qed.

Lemma text_of_holds n a l s : small n -> holds n a l -> text_of a s = Done l s.
Proof.
  intros Hn H. unfold text_of, mbind, exec_bind. change (strlen_loop (cell a) (array_fuel a) 0 0) with (@array_strlen S a).
  rewrite (array_strlen_holds n a l) by done. destruct H as (_ & _ & rest & ->). by rewrite Nat2Z.id, take_app_length.
Qed.

(** Copying the string [b] to the end of the string [l] of an array. *)
Lemma copy_at_end n m d l a b :
  small m -> holds n d l -> holds m a b -> (length l + length b < n)%nat -> small n ->
  exists d', copy_loop (cell a) set_cell (array_fuel a) (Z.of_nat (length l)) 0 d = Done tt d' /\ holds n d' (l ++ b).
Proof.
  intros Hm Hd Ha Hlen Hn. pose proof (holds_length _ _ _ Ha). pose proof Ha as (Hb & Hma & _).
  destruct Hd as (Hl & Hnd & rest & ->). unfold small in *.
  exists (splice (length l) (b ++ [0]) (l ++ 0 :: rest)). split.
  - apply wp_copy_array; [done| |split; lia|unfold array_fuel; lia|rewrite Hnd; lia|lia].
    intros i c t' Hi. exact (holds_gives m a b t' Ha i c Hi).
  - split; [by apply Forall_app|]. split; [rewrite splice_length; [done|rewrite length_app; simpl; lia]|].
    exists (drop (length l + length (b ++ [0])) (l ++ 0 :: rest)). unfold splice. rewrite take_app_length.
    rewrite <- !app_assoc. reflexivity.
Qed.

Lemma array_strcat_holds n m d l a b s :
  small n -> small m -> holds n d l -> holds m a b -> (length l + length b < n)%nat ->
  exists d', array_strcat d a s = Done d' s /\ holds n d' (l ++ b).
Proof.
  intros Hn Hm Hd Ha Hlen. destruct (copy_at_end n m d l a b) as (d' & E & H); [done..|]. exists d'. split; [|done].
  pose proof Hd as (Hl & Hnd & rest & ->). unfold array_strcat, into_array, mbind, exec_bind, small, array_fuel in *.
  rewrite (end_of_gives _ _ _ l); [|done|apply get_cell_gives|lia|lia|lia]. by rewrite Z.add_0_l, E.
Qed.

Lemma array_strcpy_holds n m d l a b s :
  small n -> small m -> holds n d l -> holds m a b -> (length b < n)%nat ->
  exists d', array_strcpy d a s = Done d' s /\ holds n d' b.
Proof.
  intros Hn Hm (_ & Hnd & _) Ha Hlen. pose proof (holds_length _ _ _ Ha). pose proof Ha as (Hb & Hma & _). unfold small in *.
  exists (splice 0 (b ++ [0]) d). split.
  - unfold array_strcpy, into_array. rewrite (wp_copy_array _ _ 0 0 b d); [done|done| |split; lia|unfold array_fuel; lia|lia|lia].
    intros i c t' Hi. exact (holds_gives m a b t' Ha i c Hi).
  - split; [done|]. split; [rewrite splice_length; [done|rewrite length_app; simpl; lia]|].
    exists (drop (Datatypes.S (length b)) d). apply splice_start.
Qed.

(** A string constant. *)
Lemma holds_constant l : chars l -> holds (Datatypes.S (length l)) (l ++ [0]) l.
Proof. intros H. split; [done|]. split; [rewrite length_app; simpl; lia|]. by exists []. Qed.
End Strings.

(** ** Cell by cell *)

Lemma cell_lookup {S} (l : list Z) i c (s : S) : l !! i = Some c -> cell l (Z.of_nat i) s = Done c s.
Proof.
  intros H. unfold cell, array_get. destruct (Z.ltb_spec (Z.of_nat i) 0); [lia|]. by rewrite Nat2Z.id, H.
Qed.

Section Cells.
Context {S : Type}.
Implicit Types (s : S) (l a b d : list Z) (n m i : nat).

Lemma array_set_nat l i c : (i < length l)%nat -> array_set l (Z.of_nat i) c = Some (<[i := c]> l).
Proof.
  intros H. unfold array_set. destruct (Z.leb_spec 0 (Z.of_nat i)); [|lia].
  destruct (Z.ltb_spec (Z.of_nat i) (Z.of_nat (length l))); [|lia]. by rewrite Nat2Z.id.
Qed.

Lemma set_element_nat l i c s : (i < length l)%nat -> set_element l (Z.of_nat i) c s = Done (<[i := c]> l) s.
Proof. intros H. unfold set_element. by rewrite array_set_nat. Qed.

Lemma copy_cells_suffix n d a s i :
  length d = (i + n)%nat -> length a = (i + n)%nat ->
  copy_cells n (Z.of_nat i) d a s = Done (take i d ++ drop i a) s.
Proof.
  revert d i. induction n as [|n IH]; intros d i Hd Ha; cbn [copy_cells].
  { rewrite take_ge, drop_ge by lia. by rewrite app_nil_r. }
  destruct (lookup_lt_is_Some_2 a i) as [c Hc]; [lia|]. unfold mbind, exec_bind.
  rewrite (cell_lookup _ _ _ _ Hc), set_element_nat by lia. replace (Z.of_nat i + 1) with (Z.of_nat (Datatypes.S i)) by lia.
  rewrite IH; [|rewrite length_insert; lia|lia]. f_equal.
  rewrite (take_S_r _ i c) by (apply list_lookup_insert_eq; lia). rewrite take_insert_ge by lia.
  rewrite <- app_assoc. f_equal. by rewrite (drop_S _ c i).
Qed.

(** A copy of the whole array. *)
Lemma array_memcpy_all n d a s :
  (0 < n)%nat -> length d = n -> length a = n -> array_memcpy d a (Z.of_nat n) s = Done a s.
Proof.
  intros Hn Hd Ha. unfold array_memcpy. replace (Z.to_nat (Z.max 1 (Z.of_nat n))) with n by lia.
  by apply (copy_cells_suffix n d a s 0).
Qed.
End Cells.

(** ** Splitting *)

Section Splitting.
Context {S : Type}.
Implicit Types (l a b : list Z) (i n : nat).

(** Characters of a line. *)
Definition in_line (c : Z) : Prop := ends_line c = false.

Lemma set_first_nat i c a b : (i < length a)%nat -> set_first (Z.of_nat i) c (a, b) = Done tt (<[i := c]> a, b).
Proof. intros H. unfold set_first, mbind, exec_bind, gets. cbn [fst]. by rewrite array_set_nat. Qed.

Lemma set_second_nat i c a b : (i < length b)%nat -> set_second (Z.of_nat i) c (a, b) = Done tt (a, <[i := c]> b).
Proof. intros H. unfold set_second, mbind, exec_bind, gets. cbn [snd]. by rewrite array_set_nat. Qed.

(** The cells of the array from [p] on hold the line [l]. *)
Definition rest_of_line (src : list Z) (p : nat) (l : list Z) : Prop :=
  Forall in_line l /\ exists rest, drop p src = l ++ 0 :: rest.

Lemma rest_of_line_nil src p : rest_of_line src p [] -> src !! p = Some 0.
Proof. intros (_ & rest & H). rewrite <- (Nat.add_0_r p), <- lookup_drop, H. done. Qed.

Lemma rest_of_line_cons src p c l :
  rest_of_line src p (c :: l) -> src !! p = Some c /\ in_line c /\ rest_of_line src (Datatypes.S p) l.
Proof.
  intros (Hl & rest & H). apply Forall_cons in Hl as [Hc Hl]. split; [rewrite <- (Nat.add_0_r p), <- lookup_drop, H; done|].
  split; [done|]. split; [done|]. exists rest. rewrite <- Nat.add_1_r, <- drop_drop, H. done.
Qed.

Lemma split_rest_array fuel src dest2 p l a b :
  rest_of_line src p l -> (length l < fuel)%nat -> (dest2 + length l <= length b)%nat ->
  small (p + length l) -> small (dest2 + length l) ->
  split_rest (cell src) set_second fuel (Z.of_nat dest2) (Z.of_nat p) (a, b)
  = Done (Z.of_nat (dest2 + length l), Z.of_nat (p + length l)) (a, splice dest2 l b).
Proof.
  unfold small. revert dest2 p l b. induction fuel as [|fuel IH]; intros dest2 p l b Hl Hf Hb Hp Hd; [lia|].
  cbn [split_rest]. unfold mbind, exec_bind at 1. destruct l as [|c l].
  - rewrite (cell_lookup _ _ 0) by by apply rest_of_line_nil. cbn [length]. rewrite !Nat.add_0_r. unfold splice.
    simpl. by rewrite Nat.add_0_r, take_drop.
  - apply rest_of_line_cons in Hl as (Hc & Hin & Hl). rewrite (cell_lookup _ _ c) by done. unfold in_line in Hin.
    rewrite Hin. simpl in *. unfold exec_bind. rewrite set_second_nat by lia. rewrite !u64_id by lia.
    replace (Z.of_nat dest2 + 1) with (Z.of_nat (Datatypes.S dest2)) by lia.
    replace (Z.of_nat p + 1) with (Z.of_nat (Datatypes.S p)) by lia.
    rewrite (IH _ _ l); [|done|lia|rewrite length_insert; lia|lia|lia].
    rewrite splice_cons by (simpl; lia). f_equal. f_equal; lia.
Qed.

Lemma fields_length d l :
  match fields d l with
  | (w, None) => length w = length l
  | (w, Some rest) => (length w + Datatypes.S (length rest) = length l)%nat
  end.
Proof.
  induction l as [|c l IH]; simpl; [done|]. destruct (c =? d); [done|]. destruct (fields d l) as [w [rest|]]; simpl in *; lia.
Qed.

Lemma fields_Forall (P : Z -> Prop) d l :
  Forall P l -> Forall P (fields d l).1 /\ Forall P (default [] (fields d l).2).
Proof.
  induction 1 as [|c l Hc Hl [IH1 IH2]]; simpl; [by split|]. destruct (c =? d); [by split|].
  destruct (fields d l) as [w [rest|]]; simpl in *; split; try done; by constructor.
Qed.

(** What the destinations hold afterwards, the first from [dest1] on. *)
Definition split_arrays (d : Z) (l : list Z) (dest1 : nat) (a b : list Z) : list Z * list Z :=
  match fields d l with
  | (w, None) => (splice dest1 w a, b)
  | (w, Some rest) => (splice dest1 (w ++ [0]) a, splice 0 rest b)
  end.

Lemma split_loop_array fuel src d dest1 p l a b :
  rest_of_line src p l -> (length l + 1 < fuel)%nat -> (dest1 + length l < length a)%nat -> (length l <= length b)%nat ->
  small (p + length l) -> small (length a) -> small (length b) ->
  split_loop (cell src) set_first set_second (fun _ _ => stuck) fuel d (Z.of_nat dest1) 0 (Z.of_nat p) (a, b)
  = Done tt (split_arrays d l dest1 a b).
Proof.
  unfold small. revert dest1 p l a. induction fuel as [|fuel IH]; intros dest1 p l a Hl Hf Ha Hb Hp Hsa Hsb; [lia|].
  cbn [split_loop]. unfold mbind, exec_bind at 1. unfold split_arrays. destruct l as [|c l].
  { rewrite (cell_lookup _ _ 0) by by apply rest_of_line_nil. simpl. unfold splice. simpl. by rewrite Nat.add_0_r, take_drop. }
  apply rest_of_line_cons in Hl as (Hc & Hin & Hl). rewrite (cell_lookup _ _ c) by done. unfold in_line in Hin.
  rewrite Hin. simpl in Hf, Ha, Hb, Hp. cbn [fields]. destruct (Z.eqb_spec c d); unfold exec_bind.
  - rewrite set_first_nat by lia. cbv zeta. rewrite u64_id by lia.
    replace (Z.of_nat p + 1) with (Z.of_nat (Datatypes.S p)) by lia.
    rewrite (split_rest_array _ _ 0 _ l); [|done|unfold small; simpl; lia..]. cbv beta.
    destruct fuel as [|fuel]; [lia|]. cbn [split_loop]. unfold mbind, exec_bind at 1.
    rewrite (cell_lookup _ _ 0).
    + unfold splice. simpl. by rewrite insert_take_drop, Nat.add_1_r by lia.
    + destruct Hl as (_ & rest & Hr). replace (Datatypes.S p + length l)%nat with (Datatypes.S p + (length l + 0))%nat by lia.
      rewrite <- lookup_drop, Hr. by rewrite lookup_app_r, Nat.add_0_r, Nat.sub_diag by lia.
  - rewrite set_first_nat by lia. rewrite !u64_id by lia.
    replace (Z.of_nat dest1 + 1) with (Z.of_nat (Datatypes.S dest1)) by lia.
    replace (Z.of_nat p + 1) with (Z.of_nat (Datatypes.S p)) by lia.
    rewrite (IH _ _ l); [|done|lia|rewrite length_insert; lia|lia|lia|by rewrite length_insert|lia]. f_equal.
    unfold split_arrays. pose proof (fields_length d l) as Hw. destruct (fields d l) as [w [rest|]]; simpl in Hw.
    + by rewrite splice_cons by (simpl; rewrite length_app; simpl; lia).
    + by rewrite splice_cons by (simpl; lia).
Qed.

Lemma holds_splice n w a : chars w -> length a = n -> (length w < n)%nat -> holds n (splice 0 (w ++ [0]) a) w.
Proof.
  intros Hw Ha Hn. split; [done|]. split; [rewrite splice_length; [done|rewrite length_app; simpl; lia]|].
  rewrite splice_start. by eexists.
Qed.

Lemma holds_splice_zeroed n w : chars w -> (length w < n)%nat -> holds n (splice 0 w (zeroed n)) w.
Proof.
  intros Hw Hn. unfold zeroed. split; [done|]. split; [rewrite splice_length; rewrite length_replicate; [done|lia]|].
  destruct (n - length w)%nat as [|k] eqn:E; [lia|]. exists (replicate k 0).
  unfold splice. simpl. by rewrite drop_replicate, E.
Qed.

(** Into cleared arrays that are large enough. *)
Lemma array_strsplit_holds m n1 n2 src d l (s : S) :
  holds m src l -> Forall in_line l -> (length l < n1)%nat -> (length l < n2)%nat -> small m -> small n1 -> small n2 ->
  exists a b, array_strsplit src d (zeroed n1) (zeroed n2) s = Done (a, b) s /\
    holds n1 a (fields d l).1 /\ holds n2 b (default [] (fields d l).2).
Proof.
  intros Hsrc Hl H1 H2 Hm Hn1 Hn2. pose proof (holds_length _ _ _ Hsrc). destruct Hsrc as (Hc & Hlen & rest & Hr).
  assert (Hz : forall n, length (zeroed n) = n) by (intros n; apply length_replicate). unfold array_strsplit.
  pose proof (split_loop_array (array_fuel src) src d 0 0 l (zeroed n1) (zeroed n2)) as E. change (Z.of_nat 0) with 0 in E. rewrite E; clear E;
    [|by split; [|exists rest]|unfold array_fuel; lia|rewrite Hz; lia|rewrite Hz; lia
     |unfold small in *; simpl; lia|by rewrite Hz|by rewrite Hz].
  pose proof (fields_length d l) as Hf. destruct (fields_Forall (fun c => 0 < c < 2 ^ 8) d l Hc) as [Hw Hb].
  unfold split_arrays. destruct (fields d l) as [w [r|]]; simpl in *; do 2 eexists; (split; [reflexivity|split]).
  - apply holds_splice; [done|done|lia].
  - apply holds_splice_zeroed; [done|lia].
  - apply holds_splice_zeroed; [done|lia].
  - apply holds_zeroed. lia.
Qed.
End Splitting.
