(* ===== verification/User.v ===== *)
(** * User programs and the system calls

    A program above the kernel computes on its own variables and asks the kernel
    for the rest.  [System] gives the effect of a call on the world of the
    program; [None] means that the call does not come back: the process has
    ended, or runs another program.  The call carries what its arguments point
    to: a string its characters, a buffer its array.  [common/user_syscalls.h]
    declares the functions; their bodies put the number of the call in a
    register and raise the exception. *)

From Stdlib Require Import Strings.String.
From S2P Require Import Prelude Exec Kernel Devices Memory Cstring Arrays.

Inductive syscall : Type :=
  | Write (text : list Z)
  | WriteHex (number : Z)
  | Input (len : Z)
  | CreateDir (path : list Z)
  | OpenDir (path : list Z)
  | OpenFile (path : list Z) (flags : Z)
  | CloseFile (file_descriptor : Z)
  | WriteFile (file_descriptor : Z) (buffer : list Z) (len : Z)
  | ReadFile (file_descriptor len : Z)
  | GetNextEntry (file_descriptor : Z)
  | Exit
  | Fork
  | Yield
  | Execute (path : list Z) (arguments : list (list Z))
  | Wait (pid : Z)
  | SendMessage (destination_pid : Z) (body : list Z)
  | ReceiveMessage
  | SendSignal (destination_pid signal_flag : Z)
  | SetSchedParam (pid param value : Z)
  | GetTime.

(** What a call leaves: the register of the result, the bytes stored from the
    start of the buffer of the caller, and the number stored in a second
    location of the caller. *)
Record reply : Type := mkReply { value : Z; stored : list Z; number : Z }.

Class System (W : Type) : Type := request : syscall -> Exec W (option reply).

(** ** Programs *)

(** [None]: the process is over. *)
Definition User (W A : Type) : Type := Exec W (option A).

#[export] Instance user_ret W : MRet (User W) := fun A a w => Done (Some a) w.

#[export] Instance user_bind W : MBind (User W) := fun A B f m w =>
  match m w with
  | Done (Some a) w => f a w
  | Done None w => Done None w
  | Stuck => Stuck
  | OutOfFuel => OutOfFuel
  end.

Section Calls.
Context {W : Type} `{!System W}.
Implicit Types (buffer path : list Z) (pid len : Z).

(** A computation on the variables of the program. *)
Definition local {A} (m : Exec W A) : User W A := fun w =>
  match m w with
  | Done a w => Done (Some a) w
  | Stuck => Stuck
  | OutOfFuel => OutOfFuel
  end.

Definition no_fuel {A} : User W A := fun _ => OutOfFuel.

Definition call (c : syscall) : User W reply := request c.

(** The array [buffer] with [l] stored from its start. *)
Definition store_reply (l buffer : list Z) : User W (list Z) :=
  local (defined (if decide (length l <= length buffer)%nat then Some (l ++ drop (length l) buffer) else None)).

(** The array of a string constant. *)
Definition constant (s : string) : list Z := literal s ++ [0].

(** Calls of type [void]. *)
Definition ignore (c : syscall) : User W unit := _ ← call c; mret tt.

(** Calls whose result is an [int]. *)
Definition result (c : syscall) : User W Z := r ← call c; mret (s32 (value r)).

Definition call_syscall_write buffer : User W unit :=
  text ← local (text_of buffer);
  ignore (Write text).

Definition call_syscall_write_hex (number : Z) : User W unit := ignore (WriteHex number).

(** The result and the buffer. *)
Definition call_syscall_input buffer len : User W (Z * list Z) :=
  r ← call (Input len);
  buffer ← store_reply (stored r) buffer;
  mret (s32 (value r), buffer).

Definition call_syscall_create_dir path : User W Z := path ← local (text_of path); result (CreateDir path).

Definition call_syscall_open_dir path : User W Z := path ← local (text_of path); result (OpenDir path).

Definition call_syscall_open_file path (flags : Z) : User W Z :=
  path ← local (text_of path);
  result (OpenFile path (u8 flags)).

Definition call_syscall_close_file (file_descriptor : Z) : User W Z := result (CloseFile file_descriptor).

(** The result and [*bytes]. *)
Definition call_syscall_write_file (file_descriptor : Z) buffer len : User W (Z * Z) :=
  r ← call (WriteFile file_descriptor buffer len);
  mret (s32 (value r), number r).

(** The result, the buffer and [*bytes]. *)
Definition call_syscall_read_file (file_descriptor : Z) buffer len : User W (Z * list Z * Z) :=
  r ← call (ReadFile file_descriptor len);
  buffer ← store_reply (stored r) buffer;
  mret (s32 (value r), buffer, number r).

(** The result, the name and [is_dir] of [*entry_info]. *)
Definition call_syscall_get_next_entry (file_descriptor : Z) (name : list Z) : User W (Z * list Z * Z) :=
  r ← call (GetNextEntry file_descriptor);
  name ← store_reply (stored r) name;
  mret (s32 (value r), name, number r).

Definition call_syscall_exit : User W unit := ignore Exit.

Definition call_syscall_fork : User W Z := result Fork.

Definition call_syscall_yield : User W unit := ignore Yield.

(** The strings of the first [n] rows. *)
Fixpoint rows_text (n : nat) (rows : list (list Z)) : User W (list (list Z)) :=
  match n with
  | O => mret []
  | S n =>
    match rows with
    | [] => local stuck
    | row :: rows =>
      text ← local (text_of row);
      texts ← rows_text n rows;
      mret (text :: texts)
    end
  end.

Definition call_syscall_exec path (n_arguments : Z) (arguments : list (list Z)) : User W Z :=
  path ← local (text_of path);
  texts ← rows_text (Z.to_nat n_arguments) arguments;
  result (Execute path texts).

Definition call_syscall_wait pid : User W Z := result (Wait pid).

Definition call_syscall_send_message (destination_pid : Z) (body : list Z) : User W Z :=
  body ← local (text_of body);
  result (SendMessage destination_pid body).

Definition call_syscall_receive_message (body : list Z) : User W (list Z) :=
  r ← call ReceiveMessage;
  store_reply (stored r) body.

Definition call_syscall_send_signal (destination_pid signal_flag : Z) : User W Z :=
  result (SendSignal destination_pid signal_flag).

Definition call_syscall_set_sched_param pid (param value : Z) : User W Z := result (SetSchedParam pid param value).

(** An [unsigned long]. *)
Definition call_syscall_get_time : User W Z := r ← call GetTime; mret (u64 (value r)).

(** [if (b) m;], a result being dropped. *)
Definition run_if {A} (b : bool) (m : User W A) : User W unit := if b then _ ← m; mret tt else mret tt.

(** [call_syscall_write] of a string constant, and of one that ends the line. *)
Definition say (s : string) : User W unit := call_syscall_write (constant s).
Definition say_line (s : string) : User W unit := say (s ++ String (Ascii.ascii_of_nat 10) EmptyString).
End Calls.

(** ** Rules

    [uwp m Q E]: [m] runs without undefined behaviour and ends with [Q], or the
    process is over with [E]. *)

Definition uwp {W A} (m : User W A) (Q : A -> W -> Prop) (E : W -> Prop) (w : W) : Prop :=
  wp m (fun r w => match r with Some a => Q a w | None => E w end) w.

Section Rules.
Context {W : Type} `{!System W}.
Implicit Types (w : W) (E : W -> Prop).

Lemma uwp_ret {A} (a : A) (Q : A -> W -> Prop) E w : Q a w -> uwp (mret a) Q E w.
Proof. done. Qed.

Lemma uwp_bind {A B} (m : User W A) (f : A -> User W B) Q E w :
  uwp m (fun a w => uwp (f a) Q E w) E w -> uwp (m ≫= f) Q E w.
Proof. unfold uwp, wp, mbind, user_bind. by destruct (m w) as [[a|] w'| |]. Qed.

(** What follows is undefined behaviour. *)
Lemma bind_stuck {A B} (m : User W A) (f : A -> User W B) w :
  uwp m (fun a w => f a w = Stuck) (fun _ => False) w -> (m ≫= f) w = Stuck.
Proof. unfold uwp, wp, mbind, user_bind. by destruct (m w) as [[a|] w'| |]. Qed.

Lemma uwp_mono {A} (m : User W A) (P Q : A -> W -> Prop) E F w :
  uwp m P E w -> (forall a w, P a w -> Q a w) -> (forall w, E w -> F w) -> uwp m Q F w.
Proof. intros H HQ HE. eapply wp_mono; [exact H|]. intros [a|] w' Ha; auto. Qed.

Lemma uwp_local {A} (m : Exec W A) a (Q : A -> W -> Prop) E w : m w = Done a w -> Q a w -> uwp (local m) Q E w.
Proof. intros H HQ. unfold uwp, wp, local. by rewrite H. Qed.

Lemma uwp_request c (Q : reply -> W -> Prop) E w :
  wp (request c) (fun r w => match r with Some r => Q r w | None => E w end) w -> uwp (call c) Q E w.
Proof. done. Qed.

Lemma uwp_ignore c (Q : unit -> W -> Prop) E w : uwp (call c) (fun _ w => Q tt w) E w -> uwp (ignore c) Q E w.
Proof. intros H. unfold ignore. by apply uwp_bind. Qed.

Lemma uwp_result c (Q : Z -> W -> Prop) E w : uwp (call c) (fun r w => Q (s32 (value r)) w) E w -> uwp (result c) Q E w.
Proof. intros H. unfold result. by apply uwp_bind. Qed.

Lemma uwp_text n a l (Q : list Z -> W -> Prop) E w : small n -> holds n a l -> Q l w -> uwp (local (text_of a)) Q E w.
Proof. intros Hn Ha HQ. by apply (uwp_local _ l); [eapply text_of_holds|]. Qed.

Lemma uwp_write n a l (Q : unit -> W -> Prop) E w :
  small n -> holds n a l -> uwp (call (Write l)) (fun _ w => Q tt w) E w -> uwp (call_syscall_write a) Q E w.
Proof. intros Hn Ha H. apply uwp_bind, (uwp_text n a l); [done..|]. by apply uwp_ignore. Qed.

Lemma uwp_say s (Q : unit -> W -> Prop) E w :
  chars (literal s) -> small (S (length (literal s))) -> uwp (call (Write (literal s))) (fun _ w => Q tt w) E w ->
  uwp (say s) Q E w.
Proof. intros Hs Hn H. by apply (uwp_write (S (length (literal s))) _ (literal s)); [|apply holds_constant|]. Qed.
End Rules.

(** ** A kernel that answers

    The world is the list of the calls so far; the kernel answers from it. *)

Section Transcript.
Context (answer : list syscall -> syscall -> option reply).

Definition transcript : System (list syscall) := fun c h => Done (answer h c) (h ++ [c]).

Lemma uwp_call c (Q : reply -> list syscall -> Prop) E h :
  match answer h c with Some r => Q r (h ++ [c]) | None => E (h ++ [c]) end -> uwp (call (System0 := transcript) c) Q E h.
Proof. done. Qed.
End Transcript.
