(* ===== verification/Programs.v ===== *)
(** * The user programs

    The first process ([user/user.c]), the library function that creates a
    process with its scheduling parameters ([common/process_api.c]) and the
    programs of [app/], the shell apart.  Each [main] has the name of its file.
    An array that is not initialised is a parameter. *)

From Stdlib Require Import Strings.String.
From S2P Require Import Prelude Exec Kernel Devices Memory Cstring Arrays User.

Section Programs.
Context {W : Type} `{!System W}.

(** ** [user/user.c] *)

Definition init_process_main : User W unit :=
  pid ← call_syscall_fork;
  if pid =? 0 then
    error ← call_syscall_exec (constant "/bin/shell.bin") 0 [];
    run_if (negb (error =? 0)) (say_line "[INIT] Cannot start shell binary";; call_syscall_exit)
  else
    say_line "[INIT] Init process started ";;
    _ ← call_syscall_wait pid;
    call_syscall_exit.

(** ** [common/process_api.c] *)

Definition spawn_process (path : list Z) (priority tickets queue_priority : Z) : User W Z :=
  pid ← call_syscall_fork;
  if pid <? 0 then mret (-1) else
  if pid =? 0 then
    error ← call_syscall_exec path 0 [];
    run_if (negb (error =? 0)) call_syscall_exit;;
    mret 0
  else
    run_if (0 <=? priority) (call_syscall_set_sched_param pid SCHED_PARAM_PRIORITY priority);;
    run_if (0 <=? tickets) (call_syscall_set_sched_param pid SCHED_PARAM_TICKETS tickets);;
    run_if (0 <=? queue_priority) (call_syscall_set_sched_param pid SCHED_PARAM_QUEUE_PRIORITY queue_priority);;
    mret pid.

(** ** [app/run_all.c] *)

Definition NUM_PROCESSES : nat := 4.

(** The two loops, [n] iterations being left. *)
Fixpoint spawn_all (n : nat) (i : Z) (pids : list Z) : User W (list Z) :=
  match n with
  | O => mret pids
  | S n =>
    pid ← spawn_process (constant "/bin/benchmark.bin") (i + 1) ((i + 1) * 10) i;
    if pid <? 0 then
      say_line "[RUN_ALL] Error: unable to start the binary!";;
      spawn_all n (i + 1) pids
    else
      pids ← local (set_element pids i pid);
      spawn_all n (i + 1) pids
  end.

Fixpoint wait_all (n : nat) (i : Z) (pids : list Z) : User W unit :=
  match n with
  | O => mret tt
  | S n =>
    pid ← local (cell pids i);
    _ ← call_syscall_wait pid;
    wait_all n (i + 1) pids
  end.

(** [pids] is what the array holds before. *)
Definition run_all (pids : list Z) : User W unit :=
  say_line "[RUN_ALL] Starting multiple load test...";;
  pids ← spawn_all NUM_PROCESSES 0 pids;
  say_line "[RUN_ALL] All processes started. Waiting for completion...";;
  wait_all NUM_PROCESSES 0 pids;;
  say_line "[RUN_ALL] Test completed! All processes have terminated.";;
  call_syscall_exit.

(** ** [app/benchmark.c] *)

Section Benchmark.
(** [fuel] bounds the subtractions of one divisor. *)
Context (fuel : nat).

(** [while (num >= divisor)] *)
Fixpoint count_down (n : nat) (num divisor count : Z) : User W (Z * Z) :=
  if num <? divisor then mret (num, count) else
  match n with
  | O => no_fuel
  | S n => count_down n (u64 (num - divisor)) divisor (s32 (count + 1))
  end.

Definition divisors : list Z := [1000000000; 100000000; 10000000; 1000000; 100000; 10000; 1000; 100; 10; 1].

(** The loop over the divisors. *)
Fixpoint digits_loop (ds : list Z) (num i : Z) (started : bool) (buffer : list Z) : User W (Z * list Z) :=
  match ds with
  | [] => mret (i, buffer)
  | d :: ds =>
    '(num, count) ← count_down fuel num d 0;
    if (0 <? count) || started then
      buffer ← local (set_element buffer i (u8 (count + 48)));
      digits_loop ds num (i + 1) true buffer
    else digits_loop ds num i started buffer
  end.

(** [buffer] is what the array of 32 characters holds before. *)
Definition print_int (buffer : list Z) (num : Z) : User W unit :=
  if num =? 0 then say "0" else
  '(i, buffer) ← digits_loop divisors num 0 false buffer;
  buffer ← local (set_element buffer i 0);
  call_syscall_write buffer.

(** [calcolo += i; calcolo ^= (i % 3)], [n] times. *)
Fixpoint calculation (n : nat) (i calcolo : Z) : Z :=
  match n with
  | O => calcolo
  | S n => calculation n (i + 1) (Z.lxor (s32 (calcolo + i)) (Z.rem i 3))
  end.

(** The value calculated is not used. *)
Definition benchmark (buffer : list Z) : User W unit :=
  start_time ← call_syscall_get_time;
  let calcolo := calculation (Z.to_nat 50000000) 0 0 in
  end_time ← call_syscall_get_time;
  say "Benchmark completed! Time elapsed (microseconds): ";;
  print_int buffer (u64 (end_time - start_time));;
  say_line EmptyString;;
  call_syscall_exit.
End Benchmark.

(** ** [app/fork_test.c] *)

(** The two loops, [n] messages or the messages being left. *)
Fixpoint receive_messages (n : nat) : User W unit :=
  match n with
  | O => mret tt
  | S n =>
    buffer ← call_syscall_receive_message (zeroed 64);
    say "[FATHER] Message received from FATHER: '";;
    call_syscall_write buffer;;
    say_line "'.";;
    receive_messages n
  end.

Fixpoint send_messages (messages : list string) (pid : Z) : User W unit :=
  match messages with
  | [] => mret tt
  | m :: messages =>
    ok ← call_syscall_send_message pid (constant m);
    if ok =? -1 then say_line "[SON] Error sending message to SON." else
    say "[SON] Message '";;
    say m;;
    say_line "' sent to SON.";;
    send_messages messages pid
  end.

Definition fork_test : User W unit :=
  pid ← call_syscall_fork;
  (if pid =? 0 then
     call_syscall_yield;;
     receive_messages 5;;
     call_syscall_exit
   else
     say_line "[SON] Sending message to SON";;
     send_messages ["hello"; "world"; "demoos"; "is"; "great!"]%string pid;;
     say_line "[SON] I sent all the messages");;
  call_syscall_exit.

(** ** [app/signals_test.c] *)

(** [while (1)] *)
Fixpoint use_cpu (n : nat) : User W unit :=
  match n with
  | O => no_fuel
  | S n =>
    say_line "[SON] I am the son and I'm using the CPU just for fun";;
    call_syscall_yield;;
    use_cpu n
  end.

Definition signals_test (fuel : nat) : User W unit :=
  pid ← call_syscall_fork;
  (if pid =? 0 then
     say_line "[SON] Started...";;
     use_cpu fuel;;
     say_line "[SON] This line should never be printed"
   else
     call_syscall_yield;;
     _ ← call_syscall_send_signal pid SIGNAL_KILL;
     say_line "[FATHER] I terminate my son.");;
  call_syscall_exit.

(** ** [app/arguments_test.c] *)

Definition arguments_test (n_arguments : Z) (arg1 arg2 : list Z) : User W unit :=
  say_line ("[TEST]" ++ String (Ascii.ascii_of_nat 10) "I'm loaded from the filesystem.");;
  say "TEST ARGUMENTS NUMBER (EXPECTED 1) - ";;
  (if n_arguments =? 1 then say_line "SUCCESS" else say_line "FAIL");;
  say "Argument 1: ";;
  call_syscall_write arg1;;
  say_line EmptyString;;
  say "Argument 2: ";;
  call_syscall_write arg2;;
  say_line EmptyString;;
  call_syscall_exit;;
  say_line "This text should never appear.".
End Programs.
