(* ===== verification/ProgramLogic.v ===== *)
(** * The user programs: proofs

    The calls of [spawn_process] and of [run_all], and the digits of
    [print_int]. *)

From Stdlib Require Import Strings.String.
From S2P Require Import Prelude Exec Kernel Devices Memory Cstring Arrays User Programs.

(** ** Creating a process *)

(** The parameters a negative value leaves alone. *)
Definition param_calls (pid priority tickets queue_priority : Z) : list syscall :=
  (if 0 <=? priority then [SetSchedParam pid SCHED_PARAM_PRIORITY priority] else []) ++
  (if 0 <=? tickets then [SetSchedParam pid SCHED_PARAM_TICKETS tickets] else []) ++
  (if 0 <=? queue_priority then [SetSchedParam pid SCHED_PARAM_QUEUE_PRIORITY queue_priority] else []).

Section Spawn.
Context (answer : list syscall -> syscall -> option reply).
#[local] Existing Instance transcript.
Implicit Types (h : list syscall) (E : list syscall -> Prop).

(** The kernel comes back from setting a parameter. *)
Definition params_return : Prop := forall h pid param v, answer h (SetSchedParam pid param v) <> None.

Context (Hparams : params_return).

Lemma uwp_set_param b pid param v (Q : unit -> list syscall -> Prop) E h :
  Q tt (h ++ if (b : bool) then [SetSchedParam pid param v] else []) ->
  uwp (run_if b (call_syscall_set_sched_param (System0 := transcript answer) pid param v)) Q E h.
Proof using Hparams.
  intros HQ. destruct b; cbn [run_if]; [|apply uwp_ret; by rewrite app_nil_r in HQ].
  apply uwp_bind, uwp_result, uwp_call. pose proof (Hparams h pid param v). by destruct (answer h _).
Qed.

Lemma uwp_spawn_parent path priority tickets queue_priority r (Q : Z -> list syscall -> Prop) E h :
  answer h Fork = Some r -> 0 < s32 (value r) ->
  Q (s32 (value r)) (h ++ Fork :: param_calls (s32 (value r)) priority tickets queue_priority) ->
  uwp (spawn_process (System0 := transcript answer) path priority tickets queue_priority) Q E h.
Proof using Hparams.
  intros Hr Hpos HQ. unfold spawn_process. apply uwp_bind, uwp_result, uwp_call. rewrite Hr.
  destruct (Z.ltb_spec (s32 (value r)) 0); [lia|]. destruct (Z.eqb_spec (s32 (value r)) 0); [lia|].
  do 3 apply uwp_bind, uwp_set_param. apply uwp_ret. revert HQ. unfold param_calls.
  match goal with |- Q _ ?a -> Q _ ?b => replace b with a; [done|] end. by rewrite <- !app_assoc.
Qed.

Lemma uwp_spawn_failed path priority tickets queue_priority r (Q : Z -> list syscall -> Prop) E h :
  answer h Fork = Some r -> s32 (value r) < 0 -> Q (-1) (h ++ [Fork]) ->
  uwp (spawn_process (System0 := transcript answer) path priority tickets queue_priority) Q E h.
Proof using.
  clear Hparams. intros Hr Hneg HQ. unfold spawn_process. apply uwp_bind, uwp_result, uwp_call. rewrite Hr.
  by destruct (Z.ltb_spec (s32 (value r)) 0); [|lia].
Qed.

(** The child. *)
Lemma spawn_child n a path priority tickets queue_priority r h :
  small n -> holds n a path -> answer h Fork = Some r -> s32 (value r) = 0 ->
  let h' := h ++ [Fork; Execute path []] in
  spawn_process (System0 := transcript answer) a priority tickets queue_priority h =
  match answer (h ++ [Fork]) (Execute path []) with
  | None => Done None h'
  | Some e => if s32 (value e) =? 0 then Done (Some 0) h' else
      match answer h' Exit with None => Done None (h ++ [Fork; Execute path []; Exit]) | Some _ => Done (Some 0) (h' ++ [Exit]) end
  end.
Proof using.
  clear Hparams. intros Hn Ha Hr H0 h'. unfold spawn_process, call_syscall_fork, call_syscall_exec, call_syscall_exit, ignore, result, call, request, transcript.
  unfold mbind, user_bind. rewrite Hr. unfold mret, user_ret. rewrite H0. change (0 <? 0) with false. change (0 =? 0) with true.
  cbv iota. unfold local. rewrite (text_of_holds n a path) by done. unfold h'.
  change (Z.to_nat 0) with 0%nat. cbn [rows_text]. unfold mret, user_ret. rewrite <- !app_assoc. simpl app.
  destruct (answer (h ++ [Fork]) _) as [e|]; [|done]. destruct (s32 (value e) =? 0); [done|]. cbn [negb run_if].
  unfold mbind, user_bind, mret, user_ret. rewrite <- !app_assoc. simpl app. by destruct (answer _ Exit).
Qed.
End Spawn.

(** ** Digits *)

Fixpoint digits (k : nat) (num : Z) : list Z :=
  match k with
  | O => []
  | S k => (num / 10 ^ Z.of_nat k + 48) :: digits k (num mod 10 ^ Z.of_nat k)
  end.

(** Without the zeros at the start. *)
Fixpoint strip (l : list Z) : list Z :=
  match l with
  | [] => []
  | c :: l' => if c =? 48 then strip l' else l
  end.

(** The number a string of digits denotes. *)
Definition parse_from (v : Z) (l : list Z) : Z := fold_left (fun v c => 10 * v + (c - 48)) l v.
Definition parse : list Z -> Z := parse_from 0.

Definition digit (c : Z) : Prop := 48 <= c < 58.

Fixpoint powers (k : nat) : list Z :=
  match k with
  | O => []
  | S k => 10 ^ Z.of_nat k :: powers k
  end.

Lemma divisors_powers : divisors = powers 10.
Proof. reflexivity. Qed.

Lemma power_bounds k num : 0 <= num < 10 ^ Z.of_nat (S k) ->
  0 < 10 ^ Z.of_nat k /\ 0 <= num / 10 ^ Z.of_nat k < 10 /\ 0 <= num mod 10 ^ Z.of_nat k < 10 ^ Z.of_nat k.
Proof.
  intros H. rewrite Nat2Z.inj_succ, Z.pow_succ_r in H by lia. assert (0 < 10 ^ Z.of_nat k) by lia. split; [done|].
  split; [|by apply Z.mod_pos_bound]. split; [apply Z.div_pos; lia|apply Z.div_lt_upper_bound; lia].
Qed.

Lemma parse_digits k num v : 0 <= num < 10 ^ Z.of_nat k -> parse_from v (digits k num) = 10 ^ Z.of_nat k * v + num.
Proof.
  revert num v. induction k as [|k IH]; intros num v H; [change (10 ^ Z.of_nat 0) with 1 in *; simpl; lia|].
  apply power_bounds in H as (Hp & Hd & Hm). unfold parse_from in *. cbn [digits fold_left]. rewrite IH by done.
  rewrite Nat2Z.inj_succ, Z.pow_succ_r by lia. pose proof (Z.div_mod num (10 ^ Z.of_nat k)). lia.
Qed.

Lemma parse_strip l : parse (strip l) = parse l.
Proof.
  induction l as [|c l IH]; [done|]. cbn [strip]. destruct (Z.eqb_spec c 48) as [->|]; [|done]. rewrite IH. done.
Qed.

Lemma digits_digit k num : 0 <= num < 10 ^ Z.of_nat k -> Forall digit (digits k num).
Proof.
  revert num. induction k as [|k IH]; intros num H; [constructor|]. apply power_bounds in H as (Hp & Hd & Hm).
  constructor; [unfold digit; lia|by apply IH].
Qed.

Lemma strip_digit l : Forall digit l -> Forall digit (strip l).
Proof. induction 1 as [|c l Hc Hl IH]; [constructor|]. cbn [strip]. destruct (c =? 48); [done|by constructor]. Qed.

Lemma strip_head l : match strip l with [] => True | c :: _ => c <> 48 end.
Proof. induction l as [|c l IH]; [done|]. cbn [strip]. by destruct (Z.eqb_spec c 48). Qed.

Section Print.
Context {W : Type} (fuel : nat).
Implicit Types (l buffer : list Z) (k i : nat) (s : W).

Lemma count_down_divides n num d c s :
  0 <= num < 2 ^ 64 -> 0 < d -> num / d <= Z.of_nat n -> 0 <= c -> c + num / d < 2 ^ 31 ->
  count_down n num d c s = Done (Some (num mod d, c + num / d)) s.
Proof.
  revert num c. induction n as [|n IH]; intros num c Hnum Hd Hn Hc Hb; cbn [count_down]; destruct (Z.ltb_spec num d) as [Hlt|Hge].
  - rewrite Z.mod_small, Z.div_small by lia. by rewrite Z.add_0_r.
  - pose proof (Z.div_str_pos num d). lia.
  - rewrite Z.mod_small, Z.div_small by lia. by rewrite Z.add_0_r.
  - assert (Hq : num / d = (num - d) / d + 1) by (replace num with (num - d + 1 * d) at 1 by lia; by rewrite Z.div_add by lia).
    pose proof (Z.div_pos (num - d) d). rewrite u64_id by lia. rewrite s32_id by lia. rewrite IH by lia.
    do 3 f_equal; [|lia]. replace num with (num - d + 1 * d) at 2 by lia. by rewrite Z.mod_add by lia.
Qed.

(** The digits of [num] from cell [i] on. *)
Lemma digits_loop_digits k num i (started : bool) buffer s :
  0 <= num < 10 ^ Z.of_nat k -> (k <= 10)%nat -> (10 <= fuel)%nat -> (i + k < length buffer)%nat ->
  let l := if started then digits k num else strip (digits k num) in
  exists buffer', digits_loop fuel (powers k) num (Z.of_nat i) started buffer s = Done (Some (Z.of_nat (i + length l), buffer')) s /\
    take (i + length l) buffer' = take i buffer ++ l /\ length buffer' = length buffer /\ (length l <= k)%nat.
Proof.
  revert num i started buffer. induction k as [|k IH]; intros num i started buffer Hnum Hk Hf Hlen.
  { exists buffer. destruct started; cbn [digits_loop powers digits strip length]; by rewrite Nat.add_0_r, app_nil_r. }
  pose proof (Z.pow_le_mono_r 10 (Z.of_nat (S k)) 10 ltac:(lia) ltac:(lia)) as Hmax.
  change (10 ^ 10) with 10000000000 in Hmax.
  apply power_bounds in Hnum as Hb. destruct Hb as (Hp & Hd & Hm). cbn [powers digits_loop digits].
  unfold mbind at 1, user_bind at 1. rewrite count_down_divides by lia. rewrite Z.add_0_l. cbn [strip].
  set (c := num / 10 ^ Z.of_nat k) in *. set (m := num mod 10 ^ Z.of_nat k) in *.
  assert (Hstep : exists buffer', (buffer ← local (set_element buffer (Z.of_nat i) (u8 (c + 48)));
      digits_loop fuel (powers k) m (Z.of_nat i + 1) true buffer) s
    = Done (Some (Z.of_nat (i + length ((c + 48)%Z :: digits k m)), buffer')) s /\
    take (i + length ((c + 48)%Z :: digits k m)) buffer' = take i buffer ++ (c + 48) :: digits k m /\ length buffer' = length buffer /\
    (length ((c + 48)%Z :: digits k m) <= S k)%nat).
  { rewrite u8_id by lia. destruct (IH m (S i) true (<[i := c + 48]> buffer)) as (buffer' & E & Ht & Hl & Hle);
      [done|lia|done|rewrite length_insert; lia|].
    exists buffer'. unfold mbind, user_bind, local. rewrite set_element_nat by lia.
    replace (Z.of_nat i + 1) with (Z.of_nat (S i)) by lia. rewrite E. cbn [length]. rewrite length_insert in Hl.
    rewrite Nat.add_succ_r. split; [done|]. split; [|split; [done|lia]]. cbn [Nat.add] in Ht. rewrite Ht.
    rewrite (take_S_r _ i (c + 48)) by (apply list_lookup_insert_eq; lia). rewrite take_insert_ge by lia.
    by rewrite <- app_assoc. }
  destruct started; [rewrite orb_true_r; exact Hstep|]. rewrite orb_false_r.
  destruct (Z.ltb_spec 0 c) as [Hpos|Hz]; destruct (Z.eqb_spec (c + 48) 48); [lia|exact Hstep| |lia].
  destruct (IH m i false buffer) as (buffer' & E & Ht & Hl & Hle); [done|lia|done|lia|].
  exists buffer'. split; [exact E|]. split; [done|]. split; [done|lia].
Qed.
End Print.

Section Print_int.
Context (answer : list syscall -> syscall -> option reply).
#[local] Existing Instance transcript.

Lemma write_done n a l h : small n -> holds n a l ->
  call_syscall_write (System0 := transcript answer) a h
  = Done (match answer h (Write l) with Some _ => Some tt | None => None end) (h ++ [Write l]).
Proof.
  intros Hn Ha. unfold call_syscall_write, mbind, user_bind, local. rewrite (text_of_holds _ _ _ _ Hn Ha).
  unfold ignore, mbind, user_bind, call, request, transcript. by destruct (answer h (Write l)).
Qed.

Lemma print_int_text fuel buffer num h :
  0 <= num < 10 ^ 10 -> (10 <= fuel)%nat -> length buffer = 32%nat ->
  exists text, print_int (System0 := transcript answer) fuel buffer num h =
    Done (match answer h (Write text) with Some _ => Some tt | None => None end) (h ++ [Write text]) /\
  Forall digit text /\ parse text = num /\ (num <> 0 -> text <> [] /\ forall c l, text = c :: l -> c <> 48).
Proof.
  intros Hnum Hf Hb. unfold print_int. destruct (Z.eqb_spec num 0) as [->|H0].
  { exists [48]. split; [|split; [by repeat constructor|done]]. apply (write_done 2); [done|].
    split; [by repeat constructor|]. split; [done|by exists []]. }
  rewrite divisors_powers. set (l := strip (digits 10 num)).
  destruct (digits_loop_digits fuel 10 num 0 false buffer h Hnum ltac:(lia) Hf ltac:(lia)) as (buffer' & E & Ht & Hl & Hle).
  fold l in E, Ht, Hle. cbn [Nat.add] in *. change (Z.of_nat 0) with 0 in E. rewrite take_0, app_nil_l in Ht.
  assert (Hd : Forall digit l) by by apply strip_digit, digits_digit.
  assert (Hp : parse l = num).
  { unfold l. rewrite parse_strip. unfold parse. rewrite parse_digits by done. lia. }
  exists l. split; [|split; [done|split; [done|]]].
  - unfold mbind at 1, user_bind at 1. rewrite E. unfold mbind at 1, user_bind at 1. unfold local at 1.
    rewrite set_element_nat by lia. apply (write_done 32); [done|]. split; [|split; [rewrite length_insert; lia|]].
    + eapply Forall_impl; [exact Hd|]. unfold digit. simpl. lia.
    + rewrite insert_take_drop by lia. rewrite Ht. by eexists.
  - intros _. split; [intros Hnil; by rewrite Hnil in Hp|]. intros c l' Hcl. pose proof (strip_head (digits 10 num)) as Hh.
    fold l in Hh. by rewrite Hcl in Hh.
Qed.
End Print_int.
