(* ===== verification/Mmu.v ===== *)
(** * The address translation of the processor

    How an AArch64 processor translates a virtual address in the configuration
    that [boot/start.S] gives it: 48-bit addresses, pages of 4 KB, four levels of
    tables of 512 descriptors.  Nothing here is taken from the kernel, whose
    tables are judged by these definitions: the numbers are those of the
    architecture.  The table in force is at a physical address; [ram] has the
    byte at the physical address [p] at [p + linear_map]. *)

From S2P Require Import Prelude Memory.

Definition linear_map : Z := 2 ^ 64 - 2 ^ 48.

(** Descriptor [i] of the table at the physical address [t]. *)
Definition descriptor (m : Z -> Z) (t i : Z) : Z := read64 m (t + linear_map + 8 * i).

(** The nine bits of a virtual address from bit [n] on: an index of a table. *)
Definition index (v n : Z) : Z := (v / 2 ^ n) `mod` 512.

(** The address in a descriptor, of a table or of [2 ^ n] bytes of memory: its
    bits from [n] to 47. *)
Definition address_field (n e : Z) : Z := (e `mod` 2 ^ 48) / 2 ^ n * 2 ^ n.

(** The walk from the table at [t] over [levels] levels and the last one.  The
    result is a physical address and the descriptor of the memory it is in.
    Bits 0 and 1 say what a descriptor is: 3 is a table, or a page at the last
    level; 1 is a block, of two megabytes or of one gigabyte, and is not valid
    elsewhere; 0 and 2 are not valid.  Memory whose access flag, bit 10, is clear
    gives a fault.  A table descriptor that limits the access to what is below
    it, in bits 59 to 63, is not followed: the kernel has none. *)
Fixpoint translation (levels : nat) (m : Z -> Z) (t v : Z) : option (Z * Z) :=
  let n := 12 + 9 * Z.of_nat levels in
  let e := descriptor m t (index v n) in
  let memory := if Z.testbit e 10 then Some (address_field n e + v `mod` 2 ^ n, e) else None in
  match levels with
  | O => if Z.land e 3 =? 3 then memory else None
  | S below =>
    if Z.land e 3 =? 3 then if e <? 2 ^ 59 then translation below m (address_field 12 e) v else None
    else if (Z.land e 3 =? 1) && (levels <=? 2)%nat then memory else None
  end.

(** The physical address and the memory type, an index into [MAIR_EL1], of the
    virtual address [v] by the tables of four levels at [t]. *)
Definition translate_any (m : Z -> Z) (t v : Z) : option (Z * Z) :=
  '(p, e) ← translation 3 m t v; Some (p, Z.land (Z.shiftr e 2) 7).

(** A program at EL0 can read and write the memory (bits 6 and 7) and run code
    in it (bit 54). *)
Definition user_access (e : Z) : bool := Z.testbit e 6 && negb (Z.testbit e 7) && negb (Z.testbit e 54).

(** The physical address of [v] to a program, by the tables at [pgd]; a process
    with no tables has no memory. *)
Definition translate (m : Z -> Z) (pgd v : Z) : option Z :=
  if pgd =? 0 then None else
  '(p, e) ← translation 3 m pgd v; if user_access e then Some p else None.

(** ** Indices *)

Lemma index_range v n : 0 <= index v n < 512.
Proof. by apply Z.mod_pos_bound. Qed.

(** Only the low 48 bits of an address select an entry. *)
Lemma index_low v n : 0 <= n <= 39 -> index v n = index (v `mod` 2 ^ 48) n.
Proof.
  intros Hn. unfold index. rewrite (Z.div_mod v (2 ^ 48)) at 1 by lia.
  replace (2 ^ 48 * (v / 2 ^ 48)) with (v / 2 ^ 48 * 2 ^ (39 - n) * 512 * 2 ^ n).
  - rewrite Z.div_add_l by (apply Z.pow_nonzero; lia). rewrite Z.add_comm. by rewrite Z_mod_plus_full.
  - change 512 with (2 ^ 9). rewrite <- !Z.mul_assoc, <- !Z.pow_add_r by lia.
    replace (39 - n + (9 + n)) with 48 by lia. apply Z.mul_comm.
Qed.

(** The number of the page of an address, and its four indices. *)
Definition page_number (v : Z) : Z := (v `mod` 2 ^ 48) / 2 ^ 12.

Lemma page_number_indices v :
  page_number v = ((index v 39 * 512 + index v 30) * 512 + index v 21) * 512 + index v 12.
Proof.
  rewrite !(index_low v) by lia. unfold page_number, index. set (p := v `mod` 2 ^ 48).
  assert (Hp : 0 <= p < 2 ^ 48) by by apply Z.mod_pos_bound. clearbody p.
  rewrite (Z.mod_small (p / 2 ^ 39)) by (Z.div_mod_to_equations; lia).
  replace (p / 2 ^ 39) with (p / 2 ^ 12 / 512 / 512 / 512) by (rewrite !Z.div_div by lia; done).
  replace (p / 2 ^ 30) with (p / 2 ^ 12 / 512 / 512) by (rewrite !Z.div_div by lia; done).
  replace (p / 2 ^ 21) with (p / 2 ^ 12 / 512) by (rewrite !Z.div_div by lia; done).
  generalize (p / 2 ^ 12). intros q. Z.div_mod_to_equations. lia.
Qed.

Lemma page_number_eq v w :
  page_number v = page_number w <->
  index v 39 = index w 39 /\ index v 30 = index w 30 /\ index v 21 = index w 21 /\ index v 12 = index w 12.
Proof.
  rewrite !page_number_indices.
  pose proof (index_range v 39). pose proof (index_range v 30). pose proof (index_range v 21). pose proof (index_range v 12).
  pose proof (index_range w 39). pose proof (index_range w 30). pose proof (index_range w 21). pose proof (index_range w 12).
  lia.
Qed.

(** The descriptor of a table or page at [a] with the flags [f] below. *)
Lemma address_field_add a f : (4096 | a) -> 0 <= a < 2 ^ 48 -> 0 <= f < 4096 -> address_field 12 (a + f) = a.
Proof.
  intros [q ->] Ha Hf. unfold address_field. change (2 ^ 12) with 4096.
  rewrite Z.mod_small by lia. rewrite Z.div_add_l, (Z.div_small f) by lia. lia.
Qed.
