(* ===== verification/Mm.v ===== *)
(** * Page allocator and page tables

    Translates [libs/mm.c]: the allocator of physical pages ([memory_pages]),
    the four-level page tables of a process and the copy of an address space.
    Page tables live in [ram]; the kernel reaches the physical address [p]
    through the virtual address [p + VA_START]. *)

From S2P Require Import Prelude Exec Kernel Memory.

(** ** Constants of mm.h and mmu.h *)

Definition VA_START : Z := 0xffff000000000000.
Definition PAGE_MASK : Z := 0xfffffffffffff000.
Definition PAGE_SHIFT : Z := 12.
Definition TABLE_SHIFT : Z := 9.
Definition SECTION_SHIFT : Z := PAGE_SHIFT + TABLE_SHIFT.
Definition PAGE_SIZE : Z := Z.shiftl 1 PAGE_SHIFT.
Definition SECTION_SIZE : Z := Z.shiftl 1 SECTION_SHIFT.
Definition PGD_SHIFT : Z := PAGE_SHIFT + 3 * TABLE_SHIFT.
Definition PUD_SHIFT : Z := PAGE_SHIFT + 2 * TABLE_SHIFT.
Definition PMD_SHIFT : Z := PAGE_SHIFT + TABLE_SHIFT.
Definition LOW_MEMORY : Z := 2 * SECTION_SIZE.
Definition HIGH_MEMORY : Z := 0x3F000000.
Definition PTRS_PER_TABLE : Z := Z.shiftl 1 TABLE_SHIFT.
Definition PAGING_MEMORY : Z := HIGH_MEMORY - LOW_MEMORY.
Definition N_PAGES : Z := PAGING_MEMORY / PAGE_SIZE.

Definition MM_TYPE_PAGE_TABLE : Z := 0x3.
Definition MM_TYPE_PAGE : Z := 0x3.
Definition MM_ACCESS : Z := Z.shiftl 0x1 10.
Definition MM_ACCESS_PERMISSION : Z := Z.shiftl 0x1 6.
Definition MT_NORMAL_NC : Z := 0x1.
Definition MMU_PTE_FLAGS : Z :=
  Z.lor (Z.lor (Z.lor MM_TYPE_PAGE (Z.shiftl MT_NORMAL_NC 2)) MM_ACCESS) MM_ACCESS_PERMISSION.

(** ** The allocator *)

(** [memory_pages[i]]: undefined outside the array. *)
Definition page_slot (i : Z) : K Z :=
  if (0 <=? i) && (i <? N_PAGES) then gets (fun s => default 0 (memory_pages s !! i)) else stuck.

Definition set_page_slot (i v : Z) : K unit :=
  _ ← page_slot i; modify (fun s => set_memory_pages (<[i := v]> (memory_pages s)) s).

(** The body of the loop of [get_free_page], from index [i]; [fuel] iterations
    are left before [N_PAGES]. *)
Fixpoint find_free_page (fuel : nat) (i : Z) : K Z :=
  match fuel with
  | O => mret 0
  | S fuel =>
    v ← page_slot i;
    if v =? 0 then
      set_page_slot i 1;;
      let page_physical_address := LOW_MEMORY + i * PAGE_SIZE in
      memzero (u64 (page_physical_address + VA_START)) PAGE_SIZE;;
      mret page_physical_address
    else find_free_page fuel (i + 1)
  end.

Definition get_free_page : K Z := find_free_page (Z.to_nat N_PAGES) 0.

Definition allocate_kernel_page : K Z :=
  page ← get_free_page;
  mret (if page =? 0 then 0 else u64 (page + VA_START)).

Definition free_page (page_kernel_address : Z) : K Z :=
  if negb (page_kernel_address `mod` PAGE_SIZE =? 0) then mret (-1) else
  memzero page_kernel_address PAGE_SIZE;;
  set_page_slot (u64 (page_kernel_address - VA_START - LOW_MEMORY) / PAGE_SIZE) 0;;
  mret 0.

(** ** Page tables *)

Definition get_mm (process : pcb_ptr) : K mm_struct := x ← deref process; mret (mm x).
Definition update_mm (process : pcb_ptr) (f : mm_struct -> mm_struct) : K unit :=
  update process (fun x => set_mm (f (mm x)) x).

(** [process->mm.kernel_pages[process->mm.n_kernel_pages++] = page]. *)
Definition track_kernel_page (process : pcb_ptr) (page : Z) : K unit :=
  m ← get_mm process;
  l ← defined (array_set (kernel_pages m) (n_kernel_pages m) page);
  update_mm process (fun m =>
    mkMm (pgd m) (n_user_pages m) (user_pages m) (s32 (n_kernel_pages m + 1)) l).

(** [process->mm.user_pages[process->mm.n_user_pages++] = page]. *)
Definition track_user_page (process : pcb_ptr) (page : user_page) : K unit :=
  m ← get_mm process;
  l ← defined (array_set (user_pages m) (n_user_pages m) page);
  update_mm process (fun m =>
    mkMm (pgd m) (s32 (n_user_pages m + 1)) l (n_kernel_pages m) (kernel_pages m)).

Definition set_mm_pgd (v : Z) (m : mm_struct) : mm_struct :=
  mkMm v (n_user_pages m) (user_pages m) (n_kernel_pages m) (kernel_pages m).

(** The index a virtual address selects in the table of a level. *)
Definition table_index (virtual_address shift : Z) : Z :=
  Z.land (Z.shiftr virtual_address shift) (PTRS_PER_TABLE - 1).

(** Returns the next table and [*new_table_entry_created]. *)
Definition map_table (table shift virtual_address : Z) : K (Z * bool) :=
  let index := table_index virtual_address shift in
  e ← load64 (u64 (table + 8 * index));
  if e =? 0 then
    next_level_table ← get_free_page;
    memzero (u64 (next_level_table + VA_START)) PAGE_SIZE;;
    store64 (u64 (table + 8 * index)) (Z.lor next_level_table MM_TYPE_PAGE_TABLE);;
    mret (next_level_table, true)
  else
    e ← load64 (u64 (table + 8 * index));
    mret (Z.land e PAGE_MASK, false).

Definition map_table_entry (pte virtual_address page_physical_address : Z) : K unit :=
  let index := table_index virtual_address PAGE_SHIFT in
  store64 (u64 (pte + 8 * index)) (Z.lor page_physical_address MMU_PTE_FLAGS).

(** One level of [map_page]: the table below [table], tracked when it is new. *)
Definition descend (process : pcb_ptr) (table shift virtual_address : Z) : K Z :=
  '(next, created) ← map_table (u64 (table + VA_START)) shift virtual_address;
  when created (track_kernel_page process next);;
  mret next.

Definition map_page (process : pcb_ptr) (virtual_address page_physical_address : Z) : K unit :=
  m ← get_mm process;
  when (pgd m =? 0) (
    page ← get_free_page;
    update_mm process (set_mm_pgd page);;
    memzero (u64 (page + VA_START)) PAGE_SIZE;;
    track_kernel_page process page);;
  m ← get_mm process;
  pud ← descend process (pgd m) PGD_SHIFT virtual_address;
  pmd ← descend process pud PUD_SHIFT virtual_address;
  pte ← descend process pmd PMD_SHIFT virtual_address;
  map_table_entry (u64 (pte + VA_START)) virtual_address page_physical_address;;
  track_user_page process (mkUserPage page_physical_address virtual_address).

Definition allocate_user_page (process : pcb_ptr) (virtual_address : Z) : K Z :=
  page ← get_free_page;
  if page =? 0 then mret 0 else
  map_page process virtual_address page;;
  mret (u64 (page + VA_START)).

(** The loop of [map_sector] over the entries of the PMD. *)
Fixpoint map_sector_loop (fuel : nat) (pmd pmd_index last_index descriptor : Z) : K unit :=
  if pmd_index <=? last_index then
    match fuel with
    | O => out_of_fuel
    | S fuel =>
      store64 (u64 (pmd + 8 * pmd_index)) descriptor;;
      map_sector_loop fuel pmd (pmd_index + 1) last_index (u64 (descriptor + SECTION_SIZE))
    end
  else mret tt.

Definition map_sector (process : pcb_ptr)
    (start_virtual_address end_virtual_address page_physical_address flags : Z) : K Z :=
  let first_index := table_index start_virtual_address SECTION_SHIFT in
  let last_index := table_index end_virtual_address SECTION_SHIFT in
  let descriptor := Z.lor (u64 (Z.shiftl (Z.shiftr page_physical_address SECTION_SHIFT) SECTION_SHIFT)) flags in
  m ← get_mm process;
  let pgd := u64 (pgd m + VA_START) in
  pud_phys ← load64 (u64 (pgd + 8 * table_index start_virtual_address PGD_SHIFT));
  if Z.land pud_phys 1 =? 0 then mret (-1) else
  let pud := u64 (Z.land pud_phys PAGE_MASK + VA_START) in
  pmd_phys ← load64 (u64 (pud + 8 * table_index start_virtual_address PUD_SHIFT));
  if Z.land pmd_phys 1 =? 0 then mret (-1) else
  let pmd := u64 (Z.land pmd_phys PAGE_MASK + VA_START) in
  map_sector_loop (Z.to_nat PTRS_PER_TABLE) pmd first_index last_index descriptor;;
  mret 0.

(** ** Page faults and address spaces *)

(** The condition as it is written: the division makes it unsatisfiable. *)
Definition do_mem_abort (address esr : Z) : K Z :=
  let dfs := Z.land esr 63 in
  if dfs / 60 =? 4 then
    page ← get_free_page;
    if page =? 0 then mret (-1) else
    current ← gets current_process;
    map_page current (Z.land address PAGE_MASK) page;;
    modify (fun s => set_fault_index (s32 (fault_index s + 1)) s);;
    i ← gets fault_index;
    if 2 <? i then mret (-1) else mret 0
  else mret (-1).

(** The loop of [copy_virtual_memory] from page [i]. *)
Fixpoint copy_pages (fuel : nat) (source destination : pcb_ptr) (i : Z) : K Z :=
  m ← get_mm source;
  if i <? n_user_pages m then
    match fuel with
    | O => out_of_fuel
    | S fuel =>
      p ← defined (array_get (user_pages m) i);
      kernel_virtual_address ← allocate_user_page destination (virtual_address p);
      if kernel_virtual_address =? 0 then mret (-1) else
      memzero kernel_virtual_address PAGE_SIZE;;
      m ← get_mm source;
      p ← defined (array_get (user_pages m) i);
      memcpy kernel_virtual_address (u64 (physical_address p + VA_START)) PAGE_SIZE;;
      copy_pages fuel source destination (i + 1)
    end
  else mret 0.

Definition copy_virtual_memory (destination_process : pcb_ptr) : K Z :=
  source_process ← gets current_process;
  m ← get_mm source_process;
  copy_pages (Z.to_nat (n_user_pages m)) source_process destination_process 0.
