(* ===== verification/Start.v ===== *)
(** * The start of the processor

    [boot/start.S]: the exception level, the memory that starts as zero, and the
    page tables that are in force when the kernel turns the MMU on.  Both [ttbr1_el1], for the addresses
    of the kernel, and [ttbr0_el1], for the instruction that follows, hold the
    address of [pgd].  The MMU is off while this code runs, so an address is a
    physical one; [ram] has the byte at the physical address [p] at
    [p + VA_START]. *)

From S2P Require Import Prelude Exec Kernel Memory Mm.

Definition PHYS_MEMORY_SIZE : Z := 0x40000000.
Definition PGD_SIZE : Z := 3 * PAGE_SIZE.
Definition DEVICE_BASE : Z := 0x3F000000.

Definition MM_TYPE_BLOCK : Z := 0x1.
Definition MT_DEVICE_nGnRnE : Z := 0x0.
Definition MMU_FLAGS : Z := Z.lor (Z.lor MM_TYPE_BLOCK (Z.shiftl MT_NORMAL_NC 2)) MM_ACCESS.
Definition MMU_DEVICE_FLAGS : Z := Z.lor (Z.lor MM_TYPE_BLOCK (Z.shiftl MT_DEVICE_nGnRnE 2)) MM_ACCESS.

(** [str v, [tbl, i, lsl #3]] *)
Definition str (v tbl i : Z) : K unit := store64 (u64 (tbl + Z.shiftl i 3 + VA_START)) v.

(** ** The macros.  A register they change is a result. *)

(** Returns [tbl]. *)
Definition create_table_entry (tbl virt shift : Z) : K Z :=
  let tmp1 := Z.land (Z.shiftr virt shift) (PTRS_PER_TABLE - 1) in
  let tmp2 := u64 (tbl + PAGE_SIZE) in
  let tmp2 := Z.lor tmp2 MM_TYPE_PAGE_TABLE in
  str tmp2 tbl tmp1;;
  mret (u64 (tbl + PAGE_SIZE)).

Definition create_pgd_entry (tbl virt : Z) : K Z :=
  tbl ← create_table_entry tbl virt PGD_SHIFT;
  create_table_entry tbl virt PUD_SHIFT.

(** The loop of [create_block_map]; the table has as many entries as the loop
    makes iterations at most. *)
Fixpoint block_loop (fuel : nat) (tbl phys start last : Z) : K unit :=
  match fuel with
  | O => out_of_fuel
  | S fuel =>
    str phys tbl start;;
    let start := u64 (start + 1) in
    let phys := u64 (phys + SECTION_SIZE) in
    if start <=? last then block_loop fuel tbl phys start last else mret tt
  end.

Definition create_block_map (tbl phys start last flags : Z) : K unit :=
  let start := Z.land (Z.shiftr start SECTION_SHIFT) (PTRS_PER_TABLE - 1) in
  let last := Z.land (Z.shiftr last SECTION_SHIFT) (PTRS_PER_TABLE - 1) in
  let phys := Z.lor flags (u64 (Z.shiftl (Z.shiftr phys SECTION_SHIFT) SECTION_SHIFT)) in
  block_loop (Z.to_nat PTRS_PER_TABLE) tbl phys start last.

(** [pgd] is the physical address that the linker script gives to the tables. *)
Definition __create_page_tables (pgd : Z) : K unit :=
  memzero (u64 (pgd + VA_START)) PGD_SIZE;;
  x0 ← create_pgd_entry pgd VA_START;
  create_block_map x0 0 VA_START (VA_START + DEVICE_BASE - SECTION_SIZE) MMU_FLAGS;;
  create_block_map x0 DEVICE_BASE (VA_START + DEVICE_BASE) (VA_START + PHYS_MEMORY_SIZE - SECTION_SIZE) MMU_DEVICE_FLAGS.

(** ** The rest of [boot/start.S] *)

Definition SCTLR_RESERVED : Z := Z.lor (Z.lor (Z.lor (Z.shiftl 3 28) (Z.shiftl 3 22)) (Z.shiftl 1 20)) (Z.shiftl 1 11).
Definition SCTLR_EE_LITTLE_ENDIAN : Z := Z.shiftl 0 25.
Definition SCTLR_I_CACHE_DISABLED : Z := Z.shiftl 0 12.
Definition SCTLR_D_CACHE_DISABLED : Z := Z.shiftl 0 2.
Definition SCTLR_MMU_DISABLED : Z := Z.shiftl 0 0.
Definition SCTLR_MMU_ENABLED : Z := Z.shiftl 1 0.
Definition SCTLR_VALUE_MMU_DISABLED : Z :=
  Z.lor (Z.lor (Z.lor (Z.lor SCTLR_RESERVED SCTLR_EE_LITTLE_ENDIAN) SCTLR_I_CACHE_DISABLED) SCTLR_D_CACHE_DISABLED)
    SCTLR_MMU_DISABLED.
Definition HCR_RW : Z := Z.shiftl 1 31.
Definition HCR_VALUE : Z := HCR_RW.
Definition SPSR_MASK_ALL : Z := Z.shiftl 7 6.
Definition SPSR_EL1h : Z := Z.shiftl 5 0.
Definition SPSR_VALUE : Z := Z.lor SPSR_MASK_ALL SPSR_EL1h.

Definition TCR_T0SZ : Z := 64 - 48.
Definition TCR_T1SZ : Z := Z.shiftl (64 - 48) 16.
Definition TCR_TG0_4K : Z := Z.shiftl 0 14.
Definition TCR_TG1_4K : Z := Z.shiftl 2 30.
Definition TCR_VALUE : Z := Z.lor (Z.lor (Z.lor TCR_T0SZ TCR_T1SZ) TCR_TG0_4K) TCR_TG1_4K.
Definition MT_DEVICE_nGnRnE_FLAGS : Z := 0x00.
Definition MT_NORMAL_NC_FLAGS : Z := 0x44.
Definition MAIR_VALUE : Z :=
  Z.lor (Z.shiftl MT_DEVICE_nGnRnE_FLAGS (8 * MT_DEVICE_nGnRnE)) (Z.shiftl MT_NORMAL_NC_FLAGS (8 * MT_NORMAL_NC)).

(** The registers this code reads and writes. *)
Record system_registers : Type := mkSystem {
  CurrentEL : Z;
  mpidr_el1 : Z;
  daif : Z;
  sctlr_el1 : Z;
  ttbr0_el1 : Z;
  ttbr1_el1 : Z;
  tcr_el1 : Z;
  mair_el1 : Z;
  stack_pointer : Z;
  hcr_el2 : Z;
}.

(** [eret] from EL2, with [spsr] in SPSR_EL2: the exception level and the masks
    of the interrupts are those it holds. *)
Definition eret_el2 (spsr : Z) (r : system_registers) : system_registers :=
  mkSystem (Z.land spsr 0xC) (mpidr_el1 r) (Z.land spsr 0x3C0) (sctlr_el1 r) (ttbr0_el1 r) (ttbr1_el1 r)
    (tcr_el1 r) (mair_el1 r) (stack_pointer r) (hcr_el2 r).

Definition set_hcr_el2 (v : Z) (r : system_registers) : system_registers :=
  mkSystem (CurrentEL r) (mpidr_el1 r) (daif r) (sctlr_el1 r) (ttbr0_el1 r) (ttbr1_el1 r) (tcr_el1 r) (mair_el1 r)
    (stack_pointer r) v.

Definition set_sctlr_el1 (v : Z) (r : system_registers) : system_registers :=
  mkSystem (CurrentEL r) (mpidr_el1 r) (daif r) v (ttbr0_el1 r) (ttbr1_el1 r) (tcr_el1 r) (mair_el1 r) (stack_pointer r) (hcr_el2 r).

(** The core waits for ever, or jumps to an address. *)
Inductive boot_ending : Type :=
  | wait_for_event
  | branch (target : Z) (r : system_registers).

Section Boot.
(** The addresses of the linker script: physical, but for [kernel_main] and [start]. *)
Context (bss_start bss_end pgd start kernel_main : Z).

Definition clear_bss : K unit := memzero (u64 (bss_start + VA_START)) (u64 (bss_end - bss_start)).

Definition el1_entry (r : system_registers) : K boot_ending :=
  __create_page_tables pgd;;
  mret (branch kernel_main
    (mkSystem (CurrentEL r) (mpidr_el1 r) (daif r) SCTLR_MMU_ENABLED pgd pgd TCR_VALUE MAIR_VALUE (u64 (VA_START + LOW_MEMORY)) (hcr_el2 r))).

Definition init_primary_code (r : system_registers) : K boot_ending :=
  let r := mkSystem (CurrentEL r) (mpidr_el1 r) (daif r) (sctlr_el1 r) (ttbr0_el1 r) (ttbr1_el1 r) (tcr_el1 r) (mair_el1 r) start (hcr_el2 r) in
  clear_bss;;
  el1_entry r.

Definition already_el1 (r : system_registers) : K boot_ending :=
  let r := set_sctlr_el1 SCTLR_VALUE_MMU_DISABLED r in
  if Z.land (mpidr_el1 r) 3 =? 0 then init_primary_code r else mret wait_for_event.

(** At EL2 the code continues at [already_el1] in EL1. *)
Definition _start (r : system_registers) : K boot_ending :=
  if negb (Z.shiftr (CurrentEL r) 2 =? 2) then already_el1 r
  else already_el1 (eret_el2 SPSR_VALUE (set_hcr_el2 HCR_VALUE r)).
End Boot.
