(* ===== verification/Paging.v ===== *)
(** * Correctness of the page tables

    [walk] follows the tables of a process the way [libs/mm.c] does: an entry
    that is not zero is followed.  [space] says that the tables of a process
    form a tree of allocated pages and that every entry was written by
    [map_table] or [map_table_entry]; the operations of [libs/mm.c] keep it, and
    change the mapping of one page at a time.  [translate_mapping] shows that
    the processor, by the definitions of [Mmu], translates as [mapping] says. *)

From S2P Require Import Prelude Exec Kernel Memory Mmu Mm.

(** ** Pages *)

(** The physical address of page [k]. *)
Definition page (k : Z) : Z := LOW_MEMORY + k * PAGE_SIZE.
(** Where the kernel sees a physical address. *)
Definition va (p : Z) : Z := p + VA_START.

Definition page_used (pages : gmap Z Z) (k : Z) : Prop := default 0 (pages !! k) <> 0.

(** [t] is the address of a page that is marked as allocated. *)
Definition allocated (pages : gmap Z Z) (t : Z) : Prop :=
  exists k, 0 <= k < N_PAGES /\ t = page k /\ page_used pages k.

(** At least [n] pages are free. *)
Definition free_pages (pages : gmap Z Z) (n : nat) : Prop :=
  exists l : list Z, NoDup l /\ length l = n /\ Forall (fun k => 0 <= k < N_PAGES /\ ~ page_used pages k) l.

Definition with_mem (m : Z -> Z) (pages : gmap Z Z) (s : kstate) : kstate :=
  set_ram m (set_memory_pages pages s).

Lemma N_PAGES_eq : N_PAGES = 257024. Proof. done. Qed.
Lemma PAGE_SIZE_eq : PAGE_SIZE = 4096. Proof. done. Qed.
Lemma LOW_MEMORY_eq : LOW_MEMORY = 4194304. Proof. done. Qed.
Lemma VA_START_eq : VA_START = 2 ^ 64 - 2 ^ 48. Proof. done. Qed.

Ltac page_lia :=
  pose proof N_PAGES_eq; pose proof PAGE_SIZE_eq; pose proof LOW_MEMORY_eq; pose proof VA_START_eq;
  unfold va, page in *; lia.

#[global] Arguments N_PAGES : simpl never.
#[global] Arguments PAGE_SIZE : simpl never.
#[global] Arguments VA_START : simpl never.
#[global] Opaque N_PAGES PAGE_SIZE LOW_MEMORY VA_START.

Section Pages.
Implicit Types (s : kstate) (pages : gmap Z Z) (k t : Z).

Lemma page_used_dec pages k : {page_used pages k} + {~ page_used pages k}.
Proof. unfold page_used. destruct (decide (default 0 (pages !! k) = 0)); [right|left]; naive_solver. Qed.

Lemma page_inj k k' : page k = page k' -> k = k'.
Proof. intros. page_lia. Qed.

Lemma page_used_insert pages k j : page_used (<[k := 1]> pages) j <-> j = k \/ page_used pages j.
Proof.
  unfold page_used. destruct (decide (j = k)) as [->|Hne].
  - rewrite lookup_insert_eq. simpl. split; [by left|lia].
  - rewrite lookup_insert_ne by done. naive_solver.
Qed.

Lemma free_pages_insert pages n k : free_pages pages (S n) -> free_pages (<[k := 1]> pages) n.
Proof.
  intros (l & Hnd & Hl & Hf).
  assert (Hk : exists l', NoDup l' /\ length l' = n /\ (k ∉ l') /\ (l' ⊆ l)).
  { destruct (decide (k ∈ l)) as [Hin|Hin].
    - apply list_elem_of_split in Hin as (l1 & l2 & ->). exists (l1 ++ l2).
      apply NoDup_app in Hnd as (Hn1 & Hd & Hn2). apply NoDup_cons in Hn2 as [Hk2 Hn2].
      rewrite length_app in Hl |- *. simpl in Hl. split; [|split; [lia|split; [|set_solver]]].
      + apply NoDup_app. split; [done|split; [|done]]. intros y Hy Hy2. apply (Hd y Hy). by right.
      + intros [Hin|Hin]%elem_of_app; [|done]. apply (Hd k Hin). by left.
    - destruct l as [|y l]; [done|]. exists l. apply NoDup_cons in Hnd as [_ Hnd].
      apply not_elem_of_cons in Hin as [_ Hin]. injection Hl as Hl. split; [done|split; [done|split; [done|]]].
      set_solver. }
  destruct Hk as (l' & Hn' & Hl' & Hk' & Hsub). exists l'. split; [done|split; [done|]].
  apply Forall_forall. intros j Hj. rewrite Forall_forall in Hf. destruct (Hf j) as [Hb Hu]; [by apply Hsub|].
  split; [done|]. rewrite page_used_insert. intros [->|?]; done.
Qed.

Lemma free_pages_le pages n n' : (n' <= n)%nat -> free_pages pages n -> free_pages pages n'.
Proof.
  intros Hn (l & Hnd & Hl & Hf). exists (take n' l). rewrite length_take.
  split; [|split; [lia|by apply Forall_take]].
  rewrite <- (take_drop n' l) in Hnd. by apply NoDup_app in Hnd as (? & _).
Qed.

(** *** The allocator *)

Lemma wp_page_slot k Q s :
  0 <= k < N_PAGES -> Q (default 0 (memory_pages s !! k)) s -> wp (page_slot k) Q s.
Proof.
  intros Hk HQ. unfold page_slot.
  rewrite (proj2 (Z.leb_le 0 k)), (proj2 (Z.ltb_lt k _)) by lia. by apply wp_gets.
Qed.

Lemma wp_set_page_slot k v Q s :
  0 <= k < N_PAGES -> Q tt (set_memory_pages (<[k := v]> (memory_pages s)) s) -> wp (set_page_slot k v) Q s.
Proof. intros Hk HQ. unfold set_page_slot. wp_step. apply wp_page_slot; [done|]. by wp_step. Qed.

(** The bytes of a page. *)
Definition page_zero (m m' : Z -> Z) (t : Z) : Prop := forall b, m' b = filled (va t) PAGE_SIZE 0 m b.

Lemma wp_zero_page k s :
  0 <= k < N_PAGES ->
  wp (memzero (va (page k)) PAGE_SIZE)
     (fun _ s' => exists m, s' = set_ram m s /\ page_zero (ram s) m (page k)) s.
Proof.
  intros Hk. apply wp_memzero; [page_lia|page_lia|exists 512; page_lia|split; page_lia].
Qed.

Lemma u64_va k : 0 <= k < N_PAGES -> u64 (page k + VA_START) = va (page k).
Proof. intros Hk. rewrite u64_id; page_lia. Qed.

(** [r] is what [get_free_page] returns from [s]: the first free page, cleared
    and marked, or 0 when there is none. *)
Inductive allocates (s : kstate) : Z -> kstate -> Prop :=
  | allocates_page k m :
      0 <= k < N_PAGES -> ~ page_used (memory_pages s) k ->
      (forall j, 0 <= j < k -> page_used (memory_pages s) j) ->
      page_zero (ram s) m (page k) ->
      allocates s (page k) (with_mem m (<[k := 1]> (memory_pages s)) s)
  | allocates_none :
      (forall j, 0 <= j < N_PAGES -> page_used (memory_pages s) j) -> allocates s 0 s.

Lemma wp_find_free_page fuel i s :
  0 <= i -> i + Z.of_nat fuel = N_PAGES ->
  (forall j, 0 <= j < i -> page_used (memory_pages s) j) ->
  wp (find_free_page fuel i) (allocates s) s.
Proof.
  revert i. induction fuel as [|fuel IH]; intros i H0 Hi Hj; cbn [find_free_page].
  - wp_step. apply allocates_none. intros j Hr. apply Hj. lia.
  - wp_step. apply wp_page_slot; [lia|]. case_match eqn:E.
    + apply Z.eqb_eq in E. wp_step. apply wp_set_page_slot; [lia|]. fold (page i).
      rewrite u64_va by lia. wp_step. eapply wp_mono; [apply wp_zero_page; lia|].
      intros _ s' (m & -> & Hm). wp_step. apply allocates_page; [lia| |done|done].
      unfold page_used. intros Hu. by apply Hu.
    + apply Z.eqb_neq in E. apply IH; [lia|lia|]. intros j Hr.
      destruct (decide (j = i)) as [->|]; [done|]. apply Hj. lia.
Qed.

Lemma wp_get_free_page s : wp get_free_page (allocates s) s.
Proof.
  apply wp_find_free_page; [done| |lia]. rewrite Z2Nat.id; [done|page_lia].
Qed.

(** With a free page left, the result is a page. *)
Lemma wp_get_free_page_some n s Q :
  free_pages (memory_pages s) (S n) ->
  (forall k m, 0 <= k < N_PAGES -> ~ page_used (memory_pages s) k -> page_zero (ram s) m (page k) ->
     free_pages (<[k := 1]> (memory_pages s)) n ->
     Q (page k) (with_mem m (<[k := 1]> (memory_pages s)) s)) ->
  wp get_free_page Q s.
Proof.
  intros Hf HQ. eapply wp_mono; [apply wp_get_free_page|]. intros r s' [k m Hk Hu _ Hm|Hall].
  - apply HQ; try done. by apply free_pages_insert.
  - exfalso. destruct Hf as ([|j l] & _ & Hl & Hf); [done|]. apply Forall_cons in Hf as [[Hj Hu] _].
    by apply Hu, Hall.
Qed.
End Pages.

(** ** Walking the tables *)

Definition index_ok (i : Z) : Prop := 0 <= i < PTRS_PER_TABLE.

(** Entry [i] of the table at the physical address [t]. *)
Definition entry (m : Z -> Z) (t i : Z) : Z := read64 m (va t + 8 * i).

(** The table or page an entry points to; a zero entry is invalid. *)
Definition next (m : Z -> Z) (t i : Z) : option Z :=
  if entry m t i =? 0 then None else Some (Z.land (entry m t i) PAGE_MASK).

Fixpoint walk (m : Z -> Z) (t : Z) (path : list Z) : option Z :=
  match path with
  | [] => Some t
  | i :: path => t' ← next m t i; walk m t' path
  end.

(** The indices a virtual address selects, from the PGD down to the PTE. *)
Definition indices (v : Z) : list Z :=
  [table_index v PGD_SHIFT; table_index v PUD_SHIFT; table_index v PMD_SHIFT; table_index v PAGE_SHIFT].

(** The physical page a virtual address is mapped to, by the walk of the kernel;
    a process without a PGD has no mapping. *)
Definition mapping (m : Z -> Z) (pgd v : Z) : option Z :=
  if pgd =? 0 then None else walk m pgd (indices v).

(** How many tables of [path] do not exist below [t]. *)
Fixpoint missing_from (m : Z -> Z) (t : Z) (path : list Z) : nat :=
  match path with
  | [] => 0
  | i :: path => match next m t i with None => S (length path) | Some t' => missing_from m t' path end
  end.

(** How many tables [map_page] has to create to map the address [v]. *)
Definition missing (m : Z -> Z) (pgd v : Z) : nat :=
  if pgd =? 0 then 4 else missing_from m pgd (take 3 (indices v)).

(** A path to a table (the pages themselves are at depth 4). *)
Definition table_path (path : list Z) : Prop := Forall index_ok path /\ (length path <= 3)%nat.

(** [t] is a table of the tree rooted at [pgd]. *)
Definition is_table (m : Z -> Z) (pgd t : Z) : Prop :=
  exists path, table_path path /\ walk m pgd path = Some t.

(** What the kernel puts in a table after [depth] steps of a walk: nothing, or
    the address of a page with the flags of a table, or at the last level with
    those of a page. *)
Definition entry_ok (depth : nat) (e : Z) : Prop :=
  e = 0 \/ exists k, 0 <= k < N_PAGES /\
    e = Z.lor (page k) (if decide (depth < 3)%nat then MM_TYPE_PAGE_TABLE else MMU_PTE_FLAGS).

(** The tables form a tree of allocated pages, in which no page is reached
    twice, with entries that the kernel has written. *)
Record space (m : Z -> Z) (pages : gmap Z Z) (pgd : Z) : Prop := {
  space_page path t : table_path path -> walk m pgd path = Some t -> allocated pages t;
  space_inj path path' t :
    table_path path -> table_path path' -> walk m pgd path = Some t -> walk m pgd path' = Some t ->
    path = path';
  space_entry path t i :
    table_path path -> walk m pgd path = Some t -> index_ok i -> entry_ok (length path) (entry m t i);
}.

(** From memory [m] to [m'], new tables may have been hung below [pgd]:
    translations, the other pages in use and what is below the pages are as they were. *)
Record grows (pgd : Z) (m : Z -> Z) (pages : gmap Z Z) (m' : Z -> Z) (pages' : gmap Z Z) : Prop := {
  grows_used k : page_used pages k -> page_used pages' k;
  grows_space : space m' pages' pgd;
  grows_walk path : Forall index_ok path -> length path = 4%nat -> walk m' pgd path = walk m pgd path;
  grows_short path t : table_path path -> walk m pgd path = Some t -> walk m' pgd path = Some t;
  grows_tables t : is_table m' pgd t -> is_table m pgd t \/ ~ allocated pages t;
  grows_bytes t b : allocated pages t -> ~ is_table m pgd t -> va t <= b < va t + PAGE_SIZE -> m' b = m b;
  grows_below b : b < va (page 0) -> m' b = m b;
}.

Section Walk.
Implicit Types (m : Z -> Z) (pages : gmap Z Z) (path : list Z) (t i pgd : Z).

Lemma walk_app m t path path' : walk m t (path ++ path') = (t' ← walk m t path; walk m t' path').
Proof.
  revert t. induction path as [|i path IH]; intros t; simpl; [done|].
  destruct (next m t i); simpl; [apply IH|done].
Qed.

Lemma missing_from_le m t path : (missing_from m t path <= length path)%nat.
Proof.
  revert t. induction path as [|i path IH]; intros t; simpl; [done|].
  destruct (next m t i) as [t'|]; [specialize (IH t'); lia|done].
Qed.

Lemma missing_from_walk m t path t' : walk m t path = Some t' -> missing_from m t path = 0%nat.
Proof.
  revert t. induction path as [|i path IH]; intros t; simpl; [done|].
  destruct (next m t i) as [t1|]; simpl; [apply IH|done].
Qed.

Lemma walk_snoc m t path i : walk m t (path ++ [i]) = (t' ← walk m t path; next m t' i).
Proof. rewrite walk_app. destruct (walk m t path) as [t'|]; simpl; [by destruct (next m t' i)|done]. Qed.

Lemma index_ok_range v shift : index_ok (table_index v shift).
Proof.
  unfold index_ok, table_index. change (PTRS_PER_TABLE - 1) with (Z.ones 9). rewrite Z.land_ones by done.
  by apply Z.mod_pos_bound.
Qed.

Lemma indices_ok v : Forall index_ok (indices v).
Proof. repeat constructor; apply index_ok_range. Qed.

Lemma table_path_snoc path i : table_path (path ++ [i]) -> table_path path.
Proof. intros [Hf Hl]. apply Forall_app in Hf as [Hf _]. rewrite length_app in Hl. simpl in Hl. split; [done|lia]. Qed.

Lemma allocated_used pages pages' t :
  (forall k, page_used pages k -> page_used pages' k) -> allocated pages t -> allocated pages' t.
Proof. intros H (k & ? & ? & ?). exists k. auto. Qed.

(** A walk that avoids the one entry that changed. *)
Lemma walk_frame m m' pages pgd path0 t0 i0 path :
  space m pages pgd -> table_path path0 -> walk m pgd path0 = Some t0 ->
  (forall t i, is_table m pgd t -> index_ok i -> t <> t0 \/ i <> i0 -> next m' t i = next m t i) ->
  Forall index_ok path -> (length path <= 4)%nat -> ~ (path0 ++ [i0]) `prefix_of` path ->
  walk m' pgd path = walk m pgd path.
Proof.
  intros Hsp Hp0 Hw0 Hnext. induction path as [|j path IH] using rev_ind; intros Hok Hlen Hpre; [done|].
  apply Forall_app in Hok as [Hok Hj]. apply Forall_cons in Hj as [Hj _]. rewrite length_app in Hlen. simpl in Hlen.
  rewrite !walk_snoc, IH; [|done|lia|].
  2: { intros Hpre'. apply Hpre. by apply prefix_app_r. }
  destruct (walk m pgd path) as [t|] eqn:Ew; [|done]. simpl.
  assert (Hp : table_path path) by (split; [done|lia]). apply Hnext; [by exists path|done|].
  destruct (decide (t = t0)) as [->|]; [right|by left]. intros ->.
  apply Hpre. rewrite (space_inj _ _ _ Hsp _ _ _ Hp Hp0 Ew Hw0). exists []. by rewrite app_nil_r.
Qed.
End Walk.

(** ** Entries and pages *)

Section Entries.
Implicit Types (m : Z -> Z) (t i k : Z).

Lemma entry_address k i : 0 <= k < N_PAGES -> index_ok i ->
  u64 (u64 (page k + VA_START) + 8 * i) = va (page k) + 8 * i.
Proof.
  unfold index_ok. change PTRS_PER_TABLE with 512. intros Hk Hi. rewrite u64_va, u64_id by page_lia. done.
Qed.

Lemma entry_write_eq m t i v : 0 <= v < 2 ^ 64 -> entry (write64 (va t + 8 * i) v m) t i = v.
Proof. apply read64_write64. Qed.

Lemma entry_write_ne m k i k' i' v :
  index_ok i -> index_ok i' -> page k' <> page k \/ i' <> i ->
  entry (write64 (va (page k) + 8 * i) v m) (page k') i' = entry m (page k') i'.
Proof.
  unfold index_ok. change PTRS_PER_TABLE with 512. intros Hi Hi' Hne. apply read64_write64_ne.
  destruct (decide (k = k')) as [->|]; [destruct Hne; [done|]|]; page_lia.
Qed.

Lemma entry_zero_page m m' k i : page_zero m m' (page k) -> index_ok i -> entry m' (page k) i = 0.
Proof.
  unfold index_ok. change PTRS_PER_TABLE with 512. intros Hm Hi. unfold entry, read64.
  rewrite (read_le_ext 8 m' (fun _ => 0)); [done|].
  intros b Hb. rewrite Hm. unfold filled. range_cases; try done; page_lia.
Qed.

Lemma entry_zero_other m m' k k' i :
  page_zero m m' (page k) -> k' <> k -> index_ok i -> entry m' (page k') i = entry m (page k') i.
Proof.
  unfold index_ok. change PTRS_PER_TABLE with 512. intros Hm Hne Hi. apply read_le_ext.
  intros b Hb. rewrite Hm. unfold filled. range_cases; try done; page_lia.
Qed.

(** Masking the flags off an entry gives the page back. *)
Lemma page_entry k f :
  0 <= k < N_PAGES -> 0 < f < 4096 ->
  0 <= Z.lor (page k) f < 2 ^ 64 /\ Z.lor (page k) f <> 0 /\ Z.land (Z.lor (page k) f) PAGE_MASK = page k.
Proof.
  intros Hk Hf.
  assert (Hp : page k = Z.shiftl (1024 + k) 12) by (rewrite Z.shiftl_mul_pow2 by done; page_lia).
  assert (Hz : Z.land (page k) f = 0).
  { apply Z.bits_inj'. intros n Hn. rewrite Z.land_spec, Z.bits_0, Hp, Z.shiftl_spec by done.
    destruct (decide (n < 12)); [by rewrite Z.testbit_neg_r by lia|].
    rewrite (Z.bits_above_log2 f), andb_false_r; [done|lia|].
    apply Z.lt_le_trans with 12; [apply Z.log2_lt_pow2; lia|lia]. }
  assert (Hl : Z.lor (page k) f = page k + f) by (rewrite <- Z.add_lor_land, Hz; lia).
  split; [page_lia|]. split; [page_lia|].
  apply Z.bits_inj'. intros n Hn. rewrite Z.land_spec, Z.lor_spec.
  assert (HM : Z.testbit PAGE_MASK n = bool_decide (12 <= n < 64)).
  { change PAGE_MASK with (Z.shiftl (Z.ones 52) 12). rewrite Z.shiftl_spec by done.
    destruct (decide (n < 12)); [rewrite Z.testbit_neg_r by lia; symmetry; apply bool_decide_eq_false; lia|].
    rewrite Z.testbit_ones_nonneg by lia.
    destruct (Z.ltb_spec (n - 12) 52); symmetry; [apply bool_decide_eq_true|apply bool_decide_eq_false]; lia. }
  rewrite HM. case_bool_decide as Hb.
  - rewrite andb_true_r, (Z.bits_above_log2 f), orb_false_r; [done|lia|].
    apply Z.lt_le_trans with 12; [apply Z.log2_lt_pow2; lia|lia].
  - rewrite andb_false_r. symmetry. destruct (decide (n < 12)).
    + rewrite Hp, Z.shiftl_spec by done. apply Z.testbit_neg_r. lia.
    + apply Z.bits_above_log2; [page_lia|]. apply Z.lt_le_trans with 64; [apply Z.log2_lt_pow2; page_lia|lia].
Qed.
End Entries.

(** ** Growing a tree *)

Lemma page_zero_trans m m1 m2 t : page_zero m m1 t -> page_zero m1 m2 t -> page_zero m m2 t.
Proof. intros H1 H2 b. rewrite H2. unfold filled at 1. rewrite H1. unfold filled. range_cases; done. Qed.

Lemma grows_refl pgd m pages : space m pages pgd -> grows pgd m pages m pages.
Proof. intros Hs. constructor; auto. Qed.

Lemma grows_trans pgd m1 p1 m2 p2 m3 p3 :
  grows pgd m1 p1 m2 p2 -> grows pgd m2 p2 m3 p3 -> grows pgd m1 p1 m3 p3.
Proof.
  intros [U1 S1 W1 P1 T1 B1 L1] [U2 S2 W2 P2 T2 B2 L2]. constructor; auto.
  - intros path Hok Hl. rewrite W2, W1; done.
  - intros t Ht. apply T2 in Ht as [Ht|Hn]; [by apply T1|]. right. intros Ha. by apply Hn, (allocated_used p1).
  - intros t b Ha Hn Hb. rewrite B2 with (t := t); [by apply B1 with t|by apply (allocated_used p1)| |done].
    intros Ht. by apply T1 in Ht as [?|?].
  - intros b Hb. by rewrite L2, L1.
Qed.

(** A fresh page [page k], cleared and hung at entry [i] of the table [t]. *)
Section Install.
Context (m m1 : Z -> Z) (pages : gmap Z Z) (pgd t i k : Z) (path : list Z).
Hypothesis Hspace : space m pages pgd.
Hypothesis Hpath : table_path (path ++ [i]).
Hypothesis Hwalk : walk m pgd path = Some t.
Hypothesis Hempty : next m t i = None.
Hypothesis Hk : 0 <= k < N_PAGES.
Hypothesis Hfree : ~ page_used pages k.
Hypothesis Hzero : page_zero m m1 (page k).

Let m' := write64 (va t + 8 * i) (Z.lor (page k) MM_TYPE_PAGE_TABLE) m1.
Let pages' := <[k := 1]> pages.

Lemma install_path : table_path path.
Proof. by eapply table_path_snoc. Qed.

Lemma install_index : index_ok i.
Proof. destruct Hpath as [Hok _]. apply Forall_app in Hok as [_ Hi]. by apply Forall_cons in Hi as [? _]. Qed.

Lemma install_table t' : is_table m pgd t' -> exists k', 0 <= k' < N_PAGES /\ t' = page k' /\ k' <> k.
Proof.
  intros (p & Hp & Hw). destruct (space_page _ _ _ Hspace _ _ Hp Hw) as (k' & ? & -> & Hu).
  exists k'. split; [done|split; [done|]]. by intros ->.
Qed.

Lemma install_next_new : next m' t i = Some (page k).
Proof.
  destruct (page_entry k MM_TYPE_PAGE_TABLE) as (Hr & Hn & Hm); [done|done|].
  unfold next, m'. rewrite entry_write_eq by done. rewrite (proj2 (Z.eqb_neq _ _)) by done. by rewrite Hm.
Qed.

Lemma install_entry_other t' j :
  is_table m pgd t' -> index_ok j -> t' <> t \/ j <> i -> entry m' t' j = entry m t' j.
Proof.
  intros Ht' Hj Hne. destruct (install_table t' Ht') as (k' & _ & -> & Hk').
  destruct (install_table t) as (kt & _ & -> & _); [by exists path; split; [apply install_path|]|].
  unfold m'. rewrite entry_write_ne; [|apply install_index|done|done].
  by apply (entry_zero_other _ _ k k').
Qed.

Lemma install_next_other t' j :
  is_table m pgd t' -> index_ok j -> t' <> t \/ j <> i -> next m' t' j = next m t' j.
Proof.
  intros Ht' Hj Hne. unfold next. by rewrite install_entry_other.
Qed.

Lemma install_entry_fresh j : index_ok j -> entry m' (page k) j = 0.
Proof.
  intros Hj. destruct (install_table t) as (kt & _ & -> & Hne); [by exists path; split; [apply install_path|]|].
  unfold m'. rewrite entry_write_ne; [|apply install_index|done|].
  - by rewrite (entry_zero_page m m1).
  - left. intros E. by apply page_inj in E.
Qed.

Lemma install_next_fresh j : index_ok j -> next m' (page k) j = None.
Proof. intros Hj. unfold next. by rewrite install_entry_fresh. Qed.

(** The entries of the tables there were. *)
Lemma install_entry p q j :
  table_path p -> walk m pgd p = Some q -> index_ok j -> entry_ok (length p) (entry m' q j).
Proof.
  intros Hp Hq Hj. destruct (decide (q = t /\ j = i)) as [[-> ->]|Hne].
  - assert (p = path) as -> by (apply (space_inj _ _ _ Hspace p path t); (done || apply install_path)).
    destruct (page_entry k MM_TYPE_PAGE_TABLE) as (Hr & _); [done|done|]. unfold m'. rewrite entry_write_eq by done.
    right. exists k. split; [done|]. destruct Hpath as [_ Hl]. rewrite length_app in Hl. simpl in Hl.
    by rewrite decide_True by lia.
  - rewrite install_entry_other; [by apply (space_entry _ _ _ Hspace)|by exists p|done|].
    destruct (decide (q = t)) as [->|]; [right|by left]. intros ->. by apply Hne.
Qed.

Lemma install_frame path' :
  Forall index_ok path' -> (length path' <= 4)%nat -> ~ (path ++ [i]) `prefix_of` path' ->
  walk m' pgd path' = walk m pgd path'.
Proof.
  intros. apply (walk_frame m m' pages pgd path t i path'); try done; [apply install_path|].
  intros. by apply install_next_other.
Qed.

Lemma install_old : walk m pgd (path ++ [i]) = None.
Proof. rewrite walk_snoc, Hwalk. apply Hempty. Qed.

Lemma install_new : walk m' pgd (path ++ [i]) = Some (page k).
Proof.
  rewrite walk_snoc, install_frame.
  - rewrite Hwalk. apply install_next_new.
  - apply install_path.
  - destruct install_path as [_ ?]. lia.
  - intros [l E]. apply (f_equal length) in E. rewrite !length_app in E. simpl in E. lia.
Qed.

(** Where a path of the new tree leads. *)
Lemma install_walk path' :
  Forall index_ok path' -> (length path' <= 4)%nat ->
  walk m' pgd path' = walk m pgd path' \/
  exists rest, path' = (path ++ [i]) ++ rest /\ walk m pgd path' = None /\
    walk m' pgd path' = match rest with [] => Some (page k) | _ => None end.
Proof.
  intros Hok Hlen. destruct (decide ((path ++ [i]) `prefix_of` path')) as [[rest ->]|Hn].
  - right. exists rest. split; [done|]. rewrite !(walk_app _ _ (path ++ [i]) rest), install_old, install_new. split; [done|].
    destruct rest as [|j rest]; simpl; [done|].
    rewrite install_next_fresh; [done|]. apply Forall_app in Hok as [_ Hok]. by apply Forall_cons in Hok as [? _].
  - left. by apply install_frame.
Qed.

Lemma install_grows : grows pgd m pages m' pages'.
Proof.
  assert (Hused : forall j, page_used pages j -> page_used pages' j).
  { intros j Hj. apply page_used_insert. by right. }
  assert (Hold : forall p q, table_path p -> walk m pgd p = Some q -> q <> page k).
  { intros p q Hp Hq ->. destruct (install_table (page k)) as (k' & _ & E & Hne); [by exists p|].
    by apply page_inj in E. }
  constructor.
  - done.
  - constructor.
    + intros p q Hp Hw. destruct Hp as [Hok Hl]. destruct (install_walk p) as [E|(rest & -> & _ & E)]; [done|lia|..];
        rewrite E in Hw.
      * apply (allocated_used pages); [done|]. by apply (space_page _ _ _ Hspace p).
      * destruct rest; [|done]. injection Hw as <-. exists k. split; [done|split; [done|]].
        apply page_used_insert. by left.
    + intros p p' q Hp Hp' Hw Hw'. pose proof Hp as [Hok Hl]. pose proof Hp' as [Hok' Hl'].
      destruct (install_walk p) as [E|(rest & -> & _ & E)], (install_walk p') as [E'|(rest' & -> & _ & E')];
        try done; try lia; rewrite E in Hw; rewrite E' in Hw'.
      * by apply (space_inj _ _ _ Hspace p p' q).
      * destruct rest'; [|done]. injection Hw' as <-. by edestruct (Hold p).
      * destruct rest; [|done]. injection Hw as <-. by edestruct (Hold p').
      * by destruct rest, rest'.
    + intros p q j Hp Hw Hj. pose proof Hp as [Hok Hl].
      destruct (install_walk p) as [E|(rest & -> & _ & E)]; [done|lia|..]; rewrite E in Hw.
      * by apply install_entry.
      * destruct rest; [|done]. injection Hw as <-. left. by apply install_entry_fresh.
  - intros p Hok Hl. destruct (install_walk p) as [E|(rest & -> & E0 & E)]; [done|lia|done|].
    rewrite E, E0. destruct rest; [|done]. rewrite app_nil_r in Hl. destruct Hpath as [_ ?]. lia.
  - intros p q [Hok Hl] Hw. destruct (install_walk p) as [E|(rest & -> & E0 & E)]; [done|lia|by rewrite E|congruence].
  - intros q (p & [Hok Hl] & Hw). destruct (install_walk p) as [E|(rest & -> & E0 & E)]; [done|lia|..]; rewrite E in Hw.
    + left. by exists p.
    + right. destruct rest; [|done]. injection Hw as <-. intros (k' & _ & Ek & Hu). by apply page_inj in Ek as <-.
  - intros q b (kq & Hkq & -> & Hu) Hnt Hb.
    assert (kq <> k) by by intros ->.
    destruct (install_table t) as (kt & _ & Et & _); [by exists path; split; [apply install_path|]|].
    assert (kq <> kt). { intros ->. apply Hnt. rewrite <- Et. exists path. split; [apply install_path|done]. }
    pose proof install_index as Hi. unfold index_ok in Hi. change PTRS_PER_TABLE with 512 in Hi.
    unfold m', write64, write_le. rewrite Hzero. unfold filled. rewrite Et. range_cases; try done; page_lia.
  - intros b Hb. destruct (install_table t) as (kt & ? & Et & _); [by exists path; split; [apply install_path|]|].
    pose proof install_index as Hi. unfold index_ok in Hi. change PTRS_PER_TABLE with 512 in Hi.
    unfold m', write64, write_le. rewrite Hzero. unfold filled. rewrite Et. range_cases; try done; page_lia.
Qed.
End Install.

(** The last level: entry [i] of the table [t] now maps the page [page k]. *)
Section Leaf.
Context (m : Z -> Z) (pages : gmap Z Z) (pgd t i k : Z) (path : list Z).
Hypothesis Hspace : space m pages pgd.
Hypothesis Hpath : table_path path.
Hypothesis Hdepth : length path = 3%nat.
Hypothesis Hwalk : walk m pgd path = Some t.
Hypothesis Hi : index_ok i.
Hypothesis Hk : 0 <= k < N_PAGES.

Let m' := write64 (va t + 8 * i) (Z.lor (page k) MMU_PTE_FLAGS) m.

Lemma leaf_table t' : is_table m pgd t' -> exists k', 0 <= k' < N_PAGES /\ t' = page k'.
Proof. intros (p & Hp & Hw). destruct (space_page _ _ _ Hspace _ _ Hp Hw) as (k' & ? & -> & _). by exists k'. Qed.

Lemma leaf_frame path' :
  Forall index_ok path' -> (length path' <= 4)%nat -> path' <> path ++ [i] -> walk m' pgd path' = walk m pgd path'.
Proof.
  intros Hok Hl Hne. apply (walk_frame m m' pages pgd path t i path'); try done.
  - intros t' j Ht' Hj Ho. destruct (leaf_table t' Ht') as (k' & _ & ->).
    destruct (leaf_table t) as (kt & _ & ->); [by exists path|].
    unfold next, m'. by rewrite entry_write_ne.
  - intros [rest ->]. apply Hne. rewrite !length_app in Hl. simpl in Hl. destruct rest; [by rewrite app_nil_r|].
    simpl in Hl. lia.
Qed.

Lemma leaf_short path' : table_path path' -> walk m' pgd path' = walk m pgd path'.
Proof.
  intros [Hok Hl]. apply leaf_frame; [done|lia|]. intros ->. rewrite length_app in Hl. simpl in Hl. lia.
Qed.

Lemma leaf_mapped : walk m' pgd (path ++ [i]) = Some (page k).
Proof.
  rewrite walk_snoc, leaf_short, Hwalk by done. simpl.
  destruct (page_entry k MMU_PTE_FLAGS) as (Hr & Hn & Hm); [done|done|].
  unfold next, m'. rewrite entry_write_eq by done. rewrite (proj2 (Z.eqb_neq _ _)) by done. by rewrite Hm.
Qed.

Lemma leaf_space : space m' pages pgd.
Proof.
  constructor.
  - intros p q Hp. rewrite leaf_short by done. by apply (space_page _ _ _ Hspace).
  - intros p p' q Hp Hp'. rewrite !leaf_short by done. by apply (space_inj _ _ _ Hspace).
  - intros p q j Hp. rewrite leaf_short by done. intros Hw Hj.
    destruct (leaf_table q) as (kq & _ & Eq); [by exists p|]. destruct (leaf_table t) as (kt & _ & Et); [by exists path|].
    destruct (decide (q = t /\ j = i)) as [[-> ->]|Hne].
    + assert (p = path) as -> by by apply (space_inj _ _ _ Hspace p path t).
      destruct (page_entry k MMU_PTE_FLAGS) as (Hr & _); [done|done|]. unfold m'. rewrite entry_write_eq by done.
      right. exists k. split; [done|]. by rewrite decide_False by lia.
    + replace (entry m' q j) with (entry m q j); [by apply (space_entry _ _ _ Hspace)|].
      unfold m'. rewrite Eq, Et in *. symmetry. apply entry_write_ne; [done..|].
      destruct (decide (page kq = page kt)) as [E|]; [right|by left]. intros ->. apply Hne. by rewrite E.
Qed.

Lemma leaf_tables t' : is_table m' pgd t' -> is_table m pgd t'.
Proof. intros (p & Hp & Hw). exists p. split; [done|]. by rewrite <- leaf_short. Qed.

Lemma leaf_bytes t' b :
  allocated pages t' -> ~ is_table m pgd t' -> va t' <= b < va t' + PAGE_SIZE -> m' b = m b.
Proof.
  intros (kq & Hkq & -> & _) Hnt Hb. destruct (leaf_table t) as (kt & _ & Et); [by exists path|].
  assert (kq <> kt). { intros ->. apply Hnt. rewrite <- Et. by exists path. }
  pose proof Hi as Hi'. unfold index_ok in Hi'. change PTRS_PER_TABLE with 512 in Hi'.
  unfold m', write64, write_le. rewrite Et. range_cases; try done; page_lia.
Qed.

Lemma leaf_below b : b < va (page 0) -> m' b = m b.
Proof.
  intros Hb. destruct (leaf_table t) as (kt & ? & Et); [by exists path|].
  pose proof Hi as Hi'. unfold index_ok in Hi'. change PTRS_PER_TABLE with 512 in Hi'.
  unfold m', write64, write_le. rewrite Et. range_cases; try done; page_lia.
Qed.
End Leaf.

(** ** Address spaces *)

(** [t] is a table of the process whose memory map is [mm]. *)
Definition owns_table (m : Z -> Z) (mm : mm_struct) (t : Z) : Prop := pgd mm <> 0 /\ is_table m (pgd mm) t.

Definition address_space (m : Z -> Z) (pages : gmap Z Z) (mm : mm_struct) : Prop :=
  pgd mm <> 0 -> space m pages (pgd mm).

(** What an operation on the address space of one process does to memory: its
    tables may grow into free pages, everything else in use keeps its bytes, and
    so does what is below the pages. *)
Record extends (mm : mm_struct) (m : Z -> Z) (pages : gmap Z Z)
               (mm' : mm_struct) (m' : Z -> Z) (pages' : gmap Z Z) : Prop := {
  ext_used k : page_used pages k -> page_used pages' k;
  ext_space : address_space m' pages' mm';
  ext_tables t : owns_table m' mm' t -> owns_table m mm t \/ ~ allocated pages t;
  ext_bytes t b : allocated pages t -> ~ owns_table m mm t -> va t <= b < va t + PAGE_SIZE -> m' b = m b;
  ext_below b : b < va (page 0) -> m' b = m b;
}.

(** The bookkeeping arrays have room for [u] user pages and [k] tables. *)
Record room (mm : mm_struct) (u k : Z) : Prop := {
  room_user : length (user_pages mm) = Z.to_nat MAX_PROCESS_PAGES;
  room_n_user : 0 <= n_user_pages mm <= MAX_PROCESS_PAGES - u;
  room_kernel : length (kernel_pages mm) = Z.to_nat MAX_PROCESS_PAGES;
  room_n_kernel : 0 <= n_kernel_pages mm <= MAX_PROCESS_PAGES - k;
}.

(** The state [s] with other memory, and another memory map for process [p],
    whose PCB was [x]. *)
Definition mm_state (s : kstate) (p : pcb_ptr) (x : PCB) (mm : mm_struct) (m : Z -> Z) (pages : gmap Z Z) : kstate :=
  set_pcbs (<[p := set_mm mm x]> (pcbs s)) (with_mem m pages s).

Section Spaces.
Implicit Types (m : Z -> Z) (pages : gmap Z Z) (mm : mm_struct).

Lemma extends_refl mm m pages : address_space m pages mm -> extends mm m pages mm m pages.
Proof. intros Hs. constructor; auto. Qed.

Lemma extends_trans mm1 m1 p1 mm2 m2 p2 mm3 m3 p3 :
  extends mm1 m1 p1 mm2 m2 p2 -> extends mm2 m2 p2 mm3 m3 p3 -> extends mm1 m1 p1 mm3 m3 p3.
Proof.
  intros [U1 S1 T1 B1 L1] [U2 S2 T2 B2 L2]. constructor; auto.
  - intros t Ht. apply T2 in Ht as [Ht|Hn]; [by apply T1|]. right. intros Ha. by apply Hn, (allocated_used p1).
  - intros t b Ha Hn Hb. rewrite B2 with (t := t); [by apply B1 with t|by apply (allocated_used p1)| |done].
    intros Ht. by apply T1 in Ht as [?|?].
  - intros b Hb. by rewrite L2, L1.
Qed.

Lemma grows_extends mm mm' m pages m' pages' :
  pgd mm <> 0 -> pgd mm' = pgd mm -> grows (pgd mm) m pages m' pages' -> extends mm m pages mm' m' pages'.
Proof.
  intros H0 E [U S W P T B L]. constructor; unfold owns_table, address_space; rewrite ?E.
  - done.
  - done.
  - intros t [_ Ht]. apply T in Ht as [?|?]; [left|right]; done.
  - intros t b Ha Hn. apply B; [done|]. intros Ht. by apply Hn.
  - done.
Qed.

Lemma grows_mapping pgd m pages m' pages' v :
  grows pgd m pages m' pages' -> mapping m' pgd v = mapping m pgd v.
Proof. intros [U S W P T B L]. unfold mapping. destruct (_ =? 0); [done|]. apply W; [apply indices_ok|done]. Qed.
End Spaces.

(** ** What the processor makes of the tables *)

Section Hardware.
Implicit Types (m : Z -> Z) (pages : gmap Z Z) (mm : mm_struct) (k t v : Z).

Lemma descriptor_entry m t i : descriptor m t i = entry m t i.
Proof. unfold descriptor, entry, va. by rewrite VA_START_eq. Qed.

Lemma table_index_eq v shift : 0 <= shift -> table_index v shift = index v shift.
Proof.
  intros Hs. unfold table_index, index. change (PTRS_PER_TABLE - 1) with (Z.ones 9).
  rewrite Z.land_ones by lia. by rewrite Z.shiftr_div_pow2.
Qed.

(** Addresses have the same indices when they are in the same page. *)
Lemma indices_eq v w : indices v = indices w <-> page_number v = page_number w.
Proof.
  rewrite page_number_eq. unfold indices. rewrite !table_index_eq by done.
  change PGD_SHIFT with 39. change PUD_SHIFT with 30. change PMD_SHIFT with 21. change PAGE_SHIFT with 12.
  split; [by intros [= -> -> -> ->]|by intros (-> & -> & -> & ->)].
Qed.

Lemma page_bit k n : 0 <= k < N_PAGES -> 0 <= n < 12 \/ 48 <= n -> Z.testbit (page k) n = false.
Proof.
  intros Hk [Hn|Hn].
  - replace (page k) with (Z.shiftl (1024 + k) 12) by (rewrite Z.shiftl_mul_pow2 by done; page_lia).
    rewrite Z.shiftl_spec by lia. apply Z.testbit_neg_r. lia.
  - apply Z.bits_above_log2; [page_lia|]. apply Z.lt_le_trans with 48; [apply Z.log2_lt_pow2; page_lia|lia].
Qed.

Lemma page_flags k f : 0 <= k < N_PAGES -> 0 <= f < 4096 -> Z.lor (page k) f = page k + f.
Proof.
  intros Hk Hf. assert (H : Z.land (page k) f = 0).
  { apply Z.bits_inj'. intros n Hn. rewrite Z.land_spec, Z.bits_0. destruct (decide (n < 12)).
    - by rewrite page_bit by lia.
    - destruct (decide (f = 0)) as [->|]; [by rewrite Z.bits_0, andb_false_r|].
      rewrite (Z.bits_above_log2 f), andb_false_r; [done|lia|].
      apply Z.lt_le_trans with 12; [apply Z.log2_lt_pow2; lia|lia]. }
  rewrite <- Z.lxor_lor by done. symmetry. by apply Z.add_nocarry_lxor.
Qed.

(** The descriptor of a page with the flags [f]. *)
Lemma page_descriptor k f : 0 <= k < N_PAGES -> 0 <= f < 4096 ->
  address_field 12 (Z.lor (page k) f) = page k /\ Z.lor (page k) f < 2 ^ 59 /\
  Z.land (Z.lor (page k) f) 3 = Z.land f 3 /\
  forall n, 0 <= n < 12 \/ 48 <= n -> Z.testbit (Z.lor (page k) f) n = Z.testbit f n.
Proof.
  intros Hk Hf. rewrite (page_flags k f) at 1 2 by done. split; [|split; [page_lia|split]].
  - apply address_field_add; [|page_lia|done]. exists (1024 + k). page_lia.
  - change 3 with (Z.ones 2). rewrite Z.land_lor_distr_l, (Z.land_ones (page k)) by done.
    rewrite <- (Z.lor_0_l (Z.land f _)). f_equal.
    replace (page k) with ((1048576 + 1024 * k) * 2 ^ 2) by page_lia. by apply Z.mod_mul.
  - intros n Hn. rewrite Z.lor_spec. by rewrite page_bit.
Qed.

(** The processor follows the entries of the first three levels, *)
Lemma translation_upper m pages pgd path t v below :
  space m pages pgd -> table_path path -> walk m pgd path = Some t -> (length path < 3)%nat ->
  translation (S below) m t v =
  t' ← next m t (table_index v (12 + 9 * Z.of_nat (S below))); translation below m t' v.
Proof.
  intros Hs Hp Hw Hl. cbn [translation]. rewrite table_index_eq by lia. set (i := index v _).
  assert (Hi : index_ok i) by apply index_range. rewrite descriptor_entry.
  pose proof (space_entry _ _ _ Hs path t i Hp Hw Hi) as He. unfold next.
  destruct He as [->|(k & Hk & ->)]; [done|]. rewrite decide_True by done.
  destruct (page_descriptor k MM_TYPE_PAGE_TABLE Hk ltac:(done)) as (-> & Hlt & -> & _).
  destruct (page_entry k MM_TYPE_PAGE_TABLE) as (_ & Hn & Hm); [done|done|].
  rewrite (proj2 (Z.eqb_neq _ _) Hn), Hm, (proj2 (Z.ltb_lt _ _) Hlt). done.
Qed.

(** and those of the last one are pages of the program. *)
Lemma translation_last m pages pgd path t v :
  space m pages pgd -> table_path path -> walk m pgd path = Some t -> length path = 3%nat ->
  ('(p, e) ← translation 0 m t v; if user_access e then Some p else None) =
  (fun t' => t' + v mod 4096) <$> next m t (table_index v 12).
Proof.
  intros Hs Hp Hw Hl. cbn [translation]. rewrite table_index_eq by done. change (12 + 9 * Z.of_nat 0) with 12.
  set (i := index v 12). assert (Hi : index_ok i) by apply index_range. rewrite descriptor_entry.
  pose proof (space_entry _ _ _ Hs path t i Hp Hw Hi) as He. unfold next.
  destruct He as [->|(k & Hk & ->)]; [done|]. rewrite decide_False by lia.
  destruct (page_descriptor k MMU_PTE_FLAGS Hk ltac:(done)) as (-> & _ & -> & Hbits).
  destruct (page_entry k MMU_PTE_FLAGS) as (_ & Hn & Hm); [done|done|].
  rewrite (proj2 (Z.eqb_neq _ _) Hn), Hm, (Hbits 10) by lia. change (Z.land MMU_PTE_FLAGS 3 =? 3) with true.
  change (Z.testbit MMU_PTE_FLAGS 10) with true. cbv iota. simpl. unfold user_access. by rewrite !Hbits by lia.
Qed.

Lemma translate_mapping m pages mm v :
  address_space m pages mm -> translate m (pgd mm) v = (fun t => t + v mod PAGE_SIZE) <$> mapping m (pgd mm) v.
Proof.
  intros Hs. rewrite PAGE_SIZE_eq. unfold translate, mapping. destruct (Z.eqb_spec (pgd mm) 0) as [|H0]; [done|]. specialize (Hs H0).
  assert (Hok : forall p, p `prefix_of` take 3 (indices v) -> table_path p).
  { intros p Hp. pose proof (prefix_length _ _ Hp) as Hlen. split; [|exact Hlen]. destruct Hp as [r Hr].
    pose proof (indices_ok v) as Hi. apply (Forall_take _ 3%nat) in Hi. rewrite Hr in Hi. by apply Forall_app in Hi as [? _]. }
  unfold indices in *. set (i0 := table_index v PGD_SHIFT) in *. set (i1 := table_index v PUD_SHIFT) in *.
  set (i2 := table_index v PMD_SHIFT) in *. cbn [walk take] in *.
  rewrite (translation_upper m pages (pgd mm) []); [|done|by apply Hok; eexists|done|simpl; lia].
  change (table_index v (12 + 9 * Z.of_nat 3)) with i0. destruct (next m (pgd mm) i0) as [t1|] eqn:E1; [|done]. cbn [mbind option_bind].
  rewrite (translation_upper m pages (pgd mm) [i0]); [|done|by apply Hok; eexists|simpl; by rewrite E1|simpl; lia].
  change (table_index v (12 + 9 * Z.of_nat 2)) with i1. destruct (next m t1 i1) as [t2|] eqn:E2; [|done]. cbn [mbind option_bind].
  rewrite (translation_upper m pages (pgd mm) [i0; i1]);
    [|done|by apply Hok; eexists|simpl; rewrite E1; simpl; by rewrite E2|simpl; lia].
  change (table_index v (12 + 9 * Z.of_nat 1)) with i2. destruct (next m t2 i2) as [t3|] eqn:E3; [|done]. cbn [mbind option_bind].
  rewrite (translation_last m pages (pgd mm) [i0; i1; i2]); [|done|by apply Hok; exists []| |done].
  - change 12 with PAGE_SHIFT. by destruct (next m t3 _).
  - simpl. rewrite E1. simpl. rewrite E2. simpl. by rewrite E3.
Qed.
End Hardware.

(** ** Executing [map_page] *)

Section Execution.
Context (s : kstate) (p : pcb_ptr) (x : PCB).
Implicit Types (m : Z -> Z) (pages : gmap Z Z) (mm : mm_struct) (k : Z).
Abbreviation st := (mm_state s p x).

Lemma mm_state_pcb mm m pages : pcbs (st mm m pages) !! p = Some (set_mm mm x).
Proof. apply lookup_insert_eq. Qed.

Lemma mm_state_here m pages : 
  pcbs s !! p = Some x -> st (mm x) m pages = with_mem m pages s.
Proof.
  intros Hx. unfold mm_state. assert (set_mm (mm x) x = x) as -> by by destruct x.
  rewrite insert_id by done. by destruct s.
Qed.

Lemma wp_mm_state {A} (c : K A) Q :
  pcbs s !! p = Some x -> wp c Q (st (mm x) (ram s) (memory_pages s)) -> wp c Q s.
Proof.
  intros Hx Hw. replace s with (st (mm x) (ram s) (memory_pages s)); [done|].
  rewrite mm_state_here by done. by destruct s.
Qed.

Lemma wp_get_mm mm m pages Q : Q mm (st mm m pages) -> wp (get_mm p) Q (st mm m pages).
Proof.
  intros HQ. unfold get_mm, deref. wp_steps; [apply mm_state_pcb|done].
Qed.

Lemma wp_update_mm f mm m pages Q : Q tt (st (f mm) m pages) -> wp (update_mm p f) Q (st mm m pages).
Proof.
  intros HQ. unfold update_mm, update, deref. wp_steps; [apply mm_state_pcb|].
  unfold mm_state in HQ |- *. simpl. rewrite alter_insert_eq. by destruct s, x.
Qed.

Lemma wp_alloc n mm m pages Q :
  free_pages pages (S n) ->
  (forall k m', 0 <= k < N_PAGES -> ~ page_used pages k -> page_zero m m' (page k) ->
     free_pages (<[k := 1]> pages) n -> Q (page k) (st mm m' (<[k := 1]> pages))) ->
  wp get_free_page Q (st mm m pages).
Proof.
  intros Hf HQ. eapply wp_get_free_page_some; [by simpl|]. intros k m' Hk Hu Hm Hf'.
  specialize (HQ k m' Hk Hu Hm Hf'). by destruct s.
Qed.

Lemma wp_zero k mm m pages Q :
  0 <= k < N_PAGES -> (forall m', page_zero m m' (page k) -> Q tt (st mm m' pages)) ->
  wp (memzero (u64 (page k + VA_START)) PAGE_SIZE) Q (st mm m pages).
Proof.
  intros Hk HQ. rewrite u64_va by done. eapply wp_mono; [by apply wp_zero_page|].
  intros [] s' (m' & -> & Hm). specialize (HQ m' Hm). by destruct s.
Qed.

Lemma wp_store a v mm m pages Q : Q tt (st mm (write64 a v m) pages) -> wp (store64 a v) Q (st mm m pages).
Proof. intros HQ. unfold store64. wp_step. by destruct s. Qed.

Lemma array_set_room {A} (l : list A) (i : Z) v :
  length l = Z.to_nat MAX_PROCESS_PAGES -> 0 <= i < MAX_PROCESS_PAGES ->
  array_set l i v = Some (<[Z.to_nat i := v]> l).
Proof.
  unfold MAX_PROCESS_PAGES, array_set. intros -> Hi.
  by rewrite (proj2 (Z.leb_le 0 i)), (proj2 (Z.ltb_lt i _)) by lia.
Qed.

(** Tracking a table fills the next slot of [kernel_pages]. *)
Definition tracked mm (t : Z) : mm_struct :=
  mkMm (pgd mm) (n_user_pages mm) (user_pages mm) (n_kernel_pages mm + 1)
       (<[Z.to_nat (n_kernel_pages mm) := t]> (kernel_pages mm)).

Lemma wp_track u k t mm m pages Q :
  room mm u (k + 1) -> 0 <= k -> (room (tracked mm t) u k -> Q tt (st (tracked mm t) m pages)) ->
  wp (track_kernel_page p t) Q (st mm m pages).
Proof.
  intros [Hu Hnu Hl Hn] Hk HQ. unfold track_kernel_page. wp_step. apply wp_get_mm. wp_steps.
  { apply array_set_room; [done|lia]. }
  apply wp_update_mm. rewrite s32_id by (unfold MAX_PROCESS_PAGES in *; lia). apply HQ.
  constructor; simpl; rewrite ?length_insert; try done; lia.
Qed.

Lemma page_nonzero k : 0 <= k < N_PAGES -> page k <> 0.
Proof. intros Hk. page_lia. Qed.

Lemma room_le mm u u' k k' : u' <= u -> k' <= k -> room mm u k -> room mm u' k'.
Proof. intros ? ? [? ? ? ?]. constructor; try done; lia. Qed.

(** One level down: an existing table is followed, a missing one created. *)
Lemma wp_descend n path rest t shift v u c mm m pages Q :
  0 <= c ->
  pgd mm <> 0 -> space m pages (pgd mm) -> table_path (path ++ [table_index v shift]) ->
  walk m (pgd mm) path = Some t ->
  free_pages pages (missing_from m t (table_index v shift :: rest) + n) ->
  room mm u (Z.of_nat (missing_from m t (table_index v shift :: rest)) + c) ->
  (forall t' m' pages' mm', grows (pgd mm) m pages m' pages' -> pgd mm' = pgd mm ->
     user_pages mm' = user_pages mm -> n_user_pages mm' = n_user_pages mm ->
     walk m' (pgd mm) (path ++ [table_index v shift]) = Some t' ->
     free_pages pages' (missing_from m' t' rest + n) -> room mm' u (Z.of_nat (missing_from m' t' rest) + c) ->
     Q t' (st mm' m' pages')) ->
  wp (descend p t shift v) Q (st mm m pages).
Proof.
  intros Hc H0 Hs Hp Hw Hf Hr HQ. pose proof (table_path_snoc _ _ Hp) as Hp'.
  destruct (space_page _ _ _ Hs _ _ Hp' Hw) as (kt & Hkt & Et & Hut).
  pose proof (index_ok_range v shift) as Hi. set (i := table_index v shift) in *.
  unfold descend, map_table. fold i. wp_step. wp_step. unfold load64.
  wp_step. simpl ram. rewrite Et, entry_address, <- Et by done. fold (entry m t i).
  cbn [missing_from] in Hf, Hr. destruct (Z.eqb_spec (entry m t i) 0) as [E|E].
  - assert (Hn : next m t i = None) by (unfold next; by rewrite E). rewrite Hn in Hf, Hr.
    wp_step. eapply (wp_alloc (length rest + n)); [done|]. intros k' m1 Hk' Hu' Hz1 Hf'.
    wp_step. apply wp_zero; [done|]. intros m2 Hz2. pose proof (page_zero_trans _ _ _ _ Hz1 Hz2) as Hz.
    wp_step. apply wp_store. wp_steps.
    eapply (wp_track u (Z.of_nat (length rest) + c)); [eapply room_le, Hr; lia|lia|]. intros Hr'. wp_step.
    set (m' := write64 _ _ m2). pose proof (missing_from_le m' (page k') rest) as Hle.
    eapply HQ; [by apply (install_grows m m2 pages (pgd mm) t _ k' path)|done|done|done| |..].
    + by apply (install_new m m2 pages (pgd mm) t _ k' path).
    + eapply free_pages_le, Hf'. lia.
    + eapply room_le, Hr'; lia.
  - assert (Hn : next m t i = Some (Z.land (entry m t i) PAGE_MASK)).
    { unfold next. by rewrite (proj2 (Z.eqb_neq _ _)). }
    rewrite Hn in Hf, Hr. wp_steps. simpl ram. fold (entry m t i).
    unfold when. wp_steps. apply HQ; try done; [by apply grows_refl|].
    rewrite walk_snoc, Hw. apply Hn.
Qed.

(** A process without a PGD gets an empty one. *)
Lemma wp_root n u c v mm m pages Q :
  0 <= c ->
  address_space m pages mm -> free_pages pages (missing m (pgd mm) v + n) ->
  room mm u (Z.of_nat (missing m (pgd mm) v) + c) ->
  (forall m' pages' mm', extends mm m pages mm' m' pages' -> pgd mm' <> 0 ->
     user_pages mm' = user_pages mm -> n_user_pages mm' = n_user_pages mm ->
     (forall v', mapping m' (pgd mm') v' = mapping m (pgd mm) v') ->
     free_pages pages' (missing m' (pgd mm') v + n) -> room mm' u (Z.of_nat (missing m' (pgd mm') v) + c) ->
     Q tt (st mm' m' pages')) ->
  wp (when (pgd mm =? 0) (
        page ← get_free_page;
        update_mm p (set_mm_pgd page);;
        memzero (u64 (page + VA_START)) PAGE_SIZE;;
        track_kernel_page p page)) Q (st mm m pages).
Proof.
  intros Hc Hs Hf Hr HQ. destruct (Z.eqb_spec (pgd mm) 0) as [E|E]; cbn [when].
  2: { wp_step. apply HQ; try done. by apply extends_refl. }
  unfold missing in Hf, Hr. rewrite E in Hf, Hr. simpl Z.eqb in Hf, Hr. cbv iota in Hf, Hr.
  wp_step. eapply (wp_alloc (3 + n)); [done|]. intros k m1 Hk Hu Hz1 Hf'.
  wp_step. apply wp_update_mm. wp_step. apply wp_zero; [done|]. intros m' Hz2.
  pose proof (page_zero_trans _ _ _ _ Hz1 Hz2) as Hz. pose proof (page_nonzero k Hk) as Hnz.
  assert (Hnext : forall i, index_ok i -> next m' (page k) i = None).
  { intros i Hi. unfold next. by rewrite (entry_zero_page m m' k i). }
  assert (Hroot : forall path t, Forall index_ok path -> walk m' (page k) path = Some t -> path = [] /\ t = page k).
  { intros [|i path] t Hok; simpl; [by intros [= <-]|]. apply Forall_cons in Hok as [Hi _].
    by rewrite Hnext. }
  eapply (wp_track u (3 + c)); [destruct Hr as [? ? ? ?]; constructor; simpl; try done; lia|lia|]. intros Hr'.
  pose proof (missing_from_le m' (page k) (take 3 (indices v))) as Hle. simpl length in Hle.
  apply HQ; cbn [tracked set_mm_pgd pgd user_pages n_user_pages] in *; try done.
  - constructor; unfold owns_table; cbn [tracked set_mm_pgd pgd].
    + intros j Hj. apply page_used_insert. by right.
    + intros _. constructor; cbn [tracked set_mm_pgd pgd].
      * intros path t [Hok _] Hw. apply Hroot in Hw as [-> ->]; [|done]. exists k. split; [done|split; [done|]].
        apply page_used_insert. by left.
      * intros path path' t [Hok _] [Hok' _] Hw Hw'. apply Hroot in Hw as [-> _], Hw' as [-> _]; done.
      * intros path t i [Hok _] Hw Hi. apply Hroot in Hw as [-> ->]; [|done]. left. by apply (entry_zero_page m m').
    + intros t [_ (path & [Hok _] & Hw)]. apply Hroot in Hw as [-> ->]; [|done]. right.
      intros (k' & _ & Ek & Hu'). by apply page_inj in Ek as <-.
    + intros t b (kt & Hkt & -> & Hut) _ Hb. rewrite Hz. assert (kt <> k) by by intros ->.
      unfold filled. range_cases; try done; page_lia.
    + intros b Hb. rewrite Hz. unfold filled. range_cases; try done; page_lia.
  - intros v'. unfold mapping. rewrite (proj2 (Z.eqb_neq (page k) 0)), E by done. simpl Z.eqb. cbv iota.
    destruct (walk m' (page k) (indices v')) eqn:Ew; [|done]. apply Hroot in Ew as [? _]; [done|apply indices_ok].
  - eapply free_pages_le, Hf'. unfold missing. rewrite (proj2 (Z.eqb_neq (page k) 0)) by done. lia.
  - eapply room_le, Hr'; [lia|]. unfold missing. rewrite (proj2 (Z.eqb_neq (page k) 0)) by done. lia.
Qed.

(** What [map_page] does to the memory map and the memory of a process. *)
Record maps (k v : Z) (mm : mm_struct) (m : Z -> Z) (pages : gmap Z Z)
            (mm' : mm_struct) (m' : Z -> Z) (pages' : gmap Z Z) : Prop := {
  maps_extends : extends mm m pages mm' m' pages';
  maps_pgd : pgd mm' <> 0;
  maps_mapping v' :
    mapping m' (pgd mm') v' = if decide (indices v' = indices v) then Some (page k) else mapping m (pgd mm) v';
  maps_user : user_pages mm' = <[Z.to_nat (n_user_pages mm) := mkUserPage (page k) v]> (user_pages mm);
  maps_n_user : n_user_pages mm' = n_user_pages mm + 1;
  maps_missing v' : take 3 (indices v') = take 3 (indices v) -> missing m' (pgd mm') v' = 0%nat;
}.

(** For the processor: the addresses of the page of [v] go to the page [page k],
    and all others where they went before. *)
Lemma maps_translate k v mm m pages mm' m' pages' v' :
  address_space m pages mm -> maps k v mm m pages mm' m' pages' ->
  translate m' (pgd mm') v' =
    if decide (page_number v' = page_number v) then Some (page k + v' mod PAGE_SIZE) else translate m (pgd mm) v'.
Proof.
  intros Hs Hm. pose proof (ext_space _ _ _ _ _ _ (maps_extends _ _ _ _ _ _ _ _ Hm)) as Hs'.
  rewrite (translate_mapping m' pages' mm'), (translate_mapping m pages mm), (maps_mapping _ _ _ _ _ _ _ _ Hm) by done.
  repeat case_decide; try done; by rewrite indices_eq in *.
Qed.

Lemma wp_track_user q mm m pages Q :
  room mm 1 0 ->
  Q tt (st (mkMm (pgd mm) (n_user_pages mm + 1) (<[Z.to_nat (n_user_pages mm) := q]> (user_pages mm))
                 (n_kernel_pages mm) (kernel_pages mm)) m pages) ->
  wp (track_user_page p q) Q (st mm m pages).
Proof.
  intros [Hu Hnu Hl Hn] HQ. unfold track_user_page. wp_step. apply wp_get_mm. wp_steps.
  { apply array_set_room; [done|]. unfold MAX_PROCESS_PAGES in *. lia. }
  apply wp_update_mm. rewrite s32_id by (unfold MAX_PROCESS_PAGES in *; lia). done.
Qed.

(** The last level, from the PTE table at [t]. *)
Lemma wp_map_leaf u c mm m pages v k t Q :
  pgd mm <> 0 -> space m pages (pgd mm) -> walk m (pgd mm) (take 3 (indices v)) = Some t ->
  0 <= k < N_PAGES -> 0 <= u -> 0 <= c -> room mm (1 + u) c ->
  (forall mm' m', maps k v mm m pages mm' m' pages -> room mm' u c -> Q tt (st mm' m' pages)) ->
  wp (map_table_entry (u64 (t + VA_START)) v (page k);; track_user_page p (mkUserPage (page k) v)) Q (st mm m pages).
Proof.
  intros H0 Hs Hw Hk Hu Hc Hr HQ. pose proof (indices_ok v) as Hok.
  assert (Hp : table_path (take 3 (indices v))) by (split; [by apply Forall_take|done]).
  destruct (space_page _ _ _ Hs _ _ Hp Hw) as (kt & Hkt & Et & Hut).
  pose proof (index_ok_range v PAGE_SHIFT) as Hi.
  unfold map_table_entry. rewrite Et, entry_address, <- Et by done. wp_step. apply wp_store.
  set (m' := write64 _ _ m). apply wp_track_user; [eapply room_le, Hr; lia|].
  assert (H3 : length (take 3 (indices v)) = 3%nat) by done.
  assert (E4 : indices v = take 3 (indices v) ++ [table_index v PAGE_SHIFT]) by done.
  assert (Hz : forall w, mapping m' (pgd mm) w = walk m' (pgd mm) (indices w)).
  { intros w. unfold mapping. by rewrite (proj2 (Z.eqb_neq _ _)). }
  apply HQ; [|by destruct Hr as [? ? ? ?]; constructor; simpl; rewrite ?length_insert; try done; lia].
  constructor; cbn [pgd user_pages n_user_pages]; try done.
  - constructor; unfold owns_table, address_space; cbn [pgd]; [done| |..].
    + intros _. by apply (leaf_space m pages (pgd mm) t _ k (take 3 (indices v))).
    + intros t' [_ Ht']. left. split; [done|].
      by apply (leaf_tables m pages (pgd mm) t (table_index v PAGE_SHIFT) k (take 3 (indices v))).
    + intros t' b Ha Hn Hb. apply (leaf_bytes m pages (pgd mm) t _ k (take 3 (indices v))) with t'; try done.
      intros Ht. by apply Hn.
    + by apply (leaf_below m pages (pgd mm) t _ k (take 3 (indices v))).
  - intros v'. rewrite Hz. case_decide as E.
    + rewrite E, E4. by apply (leaf_mapped m pages (pgd mm)).
    + unfold mapping. rewrite (proj2 (Z.eqb_neq _ _)) by done.
      apply (leaf_frame m pages (pgd mm) t _ k (take 3 (indices v))); try done. apply indices_ok.
  - intros v' E. unfold missing. rewrite (proj2 (Z.eqb_neq _ _)), E by done.
    apply missing_from_walk with t. etrans; [|exact Hw].
    by apply (leaf_short m pages (pgd mm) t _ k (take 3 (indices v))).
Qed.

Lemma wp_map_page n u c k v mm m pages Q :
  0 <= u -> 0 <= c -> address_space m pages mm -> free_pages pages (missing m (pgd mm) v + n) ->
  room mm (1 + u) (Z.of_nat (missing m (pgd mm) v) + c) -> 0 <= k < N_PAGES ->
  (forall mm' m' pages', maps k v mm m pages mm' m' pages' -> free_pages pages' n -> room mm' u c ->
     Q tt (st mm' m' pages')) ->
  wp (map_page p v (page k)) Q (st mm m pages).
Proof.
  intros Hu Hc Hs Hf Hr Hk HQ. unfold map_page. wp_step. apply wp_get_mm. wp_step.
  eapply wp_root; [exact Hc|done|done|done|]. intros m1 p1 mm1 He1 H1 Eu1 En1 Ht1 Hf1 Hr1.
  wp_step. apply wp_get_mm. pose proof (ext_space _ _ _ _ _ _ He1 H1) as Hs1.
  unfold missing in Hf1, Hr1. rewrite (proj2 (Z.eqb_neq _ _)) in Hf1, Hr1 by done.
  wp_step. eapply (wp_descend n [] [table_index v PUD_SHIFT; table_index v PMD_SHIFT] (pgd mm1) PGD_SHIFT v);
    [exact Hc|done|done| |done|exact Hf1|exact Hr1|].
  { split; [|simpl; lia]. constructor; [apply index_ok_range|constructor]. }
  intros pud m2 p2 mm2 Hg2 E2 Eu2 En2 Hw2 Hf2 Hr2. rewrite <- E2 in Hw2.
  pose proof (grows_space _ _ _ _ _ Hg2) as Hs2. rewrite <- E2 in Hs2.
  wp_step. eapply (wp_descend n (take 1 (indices v)) [table_index v PMD_SHIFT] pud PUD_SHIFT v);
    [exact Hc|congruence|done| |done|exact Hf2|exact Hr2|].
  { split; [|simpl; lia]. repeat constructor; apply index_ok_range. }
  intros pmd m3 p3 mm3 Hg3 E3 Eu3 En3 Hw3 Hf3 Hr3. rewrite <- E3 in Hw3.
  pose proof (grows_space _ _ _ _ _ Hg3) as Hs3. rewrite <- E3 in Hs3.
  wp_step. eapply (wp_descend n (take 2 (indices v)) [] pmd PMD_SHIFT v);
    [exact Hc|congruence|done| |done|exact Hf3|exact Hr3|].
  { split; [|simpl; lia]. repeat constructor; apply index_ok_range. }
  intros pte m4 p4 mm4 Hg4 E4 Eu4 En4 Hw4 Hf4 Hr4. rewrite <- E4 in Hw4.
  pose proof (grows_space _ _ _ _ _ Hg4) as Hs4. rewrite <- E4 in Hs4. simpl missing_from in *.
  eapply wp_map_leaf; [congruence|done|exact Hw4|done|exact Hu|exact Hc|eapply room_le, Hr4; lia|].
  intros mm' m' [He Hp Htr Hus Hnu Hmi] Hroom. apply HQ; [|done..].
  assert (Hext : extends mm m pages mm4 m4 p4).
  { eapply extends_trans; [exact He1|]. apply (grows_extends _ mm2) in Hg2; [|done..].
    eapply extends_trans; [exact Hg2|]. apply (grows_extends _ mm3) in Hg3; [|congruence..].
    eapply extends_trans; [exact Hg3|]. apply (grows_extends _ mm4) in Hg4; [|congruence..]. exact Hg4. }
  constructor; try done; rewrite ?Hus, ?Hnu; try congruence.
  - by eapply extends_trans.
  - intros v'. rewrite Htr. case_decide; [done|].
    rewrite <- Ht1, <- (grows_mapping _ _ _ _ _ v' Hg2), <- E2, <- (grows_mapping _ _ _ _ _ v' Hg3), <- E3,
      <- (grows_mapping _ _ _ _ _ v' Hg4), E4. done.
Qed.
End Execution.
