(* ===== verification/Queue.v ===== *)
(** * Ready queues: intrusive lists and their list abstraction

    Models the queue operations of [libs/scheduler.c] ([enqueue_process_to],
    [dequeue_process_from], [remove_process_from], [enqueue_sorted_to]) on the
    pointers the code manipulates, and proves that they implement the
    corresponding operations on mathematical lists.

    The abstract state [astate] replaces the six intrusive queues of a kernel
    state by lists of processes and forgets the [next_ready] links; [repr]
    relates the two.  [awp] is the program logic the scheduler's proofs use:
    it executes the pointer code symbolically on an abstract state. *)

From S2P Require Import Prelude Exec Kernel.

(** ** The operations of scheduler.c *)

(** [void enqueue_process_to(ProcessQueue* queue, struct PCB* process)] *)
Definition enqueue_process_to (queue : queue_ref) (process : option pcb_ptr) : K unit :=
  match process with
  | None => mret tt
  | Some p =>
    if decide (p = init_process) then mret tt else
    update p (set_next_ready None);;
    update p (set_state PROCESS_READY);;
    q ← get_queue queue;
    match q_tail q with
    | None => put_queue queue (mkQueue (Some p) (Some p))
    | Some t =>
      update t (set_next_ready (Some p));;
      q ← get_queue queue;
      put_queue queue (mkQueue (q_head q) (Some p))
    end
  end.

(** [struct PCB* dequeue_process_from(ProcessQueue* queue)] *)
Definition dequeue_process_from (queue : queue_ref) : K (option pcb_ptr) :=
  q ← get_queue queue;
  match q_head q with
  | None => mret None
  | Some process =>
    x ← deref process;
    put_queue queue (mkQueue (next_ready x) (q_tail q));;
    q ← get_queue queue;
    when (bool_decide (q_head q = None)) (put_queue queue (mkQueue (q_head q) None));;
    update process (set_next_ready None);;
    mret (Some process)
  end.

(** [static void remove_process_from(ProcessQueue*, struct PCB* previous,
    struct PCB* process)] *)
Definition remove_process_from (queue : queue_ref) (previous : option pcb_ptr)
    (process : pcb_ptr) : K unit :=
  x ← deref process;
  match previous with
  | None => q ← get_queue queue; put_queue queue (mkQueue (next_ready x) (q_tail q))
  | Some pr => update pr (set_next_ready (next_ready x))
  end;;
  q ← get_queue queue;
  when (bool_decide (q_tail q = Some process)) (put_queue queue (mkQueue (q_head q) previous));;
  update process (set_next_ready None).

(** The traversal of [enqueue_sorted_to]: the node to insert after.  Every
    iteration visits another process, so [N_PROCESSES] iterations suffice. *)
Fixpoint sorted_position (fuel : nat) (process current : pcb_ptr) : K pcb_ptr :=
  match fuel with
  | O => out_of_fuel
  | S fuel =>
    c ← deref current;
    match next_ready c with
    | None => mret current
    | Some next =>
      x ← deref process;
      n ← deref next;
      if est_burst x <? est_burst n then mret current
      else sorted_position fuel process next
    end
  end.

(** [void enqueue_sorted_to(ProcessQueue* queue, struct PCB* process)] *)
Definition enqueue_sorted_to (queue : queue_ref) (process : option pcb_ptr) : K unit :=
  match process with
  | None => mret tt
  | Some p =>
    if decide (p = init_process) then mret tt else
    update p (set_next_ready None);;
    update p (set_state PROCESS_READY);;
    q ← get_queue queue;
    match q_head q with
    | None => put_queue queue (mkQueue (Some p) (Some p))
    | Some h =>
      x ← deref p;
      y ← deref h;
      if est_burst x <? est_burst y then
        update p (set_next_ready (Some h));;
        put_queue queue (mkQueue (Some p) (q_tail q))
      else
        current ← sorted_position (Z.to_nat N_PROCESSES) p h;
        c ← deref current;
        update p (set_next_ready (next_ready c));;
        update current (set_next_ready (Some p));;
        x ← deref p;
        when (bool_decide (next_ready x = None))
          (q ← get_queue queue; put_queue queue (mkQueue (q_head q) (Some p)))
    end
  end.

(** ** The list a queue represents *)

(** [seg m hd l tl]: following [next_ready] from [hd] visits the processes of
    [l] in order and arrives at [tl]. *)
Fixpoint seg (m : gmap pcb_ptr PCB) (hd : option pcb_ptr) (l : list pcb_ptr)
    (tl : option pcb_ptr) : Prop :=
  match l with
  | [] => hd = tl
  | p :: l' => hd = Some p /\ exists x, m !! p = Some x /\ seg m (next_ready x) l' tl
  end.

Definition queue_repr (m : gmap pcb_ptr PCB) (q : ProcessQueue) (l : list pcb_ptr) : Prop :=
  seg m (q_head q) l None /\ q_tail q = last l.

(** A PCB without its link. *)
Definition strip (x : PCB) : PCB := set_next_ready None x.

(** A kernel state without its intrusive lists. *)
Definition erase (s : kstate) : kstate :=
  set_pcbs (strip <$> pcbs s)
    (set_ready_queue QUEUE_INIT
      (set_ml_queues ((fun _ => QUEUE_INIT) <$> ml_queues s) s)).

Record astate : Type := mkA {
  base : kstate;                          (* everything but the links *)
  lists : queue_ref -> list pcb_ptr;      (* the contents of every queue *)
}.

(** The abstract state [a] represents the kernel state [s]: the queues hold
    the lists of [a], no process is linked twice, and [init_process] is in no
    queue. *)
Record repr (s : kstate) (a : astate) : Prop := mkRepr {
  repr_base : base a = erase s;
  repr_queue q v : queue_at s q = Some v -> queue_repr (pcbs s) v (lists a q);
  repr_absent q : queue_at s q = None -> lists a q = [];
  repr_nodup q : NoDup (lists a q);
  repr_disjoint q1 q2 p : p ∈ lists a q1 -> p ∈ lists a q2 -> q1 = q2;
  repr_init q : init_process ∉ lists a q;
}.

(** Abstract updates. *)
Definition a_update (p : pcb_ptr) (f : PCB -> PCB) (a : astate) : astate :=
  mkA (set_pcbs (alter f p (pcbs (base a))) (base a)) (lists a).

Definition a_set_list (q : queue_ref) (l : list pcb_ptr) (a : astate) : astate :=
  mkA (base a) (fun q' => if decide (q' = q) then l else lists a q').

Definition a_global (g : kstate -> kstate) (a : astate) : astate :=
  mkA (g (base a)) (lists a).

(** Abstract states that agree on the base state and, queue by queue, on the
    lists represent the same kernel states. *)
#[export] Instance astate_equiv : Equiv astate := fun a a' =>
  base a = base a' /\ forall q, lists a q = lists a' q.

#[export] Instance astate_equivalence : Equivalence (≡@{astate}).
Proof.
  constructor.
  - by intros a.
  - intros a a' [E1 E2]. by split.
  - intros a a' a'' [E1 E2] [F1 F2]. split; [congruence|]. intros q. by rewrite E2.
Qed.

(** The process at [p] in an abstract state. *)
Definition a_pcb (a : astate) (p : pcb_ptr) : option PCB := pcbs (base a) !! p.

Definition queued (a : astate) (p : pcb_ptr) : Prop := exists q, p ∈ lists a q.

Definition a_enqueue (q : queue_ref) (p : pcb_ptr) (a : astate) : astate :=
  a_set_list q (lists a q ++ [p]) (a_update p (set_state PROCESS_READY) a).

(** Insertion after every process whose estimate is not longer. *)
Fixpoint insert_by_burst (m : gmap pcb_ptr PCB) (e : Z) (p : pcb_ptr)
    (l : list pcb_ptr) : list pcb_ptr :=
  match l with
  | [] => [p]
  | h :: l' =>
    if e <? from_option est_burst 0 (m !! h) then p :: h :: l'
    else h :: insert_by_burst m e p l'
  end.

Definition a_enqueue_sorted (q : queue_ref) (p : pcb_ptr) (a : astate) : astate :=
  let a' := a_update p (set_state PROCESS_READY) a in
  a_set_list q
    (insert_by_burst (pcbs (base a)) (from_option est_burst 0 (a_pcb a p)) p (lists a q)) a'.

(** ** Primitive rules *)

Section Primitives.
Implicit Types (s : kstate) (p : pcb_ptr) (q : queue_ref) (m : gmap pcb_ptr PCB).

Lemma wp_deref p x (Q : PCB -> kstate -> Prop) s :
  pcbs s !! p = Some x -> Q x s -> wp (deref p) Q s.
Proof. intros Hp HQ. unfold deref. wp_steps; eauto. Qed.

Lemma wp_update p f x (Q : unit -> kstate -> Prop) s :
  pcbs s !! p = Some x -> Q tt (set_pcbs (alter f p (pcbs s)) s) -> wp (update p f) Q s.
Proof.
  intros Hp HQ. unfold update. wp_step. eapply wp_deref; [done|]. by wp_step.
Qed.

Lemma wp_get_queue q v (Q : ProcessQueue -> kstate -> Prop) s :
  queue_at s q = Some v -> Q v s -> wp (get_queue q) Q s.
Proof. intros Hq HQ. unfold get_queue. wp_steps; eauto. Qed.

Lemma wp_put_queue q v0 v (Q : unit -> kstate -> Prop) s :
  queue_at s q = Some v0 -> Q tt (set_queue_at q v s) -> wp (put_queue q v) Q s.
Proof.
  intros Hq HQ. unfold put_queue. wp_step. eapply wp_get_queue; [done|]. by wp_step.
Qed.

Lemma array_get_Some {A} (l : list A) i x :
  array_get l i = Some x <-> 0 <= i /\ l !! Z.to_nat i = Some x.
Proof. unfold array_get. destruct (Z.ltb_spec i 0); naive_solver lia. Qed.

Lemma queue_at_set q v v0 s :
  queue_at s q = Some v0 -> queue_at (set_queue_at q v s) q = Some v.
Proof.
  destruct q as [|i]; simpl; [done|]. rewrite !array_get_Some. intros [Hi Hl].
  split; [done|]. rewrite list_lookup_insert_eq; [done|].
  by eapply lookup_lt_Some.
Qed.

Lemma queue_at_set_ne q q' v s :
  q' <> q -> (forall v0, queue_at s q = Some v0 -> queue_at (set_queue_at q v s) q' = queue_at s q').
Proof.
  intros Hne v0 H0. destruct q as [|i], q' as [|j]; simpl in *; try done.
  apply array_get_Some in H0 as [Hi _]. unfold array_get.
  destruct (Z.ltb_spec j 0); [done|]. rewrite list_lookup_insert_ne; [done|].
  intros E. apply Hne. f_equal. lia.
Qed.

Lemma set_queue_at_twice q v v' s : set_queue_at q v (set_queue_at q v' s) = set_queue_at q v s.
Proof.
  destruct q; [done|]. simpl. unfold set_ml_queues; simpl. f_equal. apply list_insert_insert_eq.
Qed.

Lemma set_pcbs_queue q v m s : set_pcbs m (set_queue_at q v s) = set_queue_at q v (set_pcbs m s).
Proof. by destruct q. Qed.

Lemma pcbs_set_queue q v s : pcbs (set_queue_at q v s) = pcbs s.
Proof. by destruct q. Qed.

Lemma queue_at_set_pcbs q m s : queue_at (set_pcbs m s) q = queue_at s q.
Proof. by destruct q. Qed.
End Primitives.

(** ** Segments *)

Section Segments.
Implicit Types (m : gmap pcb_ptr PCB) (l : list pcb_ptr) (p : pcb_ptr) (hd tl : option pcb_ptr).

Lemma seg_app m l1 l2 hd tl :
  seg m hd (l1 ++ l2) tl <-> exists mid, seg m hd l1 mid /\ seg m mid l2 tl.
Proof. revert hd. induction l1 as [|p l1 IH]; intros hd; simpl; naive_solver. Qed.

Lemma seg_frame m m' l hd tl :
  (forall p, p ∈ l -> next_ready <$> m' !! p = next_ready <$> m !! p) ->
  seg m hd l tl -> seg m' hd l tl.
Proof.
  revert hd. induction l as [|p l IH]; intros hd Hf; simpl; [done|].
  intros [-> (x & Hx & Hs)]. split; [done|].
  pose proof (Hf p ltac:(left)) as E. rewrite Hx in E. simpl in E.
  destruct (m' !! p) as [y|] eqn:Hy; simplify_eq/=. exists y. split; [done|].
  replace (next_ready y) with (next_ready x) by congruence.
  apply IH; [|done]. intros p' Hp'. apply Hf. by right.
Qed.

Lemma seg_snoc m l hd tl p :
  seg m hd (l ++ [p]) tl <->
  seg m hd l (Some p) /\ exists x, m !! p = Some x /\ next_ready x = tl.
Proof. rewrite seg_app. simpl. naive_solver. Qed.

Lemma seg_lookup m l hd tl p : seg m hd l tl -> p ∈ l -> is_Some (m !! p).
Proof.
  revert hd. induction l as [|p' l IH]; intros hd; simpl; [set_solver|].
  intros [-> (x & Hx & Hs)] Hp. apply elem_of_cons in Hp as [->|Hp]; [done|]. eauto.
Qed.

Lemma next_alter_ne m f p p' :
  p' <> p -> next_ready <$> alter f p m !! p' = next_ready <$> m !! p'.
Proof. intros. by rewrite lookup_alter_ne. Qed.

Lemma seg_alter_notin m f p l hd tl : p ∉ l -> seg m hd l tl -> seg (alter f p m) hd l tl.
Proof. intros Hp. apply seg_frame. intros p' Hp'. apply next_alter_ne. set_solver. Qed.

Lemma queue_repr_frame m m' v l :
  (forall p, p ∈ l -> next_ready <$> m' !! p = next_ready <$> m !! p) ->
  queue_repr m v l -> queue_repr m' v l.
Proof. intros Hf [Hs Ht]. split; [by eapply seg_frame|done]. Qed.
End Segments.

(** ** Abstraction: field updates and links *)

(** An update of a PCB that reads and writes no link. *)
Class Oblivious (f : PCB -> PCB) : Prop := {
  oblivious_next x : next_ready (f x) = next_ready x;
  oblivious_strip x : strip (f x) = f (strip x);
}.

(** An update of the kernel's globals that leaves PCBs and queues alone. *)
Class GlobalUpdate (g : kstate -> kstate) : Prop := {
  global_pcbs s : pcbs (g s) = pcbs s;
  global_queue s q : queue_at (g s) q = queue_at s q;
  global_erase s : erase (g s) = g (erase s);
}.

Ltac solve_oblivious := by constructor.
#[export] Hint Extern 0 (Oblivious _) => solve_oblivious : typeclass_instances.
#[export] Hint Extern 0 (GlobalUpdate _) => (constructor; [done|by intros ? []|done]) : typeclass_instances.

Section Abstraction.
Implicit Types (s : kstate) (a : astate) (p : pcb_ptr) (q : queue_ref).
Implicit Types (m : gmap pcb_ptr PCB).

Lemma strip_alter_oblivious f p m :
  Oblivious f -> strip <$> alter f p m = alter f p (strip <$> m).
Proof. intros Hf. apply fmap_alter. intros x _. apply oblivious_strip. Qed.

Lemma strip_alter_link v p m : strip <$> alter (set_next_ready v) p m = strip <$> m.
Proof.
  apply map_eq. intros p'. rewrite !lookup_fmap.
  destruct (decide (p = p')) as [->|]; [rewrite lookup_alter_eq|by rewrite lookup_alter_ne].
  by destruct (m !! p').
Qed.

Lemma repr_pcb s a p y :
  repr s a -> a_pcb a p = Some y -> exists x, pcbs s !! p = Some x /\ strip x = y.
Proof.
  intros [Hb _ _ _ _ _] Hy. unfold a_pcb in Hy. rewrite Hb in Hy. simpl in Hy.
  rewrite lookup_fmap in Hy. destruct (pcbs s !! p) as [x|]; naive_solver.
Qed.

Lemma repr_pcb_rev s a p x : repr s a -> pcbs s !! p = Some x -> a_pcb a p = Some (strip x).
Proof. intros [Hb _ _ _ _ _] Hx. unfold a_pcb. rewrite Hb. simpl. by rewrite lookup_fmap, Hx. Qed.

Lemma a_set_list_eq q l a : lists (a_set_list q l a) q = l.
Proof. simpl. by rewrite decide_True. Qed.

Lemma a_set_list_ne q q' l a : q' <> q -> lists (a_set_list q l a) q' = lists a q'.
Proof. intros. simpl. by rewrite decide_False. Qed.

Lemma repr_queued_pcb s a q p : repr s a -> p ∈ lists a q -> is_Some (a_pcb a p).
Proof.
  intros Hr Hp. destruct (queue_at s q) as [v|] eqn:Hv.
  - destruct (repr_queue _ _ Hr _ _ Hv) as [Hs _].
    destruct (seg_lookup _ _ _ _ _ Hs Hp) as [x Hx].
    by rewrite (repr_pcb_rev _ _ _ _ Hr Hx).
  - rewrite (repr_absent _ _ Hr _ Hv) in Hp. set_solver.
Qed.

(** The queue [q] of a represented state is rebuilt: its list becomes [l']
    and the PCBs [m'], while the links of the other queues stay. *)
Lemma repr_requeue s a q v v' m' l' :
  repr s a ->
  queue_at s q = Some v ->
  (forall q' p, q' <> q -> p ∈ lists a q' ->
     next_ready <$> m' !! p = next_ready <$> pcbs s !! p) ->
  queue_repr m' v' l' ->
  NoDup l' ->
  (forall p, p ∈ l' -> p <> init_process /\ (p ∈ lists a q \/ ~ queued a p)) ->
  repr (set_queue_at q v' (set_pcbs m' s))
    (a_set_list q l' (mkA (set_pcbs (strip <$> m') (base a)) (lists a))).
Proof.
  intros [Hb Hq Hn Hd Hj Hi] Hv Hf Hl Hnd Hin.
  assert (Hat : forall q', q' <> q ->
    queue_at (set_queue_at q v' (set_pcbs m' s)) q' = queue_at s q').
  { intros q' Hne. rewrite (queue_at_set_ne q q' v' (set_pcbs m' s) Hne v);
      by rewrite queue_at_set_pcbs. }
  constructor.
  - simpl. rewrite Hb. destruct q as [|i]; simpl; [done|].
    unfold erase, set_pcbs; simpl. f_equal. rewrite list_fmap_insert.
    apply array_get_Some in Hv as [_ Hv]. symmetry. apply list_insert_id.
    by rewrite list_lookup_fmap, Hv.
  - intros q' w Hw. destruct (decide (q' = q)) as [->|Hne].
    + rewrite a_set_list_eq. erewrite queue_at_set in Hw by (by rewrite queue_at_set_pcbs).
      simplify_eq. by rewrite pcbs_set_queue.
    + rewrite a_set_list_ne, pcbs_set_queue by done. rewrite Hat in Hw by done.
      eapply queue_repr_frame; [|by apply Hq]. intros p Hp. simpl. eauto.
  - intros q' Hw. destruct (decide (q' = q)) as [->|Hne].
    + erewrite queue_at_set in Hw by (by rewrite queue_at_set_pcbs). done.
    + rewrite a_set_list_ne by done. rewrite Hat in Hw by done. by apply Hn.
  - intros q'. simpl. case_decide; [done|apply Hd].
  - intros q1 q2 p. simpl. intros H1 H2. repeat case_decide; subst; try done.
    + destruct (Hin p H2) as [_ [?|Hnq]]; [by apply (Hj q1 q p)|]. destruct Hnq. by exists q1.
    + destruct (Hin p H1) as [_ [?|Hnq]]; [by apply (Hj q q2 p)|]. destruct Hnq. by exists q2.
    + by apply (Hj q1 q2 p).
  - intros q'. simpl. case_decide; [|apply Hi]. intros Hl0. by destruct (Hin _ Hl0).
Qed.

(** An update of fields other than the links. *)
Lemma repr_update s a p f :
  repr s a -> Oblivious f -> repr (set_pcbs (alter f p (pcbs s)) s) (a_update p f a).
Proof.
  intros [Hb Hq Hn Hd Hj Hi] Hf. constructor; simpl; try done.
  - unfold erase; simpl. rewrite Hb. simpl. by rewrite strip_alter_oblivious.
  - intros q v Hv. rewrite queue_at_set_pcbs in Hv. eapply queue_repr_frame; [|by apply Hq].
    intros p' _. destruct (decide (p' = p)) as [->|]; [|by apply next_alter_ne].
    simpl. rewrite lookup_alter_eq. destruct (pcbs s !! p) as [x|]; simpl; [|done].
    by rewrite oblivious_next.
Qed.

#[export] Instance repr_proper s : Proper ((≡) ==> iff) (repr s).
Proof.
  assert (Hone : forall a a', a ≡ a' -> repr s a -> repr s a').
  { intros a a' [E1 E2] [Hb Hq Hn Hd Hj Hi].
    constructor; intros; rewrite <- ?E2 in *; rewrite <- ?E1 in *; eauto. }
  intros a a' E. split; apply Hone; by rewrite E.
Qed.

#[export] Instance a_update_proper p f : Proper ((≡) ==> (≡)) (a_update p f).
Proof. intros a a' [E1 E2]. split; simpl; [by rewrite E1|done]. Qed.

#[export] Instance a_set_list_proper q l : Proper ((≡) ==> (≡)) (a_set_list q l).
Proof. intros a a' [E1 E2]. split; simpl; [done|]. intros q'. by case_decide. Qed.

Lemma a_set_list_twice q l l' a : a_set_list q l (a_set_list q l' a) ≡ a_set_list q l a.
Proof. split; [done|]. intros q'. simpl. by case_decide. Qed.

Lemma a_set_list_self q a : a_set_list q (lists a q) a ≡ a.
Proof. split; [done|]. intros q'. simpl. case_decide; by subst. Qed.

Lemma repr_global s a g : repr s a -> GlobalUpdate g -> repr (g s) (a_global g a).
Proof.
  intros [Hb Hq Hn Hd Hj Hi] Hg. constructor; simpl; try done.
  - by rewrite global_erase, Hb.
  - intros q v. rewrite global_queue, global_pcbs. apply Hq.
  - intros q. rewrite global_queue. apply Hn.
Qed.
End Abstraction.

(** ** Refinement: the queue operations implement the list operations *)

Section QueueShapes.
Implicit Types (m : gmap pcb_ptr PCB) (v : ProcessQueue) (l : list pcb_ptr) (p t : pcb_ptr).

Lemma queue_repr_append m v l p t x :
  queue_repr m v l -> q_tail v = Some t -> NoDup (l ++ [p]) ->
  m !! p = Some x -> next_ready x = None ->
  queue_repr (alter (set_next_ready (Some p)) t m) (mkQueue (q_head v) (Some p)) (l ++ [p]).
Proof.
  intros [Hs Ht] Et Hnd Hp Hx. rewrite Et in Ht. symmetry in Ht. apply last_Some in Ht as [l0 ->].
  apply seg_snoc in Hs as (Hs & xt & Hxt & Hnt).
  apply NoDup_app in Hnd as (Hnd & Hdis & _). apply NoDup_app in Hnd as (_ & Hdis0 & _).
  assert (Htp : p <> t) by (intros ->; apply (Hdis t); set_solver).
  split; [|by rewrite last_snoc]. simpl. apply seg_snoc. split.
  - apply seg_snoc. split.
    + apply seg_alter_notin; [|done]. intros Hin. apply (Hdis0 t Hin). set_solver.
    + rewrite lookup_alter_eq, Hxt. simpl. eauto.
  - rewrite lookup_alter_ne by done. eauto.
Qed.

Lemma queue_repr_singleton m p x :
  m !! p = Some x -> next_ready x = None -> queue_repr m (mkQueue (Some p) (Some p)) [p].
Proof. intros Hp Hx. split; simpl; eauto. Qed.

Lemma queue_repr_tail m v p l x :
  queue_repr m v (p :: l) -> m !! p = Some x ->
  queue_repr m (mkQueue (next_ready x) (if decide (next_ready x = None) then None else q_tail v)) l.
Proof.
  intros [[Hh (y & Hy & Hs)] Ht] Hx. rewrite Hx in Hy. injection Hy as <-. split; [done|]. simpl.
  destruct l as [|p' l]; simpl in *.
  - by rewrite Hs.
  - destruct Hs as [-> _]. by rewrite decide_False.
Qed.

(** Unlinking [p], whose predecessor is [previous]. *)
Lemma queue_repr_unlink m v l1 p l2 x :
  queue_repr m v (l1 ++ p :: l2) -> NoDup (l1 ++ p :: l2) -> m !! p = Some x ->
  let m' := match last l1 with
            | Some pr => alter (set_next_ready (next_ready x)) pr m
            | None => m
            end in
  let hd := match last l1 with Some _ => q_head v | None => next_ready x end in
  queue_repr m' (mkQueue hd (if decide (q_tail v = Some p) then last l1 else q_tail v)) (l1 ++ l2).
Proof.
  intros [Hs Ht] Hnd Hx. apply seg_app in Hs as (mid & Hs1 & -> & y & Hy & Hs2).
  rewrite Hx in Hy. injection Hy as <-.
  assert (Htail : last (l1 ++ l2) = if decide (q_tail v = Some p) then last l1 else q_tail v).
  { rewrite Ht, last_app_cons, last_app. destruct (last l2) as [z|] eqn:Ez.
    - apply last_Some in Ez as [l3 ->].
      rewrite app_comm_cons, last_snoc, decide_False; [done|]. intros [= ->].
      apply NoDup_app in Hnd as (_ & _ & Hnd). apply NoDup_cons in Hnd as [Hnd _]. set_solver.
    - apply last_None in Ez as ->. by rewrite decide_True. }
  destruct (last l1) as [pr|] eqn:El; simpl.
  - apply last_Some in El as [l0 ->]. apply seg_snoc in Hs1 as (Hs1 & z & Hz & _).
    apply NoDup_app in Hnd as (Hnd1 & Hdis & _). apply NoDup_app in Hnd1 as (_ & Hd0 & _).
    split; [|by rewrite Htail]. simpl. apply seg_app. exists (next_ready x). split.
    + apply seg_snoc. split.
      * apply seg_alter_notin; [|done]. intros Hin. apply (Hd0 pr Hin). set_solver.
      * rewrite lookup_alter_eq, Hz. simpl. eauto.
    + apply seg_alter_notin; [|done]. intros Hin. apply (Hdis pr); set_solver.
  - apply last_None in El as ->. split; [done|]. by rewrite Htail.
Qed.

(** Linking [p] in after [c]. *)
Lemma queue_repr_insert m v l1 c l2 p x y :
  queue_repr m v (l1 ++ c :: l2) -> NoDup (l1 ++ c :: p :: l2) ->
  m !! c = Some x -> m !! p = Some y ->
  queue_repr (alter (set_next_ready (Some p)) c (alter (set_next_ready (next_ready x)) p m))
    (mkQueue (q_head v) (if decide (next_ready x = None) then Some p else q_tail v))
    (l1 ++ c :: p :: l2).
Proof.
  intros [Hs Ht] Hnd Hx Hy. apply seg_app in Hs as (mid & Hs1 & -> & z & Hz & Hs2).
  rewrite Hx in Hz. injection Hz as <-.
  apply NoDup_app in Hnd as (_ & Hdis & Hnd). apply NoDup_cons in Hnd as [Hc Hnd].
  apply NoDup_cons in Hnd as [Hp _].
  assert (p <> c) by set_solver.
  split; simpl.
  - apply seg_app. exists (Some c). split.
    + do 2 (apply seg_alter_notin; [intros Hin; apply (Hdis _ Hin); set_solver|]). done.
    + split; [done|]. rewrite lookup_alter_eq, lookup_alter_ne, Hx by done. eexists; split; [done|].
      simpl. split; [done|]. rewrite lookup_alter_ne, lookup_alter_eq, Hy by done.
      eexists; split; [done|]. simpl. do 2 (apply seg_alter_notin; [set_solver|]). done.
  - rewrite Ht, !last_app_cons. destruct l2 as [|z l2]; simpl in *.
    + by rewrite Hs2.
    + destruct Hs2 as [-> _]. by rewrite decide_False.
Qed.
End QueueShapes.

(** What both insertions do first: clear the link and mark the process READY. *)
Definition mark_ready (p : pcb_ptr) (m : gmap pcb_ptr PCB) : gmap pcb_ptr PCB :=
  alter (set_state PROCESS_READY) p (alter (set_next_ready None) p m).

Section Refinement.
Implicit Types (s : kstate) (a : astate) (p : pcb_ptr) (q : queue_ref).

Lemma mark_ready_ne p p' m : p' <> p -> mark_ready p m !! p' = m !! p'.
Proof. intros. unfold mark_ready. by rewrite !lookup_alter_ne. Qed.

Lemma mark_ready_eq p m x :
  m !! p = Some x ->
  mark_ready p m !! p = Some (set_state PROCESS_READY (set_next_ready None x)).
Proof. intros Hx. unfold mark_ready. by rewrite !lookup_alter_eq, Hx. Qed.

Lemma strip_mark_ready s a p :
  repr s a ->
  strip <$> mark_ready p (pcbs s) = alter (set_state PROCESS_READY) p (pcbs (base a)).
Proof.
  intros Hr. unfold mark_ready. rewrite (strip_alter_oblivious _ _ _ _), strip_alter_link.
  by rewrite (repr_base _ _ Hr).
Qed.

Lemma wp_mark_ready {A} s p x (k : K A) Q :
  pcbs s !! p = Some x ->
  wp k Q (set_pcbs (mark_ready p (pcbs s)) s) ->
  wp (update p (set_next_ready None);; update p (set_state PROCESS_READY);; k) Q s.
Proof.
  intros Hx Hk. wp_step. eapply wp_update; [done|]. wp_step.
  eapply wp_update; [simpl; by rewrite lookup_alter_eq, Hx|]. done.
Qed.

(** The links of a process the queue [q] owns, or no queue, are not those of
    the other queues. *)
Lemma not_in_other_queue s a q q' p p' :
  repr s a -> p ∈ lists a q \/ ~ queued a p -> q' <> q -> p' ∈ lists a q' -> p' <> p.
Proof.
  intros Hr [Hp|Hp] Hne Hp' ->.
  - apply Hne. by apply (repr_disjoint _ _ Hr q' q p).
  - apply Hp. by exists q'.
Qed.

Lemma new_nodup s a q p l1 l2 :
  repr s a -> ~ queued a p -> lists a q = l1 ++ l2 -> NoDup (l1 ++ p :: l2).
Proof.
  intros Hr Hp Hl. pose proof (repr_nodup _ _ Hr q) as Hnd.
  assert (Hnp : p ∉ l1 ++ l2) by (rewrite <- Hl; intros ?; apply Hp; by exists q).
  rewrite Hl in Hnd. rewrite <- Permutation_middle. by apply NoDup_cons.
Qed.

Lemma new_members s a q p l1 l2 :
  repr s a -> p <> init_process -> ~ queued a p -> lists a q = l1 ++ l2 ->
  forall p', p' ∈ l1 ++ p :: l2 -> p' <> init_process /\ (p' ∈ lists a q \/ ~ queued a p').
Proof.
  intros Hr Hi Hp Hl p' Hin. rewrite Hl. split.
  - intros ->. apply (repr_init _ _ Hr q). rewrite Hl. set_solver.
  - set_solver.
Qed.

Lemma enqueue_process_to_refines s a q p :
  repr s a -> is_Some (queue_at s q) -> is_Some (a_pcb a p) ->
  p <> init_process -> ~ queued a p ->
  wp (enqueue_process_to q (Some p)) (fun _ s' => repr s' (a_enqueue q p a)) s.
Proof.
  intros Hr [v Hv] [y Hy] Hi Hnq. destruct (repr_pcb _ _ _ _ Hr Hy) as (x & Hx & _).
  pose proof (repr_queue _ _ Hr _ _ Hv) as Hq.
  assert (Hl : lists a q = lists a q ++ []) by by rewrite app_nil_r.
  pose proof (new_nodup _ _ _ _ _ _ Hr Hnq Hl) as Hnd.
  pose proof (new_members _ _ _ _ _ _ Hr Hi Hnq Hl) as Hin.
  pose proof (mark_ready_eq p _ _ Hx) as Hp1.
  assert (Hnp : p ∉ lists a q) by (intros ?; apply Hnq; by exists q).
  assert (Hm1 : queue_repr (mark_ready p (pcbs s)) v (lists a q)).
  { eapply queue_repr_frame; [|done]. intros p' Hp'. rewrite mark_ready_ne; [done|]. set_solver. }
  unfold enqueue_process_to. rewrite decide_False by done.
  eapply wp_mark_ready; [done|]. wp_step. eapply wp_get_queue; [by rewrite queue_at_set_pcbs|].
  unfold a_enqueue, a_update. rewrite <- (strip_mark_ready _ _ _ Hr).
  destruct (q_tail v) as [t|] eqn:Et.
  - assert (Ht : t ∈ lists a q).
    { destruct Hq as [_ Ht]. rewrite Et in Ht. symmetry in Ht. apply last_Some in Ht as [? ->]. set_solver. }
    assert (t <> p) by (intros ->; done).
    destruct (repr_queued_pcb _ _ _ _ Hr Ht) as [z Hz].
    destruct (repr_pcb _ _ _ _ Hr Hz) as (z' & Hz' & _).
    wp_step. eapply wp_update; [simpl; by rewrite mark_ready_ne|].
    wp_step. eapply wp_get_queue; [by rewrite !queue_at_set_pcbs|].
    eapply wp_put_queue; [by rewrite !queue_at_set_pcbs|]. simpl.
    rewrite <- strip_alter_link with (v := Some p) (p := t).
    eapply (repr_requeue s a q v _ (alter _ t (mark_ready p (pcbs s)))); try done.
    + intros q' p' Hne Hp'. pose proof (not_in_other_queue _ _ q q' t p' Hr).
      pose proof (not_in_other_queue _ _ q q' p p' Hr).
      rewrite next_alter_ne, mark_ready_ne; naive_solver.
    + by eapply queue_repr_append.
  - eapply wp_put_queue; [by rewrite !queue_at_set_pcbs|].
    eapply (repr_requeue s a q v _ (mark_ready p (pcbs s))); try done.
    + intros q' p' Hne Hp'. rewrite mark_ready_ne; [done|].
      eapply (not_in_other_queue _ _ q q' p p'); eauto.
    + destruct Hq as [_ Ht]. rewrite Et in Ht. symmetry in Ht. apply last_None in Ht as ->.
      by eapply queue_repr_singleton.
Qed.

(** A list update that leaves the PCBs alone. *)
Lemma repr_requeue_links s a q v v' m' l' :
  repr s a -> queue_at s q = Some v ->
  strip <$> m' = strip <$> pcbs s ->
  (forall q' p, q' <> q -> p ∈ lists a q' ->
     next_ready <$> m' !! p = next_ready <$> pcbs s !! p) ->
  queue_repr m' v' l' -> NoDup l' -> (forall p, p ∈ l' -> p ∈ lists a q) ->
  repr (set_queue_at q v' (set_pcbs m' s)) (a_set_list q l' a).
Proof.
  intros Hr Hv Hm Hf Hq Hnd Hin.
  replace a with (mkA (set_pcbs (strip <$> m') (base a)) (lists a)) at 1.
  - apply (repr_requeue s a q v v' m' l'); try done. intros p Hp. split; [|by auto].
    intros ->. by apply (repr_init _ _ Hr q), Hin.
  - rewrite Hm. destruct a as [b ls]. pose proof (repr_base _ _ Hr) as Hb. simpl in Hb. by subst.
Qed.

(** Two writes of the same queue, with an update of links in between or after,
    amount to the last one. *)
Lemma requeue_normal q v v' m s :
  set_queue_at q v (set_pcbs m (set_queue_at q v' s)) = set_queue_at q v (set_pcbs m s).
Proof. by rewrite set_pcbs_queue, set_queue_at_twice. Qed.

Lemma dequeue_process_from_refines s a q :
  repr s a -> is_Some (queue_at s q) ->
  wp (dequeue_process_from q) (fun r s' =>
    match lists a q with
    | [] => r = None /\ s' = s
    | p :: l => r = Some p /\ repr s' (a_set_list q l a)
    end) s.
Proof.
  intros Hr [v Hv]. pose proof (repr_queue _ _ Hr _ _ Hv) as Hq.
  unfold dequeue_process_from. wp_step. eapply wp_get_queue; [done|].
  pose proof (repr_nodup _ _ Hr q) as Hnd.
  destruct (lists a q) as [|p l] eqn:El.
  { destruct Hq as [-> _]. by wp_step. }
  pose proof Hq as [[-> (x & Hx & _)] _]. apply NoDup_cons in Hnd as [Hp Hnd].
  wp_step. eapply wp_deref; [done|]. wp_step. eapply wp_put_queue; [done|].
  wp_step. eapply wp_get_queue; [by eapply queue_at_set|]. simpl. wp_step.
  apply queue_repr_tail with (x := x) in Hq; [|done].
  assert (Hfin : forall v', queue_repr (pcbs s) v' l -> 
    repr (set_queue_at q v' (set_pcbs (alter (set_next_ready None) p (pcbs s)) s)) (a_set_list q l a)).
  { intros v' Hv'. eapply repr_requeue_links; [done|done|apply strip_alter_link| | |done|].
    - intros q' p' Hne Hp'. apply next_alter_ne.
      apply (not_in_other_queue _ _ q q' p p' Hr); [left; rewrite El; by left|done|done].
    - eapply queue_repr_frame; [|done]. intros p' Hp'. apply next_alter_ne. by intros ->.
    - intros p' Hp'. rewrite El. by right. }
  apply wp_when; intros E; reflect_bool.
  - eapply wp_put_queue; [by eapply queue_at_set|]. wp_step.
    eapply wp_update; [by rewrite !pcbs_set_queue|]. wp_step. split; [done|].
    rewrite set_queue_at_twice, pcbs_set_queue, set_pcbs_queue. apply Hfin.
    by rewrite decide_True in Hq.
  - wp_step. eapply wp_update; [by rewrite pcbs_set_queue|]. wp_step. split; [done|].
    rewrite pcbs_set_queue, set_pcbs_queue. apply Hfin. by rewrite decide_False in Hq.
Qed.

Lemma set_queue_at_id q v s : queue_at s q = Some v -> set_queue_at q v s = s.
Proof.
  destruct q as [|i]; simpl.
  - intros [= <-]. by destruct s.
  - intros [_ Hi]%array_get_Some. rewrite list_insert_id by done. by destruct s.
Qed.

(** The end of [remove_process_from]: fix the tail and clear the link. *)
Lemma unlink_tail s q v0 p previous (Q : unit -> kstate -> Prop) :
  queue_at s q = Some v0 -> is_Some (pcbs s !! p) ->
  Q tt (set_pcbs (alter (set_next_ready None) p (pcbs s))
         (set_queue_at q (mkQueue (q_head v0)
            (if decide (q_tail v0 = Some p) then previous else q_tail v0)) s)) ->
  wp (q' ← get_queue q;
      when (bool_decide (q_tail q' = Some p)) (put_queue q (mkQueue (q_head q') previous));;
      update p (set_next_ready None)) Q s.
Proof.
  intros Hv [x Hx] HQ. wp_step. eapply wp_get_queue; [done|]. wp_step.
  apply wp_when; intros E; reflect_bool.
  - eapply wp_put_queue; [done|]. rewrite decide_True in HQ by done.
    eapply wp_update; rewrite pcbs_set_queue; done.
  - rewrite decide_False in HQ by done. destruct v0 as [vh vt]. simpl in HQ.
    rewrite set_queue_at_id in HQ by done. by eapply wp_update.
Qed.

Lemma remove_process_from_refines s a q l1 p l2 :
  repr s a -> is_Some (queue_at s q) -> lists a q = l1 ++ p :: l2 ->
  wp (remove_process_from q (last l1) p) (fun _ s' => repr s' (a_set_list q (l1 ++ l2) a)) s.
Proof.
  intros Hr [v Hv] El. pose proof (repr_queue _ _ Hr _ _ Hv) as Hq.
  pose proof (repr_nodup _ _ Hr q) as Hnd. rewrite El in Hq, Hnd.
  assert (Hpin : forall p', p' ∈ l1 ++ p :: l2 -> is_Some (pcbs s !! p')).
  { intros p' Hp'. destruct Hq as [Hq _]. by eapply seg_lookup. }
  destruct (Hpin p ltac:(set_solver)) as [x Hx].
  pose proof (queue_repr_unlink _ _ _ _ _ _ Hq Hnd Hx) as Hu. cbv zeta in Hu.
  assert (Hnd' : NoDup (l1 ++ l2) /\ p ∉ l1 ++ l2).
  { rewrite <- Permutation_middle in Hnd. apply NoDup_cons in Hnd. tauto. }
  destruct Hnd' as [Hnd' Hpn].
  assert (Hfin : forall v' m', queue_repr m' v' (l1 ++ l2) ->
    (m' = pcbs s \/ exists pr y, pr ∈ l1 /\ m' = alter (set_next_ready y) pr (pcbs s)) ->
    repr (set_queue_at q v' (set_pcbs (alter (set_next_ready None) p m') s))
      (a_set_list q (l1 ++ l2) a)).
  { intros v' m' Hq' Hm'. eapply repr_requeue_links; [done|done| | | |done|rewrite El; set_solver].
    - rewrite strip_alter_link. destruct Hm' as [->|(pr & y & _ & ->)]; [done|apply strip_alter_link].
    - intros q' p' Hne Hp'.
      rewrite next_alter_ne by (apply (not_in_other_queue _ _ q q' p p' Hr); [left; rewrite El; set_solver|done|done]).
      destruct Hm' as [->|(pr & y & Hpr & ->)]; [done|]. apply next_alter_ne.
      apply (not_in_other_queue _ _ q q' pr p' Hr); [left; rewrite El; set_solver|done|done].
    - eapply queue_repr_frame; [|done]. intros p' Hp'. apply next_alter_ne. set_solver. }
  unfold remove_process_from. wp_step. eapply wp_deref; [done|]. wp_step.
  destruct (last l1) as [pr|] eqn:Epr.
  - assert (Hpr : pr ∈ l1) by (apply last_Some in Epr as [? ->]; set_solver).
    destruct (Hpin pr ltac:(set_solver)) as [z Hz].
    assert (p <> pr) by (intros ->; apply Hpn; set_solver).
    eapply wp_update; [done|]. apply unlink_tail with (v0 := v);
      [by rewrite queue_at_set_pcbs|simpl; by rewrite lookup_alter_ne|].
    simpl. rewrite set_pcbs_queue. apply Hfin; [done|eauto 10].
  - eapply wp_bind, wp_get_queue; [done|]. eapply wp_put_queue; [done|].
    apply unlink_tail with (v0 := mkQueue (next_ready x) (q_tail v));
      [by eapply queue_at_set|by rewrite pcbs_set_queue|].
    simpl. rewrite pcbs_set_queue, set_pcbs_queue, requeue_normal.
    apply Hfin; [done|by left].
Qed.

(** The traversal of [enqueue_sorted_to] stops at the node after which
    [insert_by_burst] places the new process. *)
Lemma sorted_position_spec fuel s p e l c hd :
  seg (pcbs s) hd (c :: l) None -> est_burst <$> pcbs s !! p = Some e ->
  (length l < fuel)%nat ->
  wp (sorted_position fuel p c) (fun c' s' => s' = s /\ exists l1 l2,
    c :: l = l1 ++ c' :: l2 /\
    c :: insert_by_burst (pcbs s) e p l = l1 ++ c' :: p :: l2) s.
Proof.
  revert c l hd. induction fuel as [|fuel IH]; intros c l hd Hs He Hf; [lia|].
  destruct Hs as [_ (x & Hx & Hs)]. simpl. wp_step. eapply wp_deref; [done|].
  destruct l as [|n l].
  - rewrite Hs. wp_step. split; [done|]. by exists [], [].
  - pose proof Hs as [Hn (y & Hy & _)]. rewrite Hn.
    destruct (pcbs s !! p) as [z|] eqn:Hz; simplify_eq/=.
    wp_step. eapply wp_deref; [done|]. wp_step. eapply wp_deref; [done|].
    rewrite Hy. simpl. destruct (est_burst z <? est_burst y) eqn:E.
    + wp_step. split; [done|]. exists [], (n :: l). done.
    + eapply wp_mono; [eapply IH; [exact Hs|done|simpl in Hf; lia]|].
      intros c' s' [-> (l1 & l2 & E1 & E2)]. split; [done|].
      exists (c :: l1), l2. simpl. by rewrite E1, E2.
Qed.

Lemma insert_by_burst_ext m m' e p l :
  (forall h, h ∈ l -> from_option est_burst 0 (m !! h) = from_option est_burst 0 (m' !! h)) ->
  insert_by_burst m e p l = insert_by_burst m' e p l.
Proof.
  induction l as [|h l IH]; intros Hm; simpl; [done|].
  rewrite Hm by set_solver. rewrite IH by set_solver. done.
Qed.

Lemma insert_by_burst_perm m e p l : insert_by_burst m e p l ≡ₚ p :: l.
Proof.
  induction l as [|h l IH]; simpl; [done|]. destruct (_ <? _); [done|].
  rewrite IH. constructor.
Qed.

Lemma burst_strip s a p x :
  repr s a -> pcbs s !! p = Some x -> from_option est_burst 0 (a_pcb a p) = est_burst x.
Proof. intros Hr Hx. by rewrite (repr_pcb_rev _ _ _ _ Hr Hx). Qed.

Lemma insert_by_burst_base s a q p e :
  repr s a -> p ∉ lists a q ->
  insert_by_burst (pcbs (base a)) e p (lists a q) =
  insert_by_burst (mark_ready p (pcbs s)) e p (lists a q).
Proof.
  intros Hr Hp. apply insert_by_burst_ext. intros h Hh. rewrite mark_ready_ne by set_solver.
  destruct (repr_queued_pcb _ _ _ _ Hr Hh) as [y Hy].
  destruct (repr_pcb _ _ _ _ Hr Hy) as (x & Hx & <-). unfold a_pcb in Hy.
  by rewrite Hy, Hx.
Qed.

(** The end of [enqueue_sorted_to]: link [p] in after [c]. *)
Lemma insert_after_spec s q v p c xc (Q : unit -> kstate -> Prop) :
  queue_at s q = Some v -> pcbs s !! c = Some xc -> is_Some (pcbs s !! p) -> c <> p ->
  Q tt (set_queue_at q (mkQueue (q_head v) (if decide (next_ready xc = None) then Some p else q_tail v))
    (set_pcbs (alter (set_next_ready (Some p)) c
                (alter (set_next_ready (next_ready xc)) p (pcbs s))) s)) ->
  wp (c' ← deref c;
      update p (set_next_ready (next_ready c'));;
      update c (set_next_ready (Some p));;
      x ← deref p;
      when (bool_decide (next_ready x = None))
        (q' ← get_queue q; put_queue q (mkQueue (q_head q') (Some p)))) Q s.
Proof.
  intros Hv Hc [y Hp] Hne HQ. wp_step. eapply wp_deref; [done|].
  wp_step. eapply wp_update; [done|]. wp_step.
  eapply wp_update; [simpl; by rewrite lookup_alter_ne|]. wp_step.
  eapply wp_deref; [simpl; by rewrite lookup_alter_ne, lookup_alter_eq, Hp|]. simpl.
  apply wp_when; intros E; reflect_bool.
  - wp_step. eapply wp_get_queue; [by rewrite !queue_at_set_pcbs|].
    eapply wp_put_queue; [by rewrite !queue_at_set_pcbs|].
    by rewrite decide_True in HQ.
  - rewrite decide_False in HQ by done. destruct v. rewrite set_queue_at_id in HQ; [done|].
    by rewrite queue_at_set_pcbs.
Qed.

(** Inserting [p] in the queue [q], in which it is not yet. *)
Section Sorted_insert.
Context (s : kstate) (a : astate) (q : queue_ref) (p : pcb_ptr) (v : ProcessQueue) (x : PCB).
Context (Hr : repr s a) (Hv : queue_at s q = Some v) (Hx : pcbs s !! p = Some x) (Hi : p <> init_process) (Hnq : ~ queued a p).

Abbreviation m1 := (mark_ready p (pcbs s)).

Lemma sorted_not_in : p ∉ lists a q.
Proof using Hnq. intros ?. apply Hnq. by exists q. Qed.

Lemma sorted_ready : queue_repr m1 v (lists a q).
Proof using All.
  pose proof sorted_not_in. eapply queue_repr_frame; [|by apply (repr_queue _ _ Hr)]. intros p' Hp'.
  rewrite mark_ready_ne; [done|]. set_solver.
Qed.

Lemma sorted_other q' p' : q' <> q -> p' ∈ lists a q' -> p' <> p /\ next_ready <$> m1 !! p' = next_ready <$> pcbs s !! p'.
Proof using All.
  intros Hne Hp'. assert (p' <> p).
  { apply (not_in_other_queue _ _ q q' p p' Hr); [by right|done|done]. }
  split; [done|]. by rewrite mark_ready_ne.
Qed.

(** Once the links are right, the state is that of the list. *)
Lemma sorted_finish v' m' l1 l2 :
  lists a q = l1 ++ l2 -> strip <$> m' = strip <$> m1 ->
  (forall q' p', q' <> q -> p' ∈ lists a q' -> next_ready <$> m' !! p' = next_ready <$> pcbs s !! p') ->
  queue_repr m' v' (l1 ++ p :: l2) ->
  repr (set_queue_at q v' (set_pcbs m' s)) (a_set_list q (l1 ++ p :: l2) (a_update p (set_state PROCESS_READY) a)).
Proof using All.
  intros El Hst Hfr Hq'. unfold a_update. rewrite <- (strip_mark_ready _ _ _ Hr), <- Hst.
  eapply repr_requeue; [done|done|done|done| |].
  - by eapply new_nodup.
  - by eapply new_members.
Qed.

(** Before the head. *)
Lemma sorted_at_head h l z :
  lists a q = h :: l -> m1 !! h = Some z -> queue_repr m1 v (h :: l) ->
  repr (set_queue_at q (mkQueue (Some p) (q_tail v)) (set_pcbs (alter (set_next_ready (Some h)) p m1) s))
    (a_set_list q (p :: h :: l) (a_update p (set_state PROCESS_READY) a)).
Proof using All.
  intros El Hz [[Hh (z' & Hz' & Hs)] Ht]. rewrite Hz' in Hz. injection Hz as ->. pose proof (mark_ready_eq p _ _ Hx) as Hp1.
  pose proof sorted_not_in as Hnp. rewrite El in Hnp.
  apply (sorted_finish _ _ [] (h :: l)); [done|apply strip_alter_link| |].
  - intros q' p' Hne Hp'. destruct (sorted_other _ _ Hne Hp'). by rewrite next_alter_ne.
  - split; simpl; [|done]. split; [done|]. rewrite lookup_alter_eq, Hp1. eexists; split; [done|].
    simpl. split; [done|]. apply not_elem_of_cons in Hnp as [Hph Hpl].
    rewrite lookup_alter_ne by done. eexists; split; [done|]. by apply seg_alter_notin.
Qed.

(** After [c]. *)
Lemma sorted_after l1 c l2 xc :
  lists a q = l1 ++ c :: l2 -> m1 !! c = Some xc ->
  repr (set_queue_at q (mkQueue (q_head v) (if decide (next_ready xc = None) then Some p else q_tail v))
      (set_pcbs (alter (set_next_ready (Some p)) c (alter (set_next_ready (next_ready xc)) p m1)) s))
    (a_set_list q (l1 ++ c :: p :: l2) (a_update p (set_state PROCESS_READY) a)).
Proof using All.
  intros El Hxc. assert (El' : lists a q = (l1 ++ [c]) ++ l2) by by rewrite <- app_assoc.
  pose proof (new_nodup _ _ _ _ _ _ Hr Hnq El') as Hnd. rewrite <- app_assoc in Hnd.
  pose proof sorted_ready as Hm1. rewrite El in Hm1.
  pose proof (queue_repr_insert _ _ _ _ _ _ _ _ Hm1 Hnd Hxc (mark_ready_eq p _ _ Hx)) as Hins.
  assert (Hcin : c ∈ lists a q) by (rewrite El; apply elem_of_app; right; left).
  assert (Hmid : l1 ++ c :: p :: l2 = (l1 ++ [c]) ++ p :: l2) by by rewrite <- app_assoc.
  rewrite Hmid. apply sorted_finish; [done| | |].
  - by rewrite !strip_alter_link.
  - intros q' p' Hne Hp'. destruct (sorted_other _ _ Hne Hp'). rewrite !next_alter_ne; [done|done|].
    apply (not_in_other_queue _ _ q q' c p' Hr); [by left|done|done].
  - by rewrite <- Hmid.
Qed.
End Sorted_insert.

Lemma enqueue_sorted_to_refines s a q p :
  repr s a -> is_Some (queue_at s q) -> is_Some (a_pcb a p) ->
  p <> init_process -> ~ queued a p -> (length (lists a q) <= Z.to_nat N_PROCESSES)%nat ->
  wp (enqueue_sorted_to q (Some p)) (fun _ s' => repr s' (a_enqueue_sorted q p a)) s.
Proof.
  intros Hr [v Hv] [y Hy] Hi Hnq Hlen. destruct (repr_pcb _ _ _ _ Hr Hy) as (x & Hx & _).
  pose proof (sorted_not_in a q p Hnq) as Hnp. pose proof (mark_ready_eq p _ _ Hx) as Hp1.
  pose proof (sorted_ready s a q p v x Hr Hv Hx Hi Hnq) as Hm1.
  unfold enqueue_sorted_to. rewrite decide_False by done.
  eapply wp_mark_ready; [done|]. wp_step. eapply wp_get_queue; [by rewrite queue_at_set_pcbs|].
  unfold a_enqueue_sorted. cbv zeta. rewrite (insert_by_burst_base _ _ _ _ _ Hr Hnp), (burst_strip _ _ _ _ Hr Hx).
  destruct (lists a q) as [|h l] eqn:El.
  { pose proof Hm1 as [-> _]. eapply wp_put_queue; [by rewrite !queue_at_set_pcbs|].
    apply (sorted_finish s a q p v x Hr Hv Hx Hi Hnq _ _ [] []); [done|done| |by eapply queue_repr_singleton].
    intros q' p' Hne Hp'. by apply (sorted_other s a q p v x Hr Hv Hx Hi Hnq q' p'). }
  pose proof Hm1 as [[Hh (z & Hz & Hs)] Ht]. rewrite Hh.
  wp_step. eapply wp_deref; [done|]. wp_step. eapply wp_deref; [done|]. simpl.
  rewrite Hz. simpl. destruct (est_burst x <? est_burst z) eqn:E.
  - wp_step. eapply wp_update; [done|]. eapply wp_put_queue; [by rewrite !queue_at_set_pcbs|]. simpl.
    by apply (sorted_at_head s a q p v x Hr Hv Hx Hi Hnq h l z).
  - assert (Hpos := sorted_position_spec (Z.to_nat N_PROCESSES)
      (set_pcbs (mark_ready p (pcbs s)) s) p (est_burst x) l h (Some h)). simpl in Hpos. simpl in Hlen.
    wp_step. eapply wp_mono; [apply Hpos; [eauto|by rewrite Hp1|lia]|].
    intros c s' [-> (l1 & l2 & E1 & E2)]. rewrite E2. rewrite E1 in Hm1, Hnp, El.
    assert (Hmid : c ∈ l1 ++ c :: l2) by (apply elem_of_app; right; left).
    destruct (seg_lookup (mark_ready p (pcbs s)) (l1 ++ c :: l2) (q_head v) None c) as [xc Hxc]; [by destruct Hm1|done|].
    apply insert_after_spec with (v := v) (xc := xc); [by rewrite queue_at_set_pcbs|done|simpl; eauto|by intros ->|].
    by apply (sorted_after s a q p v x).
Qed.
End Refinement.

(** ** Sortedness of the SJF queue *)

Definition burst_of (m : gmap pcb_ptr PCB) (p : pcb_ptr) : Z :=
  from_option est_burst 0 (m !! p).

Definition burst_sorted (m : gmap pcb_ptr PCB) (l : list pcb_ptr) : Prop :=
  StronglySorted (fun p q => burst_of m p <= burst_of m q) l.

Lemma insert_by_burst_sorted m p l :
  burst_sorted m l -> burst_sorted m (insert_by_burst m (burst_of m p) p l).
Proof.
  unfold burst_sorted. induction l as [|h l IH]; intros Hs; simpl; [by repeat constructor|].
  pose proof Hs as Hs0. apply StronglySorted_inv in Hs as [Hs Hall].
  fold (burst_of m h). destruct (Z.ltb_spec (burst_of m p) (burst_of m h)).
  - constructor; [done|]. constructor; [lia|].
    eapply Forall_impl; [exact Hall|]. simpl. lia.
  - constructor; [by apply IH|]. rewrite insert_by_burst_perm. by constructor.
Qed.

(** The place: after the shorter and the equal estimates, before the longer ones. *)
Lemma insert_by_burst_place m p l :
  burst_sorted m l -> exists l1 l2, l = l1 ++ l2 /\ insert_by_burst m (burst_of m p) p l = l1 ++ p :: l2 /\
    Forall (fun h => burst_of m h <= burst_of m p) l1 /\ Forall (fun h => burst_of m p < burst_of m h) l2.
Proof.
  unfold burst_sorted. induction l as [|h l IH]; intros Hs; simpl; [by exists [], []|].
  apply StronglySorted_inv in Hs as [Hs Hall]. fold (burst_of m h).
  destruct (Z.ltb_spec (burst_of m p) (burst_of m h)).
  - exists [], (h :: l). repeat split; [constructor|]. constructor; [done|].
    eapply Forall_impl; [exact Hall|]. simpl. lia.
  - destruct (IH Hs) as (l1 & l2 & -> & -> & H1 & H2). exists (h :: l1), l2. repeat split; [|done]. by constructor.
Qed.
