(* ===== verification/QueueLogic.v ===== *)
(** * A program logic over the list abstraction

    [awp m Q a]: from every kernel state that [a] represents, [m] finishes
    without undefined behaviour in a state represented by some [a'] with
    [Q r a'].  Its rules execute the scheduler's code on abstract states; the
    queue operations step to the list operations of [Queue]. *)

From S2P Require Import Prelude Exec Kernel Queue.

Definition awp {A} (m : K A) (Q : A -> astate -> Prop) (a : astate) : Prop :=
  forall s, repr s a -> wp m (fun r s' => exists a', repr s' a' /\ Q r a') s.

Definition valid_queue (a : astate) (q : queue_ref) : Prop := is_Some (queue_at (base a) q).

Section Rules.
Implicit Types (a : astate) (p : pcb_ptr) (q : queue_ref).

#[export] Instance awp_proper {A} (m : K A) Q : Proper ((≡) ==> iff) (awp m Q).
Proof. intros a a' E. unfold awp. split; intros Hm s Hr; apply Hm; by rewrite E in *. Qed.

Lemma awp_ret {A} (x : A) Q a : Q x a -> awp (mret x) Q a.
Proof. intros HQ s Hr. apply wp_ret. eauto. Qed.

Lemma awp_bind {A B} (m : K A) (f : A -> K B) Q a :
  awp m (fun x a' => awp (f x) Q a') a -> awp (m ≫= f) Q a.
Proof.
  intros Hm s Hr. apply wp_bind. eapply wp_mono; [by apply Hm|].
  intros x s' (a' & Hr' & Hf). by apply Hf.
Qed.

Lemma awp_mono {A} (m : K A) (P Q : A -> astate -> Prop) a :
  awp m P a -> (forall x a', P x a' -> Q x a') -> awp m Q a.
Proof.
  intros Hm HPQ s Hr. eapply wp_mono; [by apply Hm|]. intros x s' (a' & ? & ?). eauto.
Qed.

Lemma awp_defined {A} (o : option A) x Q a : o = Some x -> Q x a -> awp (defined o) Q a.
Proof. intros -> HQ. by apply awp_ret. Qed.

Lemma awp_when (b : bool) m Q a :
  (b = true -> awp m Q a) -> (b = false -> Q tt a) -> awp (when b m) Q a.
Proof. intros Ht Hf. destruct b; [by apply Ht|]. apply awp_ret. by apply Hf. Qed.

Lemma awp_gets {A} (f : kstate -> A) Q a :
  (forall s, f (erase s) = f s) -> Q (f (base a)) a -> awp (gets f) Q a.
Proof.
  intros Hf HQ s Hr. apply wp_gets. exists a. split; [done|].
  by rewrite <- Hf, <- (repr_base _ _ Hr).
Qed.

Lemma awp_modify g Q a : GlobalUpdate g -> Q tt (a_global g a) -> awp (modify g) Q a.
Proof. intros Hg HQ s Hr. apply wp_modify. exists (a_global g a). split; [by apply repr_global|done]. Qed.

Lemma awp_deref p y Q a :
  a_pcb a p = Some y -> (forall nx, Q (set_next_ready nx y) a) -> awp (deref p) Q a.
Proof.
  intros Hy HQ s Hr. destruct (repr_pcb _ _ _ _ Hr Hy) as (x & Hx & <-).
  eapply wp_deref; [done|]. exists a. split; [done|]. by destruct x; apply (HQ _).
Qed.

Lemma awp_update p f Q a :
  Oblivious f -> is_Some (a_pcb a p) -> Q tt (a_update p f a) -> awp (update p f) Q a.
Proof.
  intros Hf [y Hy] HQ s Hr. destruct (repr_pcb _ _ _ _ Hr Hy) as (x & Hx & <-).
  eapply wp_update; [done|]. exists (a_update p f a). split; [by apply repr_update|done].
Qed.

Lemma repr_valid s a q : repr s a -> valid_queue a q -> is_Some (queue_at s q).
Proof.
  intros Hr. unfold valid_queue. rewrite (repr_base _ _ Hr). destruct q as [|i]; simpl; [done|].
  intros [v Hv]. apply array_get_Some in Hv as [Hi Hv]. rewrite list_lookup_fmap in Hv.
  destruct (ml_queues s !! Z.to_nat i) as [w|] eqn:E; [|done]. exists w. by apply array_get_Some.
Qed.

Lemma awp_get_queue q Q a :
  valid_queue a q ->
  Q (mkQueue (hd_error (lists a q)) (last (lists a q))) a -> awp (get_queue q) Q a.
Proof.
  intros Hv HQ s Hr. destruct (repr_valid _ _ _ Hr Hv) as [v Hq].
  eapply wp_get_queue; [done|]. exists a. split; [done|].
  destruct (repr_queue _ _ Hr _ _ Hq) as [Hs Ht]. destruct v as [h t]; simpl in *. subst t.
  destruct (lists a q); simpl in *; [by subst|]. by destruct Hs as [-> _].
Qed.

(** Reading a process that is linked also tells its successor. *)
Lemma awp_deref_queued q l1 p l2 y Q a :
  valid_queue a q -> lists a q = l1 ++ p :: l2 -> a_pcb a p = Some y ->
  Q (set_next_ready (hd_error l2) y) a -> awp (deref p) Q a.
Proof.
  intros Hv Hl Hy HQ s Hr. destruct (repr_valid _ _ _ Hr Hv) as [v Hq].
  destruct (repr_queue _ _ Hr _ _ Hq) as [Hs _]. rewrite Hl in Hs.
  apply seg_app in Hs as (mid & _ & -> & x & Hx & Hs).
  eapply wp_deref; [done|]. exists a. split; [done|].
  rewrite (repr_pcb_rev _ _ _ _ Hr Hx) in Hy. injection Hy as <-.
  replace (hd_error l2) with (next_ready x) in HQ; [by destruct x|].
  destruct l2; simpl in *; [done|]. by destruct Hs.
Qed.

Lemma awp_enqueue q p Q a :
  valid_queue a q -> is_Some (a_pcb a p) -> p <> init_process -> ~ queued a p ->
  Q tt (a_enqueue q p a) -> awp (enqueue_process_to q (Some p)) Q a.
Proof.
  intros Hv Hp Hi Hnq HQ s Hr. eapply wp_mono.
  - apply (enqueue_process_to_refines s a q p); try done. by eapply repr_valid.
  - intros [] s' Hr'. eauto.
Qed.

Lemma awp_enqueue_sorted q p Q a :
  valid_queue a q -> is_Some (a_pcb a p) -> p <> init_process -> ~ queued a p ->
  (length (lists a q) <= Z.to_nat N_PROCESSES)%nat ->
  Q tt (a_enqueue_sorted q p a) -> awp (enqueue_sorted_to q (Some p)) Q a.
Proof.
  intros Hv Hp Hi Hnq Hl HQ s Hr. eapply wp_mono.
  - apply (enqueue_sorted_to_refines s a q p); try done. by eapply repr_valid.
  - intros [] s' Hr'. eauto.
Qed.

Lemma awp_dequeue_nil q Q a :
  valid_queue a q -> lists a q = [] -> Q None a -> awp (dequeue_process_from q) Q a.
Proof.
  intros Hv Hl HQ s Hr. eapply wp_mono.
  - apply (dequeue_process_from_refines s a q); [done|]. by eapply repr_valid.
  - rewrite Hl. intros r s' [-> ->]. eauto.
Qed.

Lemma awp_dequeue_cons q p l Q a :
  valid_queue a q -> lists a q = p :: l ->
  Q (Some p) (a_set_list q l a) -> awp (dequeue_process_from q) Q a.
Proof.
  intros Hv Hl HQ s Hr. eapply wp_mono.
  - apply (dequeue_process_from_refines s a q); [done|]. by eapply repr_valid.
  - rewrite Hl. intros r s' [-> Hr']. eauto.
Qed.

Lemma awp_remove q l1 p l2 Q a :
  valid_queue a q -> lists a q = l1 ++ p :: l2 ->
  Q tt (a_set_list q (l1 ++ l2) a) -> awp (remove_process_from q (last l1) p) Q a.
Proof.
  intros Hv Hl HQ s Hr. eapply wp_mono.
  - apply (remove_process_from_refines s a q l1 p l2); [done| |done]. by eapply repr_valid.
  - intros [] s' Hr'. eauto.
Qed.

(** A finished execution, with its represented result. *)
Lemma awp_elim {A} (m : K A) Q s a :
  awp m Q a -> repr s a -> exists r s' a', m s = Done r s' /\ repr s' a' /\ Q r a'.
Proof.
  intros Hm Hr. apply Hm in Hr. apply wp_inv in Hr as (r & s' & E & a' & ? & ?). eauto 10.
Qed.
End Rules.

(** One symbolic step on an abstract state, when no lookup is needed. *)
Ltac awp_step :=
  lazymatch goal with
  | |- awp (_ ≫= _) _ _ => apply awp_bind
  | |- awp (mret _) _ _ => apply awp_ret
  | |- awp (gets _) _ _ => apply awp_gets; [done|]
  | |- awp (modify _) _ _ => apply awp_modify; [apply _|]
  end; cbv beta.
