(* ===== verification/Sched.v ===== *)
(** * The process scheduler: [libs/scheduler.c]

    The insertion policies, the seven scheduling algorithms, signal handling,
    the context switch, the timer tick and process exit, statement by
    statement.  A function pointer of a [SchedAlgorithm] is called through
    [call_enqueue], [call_pick_next] and [call_on_tick].

    A context switch happens inside [switch_to_process]: what a function does
    after it is executed by the process that was switched in, when that
    process returns from its own call (or, for a new process, from
    [schedule_tail], which does the same).  This is why the closing
    [preempt_enable] of every algorithm acts on the new current process. *)

From S2P Require Import Prelude Exec Kernel Queue.

(** ** Insertion policies *)

Definition read_array {A} (get : kstate -> list A) (i : Z) : K A :=
  l ← gets get; defined (array_get l i).

Definition write_array {A} (get : kstate -> list A) (set : list A -> kstate -> kstate)
    (i : Z) (v : A) : K unit :=
  l ← gets get; l' ← defined (array_set l i v); modify (set l').

Definition _enqueue_fifo (process : option pcb_ptr) : K unit :=
  enqueue_process_to RQ process.

Definition _enqueue_sjf (process : option pcb_ptr) : K unit :=
  enqueue_sorted_to RQ process.

Definition _enqueue_multilevel (process : option pcb_ptr) : K unit :=
  p ← non_null process;
  x ← deref p;
  level ← read_array queue_level (pid x);
  enqueue_process_to (ML level) process.

(** [active_algorithm->enqueue(process)] *)
Definition call_enqueue (f : enqueue_fn) : option pcb_ptr -> K unit :=
  match f with
  | fn_enqueue_fifo => _enqueue_fifo
  | fn_enqueue_sjf => _enqueue_sjf
  | fn_enqueue_multilevel => _enqueue_multilevel
  end.

Definition enqueue_process (process : option pcb_ptr) : K unit :=
  match process with
  | None => mret tt
  | Some p =>
    if decide (p = init_process) then mret tt else
    alg ← gets active_algorithm;
    call_enqueue (enqueue alg) process
  end.

(** ** System management *)

(** A priority level clamped to the levels of the active multilevel policy. *)
Definition clamp_to_policy (policy : option MultilevelPolicy) (level : Z) : Z :=
  match policy with
  | Some pol => if n_levels pol <=? level then n_levels pol - 1 else level
  | None => level
  end.

Definition start_level (alg : SchedAlgorithm) (level : Z) : Z :=
  let level := if level <? 0 then 0 else level in
  let level := if ML_MAX_LEVELS <=? level then ML_MAX_LEVELS - 1 else level in
  clamp_to_policy (ml_policy alg) level.

Definition add_process_to_scheduler (process : pcb_ptr) : K Z :=
  n ← gets n_processes;
  x ← deref process;
  if (N_PROCESSES <=? n) || (N_PROCESSES <=? pid x) then mret (-1) else
  write_array processes set_processes (pid x) (Some process);;
  alg ← gets active_algorithm;
  write_array queue_level set_queue_level (pid x) (start_level alg (queue_priority x));;
  when (state x =? PROCESS_READY) (enqueue_process (Some process));;
  n ← gets n_processes;
  modify (set_n_processes (s32 (n + 1)));;
  mret 0.

Definition preempt_enable : K unit :=
  p ← gets current_process;
  update p (fun x => set_preempt_disabled (s32 (preempt_disabled x - 1)) x).

Definition preempt_disable : K unit :=
  p ← gets current_process;
  update p (fun x => set_preempt_disabled (s32 (preempt_disabled x + 1)) x).

Definition sched_set_param (process : option pcb_ptr) (param value : Z) : K Z :=
  match process with
  | None => mret (-1)
  | Some p =>
    if decide (p = init_process) then mret (-1) else
    if param =? SCHED_PARAM_PRIORITY then
      if value <? 1 then mret (-1) else
      update p (set_priority value);; mret 0
    else if param =? SCHED_PARAM_TICKETS then
      if value <? 1 then mret (-1) else
      update p (set_tickets value);; mret 0
    else if param =? SCHED_PARAM_QUEUE_PRIORITY then
      if (value <? 0) || (ML_MAX_LEVELS <=? value) then mret (-1) else
      alg ← gets active_algorithm;
      let value := clamp_to_policy (ml_policy alg) value in
      preempt_disable;;
      update p (set_queue_priority (s32 value));;
      x ← deref p;
      write_array queue_level set_queue_level (pid x) (s32 value);;
      preempt_enable;;
      mret 0
    else mret (-1)
  end.

(** ** Signals and the context switch *)

(** [process->pending_signals & (1 << signal)] *)
Definition signal_pending (x : PCB) (signal : Z) : bool :=
  negb (Z.land (pending_signals x) (Z.shiftl 1 signal) =? 0).

(** [process->pending_signals &= ~(1 << signal)] *)
Definition clear_signal (signal : Z) (x : PCB) : PCB :=
  set_pending_signals (Z.land (pending_signals x) (Z.lnot (Z.shiftl 1 signal))) x.

Definition handle_process_signals (process : pcb_ptr) : K unit :=
  x ← deref process;
  if pending_signals x =? 0 then mret tt else
  if signal_pending x SIGNAL_KILL then
    update process (set_state PROCESS_ZOMBIE);;
    update process (clear_signal SIGNAL_KILL)
  else if signal_pending x SIGNAL_STOP then
    update process (set_state PROCESS_STOPPED);;
    update process (clear_signal SIGNAL_STOP)
  else if signal_pending x SIGNAL_RESUME then
    update process (clear_signal SIGNAL_RESUME);;
    x ← deref process;
    when (state x =? PROCESS_STOPPED)
      (update process (set_state PROCESS_READY);;
       enqueue_process (Some process))
  else mret tt.

(** [set_pgd] of fork_asm.S: loads [ttbr0_el1] (and flushes the TLB). *)
Definition set_pgd (table : Z) : K unit := modify (set_ttbr0 table).

(** [cpu_switch_to_process] of fork_asm.S: saves the callee-saved registers in
    the PCB of [prev] and loads those of [next]. *)
Definition cpu_switch_to_process (prev next : pcb_ptr) : K unit :=
  regs ← gets cpu;
  update prev (set_ctx regs);;
  x ← deref next;
  modify (set_cpu (ctx x)).

Definition switch_to_process (next_process : pcb_ptr) : K unit :=
  update next_process (set_state PROCESS_RUNNING);;
  current ← gets current_process;
  if decide (current = next_process) then mret tt else
  let previous_process := current in
  x ← deref previous_process;
  when (state x =? PROCESS_RUNNING) (update previous_process (set_state PROCESS_READY));;
  modify (set_current_process next_process);;
  y ← deref next_process;
  set_pgd (pgd (mm y));;
  current ← gets current_process;
  cpu_switch_to_process previous_process current.

Definition schedule_tail : K unit := preempt_enable.

(** ** Steps the algorithms share *)

(** [if (current_process != &init_process && current_process->state ==
    PROCESS_RUNNING) enq(current_process);] *)
Definition requeue_current (enq : option pcb_ptr -> K unit) : K unit :=
  current ← gets current_process;
  if decide (current = init_process) then mret tt else
  x ← deref current;
  when (state x =? PROCESS_RUNNING) (enq (Some current)).

(** A queue holds at most [N_PROCESSES] processes, so one more iteration sees
    its end. *)
Definition loop_fuel : nat := S (Z.to_nat N_PROCESSES).
#[global] Arguments loop_fuel : simpl never.

(** [while ((next = dequeue_process_from(queue)) != NULL) {
       handle_process_signals(next); if (next->state == PROCESS_READY) break; }] *)
Fixpoint dequeue_until_ready (fuel : nat) (queue : queue_ref) : K (option pcb_ptr) :=
  match fuel with
  | O => out_of_fuel
  | S fuel =>
    next ← dequeue_process_from queue;
    match next with
    | None => mret None
    | Some p =>
      handle_process_signals p;;
      x ← deref p;
      if state x =? PROCESS_READY then mret (Some p) else dequeue_until_ready fuel queue
    end
  end.

(** ** Priority with aging *)

(** The inner walk over the ready queue: the best candidate and its
    predecessor. *)
Fixpoint aging_walk (fuel : nat) (node previous best best_previous : option pcb_ptr)
    (max_counter : Z) : K (option pcb_ptr * option pcb_ptr) :=
  match node with
  | None => mret (best, best_previous)
  | Some p =>
    match fuel with
    | O => out_of_fuel
    | S fuel =>
      x ← deref p;
      let next_node := next_ready x in
      handle_process_signals p;;
      x ← deref p;
      if negb (state x =? PROCESS_READY) then
        remove_process_from RQ previous p;;
        aging_walk fuel next_node previous best best_previous max_counter
      else if max_counter <? counter x then
        aging_walk fuel next_node node node previous (counter x)
      else
        aging_walk fuel next_node node best best_previous max_counter
    end
  end.

(** [for (int i = from; i < from + n; i++) body(i);] *)
Fixpoint for_loop (n : nat) (from : Z) (body : Z -> K unit) : K unit :=
  match n with
  | O => mret tt
  | S n => body from;; for_loop n (from + 1) body
  end.

(** The end of an epoch: every process, blocked ones included, is recharged. *)
Definition recharge (x : PCB) : PCB :=
  set_counter (s64 (Z.shiftr (counter x) 1 + priority x)) x.

Definition recharge_all : K unit :=
  for_loop (Z.to_nat N_PROCESSES) 0 (fun i =>
    o ← read_array processes i;
    match o with
    | None => mret tt
    | Some p => update p recharge
    end).

(** The [while (1)] of the selection.  A recharge halves a negative counter
    and adds a positive priority, so 65 epochs bring any 64-bit counter above
    zero. *)
Definition epoch_fuel : nat := 66.
#[global] Arguments epoch_fuel : simpl never.

Fixpoint aging_select (fuel : nat) : K (option pcb_ptr) :=
  match fuel with
  | O => out_of_fuel
  | S fuel =>
    q ← get_queue RQ;
    '(best, best_previous) ← aging_walk loop_fuel (q_head q) None None None 0;
    match best with
    | Some p => remove_process_from RQ best_previous p;; mret (Some p)
    | None =>
      q ← get_queue RQ;
      if decide (q_head q = None) then mret None else
      recharge_all;; aging_select fuel
    end
  end.

Definition _schedule_priority_aging : K unit :=
  preempt_disable;;
  requeue_current (enqueue_process_to RQ);;
  next ← aging_select epoch_fuel;
  switch_to_process (default init_process next);;
  preempt_enable.

(** ** Round robin *)

Definition _schedule_round_robin : K unit :=
  preempt_disable;;
  requeue_current (enqueue_process_to RQ);;
  next ← dequeue_until_ready loop_fuel RQ;
  next_process ← (match next with
    | None => mret init_process
    | Some p => update p (set_counter 10);; mret p
    end);
  switch_to_process next_process;;
  preempt_enable.

(** ** Lottery *)

Definition lottery_seed : Z := 88172645463325252.

(** [mmio_read(0x00003004)]: the low word of the free-running system timer. *)
Definition mmio_read_timer : K Z :=
  n ← gets timer_reads;
  timer ← gets system_timer;
  modify (set_timer_reads (S n));;
  mret (u32 (timer n)).

(** One xorshift64 step. *)
Definition xorshift64 (x : Z) : Z :=
  let x := Z.lxor x (u64 (Z.shiftl x 13)) in
  let x := Z.lxor x (Z.shiftr x 7) in
  Z.lxor x (u64 (Z.shiftl x 17)).

Definition lottery_random : K Z :=
  t ← mmio_read_timer;
  x ← gets lottery_rng_state;
  let x := Z.lxor x t in
  let x := if x =? 0 then lottery_seed else x in
  modify (set_lottery_rng_state (xorshift64 x));;
  gets lottery_rng_state.

(** [p->tickets > 0 ? p->tickets : 1] *)
Definition effective_tickets (x : PCB) : Z := if 0 <? tickets x then tickets x else 1.

Fixpoint count_tickets (fuel : nat) (p : option pcb_ptr) (total : Z) : K Z :=
  match p with
  | None => mret total
  | Some q =>
    match fuel with
    | O => out_of_fuel
    | S fuel =>
      x ← deref q;
      count_tickets fuel (next_ready x) (s64 (total + effective_tickets x))
    end
  end.

(** The candidate whose tickets contain [winner], and its predecessor. *)
Fixpoint find_winner (fuel : nat) (previous candidate : option pcb_ptr)
    (ticket_counter winner : Z) : K (option pcb_ptr * option pcb_ptr) :=
  match candidate with
  | None => mret (previous, None)
  | Some c =>
    match fuel with
    | O => out_of_fuel
    | S fuel =>
      x ← deref c;
      let ticket_counter := s64 (ticket_counter + effective_tickets x) in
      if winner <? ticket_counter then mret (previous, candidate)
      else find_winner fuel candidate (next_ready x) ticket_counter winner
    end
  end.

Fixpoint lottery_select (fuel : nat) : K (option pcb_ptr) :=
  match fuel with
  | O => out_of_fuel
  | S fuel =>
    q ← get_queue RQ;
    total_tickets ← count_tickets loop_fuel (q_head q) 0;
    if total_tickets =? 0 then mret None else
    r ← lottery_random;
    let winner := s64 (r `mod` u64 total_tickets) in
    q ← get_queue RQ;
    '(previous, candidate) ← find_winner loop_fuel None (q_head q) 0 winner;
    c ← non_null candidate;
    remove_process_from RQ previous c;;
    handle_process_signals c;;
    x ← deref c;
    if state x =? PROCESS_READY then mret (Some c) else lottery_select fuel
  end.

Definition _schedule_lottery : K unit :=
  preempt_disable;;
  requeue_current (enqueue_process_to RQ);;
  next ← lottery_select loop_fuel;
  next_process ← (match next with
    | None => mret init_process
    | Some p => update p (set_counter 10);; mret p
    end);
  switch_to_process next_process;;
  preempt_enable.

(** ** FCFS and SJF *)

Definition _schedule_queue_head : K unit :=
  preempt_disable;;
  alg ← gets active_algorithm;
  requeue_current (call_enqueue (enqueue alg));;
  next ← dequeue_until_ready loop_fuel RQ;
  switch_to_process (default init_process next);;
  preempt_enable.

(** ** Multilevel queues: MLQ and MLFQ *)

(** [for (int q = level; q < n_levels; q++) ...]: the first READY process of
    the cascade and the level it was found at. *)
Fixpoint multilevel_scan (n : nat) (level : Z) : K (option pcb_ptr * Z) :=
  match n with
  | O => mret (None, -1)
  | S n =>
    next ← dequeue_until_ready loop_fuel (ML level);
    match next with
    | Some p => mret (Some p, level)
    | None => multilevel_scan n (level + 1)
    end
  end.

Definition _schedule_multilevel : K unit :=
  preempt_disable;;
  alg ← gets active_algorithm;
  policy ← defined (ml_policy alg);
  requeue_current _enqueue_multilevel;;
  '(next, target_level) ← multilevel_scan (Z.to_nat (n_levels policy)) 0;
  next_process ← (match next with
    | None => mret init_process
    | Some p =>
      ticks ← defined (array_get (quantum policy) target_level);
      update p (set_counter ticks);;
      mret p
    end);
  switch_to_process next_process;;
  preempt_enable.

(** [while ((p = dequeue_process_from(&ml_queues[q])) != NULL) ...] of the
    boost. *)
Fixpoint boost_queue (fuel : nat) (level : Z) : K unit :=
  match fuel with
  | O => out_of_fuel
  | S fuel =>
    next ← dequeue_process_from (ML level);
    match next with
    | None => mret tt
    | Some p =>
      x ← deref p;
      write_array queue_level set_queue_level (pid x) 0;;
      enqueue_process_to (ML 0) (Some p);;
      boost_queue fuel level
    end
  end.

Definition multilevel_boost (policy : MultilevelPolicy) : K unit :=
  for_loop (Z.to_nat (n_levels policy - 1)) 1 (boost_queue loop_fuel);;
  for_loop (Z.to_nat N_PROCESSES) 0 (fun i => write_array queue_level set_queue_level i 0);;
  modify (set_ml_ticks_since_boost 0).

Definition multilevel_demote (policy : MultilevelPolicy) : K unit :=
  current ← gets current_process;
  if (demote_on_expiry policy =? 0) || bool_decide (current = init_process) then mret tt else
  x ← deref current;
  if negb ((counter x <=? 0) && (preempt_disabled x =? 0)) then mret tt else
  level ← read_array queue_level (pid x);
  when (level <? n_levels policy - 1)
    (write_array queue_level set_queue_level (pid x) (s32 (level + 1))).

Definition _multilevel_on_tick : K unit :=
  alg ← gets active_algorithm;
  policy ← defined (ml_policy alg);
  when (0 <? boost_period policy)
    (t ← gets ml_ticks_since_boost;
     modify (set_ml_ticks_since_boost (s32 (t + 1)));;
     t ← gets ml_ticks_since_boost;
     when (boost_period policy <=? t) (multilevel_boost policy));;
  multilevel_demote policy.

(** ** Algorithm descriptors *)

Definition ml_policy_mlq : MultilevelPolicy :=
  {| n_levels := 5; quantum := [10; 12; 14; 16; 20]; demote_on_expiry := 0; boost_period := 0 |}.

Definition ml_policy_mlfq : MultilevelPolicy :=
  {| n_levels := 5; quantum := [5; 8; 10; 15; 20]; demote_on_expiry := 1;
     boost_period := MLFQ_BOOST_PERIOD |}.

Definition sched_round_robin : SchedAlgorithm :=
  {| enqueue := fn_enqueue_fifo; pick_next := fn_schedule_round_robin; on_tick := None;
     is_preemptive := 1; ml_policy := None |}.

Definition sched_fcfs : SchedAlgorithm :=
  {| enqueue := fn_enqueue_fifo; pick_next := fn_schedule_queue_head; on_tick := None;
     is_preemptive := 0; ml_policy := None |}.

Definition sched_sjf : SchedAlgorithm :=
  {| enqueue := fn_enqueue_sjf; pick_next := fn_schedule_queue_head; on_tick := None;
     is_preemptive := 0; ml_policy := None |}.

Definition sched_lottery : SchedAlgorithm :=
  {| enqueue := fn_enqueue_fifo; pick_next := fn_schedule_lottery; on_tick := None;
     is_preemptive := 1; ml_policy := None |}.

Definition sched_priority_aging : SchedAlgorithm :=
  {| enqueue := fn_enqueue_fifo; pick_next := fn_schedule_priority_aging; on_tick := None;
     is_preemptive := 1; ml_policy := None |}.

Definition sched_mlq : SchedAlgorithm :=
  {| enqueue := fn_enqueue_multilevel; pick_next := fn_schedule_multilevel;
     on_tick := Some fn_multilevel_on_tick; is_preemptive := 1; ml_policy := Some ml_policy_mlq |}.

Definition sched_mlfq : SchedAlgorithm :=
  {| enqueue := fn_enqueue_multilevel; pick_next := fn_schedule_multilevel;
     on_tick := Some fn_multilevel_on_tick; is_preemptive := 1; ml_policy := Some ml_policy_mlfq |}.

Definition call_pick_next (f : pick_next_fn) : K unit :=
  match f with
  | fn_schedule_round_robin => _schedule_round_robin
  | fn_schedule_queue_head => _schedule_queue_head
  | fn_schedule_lottery => _schedule_lottery
  | fn_schedule_priority_aging => _schedule_priority_aging
  | fn_schedule_multilevel => _schedule_multilevel
  end.

Definition call_on_tick (f : on_tick_fn) : K unit :=
  match f with fn_multilevel_on_tick => _multilevel_on_tick end.

(** ** The dispatcher, the timer tick and exit *)

Definition _schedule : K unit :=
  alg ← gets active_algorithm;
  call_pick_next (pick_next alg).

(** The exponential average of the measured bursts. *)
Definition end_burst (x : PCB) : PCB :=
  set_est_burst (Z.quot (s64 (burst_ticks x + est_burst x)) 2) x.

Definition schedule : K unit :=
  current ← gets current_process;
  x ← deref current;
  when (bool_decide (current <> init_process)
        && negb (state x =? PROCESS_RUNNING) && negb (state x =? PROCESS_READY))
    (update current end_burst;;
     update current (set_burst_ticks 0));;
  update current (set_counter 0);;
  _schedule.

Definition enable_irq : K unit := modify (set_irq_enabled true).
Definition disable_irq : K unit := modify (set_irq_enabled false).

Definition handle_timer_tick : K unit :=
  current ← gets current_process;
  update current (fun x => set_counter (s64 (counter x - 1)) x);;
  update current (fun x => set_burst_ticks (s64 (burst_ticks x + 1)) x);;
  alg ← gets active_algorithm;
  match on_tick alg with Some f => call_on_tick f | None => mret tt end;;
  x ← deref current;
  if (0 <? counter x) || (0 <? preempt_disabled x) then mret tt else
  update current (set_counter 0);;
  if is_preemptive alg =? 0 then mret tt else
  enable_irq;;
  _schedule;;
  disable_irq.

(** One iteration of the wake-up loop of [exit_process]. *)
Definition wake_waiter (i : Z) : K unit :=
  o ← read_array processes i;
  match o with
  | None => mret tt
  | Some p =>
    x ← deref p;
    current ← get_current;
    when ((state x =? PROCESS_WAITING_ANOTHER_PROCESS) && (pid_to_wait x =? pid current))
      (update p (set_state PROCESS_READY);;
       update p (set_pid_to_wait (-1));;
       enqueue_process (Some p))
  end.

(** [exit_process] up to its call of the scheduler. *)
Definition release_waiters : K unit :=
  preempt_disable;;
  current ← gets current_process;
  update current (set_state PROCESS_ZOMBIE);;
  for_loop (Z.to_nat N_PROCESSES) 0 wake_waiter;;
  preempt_enable.

Definition exit_process : K unit :=
  release_waiters;;
  schedule.
