(* ===== verification/SchedInv.v ===== *)
(** * The scheduler's well-formedness invariant

    [wf e a] collects what must hold of the kernel's scheduling state at every
    step: the process table and the PCBs agree, a process is in a ready queue
    exactly when it is READY (the process [e], if any, is in transit between a
    queue and the CPU), only the current process is RUNNING, and every queue
    belongs to the active algorithm.  The lemmas say which elementary updates
    keep it; the algorithms' proofs only compose them. *)

From S2P Require Import Prelude Exec Kernel Queue QueueLogic Sched.

Definition algorithms : list SchedAlgorithm :=
  [sched_round_robin; sched_fcfs; sched_sjf; sched_lottery; sched_priority_aging;
   sched_mlq; sched_mlfq].

(** The queues the active algorithm uses. *)
Definition home_queue (alg : SchedAlgorithm) (q : queue_ref) : Prop :=
  match ml_policy alg, q with
  | None, RQ => True
  | Some pol, ML l => 0 <= l < n_levels pol
  | _, _ => False
  end.

(** A process of the process table. *)
Definition proc (a : astate) (p : pcb_ptr) (x : PCB) : Prop :=
  a_pcb a p = Some x /\ Some p ∈ processes (base a).

(** Parameters in the ranges the kernel keeps them in: [set_sched_param]
    refuses values below one and takes an [int]. *)
Record params_ok (x : PCB) : Prop := {
  ok_priority : 1 <= priority x < 2 ^ 31;
  ok_tickets : 1 <= tickets x < 2 ^ 31;
  ok_counter : - 2 ^ 63 <= counter x < 2 ^ 63;
}.

Record wf (e : option pcb_ptr) (a : astate) : Prop := mkWf {
  wf_len_processes : length (processes (base a)) = Z.to_nat N_PROCESSES;
  wf_len_levels : length (queue_level (base a)) = Z.to_nat N_PROCESSES;
  wf_len_ml : length (ml_queues (base a)) = Z.to_nat ML_MAX_LEVELS;
  wf_table i p : processes (base a) !! i = Some (Some p) ->
    exists x, a_pcb a p = Some x /\ pid x = Z.of_nat i;
  wf_init_entry : processes (base a) !! 0%nat = Some (Some init_process);
  wf_current : exists x, proc a (current_process (base a)) x;
  wf_levels i l : queue_level (base a) !! i = Some l -> 0 <= l < ML_MAX_LEVELS;
  wf_alg : active_algorithm (base a) ∈ algorithms;
  wf_ready q p : p ∈ lists a q -> exists x, proc a p x /\ state x = PROCESS_READY;
  wf_queued p x : proc a p x -> state x = PROCESS_READY -> p <> init_process ->
    Some p <> e -> queued a p;
  wf_running p x : proc a p x -> state x = PROCESS_RUNNING -> p = current_process (base a);
  wf_home q p : p ∈ lists a q -> home_queue (active_algorithm (base a)) q;
  wf_params p x : proc a p x -> params_ok x;
  wf_nodup q : NoDup (lists a q);
  wf_disjoint q1 q2 p : p ∈ lists a q1 -> p ∈ lists a q2 -> q1 = q2;
  wf_noinit q : init_process ∉ lists a q;
}.

(** ** Consequences *)

Section Consequences.
Implicit Types (a : astate) (p : pcb_ptr) (q : queue_ref) (e : option pcb_ptr).

Lemma proc_pcb a p x : proc a p x -> a_pcb a p = Some x.
Proof. by intros []. Qed.

Lemma proc_fun a p x y : proc a p x -> a_pcb a p = Some y -> x = y.
Proof. intros [Hx _] Hy. congruence. Qed.

Lemma wf_pid e a p x :
  wf e a -> proc a p x ->
  0 <= pid x < N_PROCESSES /\ processes (base a) !! Z.to_nat (pid x) = Some (Some p).
Proof.
  intros Hw [Hx Hin]. apply list_elem_of_lookup in Hin as [i Hi].
  destruct (wf_table _ _ Hw _ _ Hi) as (y & Hy & Hpid). rewrite Hx in Hy.
  injection Hy as <-. rewrite Hpid, Nat2Z.id. split; [|done].
  apply lookup_lt_Some in Hi. rewrite (wf_len_processes _ _ Hw) in Hi. lia.
Qed.

Lemma wf_init e a : wf e a -> exists x, proc a init_process x /\ pid x = 0.
Proof.
  intros Hw. pose proof (wf_init_entry _ _ Hw) as H0.
  destruct (wf_table _ _ Hw _ _ H0) as (x & Hx & Hp). exists x. split; [|done].
  split; [done|]. by eapply list_elem_of_lookup_2.
Qed.

Lemma wf_valid_home e a q : wf e a -> home_queue (active_algorithm (base a)) q -> valid_queue a q.
Proof.
  intros Hw Hh. unfold valid_queue. destruct q as [|l]; simpl; [done|].
  assert (0 <= l < 5).
  { pose proof (wf_alg _ _ Hw) as Ha. unfold algorithms in Ha. unfold home_queue in Hh.
    repeat (apply elem_of_cons in Ha as [Ha|Ha]; [rewrite Ha in Hh; simpl in Hh; try lia; done|]).
    by apply elem_of_nil in Ha. }
  unfold array_get. destruct (Z.ltb_spec l 0); [lia|].
  apply lookup_lt_is_Some. rewrite (wf_len_ml _ _ Hw). unfold ML_MAX_LEVELS. lia.
Qed.

Lemma wf_level e a p x :
  wf e a -> proc a p x ->
  exists l, array_get (queue_level (base a)) (pid x) = Some l /\ 0 <= l < ML_MAX_LEVELS.
Proof.
  intros Hw Hp. destruct (wf_pid _ _ _ _ Hw Hp) as [Hr _].
  destruct (lookup_lt_is_Some_2 (queue_level (base a)) (Z.to_nat (pid x))) as [l Hl].
  { rewrite (wf_len_levels _ _ Hw). lia. }
  exists l. split; [|by eapply wf_levels]. apply array_get_Some. split; [lia|done].
Qed.

(** A queue holds at most as many processes as the table. *)
Lemma registered_length e a l :
  wf e a -> NoDup l -> (forall p, p ∈ l -> exists x, proc a p x) ->
  (length l <= Z.to_nat N_PROCESSES)%nat.
Proof.
  intros Hw Hnd Hl. rewrite <- (wf_len_processes _ _ Hw).
  rewrite <- (length_fmap Some l). apply submseteq_length, NoDup_submseteq.
  - by apply NoDup_fmap_2; [apply _|].
  - intros o Ho. apply list_elem_of_fmap in Ho as (p & -> & Hp).
    by destruct (Hl p Hp) as [x [_ ?]].
Qed.

Lemma queue_length e a q : wf e a -> (length (lists a q) <= Z.to_nat N_PROCESSES)%nat.
Proof.
  intros Hw. apply (registered_length e a); [done|by eapply wf_nodup|].
  intros p Hp. destruct (wf_ready _ _ Hw _ _ Hp) as (x & ? & _). eauto.
Qed.

#[export] Instance proc_proper : Proper ((≡) ==> (=) ==> (=) ==> iff) proc.
Proof. intros a a' [E _] ? p -> ? x ->. unfold proc, a_pcb. by rewrite E. Qed.

#[export] Instance queued_proper : Proper ((≡) ==> (=) ==> iff) queued.
Proof. intros a a' [_ E] ? p ->. unfold queued. by setoid_rewrite E. Qed.

#[export] Instance wf_proper e : Proper ((≡) ==> iff) (wf e).
Proof.
  assert (Hone : forall a a', a ≡ a' -> wf e a -> wf e a').
  { intros a a' E Hw. pose proof E as [E1 E2]. symmetry in E. destruct Hw.
    constructor; rewrite <- ?E1; try done.
    - intros i p. unfold a_pcb. rewrite <- E1. apply wf_table0.
    - by setoid_rewrite E.
    - intros q p. rewrite <- E2. setoid_rewrite E. apply wf_ready0.
    - intros p x. rewrite !E. apply wf_queued0.
    - intros p x. rewrite !E. apply wf_running0.
    - intros q p. rewrite <- E2. apply wf_home0.
    - intros p x. rewrite !E. apply wf_params0.
    - intros q. by rewrite <- E2.
    - intros q1 q2 p. rewrite <- !E2. apply wf_disjoint0.
    - intros q. by rewrite <- E2. }
  intros a a' E. split; apply Hone; by rewrite E.
Qed.

Lemma wf_weaken a p : wf None a -> wf (Some p) a.
Proof. intros []. constructor; try done. intros; by eauto. Qed.
End Consequences.

(** ** Elementary updates *)

Section Updates.
Implicit Types (a : astate) (p : pcb_ptr) (q : queue_ref) (e : option pcb_ptr).

Lemma a_pcb_update_eq a p f : a_pcb (a_update p f a) p = f <$> a_pcb a p.
Proof. unfold a_pcb. simpl. apply lookup_alter_eq. Qed.

Lemma a_pcb_update_ne a p p' f : p' <> p -> a_pcb (a_update p f a) p' = a_pcb a p'.
Proof. intros. unfold a_pcb. simpl. by apply lookup_alter_ne. Qed.

Lemma proc_update_eq a p f x : proc a p x -> proc (a_update p f a) p (f x).
Proof. intros [Hx Hin]. split; [|done]. by rewrite a_pcb_update_eq, Hx. Qed.

Lemma proc_update_ne a p p' f x : p' <> p -> proc (a_update p f a) p' x <-> proc a p' x.
Proof. intros. unfold proc. by rewrite a_pcb_update_ne. Qed.

Lemma proc_update_inv a p f p' y :
  proc (a_update p f a) p' y ->
  (p' = p /\ exists x, proc a p x /\ y = f x) \/ (p' <> p /\ proc a p' y).
Proof.
  intros Hy. destruct (decide (p' = p)) as [->|Hne].
  - left. split; [done|]. destruct Hy as [Hy Hin]. rewrite a_pcb_update_eq in Hy.
    destruct (a_pcb a p) as [x|] eqn:Hx; [|done]. injection Hy as <-. by exists x.
  - right. by rewrite proc_update_ne in Hy.
Qed.

(** Rewriting one PCB. *)
Lemma wf_update e e' a p f x :
  wf e a -> proc a p x ->
  pid (f x) = pid x -> params_ok (f x) ->
  (queued a p -> state (f x) = PROCESS_READY) ->
  (state (f x) = PROCESS_READY -> p <> init_process -> Some p <> e' -> queued a p) ->
  (state (f x) = PROCESS_RUNNING -> p = current_process (base a)) ->
  (forall p', p' <> p -> Some p' = e -> Some p' = e') ->
  wf e' (a_update p f a).
Proof.
  intros Hw Hp Hpid Hok Hq1 Hq2 Hrun He. destruct Hw. constructor; try done.
  - intros i p' Hi. destruct (wf_table0 i p' Hi) as (y & Hy & Hpy).
    destruct (decide (p' = p)) as [->|Hne].
    + exists (f x). rewrite a_pcb_update_eq, (proc_pcb _ _ _ Hp). split; [done|].
      pose proof (proc_fun _ _ _ _ Hp Hy). congruence.
    + exists y. by rewrite a_pcb_update_ne.
  - destruct wf_current0 as [y Hy]. destruct (decide (current_process (base a) = p)) as [E|Hne].
    + exists (f x). simpl. rewrite E. by apply proc_update_eq.
    + exists y. by apply proc_update_ne.
  - intros q p' Hp'. destruct (wf_ready0 q p' Hp') as (y & Hy & Hsy).
    destruct (decide (p' = p)) as [->|Hne].
    + exists (f x). split; [by apply proc_update_eq|]. apply Hq1. by exists q.
    + exists y. split; [by apply proc_update_ne|done].
  - intros p' y Hy Hs Hi Hne. apply proc_update_inv in Hy as [[-> (z & Hz & ->)]|[Hd Hy]].
    + rewrite (proc_fun _ _ _ _ Hz (proc_pcb _ _ _ Hp)) in Hs. by apply Hq2.
    + apply (wf_queued0 p' y); try done. intros E. apply Hne. by apply He.
  - intros p' y Hy Hs. apply proc_update_inv in Hy as [[-> (z & Hz & ->)]|[Hd Hy]].
    + rewrite (proc_fun _ _ _ _ Hz (proc_pcb _ _ _ Hp)) in Hs. by apply Hrun.
    + by apply (wf_running0 p' y).
  - intros p' y Hy. apply proc_update_inv in Hy as [[-> (z & Hz & ->)]|[Hd Hy]].
    + by rewrite (proc_fun _ _ _ _ Hz (proc_pcb _ _ _ Hp)).
    + by apply (wf_params0 p' y).
Qed.

(** Updates the invariant does not see. *)
Definition inert (f : PCB -> PCB) : Prop :=
  forall x, pid (f x) = pid x /\ state (f x) = state x /\ (params_ok x -> params_ok (f x)).

Lemma wf_inert e a p f : wf e a -> (exists x, proc a p x) -> inert f -> wf e (a_update p f a).
Proof.
  intros Hw [x Hp] Hf. destruct (Hf x) as (E1 & E2 & E3).
  apply (wf_update e e a p f x); try done.
  - by apply E3, (wf_params _ _ Hw p).
  - intros [q Hq]. rewrite E2. destruct (wf_ready _ _ Hw _ _ Hq) as (y & Hy & <-).
    by rewrite (proc_fun _ _ _ _ Hp (proc_pcb _ _ _ Hy)).
  - rewrite E2. by apply (wf_queued _ _ Hw p x).
  - rewrite E2. by apply (wf_running _ _ Hw p x).
Qed.

(** A process that is in no queue blocks or dies. *)
Lemma wf_block e e' a p x st f :
  wf e a -> proc a p x -> ~ queued a p ->
  st <> PROCESS_READY -> st <> PROCESS_RUNNING -> (e = None \/ e = Some p) ->
  (forall y, pid (f y) = pid y /\ state (f y) = st /\ (params_ok y -> params_ok (f y))) ->
  wf e' (a_update p f a).
Proof.
  intros Hw Hp Hq H1 H2 He Hf. destruct (Hf x) as (E1 & E2 & E3).
  apply (wf_update e e' a p f x); try done; rewrite ?E2; try done.
  - by apply E3, (wf_params _ _ Hw p).
  - destruct He; naive_solver.
Qed.

Lemma wf_remove a q l1 p l2 :
  wf None a -> lists a q = l1 ++ p :: l2 ->
  wf (Some p) (a_set_list q (l1 ++ l2) a).
Proof.
  intros Hw Hl. destruct Hw. constructor; try done.
  - intros q' p' Hp'. apply (wf_ready0 q'). simpl in Hp'. case_decide; [subst|done].
    rewrite Hl. set_solver.
  - intros p' y Hy Hs Hi Hne. destruct (wf_queued0 p' y Hy Hs Hi) as [q' Hq']; [done|].
    exists q'. simpl. case_decide; [subst|done]. rewrite Hl in Hq'. 
    assert (p' <> p) by congruence. set_solver.
  - intros q' p' Hp'. simpl in Hp'. case_decide; [subst|by eapply wf_home0].
    apply (wf_home0 q p'). rewrite Hl. set_solver.
  - intros q'. simpl. case_decide; [subst|done]. pose proof (wf_nodup0 q) as Hnd.
    rewrite Hl, <- Permutation_middle in Hnd. by apply NoDup_cons in Hnd as [_ ?].
  - intros q1 q2 p' H1 H2. apply (wf_disjoint0 q1 q2 p').
    + simpl in H1. case_decide; [subst|done]. rewrite Hl. set_solver.
    + simpl in H2. case_decide; [subst|done]. rewrite Hl. set_solver.
  - intros q'. simpl. case_decide; [subst|done]. specialize (wf_noinit0 q).
    rewrite Hl in wf_noinit0. set_solver.
Qed.

(** The removed process is nowhere else. *)
Lemma removed_not_queued e a q l1 p l2 :
  wf e a -> lists a q = l1 ++ p :: l2 -> ~ queued (a_set_list q (l1 ++ l2) a) p.
Proof.
  intros Hw Hl [q' Hq']. simpl in Hq'. case_decide as Hd.
  - pose proof (wf_nodup _ _ Hw q) as Hnd. rewrite Hl, <- Permutation_middle in Hnd.
    by apply NoDup_cons in Hnd as [? _].
  - apply Hd. apply (wf_disjoint _ _ Hw q' q p); [done|]. rewrite Hl. set_solver.
Qed.

(** A registered process that is in no queue becomes READY at the place
    [l1 | l2] of a queue of the active algorithm. *)
Lemma wf_insert e a q l1 l2 p x f :
  wf e a -> proc a p x -> p <> init_process -> ~ queued a p ->
  e = None \/ e = Some p ->
  home_queue (active_algorithm (base a)) q -> lists a q = l1 ++ l2 ->
  (forall y, pid (f y) = pid y /\ state (f y) = PROCESS_READY /\ (params_ok y -> params_ok (f y))) ->
  wf None (a_set_list q (l1 ++ p :: l2) (a_update p f a)).
Proof.
  intros Hw Hp Hi Hnq He Hh Hl Hf. destruct (Hf x) as (E1 & E2 & E3).
  assert (Hu : wf (Some p) (a_update p f a)).
  { apply (wf_update e (Some p) a p f x); try done.
    - by apply E3, (wf_params _ _ Hw p).
    - by rewrite E2.
    - destruct He; naive_solver. }
  destruct Hu. constructor; try done.
  - intros q' p' Hp'. simpl in Hp'. case_decide as Hd; [subst|by apply (wf_ready0 q')].
    destruct (decide (p' = p)) as [->|Hne].
    + exists (f x). split; [by apply proc_update_eq|done].
    + apply (wf_ready0 q). simpl. rewrite Hl. set_solver.
  - intros p' y Hy Hs Hip _. destruct (decide (p' = p)) as [->|Hne].
    + exists q. simpl. rewrite decide_True by done. set_solver.
    + destruct (wf_queued0 p' y Hy Hs Hip ltac:(congruence)) as [q' Hq'].
      exists q'. simpl in *. case_decide as Hd; [subst|done]. rewrite Hl in Hq'. set_solver.
  - intros q' p' Hp'. simpl in Hp'. case_decide as Hd; [by subst|]. by apply (wf_home0 q' p').
  - intros q'. simpl. case_decide as Hd; [subst|apply wf_nodup0]. specialize (wf_nodup0 q).
    simpl in wf_nodup0. rewrite Hl in wf_nodup0. rewrite <- Permutation_middle.
    apply NoDup_cons. split; [|done]. rewrite <- Hl. intros ?. apply Hnq. by exists q.
  - assert (Hone : forall q', p ∈ lists a q' -> False) by (intros q' ?; apply Hnq; by exists q').
    intros q1 q2 p' H1 H2. simpl in H1, H2. repeat case_decide; subst; try done.
    + apply (wf_disjoint0 q1 q p'); [done|]. simpl. rewrite Hl.
      assert (p' <> p) by (intros ->; eauto). set_solver.
    + apply (wf_disjoint0 q q2 p'); [|done]. simpl. rewrite Hl.
      assert (p' <> p) by (intros ->; eauto). set_solver.
    + by apply (wf_disjoint0 q1 q2 p').
  - intros q'. simpl. case_decide as Hd; [subst|apply wf_noinit0]. specialize (wf_noinit0 q).
    simpl in wf_noinit0. rewrite Hl in wf_noinit0. set_solver.
Qed.

Lemma wf_enqueue e a q p x :
  wf e a -> proc a p x -> p <> init_process -> ~ queued a p ->
  e = None \/ e = Some p -> home_queue (active_algorithm (base a)) q ->
  wf None (a_enqueue q p a).
Proof.
  intros Hw Hp Hi Hnq He Hh. unfold a_enqueue.
  apply (wf_insert e a q (lists a q) [] p x); try done; [by rewrite app_nil_r|].
  intros y. split; [done|]. split; [done|]. intros []; by constructor.
Qed.

Lemma wf_global e a g :
  wf e a ->
  processes (g (base a)) = processes (base a) ->
  pcbs (g (base a)) = pcbs (base a) ->
  queue_level (g (base a)) = queue_level (base a) ->
  ml_queues (g (base a)) = ml_queues (base a) ->
  active_algorithm (g (base a)) = active_algorithm (base a) ->
  current_process (g (base a)) = current_process (base a) ->
  wf e (a_global g a).
Proof.
  intros Hw E1 E2 E3 E4 E5 E6. destruct Hw. constructor; unfold proc, a_pcb; simpl;
    rewrite ?E1, ?E2, ?E3, ?E4, ?E5, ?E6; done.
Qed.
End Updates.
