(* ===== verification/SchedSteps.v ===== *)
(** * The steps the scheduling algorithms share

    Rules that execute, on abstract states, the pieces every algorithm is made
    of: array accesses, the preemption counter, signal handling of a READY
    process, re-inserting the outgoing process, taking processes off a queue
    until one survives its signals, and the context switch. *)

From S2P Require Import Prelude Exec Kernel Queue QueueLogic Sched SchedInv.

(** ** Specifications *)

(** What [handle_process_signals] does to a process that is READY. *)
Definition after_signals (x : PCB) : PCB :=
  if pending_signals x =? 0 then x
  else if signal_pending x SIGNAL_KILL then clear_signal SIGNAL_KILL (set_state PROCESS_ZOMBIE x)
  else if signal_pending x SIGNAL_STOP then clear_signal SIGNAL_STOP (set_state PROCESS_STOPPED x)
  else if signal_pending x SIGNAL_RESUME then clear_signal SIGNAL_RESUME x
  else x.

(** A READY process is still READY after its pending signals were handled. *)
Definition survives (x : PCB) : bool :=
  negb (signal_pending x SIGNAL_KILL || signal_pending x SIGNAL_STOP).

Definition survives_at (m : gmap pcb_ptr PCB) (p : pcb_ptr) : bool :=
  from_option survives false (m !! p).

(** The first process of a queue that survives, those before and after it. *)
Fixpoint first_survivor (m : gmap pcb_ptr PCB) (l : list pcb_ptr)
    : option (list pcb_ptr * pcb_ptr * list pcb_ptr) :=
  match l with
  | [] => None
  | p :: l' =>
    if survives_at m p then Some ([], p, l')
    else match first_survivor m l' with
         | Some (dropped, q, rest) => Some (p :: dropped, q, rest)
         | None => None
         end
  end.

Definition signal_all (l : list pcb_ptr) (a : astate) : astate :=
  foldl (fun a p => a_update p after_signals a) a l.

(** The registers and page directory of [next] replace those of [previous]. *)
Definition a_load (previous next : pcb_ptr) (a : astate) : astate :=
  let a := a_global (set_current_process next) a in
  let a := a_global (set_ttbr0 (from_option (fun y => pgd (mm y)) 0 (a_pcb a next))) a in
  let a := a_update previous (set_ctx (cpu (base a))) a in
  a_global (set_cpu (from_option ctx zero_context (a_pcb a next))) a.

(** The current process leaves the CPU and [next] gets it. *)
Definition a_switch (next : pcb_ptr) (a : astate) : astate :=
  let current := current_process (base a) in
  let a := a_update next (set_state PROCESS_RUNNING) a in
  if decide (current = next) then a else
  a_load current next
    (if from_option state 0 (a_pcb a current) =? PROCESS_RUNNING
     then a_update current (set_state PROCESS_READY) a else a).

Definition add_preempt (d : Z) (x : PCB) : PCB :=
  set_preempt_disabled (s32 (preempt_disabled x + d)) x.

(** ** Composition of updates *)

Section Composition.
Implicit Types (a : astate) (p : pcb_ptr) (q : queue_ref).

Lemma a_update_compose p f g a : a_update p g (a_update p f a) = a_update p (g ∘ f) a.
Proof. unfold a_update. simpl. f_equal. unfold set_pcbs; simpl. f_equal. apply alter_alter_eq. Qed.

Lemma a_update_ext p f g a x :
  a_pcb a p = Some x -> f x = g x -> a_update p f a = a_update p g a.
Proof.
  intros Hx E. unfold a_update. do 2 f_equal. apply alter_ext.
  intros y Hy. unfold a_pcb in Hx. congruence.
Qed.

Lemma a_update_id p f a x : a_pcb a p = Some x -> f x = x -> a_update p f a = a.
Proof.
  intros Hx E. destruct a as [b ls]. unfold a_update. f_equal. destruct b. unfold set_pcbs. simpl in *.
  f_equal. apply alter_id. unfold a_pcb in Hx; simpl in Hx. intros y Hy. congruence.
Qed.

Lemma signal_all_set_list q l k a :
  signal_all k (a_set_list q l a) = a_set_list q l (signal_all k a).
Proof.
  unfold signal_all. revert a. induction k as [|p k IH]; intros a; simpl; [done|].
  by rewrite <- IH.
Qed.

Lemma lists_signal_all k a : lists (signal_all k a) = lists a.
Proof. unfold signal_all. revert a. induction k as [|p k IH]; intros a; simpl; [done|by rewrite IH]. Qed.

Lemma a_pcb_signal_all_ne k a p : p ∉ k -> a_pcb (signal_all k a) p = a_pcb a p.
Proof.
  unfold signal_all. revert a. induction k as [|p' k IH]; intros a Hp; simpl; [done|].
  apply not_elem_of_cons in Hp as [Hne Hp]. rewrite IH by done. by apply a_pcb_update_ne.
Qed.

Lemma a_pcb_signal_all k a p :
  NoDup k -> p ∈ k -> a_pcb (signal_all k a) p = after_signals <$> a_pcb a p.
Proof.
  revert a. induction k as [|p' k IH]; intros a Hnd Hp; [by apply elem_of_nil in Hp|].
  apply NoDup_cons in Hnd as [Hn Hnd]. change (signal_all (p' :: k) a) with (signal_all k (a_update p' after_signals a)).
  apply elem_of_cons in Hp as [->|Hp].
  - rewrite a_pcb_signal_all_ne by done. apply a_pcb_update_eq.
  - rewrite IH by done. f_equal. apply a_pcb_update_ne. by intros ->.
Qed.
End Composition.

(** ** Signals *)

Section Signals.
Implicit Types (x : PCB) (a : astate) (p : pcb_ptr).

Lemma signal_pending_zero x n : pending_signals x = 0 -> signal_pending x n = false.
Proof. intros E. unfold signal_pending. rewrite E, Z.land_0_l. done. Qed.

Lemma after_signals_cases x :
  exists st sg, after_signals x = set_pending_signals sg (set_state st x) /\
    (state x = PROCESS_READY ->
       if survives x then st = PROCESS_READY else st = PROCESS_ZOMBIE \/ st = PROCESS_STOPPED).
Proof.
  unfold after_signals, survives, clear_signal.
  destruct (Z.eqb_spec (pending_signals x) 0) as [E|E].
  { rewrite !signal_pending_zero by done. exists (state x), (pending_signals x).
    split; [by destruct x|done]. }
  destruct (signal_pending x SIGNAL_KILL); simpl; [do 2 eexists; split; [done|auto]|].
  destruct (signal_pending x SIGNAL_STOP); simpl; [do 2 eexists; split; [done|auto]|].
  exists (state x). destruct (signal_pending x SIGNAL_RESUME);
    [exists (Z.land (pending_signals x) (Z.lnot (Z.shiftl 1 SIGNAL_RESUME)))
    |exists (pending_signals x)]; (split; [by destruct x|done]).
Qed.

Lemma survives_spec x :
  state x = PROCESS_READY -> (state (after_signals x) =? PROCESS_READY) = survives x.
Proof.
  intros Hr. destruct (after_signals_cases x) as (st & sg & -> & Hst). simpl.
  specialize (Hst Hr). destruct (survives x); [by rewrite Hst|]. by destruct Hst as [-> | ->].
Qed.

Lemma survives_at_pcb a p x : a_pcb a p = Some x -> survives_at (pcbs (base a)) p = survives x.
Proof. unfold survives_at, a_pcb. by intros ->. Qed.

#[export] Instance after_signals_oblivious : Oblivious after_signals.
Proof.
  constructor; intros x; unfold after_signals, clear_signal, signal_pending; simpl;
    repeat case_match; done.
Qed.

Lemma after_signals_keeps x :
  pid (after_signals x) = pid x /\ (params_ok x -> params_ok (after_signals x)) /\
  preempt_disabled (after_signals x) = preempt_disabled x /\
  counter (after_signals x) = counter x /\ tickets (after_signals x) = tickets x /\
  priority (after_signals x) = priority x.
Proof.
  destruct (after_signals_cases x) as (st & sg & -> & _).
  split; [done|]. split; [intros []; by constructor|done].
Qed.

Lemma awp_signals_ready p x Q a :
  a_pcb a p = Some x -> state x = PROCESS_READY ->
  Q tt (a_update p after_signals a) -> awp (handle_process_signals p) Q a.
Proof.
  intros Hx Hr HQ. unfold handle_process_signals. awp_step.
  apply (awp_deref p x); [done|intros nx]. simpl.
  change (signal_pending (set_next_ready nx x)) with (signal_pending x).
  assert (Hupd : forall f g, (forall y, a_pcb a p = Some y -> after_signals y = g (f y)) ->
    Oblivious f -> Oblivious g -> awp (update p f;; update p g) Q a).
  { intros f g E Hf Hg. awp_step. apply awp_update; [done|by rewrite Hx|].
    apply awp_update; [done|by rewrite a_pcb_update_eq, Hx|].
    rewrite a_update_compose. erewrite a_update_ext; [exact HQ|exact Hx|].
    symmetry. by apply E. }
  destruct (pending_signals x =? 0) eqn:E0.
  { apply awp_ret. rewrite (a_update_id p after_signals a x) in HQ; [done|done|].
    unfold after_signals. by rewrite E0. }
  destruct (signal_pending x SIGNAL_KILL) eqn:E1.
  { apply Hupd; try apply _. intros y Hy. assert (y = x) as -> by congruence.
    unfold after_signals. by rewrite E0, E1. }
  destruct (signal_pending x SIGNAL_STOP) eqn:E2.
  { apply Hupd; try apply _. intros y Hy. assert (y = x) as -> by congruence.
    unfold after_signals. by rewrite E0, E1, E2. }
  assert (Ha : after_signals x =
    if signal_pending x SIGNAL_RESUME then clear_signal SIGNAL_RESUME x else x).
  { unfold after_signals. by rewrite E0, E1, E2. }
  destruct (signal_pending x SIGNAL_RESUME).
  - awp_step. apply awp_update; [apply _|by rewrite Hx|]. awp_step.
    eapply awp_deref; [by rewrite a_pcb_update_eq, Hx|intros nx']. simpl. rewrite Hr.
    apply awp_when; [done|intros _]. by erewrite a_update_ext in HQ.
  - apply awp_ret. by rewrite (a_update_id p after_signals a x) in HQ.
Qed.
End Signals.

(** ** Rules *)

Section StepRules.
Implicit Types (x : PCB) (a : astate) (p : pcb_ptr) (q : queue_ref).

Lemma awp_read_array {A} (get : kstate -> list A) i v Q a :
  (forall s, get (erase s) = get s) -> array_get (get (base a)) i = Some v ->
  Q v a -> awp (read_array get i) Q a.
Proof.
  intros Hg Hv HQ. unfold read_array. apply awp_bind, awp_gets; [done|]. by eapply awp_defined.
Qed.

Lemma awp_write_array {A} (get : kstate -> list A) set i v Q a :
  (forall s, get (erase s) = get s) -> (forall l, GlobalUpdate (set l)) ->
  0 <= i < Z.of_nat (length (get (base a))) ->
  Q tt (a_global (set (<[Z.to_nat i := v]> (get (base a)))) a) ->
  awp (write_array get set i v) Q a.
Proof.
  intros Hg Hs Hi HQ. unfold write_array. apply awp_bind, awp_gets; [done|].
  apply awp_bind. eapply awp_defined.
  - unfold array_set. destruct (Z.leb_spec 0 i); [|lia].
    by destruct (Z.ltb_spec i (Z.of_nat (length (get (base a))))); [|lia].
  - by apply awp_modify.
Qed.

(** A counted loop keeps an invariant on its index. *)
Lemma awp_for_loop (I : Z -> astate -> Prop) n from body Q a :
  I from a ->
  (forall i a, from <= i < from + Z.of_nat n -> I i a -> awp (body i) (fun _ => I (i + 1)) a) ->
  (forall a', I (from + Z.of_nat n) a' -> Q tt a') ->
  awp (for_loop n from body) Q a.
Proof.
  revert from a. induction n as [|n IH]; intros from a HI Hbody HQ; simpl.
  { apply awp_ret, HQ. by replace (from + Z.of_nat 0) with from by lia. }
  apply awp_bind. eapply awp_mono; [apply Hbody; [lia|done]|].
  intros [] a' HI'. apply IH; [done| |].
  - intros i b Hi. apply Hbody. lia.
  - intros b Hb. apply HQ. by replace (from + Z.of_nat (S n)) with (from + 1 + Z.of_nat n) by lia.
Qed.

Lemma awp_preempt_disable x Q a :
  a_pcb a (current_process (base a)) = Some x ->
  Q tt (a_update (current_process (base a)) (add_preempt 1) a) -> awp preempt_disable Q a.
Proof. intros Hx HQ. unfold preempt_disable. awp_step. awp_step. apply awp_update; [apply _|by rewrite Hx|done]. Qed.

Lemma awp_preempt_enable x Q a :
  a_pcb a (current_process (base a)) = Some x ->
  Q tt (a_update (current_process (base a)) (add_preempt (-1)) a) -> awp preempt_enable Q a.
Proof. intros Hx HQ. unfold preempt_enable. awp_step. awp_step. apply awp_update; [apply _|by rewrite Hx|done]. Qed.

Lemma awp_requeue enq x Q a :
  a_pcb a (current_process (base a)) = Some x ->
  (current_process (base a) <> init_process -> state x = PROCESS_RUNNING ->
    awp (enq (Some (current_process (base a)))) Q a) ->
  (current_process (base a) = init_process \/ state x <> PROCESS_RUNNING -> Q tt a) ->
  awp (requeue_current enq) Q a.
Proof.
  intros Hx Hrun Hno. unfold requeue_current. awp_step. awp_step. case_decide.
  - apply awp_ret. auto.
  - awp_step. eapply awp_deref; [done|intros nx]. simpl.
    apply awp_when; intros E; reflect_bool; auto.
Qed.

Lemma first_survivor_ext m m' l :
  (forall p, p ∈ l -> survives_at m p = survives_at m' p) ->
  first_survivor m l = first_survivor m' l.
Proof.
  induction l as [|p l IH]; intros Hm; simpl; [done|].
  rewrite Hm by by left. rewrite IH; [done|]. intros p' Hp'. apply Hm. by right.
Qed.

Lemma first_survivor_app m l dropped p rest :
  first_survivor m l = Some (dropped, p, rest) -> l = dropped ++ p :: rest.
Proof.
  revert dropped. induction l as [|h l IH]; intros dropped; simpl; [done|].
  destruct (survives_at m h); [by intros [= <- <- <-]|].
  destruct (first_survivor m l) as [[[d h'] r]|]; [|done].
  intros [= <- -> ->]. simpl. by rewrite (IH d).
Qed.

Lemma awp_dequeue_until_ready fuel q l Q a :
  valid_queue a q -> lists a q = l -> NoDup l -> (length l < fuel)%nat ->
  (forall p, p ∈ l -> exists x, a_pcb a p = Some x /\ state x = PROCESS_READY) ->
  match first_survivor (pcbs (base a)) l with
  | None => forall a', a' ≡ a_set_list q [] (signal_all l a) -> Q None a'
  | Some (dropped, p, rest) =>
    forall a', a' ≡ a_set_list q rest (signal_all (dropped ++ [p]) a) -> Q (Some p) a'
  end ->
  awp (dequeue_until_ready fuel q) Q a.
Proof.
  revert l a. induction fuel as [|fuel IH]; intros l a Hv Hl Hnd Hf Hr HQ; [lia|].
  simpl. awp_step. destruct l as [|p l].
  { apply awp_dequeue_nil; [done|done|]. apply awp_ret, HQ. unfold signal_all; simpl.
    pose proof (a_set_list_self q a) as E.
    rewrite Hl in E. by symmetry. }
  eapply awp_dequeue_cons; [done|done|]. awp_step.
  destruct (Hr p ltac:(left)) as (x & Hx & Hsx). apply NoDup_cons in Hnd as [Hp Hnd].
  apply (awp_signals_ready p x); [done|done|]. awp_step.
  eapply awp_deref; [by rewrite a_pcb_update_eq; unfold a_pcb in *; simpl; rewrite Hx|intros nx]. simpl.
  rewrite (survives_spec _ Hsx). simpl in HQ. unfold survives_at at 1 in HQ.
  unfold a_pcb in Hx. rewrite Hx in HQ. simpl in HQ.
  set (a1 := a_update p after_signals (a_set_list q l a)).
  assert (Hl1 : lists a1 q = l) by (unfold a1; simpl; by rewrite decide_True).
  destruct (survives x).
  { apply awp_ret. by apply HQ. }
  apply (IH l a1); try done; [simpl in Hf; lia| |].
  - intros p' Hp'. destruct (Hr p' ltac:(by right)) as (y & Hy & Hsy). exists y.
    split; [|done]. unfold a1. rewrite a_pcb_update_ne; [done|by intros ->].
  - rewrite (first_survivor_ext _ (pcbs (base a))).
    2: { intros p' Hp'. unfold survives_at, a1. simpl. rewrite lookup_alter_ne; [done|by intros ->]. }
    destruct (first_survivor (pcbs (base a)) l) as [[[d p'] r]|]; intros a' Ha'; apply HQ; rewrite Ha';
      unfold a1; change (a_update p after_signals (a_set_list q l a))
        with (a_set_list q l (a_update p after_signals a));
      by rewrite signal_all_set_list, a_set_list_twice.
Qed.

Lemma awp_load previous next Q a :
  previous <> next -> is_Some (a_pcb a next) -> is_Some (a_pcb a previous) ->
  Q tt (a_load previous next a) ->
  awp (modify (set_current_process next);;
       y ← deref next; set_pgd (pgd (mm y));;
       current ← gets current_process;
       cpu_switch_to_process previous current) Q a.
Proof.
  intros Hne [z Hz] [w Hw] HQ. unfold set_pgd, cpu_switch_to_process.
  awp_step. awp_step. awp_step. apply (awp_deref _ z); [done|intros nx]. simpl.
  awp_step. awp_step. awp_step. awp_step. simpl. awp_step. awp_step. awp_step.
  apply awp_update; [apply _|unfold a_pcb in *; simpl; by rewrite Hw|]. awp_step.
  unfold a_load, a_pcb in HQ. simpl in HQ. unfold a_pcb in Hz.
  rewrite lookup_alter_ne, Hz in HQ by congruence. simpl in HQ.
  eapply awp_deref; [rewrite a_pcb_update_ne by congruence; exact Hz|intros nx'].
  awp_step. exact HQ.
Qed.

Lemma awp_switch next x y Q a :
  a_pcb a next = Some x -> a_pcb a (current_process (base a)) = Some y ->
  Q tt (a_switch next a) -> awp (switch_to_process next) Q a.
Proof.
  intros Hx Hy HQ. unfold switch_to_process. awp_step.
  apply awp_update; [apply _|by rewrite Hx|]. awp_step. awp_step. simpl.
  unfold a_switch in HQ. case_decide as Hc; [by apply awp_ret|].
  set (a1 := a_update next (set_state PROCESS_RUNNING) a) in *.
  assert (Hy1 : a_pcb a1 (current_process (base a)) = Some y) by (unfold a1; by rewrite a_pcb_update_ne).
  assert (Hx1 : is_Some (a_pcb a1 next)) by (unfold a1; by rewrite a_pcb_update_eq, Hx).
  awp_step. apply (awp_deref _ y); [done|intros nx]. simpl.
  rewrite Hy1 in HQ. simpl in HQ. awp_step.
  destruct (state y =? PROCESS_RUNNING); simpl.
  - apply awp_update; [apply _|by rewrite Hy1|]. apply awp_load; try done.
    + by rewrite a_pcb_update_ne by congruence.
    + by rewrite a_pcb_update_eq, Hy1.
  - awp_step. by apply awp_load.
Qed.
End StepRules.
