(* ===== verification/Dispatch.v ===== *)
(** * Dispatching: the states between two scheduling decisions

    Every algorithm of [libs/scheduler.c] enters with preemption disabled,
    re-inserts the outgoing process, selects a process and switches to it.
    [inv] is the invariant outside the scheduler, [settled] the one of the
    selection (nobody but the idle process is marked RUNNING), and [transit p]
    the one between taking [p] off its queue and giving it the CPU.  The
    lemmas show that the shared steps lead from one to the next. *)

From S2P Require Import Prelude Exec Kernel Queue QueueLogic Sched SchedInv SchedSteps.

(** ** The invariants *)

(** Every process that is off the CPU holds one level of [preempt_disabled],
    which [preempt_enable] releases when it is switched in.  The bound keeps
    the C [int] from overflowing. *)
Definition preempt_ok (low : Z) (x : PCB) : Prop :=
  low <= preempt_disabled x <= 2 ^ 30 + low - 1.

Definition all_preempt (a : astate) : Prop := forall p x, proc a p x -> preempt_ok 1 x.

(** The invariant outside the scheduler. *)
Record inv (a : astate) : Prop := mkInv {
  inv_wf : wf None a;
  inv_current x : proc a (current_process (base a)) x -> preempt_ok 0 x;
  inv_others p x : proc a p x -> p <> current_process (base a) -> preempt_ok 1 x;
}.

(** Nobody but the idle process is marked RUNNING. *)
Definition no_running (a : astate) : Prop :=
  forall p x, proc a p x -> state x = PROCESS_RUNNING -> p = init_process.

(** Two PCBs of a process that is blocked for the same reason. *)
Definition same_block (x y : PCB) : Prop :=
  state y = state x /\ pending_signals y = pending_signals x /\ pid_to_wait y = pid_to_wait x.

(** The processes that were neither READY nor RUNNING at the snapshot [B] are
    still blocked, with the same pending signals. *)
Definition keeps (B : pcb_ptr -> PCB -> Prop) (a : astate) : Prop :=
  forall p x, B p x -> p <> init_process -> state x <> PROCESS_READY -> state x <> PROCESS_RUNNING ->
    exists y, proc a p y /\ same_block x y.

Record settled (B : pcb_ptr -> PCB -> Prop) (a : astate) : Prop := mkSettled {
  settled_wf : wf None a;
  settled_preempt : all_preempt a;
  settled_running : no_running a;
  settled_keeps : keeps B a;
}.

Record transit (B : pcb_ptr -> PCB -> Prop) (p : pcb_ptr) (a : astate) : Prop := mkTransit {
  transit_wf : wf (Some p) a;
  transit_preempt : all_preempt a;
  transit_running : no_running a;
  transit_proc : exists x, proc a p x;
  transit_unqueued : ~ queued a p;
  transit_ready x : proc a p x -> p = init_process \/ state x = PROCESS_READY;
  transit_keeps : keeps B a;
}.

(** ** The shared steps on abstract states *)

Definition a_enter (a : astate) : astate := a_update (current_process (base a)) (add_preempt 1) a.

Definition a_requeue (enq : pcb_ptr -> astate -> astate) (a : astate) : astate :=
  let current := current_process (base a) in
  if decide (current = init_process) then a
  else if from_option state 0 (a_pcb a current) =? PROCESS_RUNNING then enq current a else a.

(** The switch and the [preempt_enable] that follows it. *)
Definition a_finish (next : pcb_ptr) (a : astate) : astate :=
  a_update next (add_preempt (-1)) (a_switch next a).

#[export] Instance all_preempt_proper : Proper ((≡) ==> iff) all_preempt.
Proof. intros a a' E. unfold all_preempt. by setoid_rewrite E. Qed.

#[export] Instance no_running_proper : Proper ((≡) ==> iff) no_running.
Proof. intros a a' E. unfold no_running. by setoid_rewrite E. Qed.

#[export] Instance keeps_proper B : Proper ((≡) ==> iff) (keeps B).
Proof. intros a a' E. unfold keeps. by setoid_rewrite E. Qed.

#[export] Instance settled_proper B : Proper ((≡) ==> iff) (settled B).
Proof. intros a a' E. by split; intros []; constructor; rewrite E || rewrite <- E. Qed.

#[export] Instance transit_proper B p : Proper ((≡) ==> iff) (transit B p).
Proof.
  assert (Hone : forall a a', a ≡ a' -> transit B p a -> transit B p a').
  { intros a a' E [H1 H2 H3 [x H4] H5 H6 H7]. constructor; rewrite <- E || setoid_rewrite <- E; try done.
    by exists x. }
  intros a a' E. split; apply Hone; by rewrite E.
Qed.

#[export] Instance inv_proper : Proper ((≡) ==> iff) inv.
Proof.
  intros a a' E. pose proof E as [E1 _].
  split; intros [H1 H2 H3]; constructor.
  all: first [by rewrite <- E|by rewrite E|idtac].
  - rewrite <- E1. intros x. rewrite <- E. apply H2.
  - rewrite <- E1. intros p x. rewrite <- E. apply H3.
  - rewrite E1. intros x. rewrite E. apply H2.
  - rewrite E1. intros p x. rewrite E. apply H3.
Qed.

(** ** Lemmas about the invariants *)

Section Invariants.
Context {B : pcb_ptr -> PCB -> Prop}.
Implicit Types (a : astate) (p : pcb_ptr) (q : queue_ref) (x : PCB).

Lemma all_preempt_update a p f :
  all_preempt a -> (forall x, proc a p x -> preempt_ok 1 (f x)) -> all_preempt (a_update p f a).
Proof.
  intros Ha Hf p' y Hy. apply proc_update_inv in Hy as [[-> (x & Hx & ->)]|[_ Hy]]; eauto.
Qed.

Lemma no_running_update a p f :
  no_running a -> (forall x, proc a p x -> state (f x) = PROCESS_RUNNING -> p = init_process) ->
  no_running (a_update p f a).
Proof.
  intros Ha Hf p' y Hy Hs. apply proc_update_inv in Hy as [[-> (x & Hx & ->)]|[_ Hy]]; eauto.
Qed.

(** Rewriting a process that is not blocked, or not what blocks it. *)
Lemma keeps_update a p f :
  keeps B a ->
  (forall x, proc a p x -> p = init_process \/ state x = PROCESS_READY \/
     state x = PROCESS_RUNNING \/ same_block x (f x)) ->
  keeps B (a_update p f a).
Proof.
  intros Ha Hf p' x Hx Hi Hr Hn. destruct (Ha p' x Hx Hi Hr Hn) as (y & Hy & E1 & E2 & E3).
  destruct (decide (p' = p)) as [->|Hne].
  - exists (f y). split; [by apply proc_update_eq|].
    destruct (Hf y Hy) as [?|[?|[?|(F1 & F2 & F3)]]]; [done|congruence|congruence|].
    unfold same_block. by rewrite F1, F2, F3.
  - exists y. split; [by apply proc_update_ne|done].
Qed.

Lemma keeps_inert a p f :
  keeps B a -> (forall x, same_block x (f x)) -> keeps B (a_update p f a).
Proof. intros Ha Hf. apply keeps_update; auto. Qed.

Lemma keeps_self a : keeps (proc a) a.
Proof. intros p x Hx _ _ _. by exists x. Qed.

Lemma transit_init a : settled B a -> transit B init_process a.
Proof.
  intros [Hw Hp Hr Hk]. constructor; [by apply wf_weaken|done|done| | |by left|done].
  - destruct (wf_init _ _ Hw) as (x & Hx & _). eauto.
  - intros [q Hq]. by eapply wf_noinit.
Qed.

(** A process leaves its queue and its signals are handled. *)
Definition a_take (q : queue_ref) (l1 : list pcb_ptr) (p : pcb_ptr) (l2 : list pcb_ptr)
    (a : astate) : astate :=
  a_update p after_signals (a_set_list q (l1 ++ l2) a).

Lemma settled_take a q l1 p l2 :
  settled B a -> lists a q = l1 ++ p :: l2 ->
  if survives_at (pcbs (base a)) p then transit B p (a_take q l1 p l2 a)
  else settled B (a_take q l1 p l2 a).
Proof.
  intros [Hw Hpre Hrun Hk] Hl.
  destruct (wf_ready _ _ Hw q p) as (x & Hx & Hst); [rewrite Hl; set_solver|].
  pose proof (wf_remove _ _ _ _ _ Hw Hl) as Hr.
  pose proof (removed_not_queued _ _ _ _ _ _ Hw Hl) as Hq.
  assert (Hx' : proc (a_set_list q (l1 ++ l2) a) p x) by done.
  destruct (after_signals_keeps x) as (Hpid & Hok & Hpd & _).
  assert (Hpre' : all_preempt (a_take q l1 p l2 a)).
  { apply all_preempt_update; [done|]. intros y Hy.
    rewrite (proc_fun _ _ _ _ Hy (proc_pcb _ _ _ Hx)). unfold preempt_ok. rewrite Hpd. by eapply Hpre. }
  destruct (after_signals_cases x) as (st & sg & E & Hcase). specialize (Hcase Hst).
  assert (Est : state (after_signals x) = st) by by rewrite E.
  assert (Hrun' : no_running (a_take q l1 p l2 a)).
  { apply no_running_update; [done|]. intros y Hy.
    rewrite (proc_fun _ _ _ _ Hy (proc_pcb _ _ _ Hx)), Est. destruct (survives x); [by subst|].
    by destruct Hcase; subst. }
  assert (Hk' : keeps B (a_take q l1 p l2 a)).
  { apply (keeps_update (a_set_list q (l1 ++ l2) a)); [done|]. intros y Hy.
    rewrite (proc_fun _ _ _ _ Hy (proc_pcb _ _ _ Hx)). auto. }
  rewrite (survives_at_pcb _ _ _ (proc_pcb _ _ _ Hx)).
  destruct (survives x).
  - constructor; try done.
    3: { intros y Hy. right. apply proc_update_inv in Hy as [[_ (z & Hz & ->)]|[? _]]; [|done].
      rewrite (proc_fun _ _ _ _ Hz (proc_pcb _ _ _ Hx)), Est. done. }
    + apply (wf_update (Some p) (Some p) _ p _ x); try done; rewrite ?Est; subst; try done.
      by apply Hok, (wf_params _ _ Hw p).
    + exists (after_signals x). by apply proc_update_eq.
  - constructor; try done. apply (wf_update (Some p) None _ p _ x); try done; rewrite ?Est.
    + by apply Hok, (wf_params _ _ Hw p).
    + by destruct Hcase; subst.
    + by destruct Hcase; subst.
    + congruence.
Qed.

(** A process whose signals were handled before leaves its queue. *)
Lemma transit_remove a q l1 p l2 :
  settled B a -> lists a q = l1 ++ p :: l2 -> transit B p (a_set_list q (l1 ++ l2) a).
Proof.
  intros [Hw Hp Hr Hk] Hl.
  destruct (wf_ready _ _ Hw q p) as (x & Hx & Hs); [rewrite Hl; set_solver|].
  constructor; [by apply wf_remove|done|done|by exists x|by eapply removed_not_queued| |done].
  intros y Hy. right. by rewrite (proc_fun _ _ _ _ Hy (proc_pcb _ _ _ Hx)).
Qed.

(** Dequeuing until a process survives. *)
Lemma settled_drain q l a :
  settled B a -> lists a q = l ->
  match first_survivor (pcbs (base a)) l with
  | None => settled B (a_set_list q [] (signal_all l a))
  | Some (dropped, p, rest) => transit B p (a_set_list q rest (signal_all (dropped ++ [p]) a))
  end.
Proof.
  revert a. induction l as [|p l IH]; intros a Hs Hl; simpl.
  { unfold signal_all; simpl. rewrite <- Hl. by rewrite a_set_list_self. }
  pose proof (settled_take a q [] p l Hs Hl) as Ht. simpl in Ht. unfold a_take in Ht. simpl in Ht.
  destruct (survives_at (pcbs (base a)) p).
  { exact Ht. }
  assert (Hnp : p ∉ l).
  { pose proof (wf_nodup _ _ (settled_wf _ _ Hs) q) as Hn. rewrite Hl in Hn. by apply NoDup_cons in Hn as [? _]. }
  specialize (IH _ Ht ltac:(simpl; by rewrite decide_True)).
  rewrite (first_survivor_ext _ (pcbs (base a))) in IH.
  2: { intros p' Hp'. unfold survives_at. simpl. rewrite lookup_alter_ne; [done|by intros ->]. }
  change (a_update p after_signals (a_set_list q l a))
    with (a_set_list q l (a_update p after_signals a)) in IH.
  destruct (first_survivor (pcbs (base a)) l) as [[[d p'] r]|];
    rewrite signal_all_set_list, a_set_list_twice in IH; exact IH.
Qed.

(** Changing the parameters the invariant does not constrain. *)
Lemma transit_update p p' f a :
  transit B p a -> (exists x, proc a p' x) -> inert f ->
  (forall x, preempt_disabled (f x) = preempt_disabled x) -> (forall x, same_block x (f x)) ->
  transit B p (a_update p' f a).
Proof.
  intros [Hw Hp Hr [x Hx] Hq Hrd Hk] Hp' Hf Hd Hb. constructor.
  - by apply wf_inert.
  - apply all_preempt_update; [done|]. intros y Hy. unfold preempt_ok. rewrite Hd. by eapply Hp.
  - apply no_running_update; [done|]. intros y Hy. destruct (Hf y) as (_ & -> & _). by eapply Hr.
  - destruct (decide (p = p')) as [->|Hne]; [exists (f x)|exists x].
    + by apply proc_update_eq.
    + by apply proc_update_ne.
  - done.
  - intros y Hy. apply proc_update_inv in Hy as [[-> (z & Hz & ->)]|[_ Hy]]; [|by apply Hrd].
    destruct (Hf z) as (_ & -> & _). by apply Hrd.
  - by apply keeps_inert.
Qed.

Lemma settled_inert p' f a :
  settled B a -> (exists x, proc a p' x) -> inert f ->
  (forall x, preempt_disabled (f x) = preempt_disabled x) -> (forall x, same_block x (f x)) ->
  settled B (a_update p' f a).
Proof.
  intros [Hw Hp Hr Hk] Hp' Hf Hd Hb. constructor.
  - by apply wf_inert.
  - apply all_preempt_update; [done|]. intros y Hy. unfold preempt_ok. rewrite Hd. by eapply Hp.
  - apply no_running_update; [done|]. intros y Hy. destruct (Hf y) as (_ & -> & _). by eapply Hr.
  - by apply keeps_inert.
Qed.
End Invariants.

(** ** Entering, re-inserting, finishing *)

Section EnterFinish.
Context {B : pcb_ptr -> PCB -> Prop}.
Implicit Types (a : astate) (p : pcb_ptr) (q : queue_ref) (x : PCB).

Lemma add_preempt_1 x : preempt_ok 0 x -> preempt_ok 1 (add_preempt 1 x).
Proof. unfold preempt_ok, add_preempt; simpl. intros H. rewrite s32_id; lia. Qed.

Lemma add_preempt_m1 x : preempt_ok 1 x -> preempt_ok 0 (add_preempt (-1) x).
Proof. unfold preempt_ok, add_preempt; simpl. intros H. rewrite s32_id; lia. Qed.

Lemma add_preempt_inert d : inert (add_preempt d).
Proof. intros x. split; [done|]. split; [done|]. intros []; by constructor. Qed.

Lemma set_ctx_inert c : inert (set_ctx c).
Proof. intros x. split; [done|]. split; [done|]. intros []; by constructor. Qed.

Lemma inv_enter a : inv a -> wf None (a_enter a) /\ all_preempt (a_enter a).
Proof.
  intros [Hw Hc Ho]. split.
  - apply wf_inert; [done|by apply (wf_current _ _ Hw)|apply add_preempt_inert].
  - intros p y Hy. apply proc_update_inv in Hy as [[-> (x & Hx & ->)]|[Hne Hy]].
    + by apply add_preempt_1, Hc.
    + by eapply Ho.
Qed.

Lemma running_not_queued e a p x : wf e a -> proc a p x -> state x = PROCESS_RUNNING -> ~ queued a p.
Proof.
  intros Hw Hp Hs [q Hq]. destruct (wf_ready _ _ Hw _ _ Hq) as (y & Hy & Hsy).
  rewrite (proc_fun _ _ _ _ Hp (proc_pcb _ _ _ Hy)) in Hs. rewrite Hs in Hsy. done.
Qed.

Lemma settled_requeue a enq :
  wf None a -> all_preempt a -> keeps B a ->
  (forall p x, proc a p x -> p <> init_process -> ~ queued a p ->
    exists q l1 l2, home_queue (active_algorithm (base a)) q /\ lists a q = l1 ++ l2 /\
      enq p a = a_set_list q (l1 ++ p :: l2) (a_update p (set_state PROCESS_READY) a)) ->
  settled B (a_requeue enq a).
Proof.
  intros Hw Hpre Hk Henq. unfold a_requeue. destruct (wf_current _ _ Hw) as [x Hx].
  assert (Hno : current_process (base a) = init_process \/ state x <> PROCESS_RUNNING -> settled B a).
  { intros Hcase. constructor; try done. intros p y Hy Hs.
    pose proof (wf_running _ _ Hw _ _ Hy Hs) as ->. destruct Hcase as [?|Hn]; [done|].
    by rewrite (proc_fun _ _ _ _ Hx (proc_pcb _ _ _ Hy)) in Hn. }
  case_decide as Hi; [auto|]. rewrite (proc_pcb _ _ _ Hx). simpl.
  destruct (Z.eqb_spec (state x) PROCESS_RUNNING) as [Hs|Hs]; [|auto].
  destruct (Henq _ _ Hx Hi) as (q & l1 & l2 & Hh & Hl & ->); [by eapply running_not_queued|].
  constructor.
  - apply (wf_insert None a q l1 l2 _ x); try done; [by eapply running_not_queued|by left|].
    intros y. split; [done|]. split; [done|]. intros []; by constructor.
  - apply (all_preempt_update a); [done|]. intros y Hy. by apply Hpre in Hy.
  - intros p y Hy Hsy.
    apply (proc_update_inv a) in Hy as [[-> (z & Hz & ->)]|[Hne Hy]]; [done|].
    by pose proof (wf_running _ _ Hw _ _ Hy Hsy).
  - apply (keeps_update a); [done|]. intros y Hy.
    rewrite (proc_fun _ _ _ _ Hy (proc_pcb _ _ _ Hx)). auto.
Qed.

Lemma enqueue_shape q p a : exists l1 l2, lists a q = l1 ++ l2 /\
  a_enqueue q p a = a_set_list q (l1 ++ p :: l2) (a_update p (set_state PROCESS_READY) a).
Proof. exists (lists a q), []. by rewrite app_nil_r. Qed.

Lemma insert_by_burst_shape m e p l :
  exists l1 l2, l = l1 ++ l2 /\ insert_by_burst m e p l = l1 ++ p :: l2.
Proof.
  induction l as [|h l IH]; simpl; [by exists [], []|].
  destruct (_ <? _); [by exists [], (h :: l)|].
  destruct IH as (l1 & l2 & -> & ->). by exists (h :: l1), l2.
Qed.

Lemma enqueue_sorted_shape q p a : exists l1 l2, lists a q = l1 ++ l2 /\
  a_enqueue_sorted q p a = a_set_list q (l1 ++ p :: l2) (a_update p (set_state PROCESS_READY) a).
Proof.
  destruct (insert_by_burst_shape (pcbs (base a)) (from_option est_burst 0 (a_pcb a p)) p (lists a q))
    as (l1 & l2 & E & Ei).
  exists l1, l2. split; [done|]. unfold a_enqueue_sorted. by rewrite Ei.
Qed.

(** Nobody is RUNNING: any registered process may become the current one. *)
Lemma wf_set_current e a p x :
  wf e a -> (forall p' y, proc a p' y -> state y <> PROCESS_RUNNING) -> proc a p x ->
  wf e (a_global (set_current_process p) a).
Proof.
  intros Hw Hr Hp. destruct Hw. constructor; try done; [by exists x|].
  intros p' y Hy Hs. by destruct (Hr p' y Hy).
Qed.

Lemma a_update_commute p p' f g a :
  p <> p' -> a_update p f (a_update p' g a) = a_update p' g (a_update p f a).
Proof.
  intros Hne. unfold a_update; simpl. unfold set_pcbs; simpl. do 2 f_equal. by apply alter_alter_ne.
Qed.

Lemma proc_load a previous next p x :
  proc (a_load previous next a) p x <-> proc (a_update previous (set_ctx (cpu (base a))) a) p x.
Proof. reflexivity. Qed.

Lemma switch_preempt a next p x :
  proc (a_switch next a) p x -> exists y, proc a p y /\ preempt_disabled x = preempt_disabled y.
Proof.
  assert (Hu : forall a p f p' x, proc (a_update p f a) p' x ->
    (forall y, preempt_disabled (f y) = preempt_disabled y) ->
    exists y, proc a p' y /\ preempt_disabled x = preempt_disabled y).
  { intros a0 p0 f p' x0 Hx Hf. apply proc_update_inv in Hx as [[-> (y & Hy & ->)]|[_ Hx]]; eauto. }
  unfold a_switch. case_decide; intros Hx; [by apply Hu in Hx|].
  apply proc_load, Hu in Hx as (y & Hy & ->); [|done].
  destruct (_ =? PROCESS_RUNNING).
  - apply (Hu _ _ (set_state _)) in Hy as (z & Hz & ->); [|done]. by apply Hu in Hz.
  - by apply (Hu a) in Hy.
Qed.

Lemma switch_current a next : current_process (base (a_switch next a)) = next.
Proof. unfold a_switch. by case_decide. Qed.

Lemma wf_load e a previous next x :
  wf e (a_global (set_current_process next) a) -> proc a previous x -> wf e (a_load previous next a).
Proof.
  intros Hw Hx. unfold a_load. apply wf_global; try done.
  apply wf_inert; [by apply wf_global|by exists x|apply set_ctx_inert].
Qed.
End EnterFinish.

Section Finish.
Context {B : pcb_ptr -> PCB -> Prop}.
Implicit Types (a : astate) (p : pcb_ptr) (q : queue_ref) (x : PCB).

Lemma transit_pcb p a x : transit B p a -> proc a p x -> params_ok x.
Proof. intros Ht. apply (wf_params _ _ (transit_wf _ _ _ Ht)). Qed.

(** The chosen process is marked RUNNING once nobody else is. *)
Lemma wf_dispatch e p a :
  wf e a -> (forall p', Some p' = e -> p' = p) -> (exists x, proc a p x) -> ~ queued a p ->
  current_process (base a) = p -> wf None (a_update p (set_state PROCESS_RUNNING) a).
Proof.
  intros Hw He [x Hx] Hq Hc. apply (wf_update e None a p _ x); try done.
  - destruct (wf_params _ _ Hw p x Hx). by constructor.
  - intros p' Hne E. by apply He in E.
Qed.

Lemma wf_switch p a : transit B p a -> wf None (a_switch p a).
Proof.
  intros [Hw Hpre Hrun [x Hx] Hq _ _]. unfold a_switch. case_decide as Hc.
  { apply (wf_dispatch (Some p)); try done; [congruence|by exists x]. }
  destruct (wf_current _ _ Hw) as [y Hy]. set (cur := current_process (base a)) in *.
  rewrite a_pcb_update_ne, (proc_pcb _ _ _ Hy) by done. simpl.
  set (a1 := if state y =? PROCESS_RUNNING then a_update cur (set_state PROCESS_READY) a else a).
  assert (E : (if state y =? PROCESS_RUNNING
     then a_update cur (set_state PROCESS_READY) (a_update p (set_state PROCESS_RUNNING) a)
     else a_update p (set_state PROCESS_RUNNING) a) = a_update p (set_state PROCESS_RUNNING) a1).
  { unfold a1. destruct (_ =? _); [by apply a_update_commute|done]. }
  rewrite E. clear E.
  assert (Hw1 : wf (Some p) a1 /\ (forall p' z, proc a1 p' z -> state z <> PROCESS_RUNNING)).
  { unfold a1. destruct (Z.eqb_spec (state y) PROCESS_RUNNING) as [Hs|Hs].
    - pose proof (Hrun _ _ Hy Hs) as Hci. split.
      + apply (wf_update (Some p) (Some p) a cur _ y); try done.
        destruct (wf_params _ _ Hw cur y Hy). by constructor.
      + intros p' z Hz. apply proc_update_inv in Hz as [[-> (z' & Hz & ->)]|[Hne Hz]]; [done|].
        intros Hsz. apply Hne. by apply (wf_running _ _ Hw) with z.
    - split; [done|]. intros p' z Hz Hsz. pose proof (wf_running _ _ Hw _ _ Hz Hsz) as ->.
      by rewrite (proc_fun _ _ _ _ Hy (proc_pcb _ _ _ Hz)) in Hs. }
  destruct Hw1 as [Hw1 Hn1].
  assert (Hx1 : proc a1 p x) by (unfold a1; destruct (_ =? _); [by apply proc_update_ne|done]).
  assert (Hy1 : exists y', proc a1 cur y').
  { unfold a1. destruct (_ =? _); [eexists; by apply proc_update_eq|by exists y]. }
  destruct Hy1 as [y' Hy1].
  apply (wf_load None _ _ _ y'); [|by apply proc_update_ne].
  apply (wf_dispatch (Some p) p (a_global (set_current_process p) a1)); try done; [..|by exists x|].
  - by apply (wf_set_current (Some p) _ _ x).
  - congruence.
  - unfold a1. by destruct (_ =? _).
Qed.

Lemma inv_finish p a : transit B p a -> inv (a_finish p a).
Proof.
  intros Ht. pose proof (wf_switch _ _ Ht) as Hw. pose proof (transit_preempt _ _ _ Ht) as Hpre.
  assert (Hsw : forall p' x, proc (a_switch p a) p' x -> preempt_ok 1 x).
  { intros p' x Hx. apply switch_preempt in Hx as (y & Hy & E). unfold preempt_ok. rewrite E.
    by eapply Hpre. }
  assert (Hcur := switch_current a p). unfold a_finish. constructor.
  - apply wf_inert; [done| |apply add_preempt_inert].
    destruct (wf_current _ _ Hw) as [x Hx]. rewrite Hcur in Hx. by exists x.
  - intros x. simpl. rewrite Hcur. intros Hx.
    apply proc_update_inv in Hx as [[_ (y & Hy & ->)]|[Hne _]]; [|done]. by eapply add_preempt_m1, Hsw.
  - intros p' x Hx. simpl. rewrite Hcur. intros Hne.
    apply proc_update_inv in Hx as [[-> _]|[_ Hx]]; [done|]. by eapply Hsw.
Qed.

Lemma keeps_finish p a : transit B p a -> keeps B (a_finish p a).
Proof.
  intros Ht. pose proof (transit_keeps _ _ _ Ht) as Hk.
  assert (H1 : keeps B (a_update p (set_state PROCESS_RUNNING) a)).
  { apply keeps_update; [done|]. intros x Hx. destruct (transit_ready _ _ _ Ht x Hx); auto. }
  unfold a_finish. apply keeps_inert; [|done]. unfold a_switch. case_decide; [done|].
  assert (H2 : forall a', keeps B a' -> keeps B (a_load (current_process (base a)) p a')).
  { intros a' Hk'. apply (keeps_inert a' (current_process (base a)) (set_ctx (cpu (base a')))); done. }
  apply H2. destruct (Z.eqb_spec (from_option state 0
    (a_pcb (a_update p (set_state PROCESS_RUNNING) a) (current_process (base a)))) PROCESS_RUNNING) as [E|]; [|done].
  apply keeps_update; [done|]. intros x Hx. rewrite (proc_pcb _ _ _ Hx) in E. auto.
Qed.

(** The new current process is RUNNING. *)
Lemma finish_current p a : current_process (base (a_finish p a)) = p.
Proof. apply (switch_current a p). Qed.

Lemma finish_running p a x : proc a p x ->
  exists y, proc (a_finish p a) p y /\ state y = PROCESS_RUNNING /\ counter y = counter x /\ ctx y = ctx x.
Proof.
  intros Hx. unfold a_finish, a_switch. case_decide as Hc.
  { eexists. split; [by do 2 apply proc_update_eq|done]. }
  assert (Hp : proc (a_update p (set_state PROCESS_RUNNING) a) p (set_state PROCESS_RUNNING x))
    by by apply proc_update_eq.
  eexists. split.
  - apply proc_update_eq, proc_load, proc_update_ne; [done|].
    destruct (_ =? PROCESS_RUNNING); [by apply proc_update_ne|exact Hp].
  - done.
Qed.

Lemma awp_finish p Q a :
  transit B p a -> Q tt (a_finish p a) -> awp (switch_to_process p;; preempt_enable) Q a.
Proof.
  intros Ht HQ. destruct (transit_proc _ _ _ Ht) as [x Hx].
  destruct (wf_current _ _ (transit_wf _ _ _ Ht)) as [y Hy].
  apply awp_bind. apply (awp_switch p x y); [by apply proc_pcb..|].
  pose proof (wf_switch _ _ Ht) as Hw. destruct (wf_current _ _ Hw) as [z Hz].
  apply (awp_preempt_enable z); [by apply proc_pcb|].
  rewrite switch_current. exact HQ.
Qed.
End Finish.
