(* ===== verification/Algorithms.v ===== *)
(** * The scheduling algorithms

    Every algorithm of [libs/scheduler.c] is executed on abstract states.  The
    theorems say, in terms of the state before the call, which process gets
    the CPU, with which time slice, and what is left in the queues; each
    algorithm also preserves the invariant [inv]. *)

From S2P Require Import Prelude Exec Kernel Queue QueueLogic Sched SchedInv SchedSteps Dispatch.

(** ** The outgoing process *)

(** The process that is put back when the scheduler is entered. *)
Definition outgoing (a : astate) : list pcb_ptr :=
  let current := current_process (base a) in
  if decide (current = init_process) then []
  else if from_option state 0 (a_pcb a current) =? PROCESS_RUNNING then [current] else [].

(** [enq] re-inserts a process as [aenq] says. *)
Definition requeues (enq : option pcb_ptr -> K unit) (aenq : pcb_ptr -> astate -> astate)
    (a : astate) : Prop :=
  forall p x, proc a p x -> p <> init_process -> ~ queued a p ->
    (exists q l1 l2, home_queue (active_algorithm (base a)) q /\ lists a q = l1 ++ l2 /\
       aenq p a = a_set_list q (l1 ++ p :: l2) (a_update p (set_state PROCESS_READY) a)) /\
    forall Q, Q tt (aenq p a) -> awp (enq (Some p)) Q a.

Section Prologue.
Context {B : pcb_ptr -> PCB -> Prop}.
Implicit Types (a : astate) (p : pcb_ptr) (q : queue_ref).

Lemma requeues_fifo e a q :
  wf e a -> home_queue (active_algorithm (base a)) q ->
  requeues (enqueue_process_to q) (a_enqueue q) a.
Proof.
  intros Hw Hh p x Hx Hi Hq. split.
  - destruct (enqueue_shape q p a) as (l1 & l2 & ? & ?). by exists q, l1, l2.
  - intros Q HQ. apply awp_enqueue; try done; [by eapply wf_valid_home|].
    by rewrite (proc_pcb _ _ _ Hx).
Qed.

Lemma requeues_sjf e a :
  wf e a -> home_queue (active_algorithm (base a)) RQ ->
  requeues _enqueue_sjf (a_enqueue_sorted RQ) a.
Proof.
  intros Hw Hh p x Hx Hi Hq. split.
  - destruct (enqueue_sorted_shape RQ p a) as (l1 & l2 & ? & ?). by exists RQ, l1, l2.
  - intros Q HQ. apply awp_enqueue_sorted; try done;
      [by eapply wf_valid_home|by rewrite (proc_pcb _ _ _ Hx)|].
    by eapply queue_length.
Qed.

(** The level the multilevel policies put a process at. *)
Definition level_of (a : astate) (p : pcb_ptr) : Z :=
  default 0 (x ← a_pcb a p; array_get (queue_level (base a)) (pid x)).

Lemma multilevel_levels a pol :
  active_algorithm (base a) ∈ algorithms -> ml_policy (active_algorithm (base a)) = Some pol ->
  n_levels pol = ML_MAX_LEVELS /\ Z.of_nat (length (quantum pol)) = ML_MAX_LEVELS.
Proof.
  unfold algorithms. intros Ha Hp.
  repeat (apply elem_of_cons in Ha as [Ha|Ha]; [rewrite Ha in Hp; simpl in Hp; try done; by injection Hp as <-|]).
  by apply elem_of_nil in Ha.
Qed.

Lemma level_of_range e a p x pol :
  wf e a -> proc a p x -> ml_policy (active_algorithm (base a)) = Some pol ->
  array_get (queue_level (base a)) (pid x) = Some (level_of a p) /\
  0 <= level_of a p < n_levels pol.
Proof.
  intros Hw Hx Hpol. destruct (wf_level _ _ _ _ Hw Hx) as (l & Hl & Hr).
  unfold level_of. rewrite (proc_pcb _ _ _ Hx). simpl. rewrite Hl. simpl. split; [done|].
  destruct (multilevel_levels a pol) as [-> _]; try done. by eapply wf_alg.
Qed.

Lemma requeues_multilevel e a pol :
  wf e a -> ml_policy (active_algorithm (base a)) = Some pol ->
  requeues _enqueue_multilevel (fun p a => a_enqueue (ML (level_of a p)) p a) a.
Proof.
  intros Hw Hpol p x Hx Hi Hq.
  destruct (level_of_range _ _ _ _ _ Hw Hx Hpol) as [Hl Hr].
  assert (Hh : home_queue (active_algorithm (base a)) (ML (level_of a p))).
  { unfold home_queue. by rewrite Hpol. }
  destruct (requeues_fifo _ a _ Hw Hh p x Hx Hi Hq) as [Hs Hawp]. split; [done|].
  intros Q HQ. unfold _enqueue_multilevel. apply awp_bind, (awp_defined _ p); [done|].
  awp_step. apply (awp_deref p x); [by apply proc_pcb|intros nx]. awp_step.
  eapply awp_read_array; [done|exact Hl|]. by apply Hawp.
Qed.

Lemma proc_enter a p x :
  proc a p x -> exists y, proc (a_enter a) p y /\ state y = state x.
Proof.
  intros Hx. unfold a_enter. destruct (decide (p = current_process (base a))) as [->|Hne].
  - eexists. split; [by apply proc_update_eq|done].
  - exists x. split; [by apply proc_update_ne|done].
Qed.

Lemma awp_enter {C} (rest : K C) Q a :
  inv a ->
  (wf None (a_enter a) -> all_preempt (a_enter a) -> keeps (proc a) (a_enter a) ->
    awp rest Q (a_enter a)) ->
  awp (preempt_disable;; rest) Q a.
Proof.
  intros Hinv Hrest. destruct (wf_current _ _ (inv_wf _ Hinv)) as [x Hx]. apply awp_bind.
  apply (awp_preempt_disable x); [by apply proc_pcb|].
  apply Hrest; [by apply inv_enter..|]. by apply keeps_inert; [apply keeps_self|].
Qed.

Lemma awp_put_back {C} enq aenq (rest : K C) Q a :
  wf None a -> all_preempt a -> keeps B a -> requeues enq aenq a ->
  (settled B (a_requeue aenq a) -> awp rest Q (a_requeue aenq a)) ->
  awp (requeue_current enq;; rest) Q a.
Proof.
  intros Hw Hpre Hk Henq Hrest. destruct (wf_current _ _ Hw) as [y Hy].
  assert (Hset : settled B (a_requeue aenq a)).
  { apply settled_requeue; try done. intros p z Hz Hi Hq. by apply (Henq p z). }
  specialize (Hrest Hset). apply awp_bind. unfold a_requeue in Hrest. cbv zeta in Hrest.
  rewrite (proc_pcb _ _ _ Hy) in Hrest. simpl in Hrest.
  apply (awp_requeue _ y); [by apply proc_pcb|..].
  - intros Hi Hs. rewrite decide_False in Hrest by done. rewrite Hs, Z.eqb_refl in Hrest.
    destruct (Henq _ _ Hy Hi) as [_ Hawp]; [by eapply running_not_queued|]. by apply Hawp.
  - intros Hcase. case_decide; [done|]. destruct Hcase as [?|Hs]; [done|].
    by destruct (Z.eqb_spec (state y) PROCESS_RUNNING).
Qed.
End Prologue.

(** ** What re-inserting the outgoing process leaves alone *)

(** The part of a PCB that a dispatch does not touch. *)
Definition visible (x : PCB) : PCB := set_state 0 (set_preempt_disabled 0 x).

(** [a'] differs from [a] in states, preemption counters and queues only. *)
Record frame (a a' : astate) : Prop := mkFrame {
  frame_pcb p : visible <$> a_pcb a' p = visible <$> a_pcb a p;
  frame_base : base a' = set_pcbs (pcbs (base a')) (base a);
}.

Section Frame.
Context {B : pcb_ptr -> PCB -> Prop}.
Implicit Types (a : astate) (p : pcb_ptr) (q : queue_ref).

Lemma frame_refl a : frame a a.
Proof. constructor; [done|]. by destruct (base a). Qed.

Lemma frame_trans a1 a2 a3 : frame a1 a2 -> frame a2 a3 -> frame a1 a3.
Proof.
  intros [P1 B1] [P2 B2]. constructor; [intros p; by rewrite P2|].
  rewrite B2. simpl. by rewrite B1.
Qed.

Lemma frame_update a p f : (forall x, visible (f x) = visible x) -> frame a (a_update p f a).
Proof.
  intros Hf. constructor; [|done]. intros p'. destruct (decide (p' = p)) as [->|Hne].
  - rewrite a_pcb_update_eq. destruct (a_pcb a p); simpl; [by rewrite Hf|done].
  - by rewrite a_pcb_update_ne.
Qed.

Lemma frame_list a q l : frame a (a_set_list q l a).
Proof. constructor; [done|]. simpl. by destruct (base a). Qed.

Lemma frame_get a a' p x :
  frame a a' -> a_pcb a p = Some x -> exists y, a_pcb a' p = Some y /\ visible y = visible x.
Proof.
  intros [Hp _] Hx. specialize (Hp p). rewrite Hx in Hp.
  destruct (a_pcb a' p) as [y|]; simpl in Hp; [|done].
  exists y. split; [done|congruence].
Qed.

Lemma visible_survives x y : visible x = visible y -> survives x = survives y.
Proof.
  intros E. change (survives x) with (survives (visible x)). by rewrite E.
Qed.

Lemma frame_survives a a' p :
  frame a a' -> survives_at (pcbs (base a')) p = survives_at (pcbs (base a)) p.
Proof.
  intros [Hp _]. specialize (Hp p). unfold a_pcb in Hp. unfold survives_at.
  destruct (pcbs (base a) !! p) as [x|] eqn:Ex, (pcbs (base a') !! p) as [y|] eqn:Ey; simpl in *; try done.
  apply visible_survives. congruence.
Qed.

Lemma frame_current a a' : frame a a' -> current_process (base a') = current_process (base a).
Proof. intros [_ ->]. done. Qed.

Lemma frame_queue_level a a' : frame a a' -> queue_level (base a') = queue_level (base a).
Proof. intros [_ ->]. done. Qed.

Lemma frame_algorithm a a' : frame a a' -> active_algorithm (base a') = active_algorithm (base a).
Proof. intros [_ ->]. done. Qed.

Lemma frame_enter a : frame a (a_enter a).
Proof. by apply frame_update. Qed.

Lemma frame_enqueue q p a : frame a (a_enqueue q p a).
Proof. eapply frame_trans; [by apply (frame_update a p (set_state PROCESS_READY))|apply frame_list]. Qed.

Lemma frame_enqueue_sorted q p a : frame a (a_enqueue_sorted q p a).
Proof. eapply frame_trans; [by apply (frame_update a p (set_state PROCESS_READY))|apply frame_list]. Qed.

Lemma outgoing_enter a : outgoing (a_enter a) = outgoing a.
Proof.
  unfold outgoing. simpl. unfold a_enter. rewrite a_pcb_update_eq.
  by destruct (a_pcb a (current_process (base a))).
Qed.

(** A generic description of [a_requeue]. *)
Lemma requeue_cases aenq a :
  (outgoing a = [] /\ a_requeue aenq a = a) \/
  (outgoing a = [current_process (base a)] /\ a_requeue aenq a = aenq (current_process (base a)) a).
Proof. unfold outgoing, a_requeue. case_decide; [auto|]. destruct (_ =? _); auto. Qed.

Lemma frame_requeue aenq a : (forall p a, frame a (aenq p a)) -> frame a (a_requeue aenq (a_enter a)).
Proof.
  intros Henq. apply (frame_trans _ (a_enter a)); [apply frame_enter|].
  destruct (requeue_cases aenq (a_enter a)) as [[_ ->]|[_ ->]]; [apply frame_refl|apply Henq].
Qed.

Lemma lists_requeue_fifo q a :
  lists (a_requeue (a_enqueue q) (a_enter a)) q = lists a q ++ outgoing a.
Proof.
  rewrite <- outgoing_enter.
  destruct (requeue_cases (a_enqueue q) (a_enter a)) as [[-> ->]|[-> ->]]; simpl.
  - by rewrite app_nil_r.
  - by rewrite decide_True.
Qed.
End Frame.

(** ** Steps that raise no signal *)

(** No process has a kill or a stop signal pending. *)
Definition calm (a : astate) : Prop := forall p x, proc a p x -> survives x = true.

(** [a'] has the algorithm of [a], and no new signals. *)
Record steady (a a' : astate) : Prop := mkSteady {
  steady_algorithm : active_algorithm (base a') = active_algorithm (base a);
  steady_calm : calm a -> calm a';
}.

Section Steady.
Implicit Types (a : astate) (p : pcb_ptr) (q : queue_ref).

#[export] Instance calm_proper : Proper ((≡) ==> iff) calm.
Proof. intros a a' E. unfold calm. by setoid_rewrite E. Qed.

#[export] Instance steady_proper : Proper ((≡) ==> (≡) ==> iff) steady.
Proof.
  intros a b E a' b' E'. pose proof E as [E1 _]. pose proof E' as [E1' _].
  split; intros [H1 H2]; constructor; congruence || (by rewrite <- E, <- E') || by rewrite E, E'.
Qed.

Lemma steady_refl a : steady a a.
Proof. by constructor. Qed.

Lemma steady_trans a1 a2 a3 : steady a1 a2 -> steady a2 a3 -> steady a1 a3.
Proof. intros [A1 C1] [A2 C2]. constructor; [congruence|auto]. Qed.

Lemma steady_update a p f :
  (forall x, survives x = true -> survives (f x) = true) -> steady a (a_update p f a).
Proof.
  intros Hf. constructor; [done|]. intros Hc p' y Hy.
  apply proc_update_inv in Hy as [[_ (x & Hx & ->)]|[_ Hy]]; [by apply Hf, (Hc p)|by eapply Hc].
Qed.

Lemma steady_list a q l : steady a (a_set_list q l a).
Proof. by constructor. Qed.

Lemma steady_frame a a' : frame a a' -> steady a a'.
Proof.
  intros Hf. constructor; [by apply frame_algorithm|]. intros Hc p y [Hy Hin].
  rewrite (frame_base _ _ Hf) in Hin. simpl in Hin. pose proof (frame_pcb _ _ Hf p) as E. rewrite Hy in E.
  destruct (a_pcb a p) as [x|] eqn:Hx; simpl in E; [|done].
  rewrite (visible_survives y x) by congruence. by apply (Hc p).
Qed.

Lemma after_signals_survives x : survives x = true -> survives (after_signals x) = true.
Proof.
  unfold after_signals. destruct (_ =? 0); [done|]. unfold survives at 1.
  destruct (signal_pending x SIGNAL_KILL) eqn:Ek, (signal_pending x SIGNAL_STOP) eqn:Es; try done. intros _.
  destruct (signal_pending x SIGNAL_RESUME); [|unfold survives; by rewrite Ek, Es].
  unfold survives, signal_pending, clear_signal in *. simpl pending_signals.
  rewrite <- !Z.land_assoc. rewrite !(Z.land_comm (Z.lnot _)), !Z.land_assoc.
  apply negb_false_iff, Z.eqb_eq in Ek as ->. apply negb_false_iff, Z.eqb_eq in Es as ->. done.
Qed.

Lemma steady_signal_all l a : steady a (signal_all l a).
Proof.
  unfold signal_all. revert a. induction l as [|p l IH]; intros a; simpl; [apply steady_refl|].
  eapply steady_trans; [|apply IH]. apply steady_update, after_signals_survives.
Qed.

Lemma steady_switch p a : steady a (a_switch p a).
Proof.
  assert (Hs : forall p st b, steady b (a_update p (set_state st) b)) by (intros; by apply steady_update).
  unfold a_switch. case_decide; [apply Hs|]. set (a1 := a_update p _ a).
  apply (steady_trans _ a1); [apply Hs|].
  set (a2 := if from_option state 0 (a_pcb a1 (current_process (base a))) =? PROCESS_RUNNING
    then a_update (current_process (base a)) (set_state PROCESS_READY) a1 else a1).
  apply (steady_trans _ a2); [unfold a2; destruct (_ =? _); [apply Hs|apply steady_refl]|].
  unfold a_load. set (a3 := a_global _ (a_global _ a2)).
  apply (steady_trans _ a3); [by constructor|].
  apply (steady_trans _ (a_update (current_process (base a)) (set_ctx (cpu (base a3))) a3)); [by apply steady_update|].
  by constructor.
Qed.

Lemma steady_finish p a : steady a (a_finish p a).
Proof. eapply steady_trans; [apply steady_switch|by apply steady_update]. Qed.

(** Without signals the head of the queue survives. *)
Lemma calm_survivor m p l : (forall p', p' ∈ p :: l -> survives_at m p' = true) -> first_survivor m (p :: l) = Some ([], p, l).
Proof. intros H. simpl. by rewrite H by by left. Qed.
End Steady.

(** ** Selecting from a queue *)

(** [p] was given the CPU, with a time slice that satisfies [P]. *)
Definition runs (a : astate) (p : pcb_ptr) (P : Z -> Prop) : Prop :=
  current_process (base a) = p /\
  exists x, proc a p x /\ state x = PROCESS_RUNNING /\ P (counter x).

(** The processes that left the queues because of a signal. *)
Definition blocked_by_signal (a : astate) (l : list pcb_ptr) : Prop :=
  forall p, p ∈ l -> exists x, proc a p x /\
    (state x = PROCESS_ZOMBIE \/ state x = PROCESS_STOPPED).

Section Selection.
Context {B : pcb_ptr -> PCB -> Prop}.
Implicit Types (a : astate) (p : pcb_ptr) (q : queue_ref).

Lemma settled_ready_queue a q p :
  settled B a -> p ∈ lists a q -> exists x, a_pcb a p = Some x /\ state x = PROCESS_READY.
Proof.
  intros [Hw _ _ _] Hp. destruct (wf_ready _ _ Hw _ _ Hp) as (x & Hx & Hs).
  exists x. by rewrite (proc_pcb _ _ _ Hx).
Qed.

(** The loop that dequeues until a process survives its signals. *)
Lemma awp_drain q Q a :
  settled B a -> home_queue (active_algorithm (base a)) q ->
  match first_survivor (pcbs (base a)) (lists a q) with
  | None =>
    let a' := a_set_list q [] (signal_all (lists a q) a) in
    settled B a' -> forall a'', a'' ≡ a' -> Q None a''
  | Some (dropped, p, rest) =>
    let a' := a_set_list q rest (signal_all (dropped ++ [p]) a) in
    transit B p a' -> forall a'', a'' ≡ a' -> Q (Some p) a''
  end ->
  awp (dequeue_until_ready loop_fuel q) Q a.
Proof.
  intros Hs Hh HQ. pose proof (settled_drain q _ a Hs eq_refl) as Hd.
  apply (awp_dequeue_until_ready _ q (lists a q)); try done.
  - by eapply wf_valid_home; [eapply settled_wf|].
  - by apply (wf_nodup _ _ (settled_wf _ _ Hs)).
  - unfold loop_fuel. pose proof (queue_length None a q (settled_wf _ _ Hs)). lia.
  - intros p Hp. by eapply settled_ready_queue.
  - destruct (first_survivor _ _) as [[[d p] r]|]; intros a' Ha'; by apply HQ.
Qed.

Lemma proc_signal_all_ne l a p x : p ∉ l -> proc a p x -> proc (signal_all l a) p x.
Proof.
  intros Hp [Hx Hin]. split; [by rewrite a_pcb_signal_all_ne|].
  unfold signal_all. clear Hx Hp. revert a Hin. induction l as [|h l IH]; intros a Hin; simpl; [done|].
  by apply IH.
Qed.

Lemma proc_signal_all l a p x :
  NoDup l -> p ∈ l -> proc a p x -> proc (signal_all l a) p (after_signals x).
Proof.
  intros Hl Hp [Hx Hin]. split; [by rewrite a_pcb_signal_all, Hx|].
  unfold signal_all. clear Hx Hp Hl. revert a Hin. induction l as [|h l IH]; intros a Hin; simpl; [done|].
  by apply IH.
Qed.

(** A process that is not involved in a switch keeps its state. *)
Lemma proc_finish_ne next a p x :
  p <> next -> state x <> PROCESS_RUNNING -> proc a p x ->
  exists y, proc (a_finish next a) p y /\ state y = state x.
Proof.
  intros Hne Hs Hx. unfold a_finish, a_switch. case_decide as Hc.
  { exists x. split; [|done]. by do 2 (apply proc_update_ne; [done|]). }
  assert (Hx1 : proc (a_update next (set_state PROCESS_RUNNING) a) p x) by by apply proc_update_ne.
  destruct (decide (p = current_process (base a))) as [->|Hnc].
  - rewrite (proc_pcb _ _ _ Hx1 : a_pcb _ _ = _). simpl.
    destruct (Z.eqb_spec (state x) PROCESS_RUNNING); [done|].
    eexists. split; [apply proc_update_ne; [done|]; by apply proc_load, proc_update_eq|done].
  - exists x. split; [|done]. apply proc_update_ne; [done|]. apply proc_load, proc_update_ne; [done|].
    destruct (_ =? _); [by apply proc_update_ne|done].
Qed.

Lemma survivor_split m l d p r :
  first_survivor m l = Some (d, p, r) ->
  l = d ++ p :: r /\ survives_at m p = true /\ Forall (fun x => survives_at m x = false) d.
Proof.
  revert d. induction l as [|h l IH]; intros d; simpl; [done|].
  destruct (survives_at m h) eqn:E; [intros [= <- <- <-]; done|].
  destruct (first_survivor m l) as [[[d' p'] r']|]; [|done].
  intros [= <- -> ->]. destruct (IH d' eq_refl) as (-> & Hp & Hf). by repeat constructor.
Qed.

Lemma signalled_blocked a x p :
  proc a p x -> state x = PROCESS_READY -> survives x = false ->
  state (after_signals x) = PROCESS_ZOMBIE \/ state (after_signals x) = PROCESS_STOPPED.
Proof.
  intros Hx Hs Hf. destruct (after_signals_cases x) as (st & sg & -> & Hc). simpl.
  specialize (Hc Hs). by rewrite Hf in Hc.
Qed.

Lemma blocked_drain a q d l l' r :
  settled B a -> lists a q = d ++ l ->
  Forall (fun x => survives_at (pcbs (base a)) x = false) d ->
  (forall h, h ∈ d -> h ∈ r) -> NoDup r ->
  blocked_by_signal (a_set_list q l' (signal_all r a)) d.
Proof.
  intros Hs Hl Hd Hr Hnd h Hh. destruct (wf_ready _ _ (settled_wf _ _ Hs) q h) as (x & Hx & Hsx).
  { rewrite Hl. apply elem_of_app. by left. }
  rewrite Forall_forall in Hd. specialize (Hd h Hh).
  rewrite (survives_at_pcb _ _ _ (proc_pcb _ _ _ Hx)) in Hd.
  exists (after_signals x). split; [apply (proc_signal_all r a); auto|].
  by apply (signalled_blocked _ _ _ Hx Hsx Hd).
Qed.

Lemma blocked_update p f d a : p ∉ d -> blocked_by_signal a d -> blocked_by_signal (a_update p f a) d.
Proof.
  intros Hp Hb h Hh. destruct (Hb h Hh) as (x & Hx & Hs). exists x. split; [|done].
  apply proc_update_ne; [by intros ->|done].
Qed.

Lemma blocked_finish p d a : p ∉ d -> blocked_by_signal a d -> blocked_by_signal (a_finish p a) d.
Proof.
  intros Hp Hb h Hh. destruct (Hb h Hh) as (x & Hx & Hs).
  destruct (proc_finish_ne p a h x) as (y & Hy & Ey); [by intros ->|by destruct Hs as [-> | ->]|done|].
  exists y. by rewrite Ey.
Qed.

#[export] Instance runs_proper : Proper ((≡) ==> (=) ==> (=) ==> iff) runs.
Proof.
  intros a a' E p ? <- P ? <-. pose proof E as [E1 _]. unfold runs. rewrite E1.
  by setoid_rewrite E.
Qed.

#[export] Instance blocked_proper : Proper ((≡) ==> (=) ==> iff) blocked_by_signal.
Proof. intros a a' E l ? <-. unfold blocked_by_signal. by setoid_rewrite E. Qed.
End Selection.

(** The outcome of serving the queue [q], which held the processes [l]: the
    first process that survives its signals runs, or the idle process when
    there is none; those before it are blocked and the others stay queued. *)
Definition serves (m : gmap pcb_ptr PCB) (q : queue_ref) (l : list pcb_ptr) (P : Z -> Prop)
    (a' : astate) : Prop :=
  match first_survivor m l with
  | None => runs a' init_process (fun _ => True) /\ lists a' q = [] /\ blocked_by_signal a' l
  | Some (dropped, p, rest) =>
    runs a' p P /\ lists a' q = rest /\ blocked_by_signal a' dropped
  end.

#[export] Instance serves_proper m q l P : Proper ((≡) ==> iff) (serves m q l P).
Proof.
  intros a a' E. pose proof E as [_ E2]. unfold serves.
  destruct (first_survivor m l) as [[[d p] r]|]; by rewrite E2, E.
Qed.

Section HeadOfQueue.
Context {B : pcb_ptr -> PCB -> Prop}.
Implicit Types (a : astate) (p : pcb_ptr) (q : queue_ref).

Lemma lists_finish p a q : lists (a_finish p a) q = lists a q.
Proof. unfold a_finish, a_switch. case_decide; [done|]. unfold a_load. by destruct (_ =? _). Qed.

Lemma runs_finish p a x P : proc a p x -> P (counter x) -> runs (a_finish p a) p P.
Proof.
  intros Hx HP. split; [apply finish_current|].
  destruct (finish_running p a x Hx) as (y & Hy & Hs & Hc & _). exists y. by rewrite Hc.
Qed.

Lemma no_survivor m l : first_survivor m l = None -> Forall (fun p => survives_at m p = false) l.
Proof.
  induction l as [|h l IH]; simpl; [done|].
  destruct (survives_at m h) eqn:E; [done|]. destruct (first_survivor m l) as [[[? ?] ?]|]; [done|].
  intros _. constructor; auto.
Qed.

(** What a switch to the first survivor of a queue leads to. *)
Lemma serve_some q f P a d p r :
  settled B a -> first_survivor (pcbs (base a)) (lists a q) = Some (d, p, r) ->
  inert f -> (forall x, preempt_disabled (f x) = preempt_disabled x) -> (forall x, same_block x (f x)) ->
  (forall x, P (counter (f x))) ->
  let a1 := a_update p f (a_set_list q r (signal_all (d ++ [p]) a)) in
  transit B p a1 -> inv (a_finish p a1) /\ keeps B (a_finish p a1) /\ serves (pcbs (base a)) q (lists a q) P (a_finish p a1).
Proof.
  intros Hs E Hf Hfp Hsb HP a1 Ht. split; [by eapply inv_finish|split; [by apply keeps_finish|]]. unfold serves. rewrite E.
  pose proof (wf_nodup _ _ (settled_wf _ _ Hs) q) as Hnd.
  apply survivor_split in E as (El & Hp & Hd). rewrite El in Hnd.
  assert (Hndp : NoDup (d ++ [p])).
  { replace (d ++ p :: r) with ((d ++ [p]) ++ r) in Hnd by by rewrite <- app_assoc.
    by apply NoDup_app in Hnd as [? _]. }
  assert (p ∉ d) by (apply NoDup_app in Hndp as (_ & Hx' & _); set_solver).
  destruct (wf_ready _ _ (settled_wf _ _ Hs) q p) as (x & Hx & _); [rewrite El; set_solver|].
  split; [|split].
  - eapply (runs_finish _ _ (f (after_signals x))); [|done].
    apply proc_update_eq, (proc_signal_all (d ++ [p]) a); [done|set_solver|done].
  - rewrite lists_finish. simpl. by rewrite decide_True.
  - apply blocked_finish, blocked_update; [done..|].
    apply (blocked_drain (B:=B) _ _ _ (p :: r)); try done. set_solver.
Qed.

Lemma serve_none q P a :
  settled B a -> first_survivor (pcbs (base a)) (lists a q) = None ->
  let a1 := a_set_list q [] (signal_all (lists a q) a) in
  settled B a1 ->
  inv (a_finish init_process a1) /\ keeps B (a_finish init_process a1) /\
  serves (pcbs (base a)) q (lists a q) P (a_finish init_process a1).
Proof.
  intros Hs E a1 Hs1. pose proof (transit_init _ Hs1) as Ht.
  split; [by eapply inv_finish|split; [by apply keeps_finish|]].
  unfold serves. rewrite E. destruct (transit_proc _ _ _ Ht) as [x Hx]. split; [|split].
  - by eapply runs_finish.
  - rewrite lists_finish. simpl. by rewrite decide_True.
  - apply blocked_finish; [by apply (wf_noinit None), (settled_wf B)|].
    apply (blocked_drain (B:=B) _ _ _ []); try done.
    + by rewrite app_nil_r.
    + by apply no_survivor.
    + by apply (wf_nodup _ _ (settled_wf _ _ Hs)).
Qed.

(** Serving one queue: drain it, prepare the chosen process with [f] and
    switch, as the continuation [k] does. *)
Lemma awp_serve q f P (k : option pcb_ptr -> K unit) Q a :
  settled B a -> home_queue (active_algorithm (base a)) q ->
  inert f -> (forall x, preempt_disabled (f x) = preempt_disabled x) -> (forall x, same_block x (f x)) ->
  (forall x, P (counter (f x))) ->
  (forall a', transit B init_process a' -> Q tt (a_finish init_process a') -> awp (k None) Q a') ->
  (forall p a', transit B p a' -> transit B p (a_update p f a') ->
    Q tt (a_finish p (a_update p f a')) -> awp (k (Some p)) Q a') ->
  (forall x, survives (f x) = survives x) ->
  (forall a', inv a' -> keeps B a' -> serves (pcbs (base a)) q (lists a q) P a' -> steady a a' -> Q tt a') ->
  awp (next ← dequeue_until_ready loop_fuel q; k next) Q a.
Proof.
  intros Hs Hh Hf Hfp Hsb HP Hnone Hsome Hsv HQ. apply awp_bind. apply (awp_drain (B:=B)); [done|done|].
  destruct (first_survivor _ _) as [[[d p] r]|] eqn:E; cbv zeta.
  - intros Ht a' E'. rewrite E'.
    assert (Ht' := transit_update _ p f _ Ht (transit_proc _ _ _ Ht) Hf Hfp Hsb).
    destruct (serve_some q f P a d p r Hs E Hf Hfp Hsb HP Ht') as (? & ? & ?).
    apply Hsome; [done|done|]. apply HQ; [done|done|done|].
    eapply steady_trans; [|apply steady_finish]. eapply steady_trans; [|apply steady_update; intros x; by rewrite Hsv].
    eapply steady_trans; [apply steady_signal_all|apply steady_list].
  - intros Hs' a' E'. rewrite E'. apply Hnone; [by apply transit_init|].
    destruct (serve_none q P a Hs E Hs') as (? & ? & ?). apply HQ; [done|done|done|].
    eapply steady_trans; [|apply steady_finish]. eapply steady_trans; [apply steady_signal_all|apply steady_list].
Qed.

(** Preparing a process with a new time slice. *)
Lemma awp_set_slice p c Q a :
  transit B p a -> transit B p (a_update p (set_counter c) a) ->
  Q tt (a_finish p (a_update p (set_counter c) a)) ->
  awp (update p (set_counter c);; mret p)
    (fun next_process => awp (switch_to_process next_process;; preempt_enable) Q) a.
Proof.
  intros Ht Ht' HQ. destruct (transit_proc _ _ _ Ht) as [x Hx].
  awp_step. apply awp_update; [apply _|by rewrite (proc_pcb _ _ _ Hx)|].
  awp_step. by eapply awp_finish.
Qed.

Lemma set_counter_inert c : - 2 ^ 63 <= c < 2 ^ 63 -> inert (set_counter c).
Proof. intros Hc x. split; [done|]. split; [done|]. intros []; by constructor. Qed.

(** The whole call, on abstract states, for the algorithms that re-insert
    the outgoing process with [aenq] and serve [ready_queue]. *)
Lemma serves_frame m m' q l P a :
  (forall p, survives_at m p = survives_at m' p) -> serves m q l P a -> serves m' q l P a.
Proof. intros Hm. unfold serves. rewrite (first_survivor_ext m m'); auto. Qed.
End HeadOfQueue.

(** ** Round robin and the queue-head algorithms *)

Section Theorems.
Implicit Types (s : kstate) (a : astate).

(** No multilevel policy: the home queue is [ready_queue]. *)
Definition single_queue (a : astate) : Prop := ml_policy (active_algorithm (base a)) = None.

Lemma single_queue_home a : single_queue a -> home_queue (active_algorithm (base a)) RQ.
Proof. unfold single_queue, home_queue. by intros ->. Qed.

Lemma awp_round_robin a :
  inv a -> single_queue a ->
  awp _schedule_round_robin (fun _ a' => (inv a' /\ keeps (proc a) a' /\
    serves (pcbs (base a)) RQ (lists a RQ ++ outgoing a) (fun c => c = 10) a') /\ steady a a') a.
Proof.
  intros Hinv Hsq. assert (Hh := single_queue_home a Hsq). unfold _schedule_round_robin.
  apply awp_enter; [done|intros Hw Hp Hk].
  apply (awp_put_back (B:=proc a) _ (a_enqueue RQ)); [done|done|exact Hk|by eapply requeues_fifo|intros Hs].
  assert (Hfr : frame a (a_requeue (a_enqueue RQ) (a_enter a))).
  { apply frame_requeue. intros. apply frame_enqueue. }
  eapply (awp_serve RQ (set_counter 10) (fun c => c = 10)); try done.
  - by rewrite (frame_algorithm _ _ Hfr).
  - by apply set_counter_inert.
  - intros a' Ht HQ. awp_step. awp_step. by eapply awp_finish.
  - intros p a' Ht Ht' HQ. by eapply awp_bind, awp_set_slice.
  - intros a' Hi Hk' Hv Hst. split; [|eapply steady_trans; [by apply steady_frame|exact Hst]].
    split; [done|]. split; [done|]. rewrite lists_requeue_fifo in Hv.
    eapply serves_frame; [|exact Hv]. intros. by apply frame_survives.
Qed.

Lemma awp_queue_head aenq a :
  inv a -> single_queue a ->
  requeues (call_enqueue (enqueue (active_algorithm (base a)))) aenq (a_enter a) ->
  (forall p a, frame a (aenq p a)) ->
  awp _schedule_queue_head (fun _ a' => inv a' /\ keeps (proc a) a' /\
    serves (pcbs (base a)) RQ (lists (a_requeue aenq (a_enter a)) RQ) (fun _ => True) a') a.
Proof.
  intros Hinv Hsq Henq Haenq. assert (Hh := single_queue_home a Hsq). unfold _schedule_queue_head.
  apply awp_enter; [done|intros Hw Hp Hk]. awp_step. awp_step.
  apply (awp_put_back (B:=proc a) _ aenq); [done|done|exact Hk|done|intros Hs].
  assert (Hfr : frame a (a_requeue aenq (a_enter a))) by by apply frame_requeue.
  eapply (awp_serve RQ id (fun _ => True)); try done.
  - by rewrite (frame_algorithm _ _ Hfr).
  - intros a' Ht HQ. by eapply awp_finish.
  - intros p a' Ht Ht' HQ. destruct (transit_proc _ _ _ Ht) as [x Hx].
    rewrite (a_update_id p id a' x) in HQ; [by eapply awp_finish|by apply proc_pcb|done].
  - intros a' Hi Hk' Hv _. split; [done|]. split; [done|]. eapply serves_frame; [|exact Hv]. intros. by apply frame_survives.
Qed.

(** The queue SJF serves: the outgoing process is inserted by estimate. *)
Definition sjf_queue (a : astate) : list pcb_ptr :=
  foldr (fun p l => insert_by_burst (pcbs (base a)) (burst_of (pcbs (base a)) p) p l)
    (lists a RQ) (outgoing a).

Lemma sjf_queue_perm a : sjf_queue a ≡ₚ lists a RQ ++ outgoing a.
Proof.
  unfold sjf_queue. rewrite (comm (++)). induction (outgoing a) as [|p l IH]; simpl; [done|].
  by rewrite insert_by_burst_perm, IH.
Qed.

Lemma sjf_queue_sorted a : burst_sorted (pcbs (base a)) (lists a RQ) -> burst_sorted (pcbs (base a)) (sjf_queue a).
Proof.
  intros Hs. unfold sjf_queue. induction (outgoing a) as [|p l IH]; simpl; [done|].
  by apply insert_by_burst_sorted.
Qed.

Lemma lists_requeue_sjf a : lists (a_requeue (a_enqueue_sorted RQ) (a_enter a)) RQ = sjf_queue a.
Proof.
  unfold sjf_queue. rewrite <- outgoing_enter.
  destruct (requeue_cases (a_enqueue_sorted RQ) (a_enter a)) as [[-> ->]|[-> ->]]; [done|].
  simpl. unfold a_enqueue_sorted. simpl.
  assert (E : forall p, burst_of (pcbs (base (a_enter a))) p = burst_of (pcbs (base a)) p).
  { intros p. unfold burst_of, a_enter. simpl. destruct (decide (p = current_process (base a))) as [->|Hne].
    - rewrite lookup_alter_eq. by destruct (_ !! _).
    - by rewrite lookup_alter_ne. }
  unfold a_pcb. fold (burst_of (pcbs (base (a_enter a))) (current_process (base a))). rewrite E.
  apply insert_by_burst_ext. intros p _. apply E.
Qed.
End Theorems.

(** ** Multilevel queues *)

Section MultilevelScan.
Context {B : pcb_ptr -> PCB -> Prop}.
Implicit Types (s : kstate) (a : astate) (p : pcb_ptr).

(** The queue of level [l], once the outgoing process is back. *)
Definition ml_queue (a : astate) (l : Z) : list pcb_ptr :=
  lists a (ML l) ++ filter (fun p => level_of a p = l) (outgoing a).

(** The scan from [level] over the next [n] levels stops at the first queue
    with a survivor; the queues before it are empty afterwards. *)
Definition scanned (a : astate) (level n : Z) (r : option pcb_ptr * Z) (a' : astate) : Prop :=
  base a' = set_pcbs (pcbs (base a')) (base a) /\
  (forall l, l < level -> lists a' (ML l) = lists a (ML l)) /\
  let idle l := first_survivor (pcbs (base a)) (lists a (ML l)) = None /\ lists a' (ML l) = [] in
  match r with
  | (None, _) => settled B a' /\ forall l, level <= l < level + n -> idle l
  | (Some p, target) =>
    transit B p a' /\ level <= target < level + n /\
    (forall l, level <= l < target -> idle l) /\
    (forall l, target < l -> lists a' (ML l) = lists a (ML l)) /\
    exists d, first_survivor (pcbs (base a)) (lists a (ML target)) = Some (d, p, lists a' (ML target))
  end.

Lemma base_signal_all k a : base (signal_all k a) = set_pcbs (pcbs (base (signal_all k a))) (base a).
Proof.
  unfold signal_all. revert a. induction k as [|p k IH]; intros a; simpl.
  - by destruct (base a).
  - by rewrite IH at 1.
Qed.

(** Draining one queue does not change who survives in the others. *)
Lemma drain_others a q q' k :
  wf None a -> q' <> q -> (forall p, p ∈ k -> p ∈ lists a q) ->
  first_survivor (pcbs (base (signal_all k a))) (lists a q') =
  first_survivor (pcbs (base a)) (lists a q').
Proof.
  intros Hw Hne Hk. apply first_survivor_ext. intros p Hp. unfold survives_at.
  change (pcbs (base (signal_all k a)) !! p) with (a_pcb (signal_all k a) p).
  rewrite a_pcb_signal_all_ne; [done|]. intros Hpk. apply Hne.
  apply (wf_disjoint _ _ Hw _ _ p Hp). auto.
Qed.

Lemma awp_multilevel_scan n level a Q :
  settled B a -> (forall l, level <= l < level + Z.of_nat n -> home_queue (active_algorithm (base a)) (ML l)) ->
  (forall r a', scanned a level (Z.of_nat n) r a' -> Q r a') ->
  awp (multilevel_scan n level) Q a.
Proof.
  revert level a Q. induction n as [|n IH]; intros level a Q Hs Hh HQ; simpl.
  { apply awp_ret, HQ. split; [by destruct (base a)|]. split; [done|]. split; [done|lia]. }
  assert (Hne : forall l, l <> level -> ML l <> ML level) by congruence.
  apply awp_bind, (awp_drain (B:=B)); [done|apply Hh; lia|].
  destruct (first_survivor _ _) as [[[d p] r]|] eqn:E; cbv zeta.
  { intros Ht a' E'. rewrite E'. apply awp_ret, HQ. split; [apply base_signal_all|].
    assert (Hl : forall l, l <> level ->
      lists (a_set_list (ML level) r (signal_all (d ++ [p]) a)) (ML l) = lists a (ML l)).
    { intros l Hl. simpl. rewrite decide_False by auto. by rewrite lists_signal_all. }
    split; [intros; apply Hl; lia|]. split; [done|]. split; [lia|]. split; [lia|].
    split; [intros; apply Hl; lia|]. exists d. simpl. by rewrite decide_True. }
  intros Hs' a' E'. rewrite E'. clear a' E'.
  set (a1 := a_set_list (ML level) [] (signal_all (lists a (ML level)) a)) in *.
  assert (Hb1 : base a1 = set_pcbs (pcbs (base a1)) (base a)) by apply base_signal_all.
  assert (Hl1 : forall l, l <> level -> lists a1 (ML l) = lists a (ML l)).
  { intros l Hl. simpl. rewrite decide_False by auto. by rewrite lists_signal_all. }
  assert (Hfs : forall l, l <> level ->
    first_survivor (pcbs (base a1)) (lists a1 (ML l)) = first_survivor (pcbs (base a)) (lists a (ML l))).
  { intros l Hl. rewrite Hl1 by done.
    apply (drain_others _ (ML level)); [by eapply settled_wf|auto|done]. }
  apply IH; [done| |].
  { intros l Hl. rewrite Hb1. apply Hh. lia. }
  intros r a' (Hb & Hlow & Hr). apply HQ. split; [by rewrite Hb, Hb1|].
  split; [intros l Hl; rewrite Hlow, Hl1; lia || done|].
  assert (Hlev : lists a' (ML level) = []) by (rewrite Hlow by lia; simpl; by rewrite decide_True).
  destruct r as [[p|] target].
  - destruct Hr as (Ht & Hrange & Hidle & Hhigh & d & Hd). split; [done|]. split; [lia|].
    split; [|split].
    + intros l Hl. destruct (decide (l = level)) as [->|Hn]; [done|].
      rewrite <- Hfs by done. apply Hidle. lia.
    + intros l Hl. rewrite Hhigh by lia. apply Hl1. lia.
    + exists d. rewrite <- Hfs by lia. done.
  - destruct Hr as [Ht Hidle]. split; [done|]. intros l Hl.
    destruct (decide (l = level)) as [->|Hn]; [done|]. rewrite <- Hfs by done. apply Hidle. lia.
Qed.
End MultilevelScan.

Section Multilevel.
Implicit Types (s : kstate) (a : astate) (p : pcb_ptr).

(** The cascade: nobody is runnable, or the first level with a survivor is
    served with that level's quantum and the levels below are untouched. *)
Definition cascades (a : astate) (pol : MultilevelPolicy) (a' : astate) : Prop :=
  let idle l := first_survivor (pcbs (base a)) (ml_queue a l) = None /\ lists a' (ML l) = [] in
  (runs a' init_process (fun _ => True) /\ forall l, 0 <= l < n_levels pol -> idle l) \/
  exists target dropped p rest ticks,
    0 <= target < n_levels pol /\ (forall l, 0 <= l < target -> idle l) /\
    first_survivor (pcbs (base a)) (ml_queue a target) = Some (dropped, p, rest) /\
    lists a' (ML target) = rest /\
    (forall l, target < l -> lists a' (ML l) = ml_queue a l) /\
    quantum pol !! Z.to_nat target = Some ticks /\ runs a' p (fun c => c = ticks).

Definition a_enqueue_ml (p : pcb_ptr) (a : astate) : astate := a_enqueue (ML (level_of a p)) p a.

Lemma lists_requeue_ml a l : lists (a_requeue a_enqueue_ml (a_enter a)) (ML l) = ml_queue a l.
Proof.
  unfold ml_queue. rewrite <- outgoing_enter.
  assert (El : level_of (a_enter a) (current_process (base a)) = level_of a (current_process (base a))).
  { unfold level_of. simpl. unfold a_enter at 1. rewrite a_pcb_update_eq.
    by destruct (a_pcb a (current_process (base a))). }
  destruct (requeue_cases a_enqueue_ml (a_enter a)) as [[-> ->]|[-> ->]].
  - simpl. by rewrite app_nil_r.
  - unfold a_enqueue_ml, a_enqueue. simpl. rewrite El, filter_cons, filter_nil.
    case_decide as Hd.
    + injection Hd as ->. by rewrite decide_True.
    + rewrite decide_False by congruence. by rewrite app_nil_r.
Qed.

Lemma quantum_ok a pol l c :
  active_algorithm (base a) ∈ algorithms -> ml_policy (active_algorithm (base a)) = Some pol ->
  quantum pol !! l = Some c -> - 2 ^ 63 <= c < 2 ^ 63.
Proof.
  unfold algorithms. intros Ha Hp Hc.
  assert (Hq : quantum pol = [10; 12; 14; 16; 20] \/ quantum pol = [5; 8; 10; 15; 20]).
  { repeat (apply elem_of_cons in Ha as [Ha|Ha];
      [rewrite Ha in Hp; simpl in Hp; try done; injection Hp as <-; auto|]).
    by apply elem_of_nil in Ha. }
  destruct Hq as [Hq|Hq]; rewrite Hq in Hc;
    do 5 (destruct l as [|l]; [injection Hc as <-; lia|]); done.
Qed.

Lemma awp_multilevel a pol :
  inv a -> ml_policy (active_algorithm (base a)) = Some pol ->
  awp _schedule_multilevel (fun _ a' => inv a' /\ keeps (proc a) a' /\ cascades a pol a') a.
Proof.
  intros Hinv Hpol. pose proof (wf_alg _ _ (inv_wf _ Hinv)) as Halg.
  destruct (multilevel_levels a pol Halg Hpol) as [Hn Hq].
  unfold _schedule_multilevel. apply awp_enter; [done|intros Hw Hp Hk].
  awp_step. awp_step. apply awp_bind. eapply awp_defined; [exact Hpol|].
  apply (awp_put_back (B:=proc a) _ a_enqueue_ml); [done|done|exact Hk|by eapply requeues_multilevel|intros Hs].
  assert (Hfr : frame a (a_requeue a_enqueue_ml (a_enter a))).
  { apply frame_requeue. intros. apply frame_enqueue. }
  assert (Hfs : forall l, first_survivor (pcbs (base (a_requeue a_enqueue_ml (a_enter a))))
    (lists (a_requeue a_enqueue_ml (a_enter a)) (ML l)) = first_survivor (pcbs (base a)) (ml_queue a l)).
  { intros l. rewrite lists_requeue_ml. apply first_survivor_ext. intros. by apply frame_survives. }
  set (a1 := a_requeue a_enqueue_ml (a_enter a)) in *.
  apply awp_bind; eapply awp_multilevel_scan; [exact Hs| |].
  { intros l Hl. unfold home_queue. rewrite (frame_algorithm _ _ Hfr), Hpol. lia. }
  intros [[p|] target] a2 (Hb & _ & Hr); simpl; awp_step.
  - destruct Hr as (Ht & Hrange & Hidle & Hhigh & d & Hd).
    destruct (lookup_lt_is_Some_2 (quantum pol) (Z.to_nat target)) as [ticks Hticks].
    { rewrite Hn in Hrange. lia. }
    awp_step. eapply awp_defined; [by apply array_get_Some; split; [lia|exact Hticks]|].
    pose proof (quantum_ok _ _ _ _ Halg Hpol Hticks) as Hc.
    assert (Ht' := transit_update _ p _ _ Ht (transit_proc _ _ _ Ht) (set_counter_inert _ Hc) ltac:(done) ltac:(done)).
    eapply awp_set_slice; [done|done|].
    split; [by eapply inv_finish|]. split; [by apply keeps_finish|]. unfold cascades. cbv beta zeta. right.
    exists target, d, p, (lists a2 (ML target)), ticks.
    assert (Hlf : forall q, lists (a_finish p (a_update p (set_counter ticks) a2)) q = lists a2 q).
    { intros q. by rewrite lists_finish. }
    split; [lia|]. split; [|split; [|split; [|split; [|split]]]]; try done.
    + intros l Hl. rewrite Hlf, <- Hfs. apply Hidle. lia.
    + by rewrite <- Hfs.
    + intros l Hl. by rewrite Hlf, Hhigh, <- lists_requeue_ml.
    + destruct (transit_proc _ _ _ Ht) as [x Hx]. eapply runs_finish; [by apply proc_update_eq|done].
  - destruct Hr as [Hs2 Hidle]. pose proof (transit_init _ Hs2) as Ht. awp_step.
    eapply awp_finish; [done|]. split; [by eapply inv_finish|]. split; [by apply keeps_finish|]. unfold cascades. cbv beta zeta. left. split.
    + destruct (transit_proc _ _ _ Ht) as [x Hx]. by eapply runs_finish.
    + intros l Hl. rewrite lists_finish, <- Hfs. apply Hidle. lia.
Qed.
End Multilevel.
