(* ===== verification/Lottery.v ===== *)
(** * Lottery scheduling

    The xorshift generator of [libs/scheduler.c], the draw over the ready
    queue, and [_schedule_lottery]: which ticket wins, that a process wins
    exactly as many ticket numbers as it holds, and that the draws end. *)

From S2P Require Import Prelude Exec Kernel Queue QueueLogic Sched SchedInv SchedSteps Dispatch Algorithms.

(** ** The generator *)

Section Xorshift.
Implicit Types x y z k : Z.

Definition step_left k x : Z := Z.lxor x (u64 (Z.shiftl x k)).
Definition step_right k x : Z := Z.lxor x (Z.shiftr x k).

Lemma xorshift64_steps x : xorshift64 x = step_left 17 (step_right 7 (step_left 13 x)).
Proof. reflexivity. Qed.

Lemma land_lxor_distr_l x y z : Z.land (Z.lxor x y) z = Z.lxor (Z.land x z) (Z.land y z).
Proof.
  apply Z.bits_inj'. intros n _. rewrite !Z.land_spec, !Z.lxor_spec, !Z.land_spec.
  by destruct (Z.testbit x n), (Z.testbit y n), (Z.testbit z n).
Qed.

Lemma lxor_swap x y z t : Z.lxor (Z.lxor x y) (Z.lxor z t) = Z.lxor (Z.lxor x z) (Z.lxor y t).
Proof. rewrite !Z.lxor_assoc. f_equal. rewrite <- !Z.lxor_assoc. f_equal. apply Z.lxor_comm. Qed.

Lemma u64_land z : u64 z = Z.land z (Z.ones 64).
Proof. unfold u64. by rewrite Z.land_ones. Qed.

Lemma lxor_u64 x y : 0 <= x < 2 ^ 64 -> 0 <= y < 2 ^ 64 -> 0 <= Z.lxor x y < 2 ^ 64.
Proof.
  intros Hx Hy. rewrite <- (u64_id x), <- (u64_id y), !u64_land by done.
  rewrite <- land_lxor_distr_l, <- u64_land. apply u64_range.
Qed.

Lemma step_left_range k x : 0 <= x < 2 ^ 64 -> 0 <= step_left k x < 2 ^ 64.
Proof. intros Hx. apply lxor_u64; [done|apply u64_range]. Qed.

Lemma step_right_range k x : 0 <= k -> 0 <= x < 2 ^ 64 -> 0 <= step_right k x < 2 ^ 64.
Proof.
  intros Hk Hx. apply lxor_u64; [done|]. rewrite Z.shiftr_div_pow2 by done.
  pose proof (Z.pow_pos_nonneg 2 k ltac:(lia) Hk).
  split; [apply Z.div_pos; lia|]. apply Z.div_lt_upper_bound; nia.
Qed.

Lemma step_left_lxor k x y : 0 <= k -> step_left k (Z.lxor x y) = Z.lxor (step_left k x) (step_left k y).
Proof.
  intros Hk. unfold step_left. rewrite !u64_land, Z.shiftl_lxor, land_lxor_distr_l. apply lxor_swap.
Qed.

Lemma step_right_lxor k x y : step_right k (Z.lxor x y) = Z.lxor (step_right k x) (step_right k y).
Proof. unfold step_right. rewrite Z.shiftr_lxor. apply lxor_swap. Qed.

Lemma step_left_zero k x : 0 < k -> 0 <= x < 2 ^ 64 -> step_left k x = 0 -> x = 0.
Proof.
  intros Hk Hx H0. apply Z.lxor_eq in H0. rewrite u64_land in H0.
  apply Z.bits_inj_0. intros n. destruct (Z.lt_ge_cases n 0); [by apply Z.testbit_neg_r|].
  revert n H. apply (Zlt_0_ind (fun n => Z.testbit x n = false)).
  intros n IH Hn. rewrite H0, Z.land_spec. destruct (Z.lt_ge_cases n 64).
  - destruct (Z.lt_ge_cases n k).
    + by rewrite Z.shiftl_spec_low.
    + rewrite Z.shiftl_spec by done. rewrite IH; [done|lia..].
  - rewrite Z.ones_spec_high by lia. apply andb_false_r.
Qed.

Lemma step_right_zero k x : 0 < k -> 0 <= x -> step_right k x = 0 -> x = 0.
Proof.
  intros Hk Hx H0. apply Z.lxor_eq in H0. rewrite Z.shiftr_div_pow2 in H0 by lia.
  destruct (decide (x = 0)); [done|]. pose proof (Z.pow_gt_1 2 k ltac:(lia)).
  pose proof (Z.div_lt x (2 ^ k)). lia.
Qed.

Lemma xorshift64_range x : 0 <= x < 2 ^ 64 -> 0 <= xorshift64 x < 2 ^ 64.
Proof.
  intros Hx. rewrite xorshift64_steps.
  apply step_left_range, step_right_range; [done|]. by apply step_left_range.
Qed.

Lemma xorshift64_zero x : 0 <= x < 2 ^ 64 -> xorshift64 x = 0 -> x = 0.
Proof.
  intros Hx H0. rewrite xorshift64_steps in H0.
  pose proof (step_left_range 13 x Hx). pose proof (step_right_range 7 _ ltac:(done) H).
  apply step_left_zero, step_right_zero, step_left_zero in H0; done || lia.
Qed.

Lemma xorshift64_lxor x y : xorshift64 (Z.lxor x y) = Z.lxor (xorshift64 x) (xorshift64 y).
Proof. by rewrite !xorshift64_steps, step_left_lxor, step_right_lxor, step_left_lxor. Qed.
End Xorshift.

(** ** The draw on a list *)

Definition tickets_of (m : gmap pcb_ptr PCB) (p : pcb_ptr) : Z :=
  from_option effective_tickets 1 (m !! p).

Definition total_tickets (m : gmap pcb_ptr PCB) (l : list pcb_ptr) : Z :=
  foldr (fun p t => tickets_of m p + t) 0 l.

(** The holder of ticket number [w], between those before and after it. *)
Fixpoint winner_at (m : gmap pcb_ptr PCB) (l : list pcb_ptr) (w : Z)
    : option (list pcb_ptr * pcb_ptr * list pcb_ptr) :=
  match l with
  | [] => None
  | p :: l' =>
    if w <? tickets_of m p then Some ([], p, l')
    else match winner_at m l' (w - tickets_of m p) with
         | Some (before, q, after) => Some (p :: before, q, after)
         | None => None
         end
  end.

(** The generator state after mixing in the timer value [t]. *)
Definition next_random (t x : Z) : Z :=
  let x := Z.lxor x (u32 t) in xorshift64 (if x =? 0 then lottery_seed else x).

(** Draws until a winner survives its signals. *)
Fixpoint lottery_result (timer : nat -> Z) (m : gmap pcb_ptr PCB) (fuel n : nat) (x : Z)
    (l : list pcb_ptr) : option pcb_ptr :=
  match l, fuel with
  | [], _ | _, O => None
  | _, S fuel =>
    let x := next_random (timer n) x in
    match winner_at m l (x `mod` total_tickets m l) with
    | None => None
    | Some (before, p, after) =>
      if survives_at m p then Some p else lottery_result timer m fuel (S n) x (before ++ after)
    end
  end.

Section Draw.
Implicit Types (m : gmap pcb_ptr PCB) (p : pcb_ptr) (l : list pcb_ptr) (w : Z).

Lemma effective_tickets_pos x : 0 < effective_tickets x.
Proof. unfold effective_tickets. by destruct (Z.ltb_spec 0 (tickets x)). Qed.

Lemma tickets_of_pos m p : 0 < tickets_of m p.
Proof. unfold tickets_of. destruct (m !! p); simpl; [apply effective_tickets_pos|done]. Qed.

Lemma total_tickets_app m l1 l2 : total_tickets m (l1 ++ l2) = total_tickets m l1 + total_tickets m l2.
Proof. induction l1 as [|p l1 IH]; simpl; [done|]. rewrite IH. lia. Qed.

Lemma total_tickets_nonneg m l : 0 <= total_tickets m l.
Proof. induction l as [|p l IH]; simpl; [done|]. pose proof (tickets_of_pos m p). lia. Qed.

Lemma total_tickets_zero m l : (total_tickets m l =? 0) = true <-> l = [].
Proof.
  rewrite Z.eqb_eq. split; [|by intros ->]. destruct l as [|p l]; simpl; [done|].
  pose proof (tickets_of_pos m p). pose proof (total_tickets_nonneg m l). lia.
Qed.

Lemma winner_at_spec m l w before p after :
  winner_at m l w = Some (before, p, after) ->
  l = before ++ p :: after /\ w < total_tickets m before + tickets_of m p /\
  (0 <= w -> total_tickets m before <= w).
Proof.
  revert w before. induction l as [|h l IH]; intros w before; simpl; [done|].
  destruct (Z.ltb_spec w (tickets_of m h)); [intros [= <- <- <-]; simpl; split; [done|lia]|].
  destruct (winner_at m l (w - tickets_of m h)) as [[[b q] a]|] eqn:E; [|done].
  intros [= <- -> ->]. destruct (IH _ _ E) as (-> & H1 & H2). simpl. split; [done|].
  split; [lia|]. intros. specialize (H2 ltac:(lia)). lia.
Qed.

Lemma winner_at_total m l w : 0 <= w < total_tickets m l -> is_Some (winner_at m l w).
Proof.
  revert w. induction l as [|h l IH]; intros w Hw; simpl in *; [lia|].
  destruct (Z.ltb_spec w (tickets_of m h)); [done|].
  destruct (IH (w - tickets_of m h)) as [[[b q] a] ->]; [lia|done].
Qed.

(** Whoever wins at offset [w] before a given process still wins. *)
Lemma winner_at_unique m before p after w :
  total_tickets m before <= w < total_tickets m before + tickets_of m p ->
  winner_at m (before ++ p :: after) w = Some (before, p, after).
Proof.
  revert w. induction before as [|h l IH]; intros w Hw; simpl in *.
  - destruct (Z.ltb_spec w (tickets_of m p)); [done|lia].
  - pose proof (total_tickets_nonneg m l).
    destruct (Z.ltb_spec w (tickets_of m h)); [lia|]. rewrite IH; [done|lia].
Qed.

Lemma app_split_first p l1 l2 k1 k2 :
  p ∉ l1 -> p ∉ k1 -> l1 ++ p :: l2 = k1 ++ p :: k2 -> l1 = k1 /\ l2 = k2.
Proof.
  revert k1. induction l1 as [|h l1 IH]; intros [|k k1] H1 H2 E; simpl in *; injection E.
  - by intros ->.
  - intros _ ->. by destruct H2; left.
  - intros _ ->. by destruct H1; left.
  - intros E' ->. apply not_elem_of_cons in H1 as [_ H1], H2 as [_ H2].
    by destruct (IH k1 H1 H2 E') as [-> ->].
Qed.

(** The ticket numbers that make [p] win. *)
Lemma winner_interval m before p after w :
  p ∉ before -> 0 <= w ->
  (exists b a, winner_at m (before ++ p :: after) w = Some (b, p, a) /\ p ∉ b) <->
  total_tickets m before <= w < total_tickets m before + tickets_of m p.
Proof.
  intros Hp Hw. split.
  - intros (b & a & E & Hb). apply winner_at_spec in E as (El & H1 & H2).
    apply app_split_first in El as [-> _]; [|done..]. auto.
  - intros Hr. exists before, after. split; [by apply winner_at_unique|done].
Qed.
End Draw.

(** ** The code draws that winner *)

Section Execution.
Implicit Types (a : astate) (p : pcb_ptr) (l : list pcb_ptr).

Lemma params_tickets x : params_ok x -> effective_tickets x = tickets x /\ 1 <= effective_tickets x < 2 ^ 31.
Proof. intros [_ Ht _]. unfold effective_tickets. destruct (Z.ltb_spec 0 (tickets x)); lia. Qed.

Lemma tickets_bound a p : wf None a -> queued a p -> 1 <= tickets_of (pcbs (base a)) p < 2 ^ 31.
Proof.
  intros Hw [q Hq]. destruct (wf_ready _ _ Hw _ _ Hq) as (x & Hx & _).
  unfold tickets_of. change (pcbs (base a) !! p) with (a_pcb a p). rewrite (proc_pcb _ _ _ Hx).
  simpl. by apply params_tickets, (wf_params _ _ Hw p).
Qed.

Lemma total_bound a l :
  wf None a -> (forall p, p ∈ l -> queued a p) ->
  total_tickets (pcbs (base a)) l <= Z.of_nat (length l) * 2 ^ 31.
Proof.
  intros Hw. induction l as [|p l IH]; intros Hl; cbn [total_tickets foldr length]; [lia|].
  pose proof (tickets_bound a p Hw (Hl p ltac:(by left))).
  specialize (IH ltac:(intros; apply Hl; by right)). fold (total_tickets (pcbs (base a)) l). lia.
Qed.

Lemma queue_total a l1 l2 :
  wf None a -> lists a RQ = l1 ++ l2 ->
  0 <= total_tickets (pcbs (base a)) l1 /\ total_tickets (pcbs (base a)) l1 < 2 ^ 40 /\
  total_tickets (pcbs (base a)) (l1 ++ l2) < 2 ^ 40.
Proof.
  intros Hw Hl.
  pose proof (queue_length None a RQ Hw) as Hlen. rewrite Hl in Hlen.
  pose proof (total_bound a (l1 ++ l2) Hw) as Hb.
  pose proof (total_tickets_app (pcbs (base a)) l1 l2).
  pose proof (total_tickets_nonneg (pcbs (base a)) l1).
  pose proof (total_tickets_nonneg (pcbs (base a)) l2).
  assert (Hq : forall p, p ∈ l1 ++ l2 -> queued a p) by (intros p Hp; exists RQ; by rewrite Hl).
  specialize (Hb Hq). unfold N_PROCESSES in Hlen. lia.
Qed.

(** Every node of [ready_queue] is a PCB. *)
Lemma ready_queue_pcb a l1 p l2 :
  wf None a -> lists a RQ = l1 ++ p :: l2 -> exists x, a_pcb a p = Some x /\
    tickets_of (pcbs (base a)) p = effective_tickets x.
Proof.
  intros Hw Hl. destruct (wf_ready _ _ Hw RQ p) as (x & Hx & _); [rewrite Hl; set_solver|].
  exists x. split; [by apply proc_pcb|]. unfold tickets_of.
  change (pcbs (base a) !! p) with (a_pcb a p). by rewrite (proc_pcb _ _ _ Hx).
Qed.

Lemma awp_count_tickets fuel l1 l2 Q a :
  wf None a -> valid_queue a RQ -> lists a RQ = l1 ++ l2 -> (length l2 < fuel)%nat ->
  Q (total_tickets (pcbs (base a)) (l1 ++ l2)) a ->
  awp (count_tickets fuel (hd_error l2) (total_tickets (pcbs (base a)) l1)) Q a.
Proof.
  intros Hw Hv. revert fuel l1. induction l2 as [|p l2 IH]; intros fuel l1 Hl Hf HQ.
  { rewrite app_nil_r in HQ. destruct fuel; [simpl in Hf; lia|]. by apply awp_ret. }
  destruct fuel as [|fuel]; [simpl in Hf; lia|]. simpl. awp_step.
  destruct (ready_queue_pcb a l1 p l2 Hw Hl) as (x & Hx & Ht).
  eapply awp_deref_queued; [done|exact Hl|done|]. simpl.
  assert (El : l1 ++ p :: l2 = (l1 ++ [p]) ++ l2) by by rewrite <- app_assoc.
  destruct (queue_total a (l1 ++ [p]) l2 Hw) as (_ & Hb & _); [by rewrite Hl|].
  pose proof (total_tickets_nonneg (pcbs (base a)) (l1 ++ [p])).
  assert (Es : total_tickets (pcbs (base a)) l1 + effective_tickets x
    = total_tickets (pcbs (base a)) (l1 ++ [p])) by (rewrite total_tickets_app; simpl; lia).
  change (effective_tickets (set_next_ready (hd_error l2) x)) with (effective_tickets x).
  rewrite Es, s64_id by lia. apply IH; [by rewrite Hl|simpl in Hf; lia|by rewrite <- El].
Qed.

Lemma awp_find_winner fuel l1 l2 w Q a :
  wf None a -> valid_queue a RQ -> lists a RQ = l1 ++ l2 -> (length l2 < fuel)%nat ->
  total_tickets (pcbs (base a)) l1 <= w < total_tickets (pcbs (base a)) (l1 ++ l2) ->
  (forall before p after, winner_at (pcbs (base a)) (l1 ++ l2) w = Some (before, p, after) ->
    Q (last before, Some p) a) ->
  awp (find_winner fuel (last l1) (hd_error l2) (total_tickets (pcbs (base a)) l1) w) Q a.
Proof.
  intros Hw Hv. revert fuel l1. induction l2 as [|p l2 IH]; intros fuel l1 Hl Hf Hr HQ.
  { rewrite app_nil_r in Hr. lia. }
  destruct fuel as [|fuel]; [simpl in Hf; lia|]. simpl. awp_step.
  destruct (ready_queue_pcb a l1 p l2 Hw Hl) as (x & Hx & Ht).
  eapply awp_deref_queued; [done|exact Hl|done|]. simpl.
  assert (El : l1 ++ p :: l2 = (l1 ++ [p]) ++ l2) by by rewrite <- app_assoc.
  destruct (queue_total a (l1 ++ [p]) l2 Hw) as (_ & Hb & _); [by rewrite Hl|].
  pose proof (total_tickets_nonneg (pcbs (base a)) (l1 ++ [p])).
  assert (Es : total_tickets (pcbs (base a)) l1 + effective_tickets x
    = total_tickets (pcbs (base a)) (l1 ++ [p])) by (rewrite total_tickets_app; simpl; lia).
  change (effective_tickets (set_next_ready (hd_error l2) x)) with (effective_tickets x).
  rewrite Es, s64_id by lia. destruct (Z.ltb_spec w (total_tickets (pcbs (base a)) (l1 ++ [p]))).
  - apply awp_ret. apply (HQ l1 p l2). apply winner_at_unique. rewrite Ht. lia.
  - replace (Some p) with (last (l1 ++ [p])) by by rewrite last_snoc.
    apply IH; [by rewrite Hl|simpl in Hf; lia|rewrite <- El; lia|by rewrite <- El].
Qed.

Lemma awp_lottery_random Q a :
  let x := next_random (system_timer (base a) (timer_reads (base a))) (lottery_rng_state (base a)) in
  Q x (a_global (set_lottery_rng_state x) (a_global (set_timer_reads (S (timer_reads (base a)))) a)) ->
  awp lottery_random Q a.
Proof.
  intros x HQ. unfold lottery_random, mmio_read_timer. repeat awp_step. exact HQ.
Qed.
End Execution.

Section Select.
Implicit Types (a : astate) (p : pcb_ptr) (l : list pcb_ptr) (m : gmap pcb_ptr PCB).

Lemma total_tickets_ext m m' l :
  (forall p, p ∈ l -> tickets_of m p = tickets_of m' p) -> total_tickets m l = total_tickets m' l.
Proof.
  induction l as [|p l IH]; intros E; simpl; [done|].
  rewrite (E p) by by left. rewrite IH; [done|]. intros. apply E. by right.
Qed.

Lemma winner_at_ext m m' l w :
  (forall p, p ∈ l -> tickets_of m p = tickets_of m' p) -> winner_at m l w = winner_at m' l w.
Proof.
  revert w. induction l as [|p l IH]; intros w E; simpl; [done|].
  rewrite (E p) by by left. rewrite IH; [done|]. intros. apply E. by right.
Qed.

Lemma lottery_result_ext timer m m' fuel n x l :
  (forall p, p ∈ l -> tickets_of m p = tickets_of m' p /\ survives_at m p = survives_at m' p) ->
  lottery_result timer m fuel n x l = lottery_result timer m' fuel n x l.
Proof.
  revert n x l. induction fuel as [|fuel IH]; intros n x l E; [done|].
  destruct l as [|h l]; [done|]. unfold lottery_result; fold lottery_result.
  rewrite (total_tickets_ext m m'), (winner_at_ext m m') by (intros; by apply E).
  destruct (winner_at m' (h :: l) _) as [[[b p] a]|] eqn:W; [|done].
  apply winner_at_spec in W as [El _]. rewrite El in E.
  destruct (E p) as [_ ->]; [set_solver|]. rewrite IH; [done|].
  intros q Hq. apply E. set_solver.
Qed.

Lemma lottery_result_cons timer m fuel n x l before p after :
  l <> [] ->
  winner_at m l (next_random (timer n) x `mod` total_tickets m l) = Some (before, p, after) ->
  lottery_result timer m (S fuel) n x l =
    if survives_at m p then Some p
    else lottery_result timer m fuel (S n) (next_random (timer n) x) (before ++ after).
Proof. intros Hl W. destruct l as [|h l]; [done|]. unfold lottery_result; fold lottery_result. by rewrite W. Qed.

Lemma lottery_result_nil timer m fuel n x : lottery_result timer m fuel n x [] = None.
Proof. by destruct fuel. Qed.

Context {B : pcb_ptr -> PCB -> Prop}.

Lemma settled_global g a :
  settled B a ->
  processes (g (base a)) = processes (base a) -> pcbs (g (base a)) = pcbs (base a) ->
  queue_level (g (base a)) = queue_level (base a) -> ml_queues (g (base a)) = ml_queues (base a) ->
  active_algorithm (g (base a)) = active_algorithm (base a) ->
  current_process (g (base a)) = current_process (base a) ->
  settled B (a_global g a).
Proof.
  intros [Hw Hp Hr Hk] E1 E2 E3 E4 E5 E6. constructor; [by apply wf_global|..].
  - intros p x. unfold proc, a_pcb. simpl. rewrite E1, E2. apply Hp.
  - intros p x. unfold proc, a_pcb. simpl. rewrite E1, E2. apply Hr.
  - unfold keeps, proc, a_pcb. simpl. rewrite E1, E2. exact Hk.
Qed.

Lemma tickets_of_signals m p q :
  tickets_of (alter after_signals q m) p = tickets_of m p.
Proof.
  unfold tickets_of. destruct (decide (p = q)) as [->|Hne]; [|by rewrite lookup_alter_ne].
  rewrite lookup_alter_eq. destruct (m !! q) as [x|]; [|done]. simpl.
  unfold effective_tickets. by destruct (after_signals_keeps x) as (_ & _ & _ & _ & -> & _).
Qed.

(** The winner leaves the queue and handles its signals; without it, the rest
    goes on. *)
Lemma awp_take_winner before p after (k : K (option pcb_ptr)) Q a :
  settled B a -> valid_queue a RQ -> lists a RQ = before ++ p :: after ->
  (survives_at (pcbs (base a)) p = true -> transit B p (a_take RQ before p after a) -> Q (Some p) (a_take RQ before p after a)) ->
  (survives_at (pcbs (base a)) p = false -> settled B (a_take RQ before p after a) -> awp k Q (a_take RQ before p after a)) ->
  awp (c ← non_null (Some p);
       remove_process_from RQ (last before) c;;
       handle_process_signals c;;
       x ← deref c;
       if state x =? PROCESS_READY then mret (Some c) else k) Q a.
Proof.
  intros Hs Hv El Hyes Hno. pose proof (settled_wf _ _ Hs) as Hw. pose proof (settled_take a RQ before p after Hs El) as Htake.
  destruct (wf_ready _ _ Hw RQ p) as (y & Hy & Hsy); [rewrite El; set_solver|].
  awp_step. apply (awp_defined _ p); [done|]. awp_step. apply (awp_remove RQ before p after); [done|done|].
  awp_step. apply (awp_signals_ready p y); [by apply (proc_pcb a)|done|]. awp_step.
  apply (awp_deref p (after_signals y)); [|intros nx].
  { rewrite a_pcb_update_eq. transitivity (after_signals <$> a_pcb a p); [done|]. by rewrite (proc_pcb _ _ _ Hy). }
  simpl. rewrite (survives_spec _ Hsy). rewrite (survives_at_pcb a p y) in * by by apply (proc_pcb a).
  destruct (survives y); [apply awp_ret; by apply Hyes|by apply Hno].
Qed.

(** The state after a random number has been drawn. *)
Definition drawn (x : Z) (a : astate) : astate :=
  a_global (set_lottery_rng_state x) (a_global (set_timer_reads (S (timer_reads (base a)))) a).

Lemma settled_drawn x a : settled B a -> settled B (drawn x a).
Proof. intros Hs. apply settled_global; try done. by apply settled_global. Qed.

(** What the lottery returns. *)
Definition lottery_post (a : astate) (Q : option pcb_ptr -> astate -> Prop) : Prop := forall r a',
  r = lottery_result (system_timer (base a)) (pcbs (base a)) (length (lists a RQ))
        (timer_reads (base a)) (lottery_rng_state (base a)) (lists a RQ) ->
  match r with None => settled B a' /\ lists a' RQ = [] | Some p => transit B p a' end -> Q r a'.

(** Without a winner that did not survive, the lottery is held among the others. *)
Lemma lottery_post_next a x before p after Q :
  NoDup (lists a RQ) -> lists a RQ = before ++ p :: after -> x = next_random (system_timer (base a) (timer_reads (base a))) (lottery_rng_state (base a)) ->
  winner_at (pcbs (base a)) (lists a RQ) (x `mod` total_tickets (pcbs (base a)) (lists a RQ)) = Some (before, p, after) ->
  survives_at (pcbs (base a)) p = false ->
  lottery_post a Q -> lottery_post (a_take RQ before p after (drawn x a)) Q.
Proof.
  intros Hnd El -> Hwin Hsv HQ r a' Hr HR. apply HQ; [|done]. rewrite Hr.
  assert (Hne : lists a RQ <> []) by (rewrite El; by destruct before).
  assert (Hlen : length (lists a RQ) = S (length (before ++ after))) by (rewrite El, !length_app; simpl; lia).
  rewrite Hlen, (lottery_result_cons _ _ _ _ _ _ before p after Hne Hwin), Hsv.
  simpl. rewrite ?decide_True by done. apply lottery_result_ext. intros q Hq. split; [by rewrite tickets_of_signals|].
  unfold survives_at. simpl. rewrite lookup_alter_ne; [done|].
  rewrite El, <- Permutation_middle in Hnd. apply NoDup_cons in Hnd as [Hnp _]. by intros ->.
Qed.

Lemma awp_lottery_select fuel Q a :
  settled B a -> home_queue (active_algorithm (base a)) RQ -> (length (lists a RQ) < fuel)%nat ->
  lottery_post a Q -> awp (lottery_select fuel) Q a.
Proof.
  revert a. induction fuel as [|fuel IH]; intros a Hs Hh Hf HQ; [lia|].
  pose proof (settled_wf _ _ Hs) as Hw. assert (Hv : valid_queue a RQ) by by eapply wf_valid_home.
  simpl. apply awp_bind, awp_get_queue; [done|]. simpl. awp_step.
  apply (awp_count_tickets loop_fuel [] (lists a RQ)); [done|done|done| |].
  { unfold loop_fuel. pose proof (queue_length None a RQ Hw). lia. }
  simpl. destruct (total_tickets _ _ =? 0) eqn:Et.
  { apply total_tickets_zero in Et. apply awp_ret, HQ; [by rewrite Et|done]. }
  awp_step. apply awp_lottery_random. cbv zeta. set (x := next_random _ _). fold (drawn x a).
  pose proof (settled_drawn x a Hs) as Hs1.
  pose proof (settled_wf _ _ Hs1) as Hw1. assert (Hv1 : valid_queue (drawn x a) RQ) by by eapply wf_valid_home.
  apply awp_bind, awp_get_queue; [done|]. simpl. awp_step.
  set (total := total_tickets (pcbs (base a)) (lists a RQ)) in *.
  destruct (queue_total a [] (lists a RQ) Hw) as (_ & _ & Ht40); [done|]. simpl app in Ht40. fold total in Ht40.
  pose proof (total_tickets_nonneg (pcbs (base a)) (lists a RQ)) as Ht0. fold total in Ht0.
  apply Z.eqb_neq in Et. pose proof (Z.mod_pos_bound x total ltac:(lia)) as Hm. rewrite (u64_id total), s64_id by lia.
  apply (awp_find_winner loop_fuel [] (lists a RQ)); [done|done|done| | |].
  { unfold loop_fuel. pose proof (queue_length None a RQ Hw). lia. }
  { simpl. fold total. lia. }
  intros before p after Hwin. simpl app in Hwin. change (pcbs (base (drawn x a))) with (pcbs (base a)) in Hwin.
  pose proof (winner_at_spec _ _ _ _ _ _ Hwin) as (El & _ & _).
  assert (Hlen : length (lists a RQ) = S (length (before ++ after))) by (rewrite El, !length_app; simpl; lia).
  apply (awp_take_winner before p after); [done|done|done| |]; intros Hsv Ht;
    change (pcbs (base (drawn x a))) with (pcbs (base a)) in Hsv.
  - apply HQ; [|exact Ht]. rewrite Hlen. erewrite lottery_result_cons; [by rewrite Hsv|rewrite El; by destruct before|exact Hwin].
  - apply IH; [exact Ht|done|simpl; lia|]. apply lottery_post_next; try done. by apply (wf_nodup _ _ Hw).
Qed.
End Select.

Section Outcome.
Implicit Types (a : astate) (p : pcb_ptr) (l : list pcb_ptr) (m : gmap pcb_ptr PCB).

Lemma winner_at_draw m l x :
  l <> [] -> exists before p after,
    winner_at m l (x `mod` total_tickets m l) = Some (before, p, after) /\ l = before ++ p :: after.
Proof.
  intros Hl. pose proof (total_tickets_nonneg m l) as Ht.
  destruct (total_tickets m l =? 0) eqn:E; [by apply total_tickets_zero in E|]. apply Z.eqb_neq in E.
  destruct (winner_at_total m l (x `mod` total_tickets m l)) as [[[b p] a] W].
  { apply Z.mod_pos_bound. lia. }
  exists b, p, a. split; [done|]. by apply winner_at_spec in W as [-> _].
Qed.

(** The draws end with a process that survives, if there is one. *)
Lemma lottery_result_spec timer m fuel n x l :
  (length l <= fuel)%nat ->
  match lottery_result timer m fuel n x l with
  | Some p => p ∈ l /\ survives_at m p = true
  | None => Forall (fun p => survives_at m p = false) l
  end.
Proof.
  revert n x l. induction fuel as [|fuel IH]; intros n x l Hf.
  { destruct l; [by constructor|simpl in Hf; lia]. }
  destruct (decide (l = [])) as [->|Hl]; [by constructor|].
  destruct (winner_at_draw m l (next_random (timer n) x) Hl) as (b & p & a & W & El).
  rewrite (lottery_result_cons timer m fuel n x l b p a Hl W).
  destruct (survives_at m p) eqn:Hp; [split; [rewrite El; set_solver|done]|].
  specialize (IH (S n) (next_random (timer n) x) (b ++ a)).
  rewrite El, length_app in Hf. rewrite length_app in IH. simpl in Hf. specialize (IH ltac:(lia)).
  destruct (lottery_result _ _ _ _ _ _) as [q|].
  - destruct IH as [Hq ?]. split; [rewrite El; set_solver|done].
  - rewrite El. apply Forall_app in IH as [? ?]. apply Forall_app. split; [done|by constructor].
Qed.

Lemma awp_lottery a :
  inv a -> single_queue a ->
  awp _schedule_lottery (fun _ a' => inv a' /\ keeps (proc a) a' /\
    let l := lists a RQ ++ outgoing a in
    match lottery_result (system_timer (base a)) (pcbs (base a)) (length l)
            (timer_reads (base a)) (lottery_rng_state (base a)) l with
    | Some p => runs a' p (fun c => c = 10)
    | None => runs a' init_process (fun _ => True) /\ lists a' RQ = []
    end) a.
Proof.
  intros Hinv Hsq. assert (Hh := single_queue_home a Hsq). unfold _schedule_lottery.
  apply awp_enter; [done|intros Hw Hp Hk].
  apply (awp_put_back (B:=proc a) _ (a_enqueue RQ)); [done|done|exact Hk|by eapply requeues_fifo|intros Hs].
  assert (Hfr : frame a (a_requeue (a_enqueue RQ) (a_enter a))).
  { apply frame_requeue. intros. apply frame_enqueue. }
  apply awp_bind; eapply awp_lottery_select; [exact Hs|by rewrite (frame_algorithm _ _ Hfr)| |].
  { unfold loop_fuel. pose proof (queue_length None _ RQ (settled_wf _ _ Hs)). lia. }
  intros r a' Hr HR. rewrite lists_requeue_fifo in Hr.
  assert (Hb : base (a_requeue (a_enqueue RQ) (a_enter a)) =
    set_pcbs (pcbs (base (a_requeue (a_enqueue RQ) (a_enter a)))) (base a)) by apply Hfr.
  rewrite Hb in Hr. simpl in Hr.
  rewrite (lottery_result_ext _ _ (pcbs (base a))) in Hr.
  2: { intros p _. split; [|by apply frame_survives].
    pose proof (frame_pcb _ _ Hfr p) as E. unfold tickets_of, a_pcb in *.
    destruct (pcbs (base a) !! p) as [x|], (pcbs (base (a_requeue _ _)) !! p) as [y|]; simpl in *; try done.
    change (effective_tickets y) with (effective_tickets (visible y)).
    assert (visible y = visible x) as -> by congruence. done. }
  cbv zeta. rewrite <- Hr. destruct r as [p|]; awp_step.
  - destruct (transit_proc _ _ _ HR) as [x Hx].
    assert (Ht' := transit_update _ p (set_counter 10) _ HR (transit_proc _ _ _ HR)
      (set_counter_inert 10 ltac:(lia)) ltac:(done) ltac:(done)).
    eapply awp_set_slice; [done|done|]. split; [by eapply inv_finish|]. split; [by apply keeps_finish|].
    eapply runs_finish; [by apply proc_update_eq|done].
  - destruct HR as [Hs' Hl]. pose proof (transit_init _ Hs') as Ht. awp_step. eapply awp_finish; [done|].
    split; [by eapply inv_finish|]. split; [by apply keeps_finish|]. destruct (transit_proc _ _ _ Ht) as [x Hx].
    split; [by eapply runs_finish|by rewrite lists_finish].
Qed.
End Outcome.
