(* ===== verification/Aging.v ===== *)
(** * Priority scheduling with aging

    [_schedule_priority_aging] of [libs/scheduler.c]: the walk over the ready
    queue that drops blocked processes and remembers the largest residual
    counter with its predecessor, the recharge at the end of an epoch, and the
    proof that a bounded number of epochs always produces a process to run. *)

From S2P Require Import Prelude Exec Kernel Queue QueueLogic Sched SchedInv SchedSteps Dispatch Algorithms Lottery.

(** ** The walk *)

(** [best] is the first process of [l] with the largest counter above zero,
    and [best_previous] the one before it. *)
Definition is_best (cnt : pcb_ptr -> Z) (l : list pcb_ptr) (best best_previous : option pcb_ptr)
    (max : Z) : Prop :=
  match best with
  | None => max = 0 /\ forall q, q ∈ l -> cnt q <= 0
  | Some p => exists before after, l = before ++ p :: after /\ best_previous = last before /\
      max = cnt p /\ 0 < max /\ (forall q, q ∈ l -> cnt q <= max) /\
      (forall q, q ∈ before -> cnt q < max)
  end.

(** The processes of [l] that survive their signals. *)
Definition survivors (m : gmap pcb_ptr PCB) (l : list pcb_ptr) : list pcb_ptr :=
  filter (fun p => survives_at m p = true) l.

Section Walk.
Implicit Types (a : astate) (p : pcb_ptr) (l : list pcb_ptr).

Lemma is_best_snoc cnt l p best best_previous max :
  is_best cnt l best best_previous max ->
  if max <? cnt p then is_best cnt (l ++ [p]) (Some p) (last l) (cnt p)
  else is_best cnt (l ++ [p]) best best_previous max.
Proof.
  intros Hb. assert (Hmax : 0 <= max /\ forall q, q ∈ l -> cnt q <= max).
  { destruct best as [q|]; [destruct Hb as (? & ? & _ & _ & _ & ? & ? & _); split; [lia|done]|].
    destruct Hb as [-> ?]. done. }
  destruct Hmax as [H0 Hall]. destruct (Z.ltb_spec max (cnt p)).
  - exists l, []. repeat split; try done; [lia| |].
    + intros q [Hq|Hq]%elem_of_app; [specialize (Hall q Hq); lia|].
      apply list_elem_of_singleton in Hq as ->. lia.
    + intros q Hq. specialize (Hall q Hq). lia.
  - destruct best as [q|].
    + destruct Hb as (b & c & -> & -> & Hm & Hp & Hl & Hf). exists b, (c ++ [p]).
      rewrite <- app_assoc. repeat split; try done.
      intros r [Hr|Hr]%elem_of_app; [apply Hl; set_solver|].
      apply elem_of_cons in Hr as [->|Hr]; [apply Hl; set_solver|].
      apply elem_of_app in Hr as [Hr|Hr]; [apply Hl; set_solver|].
      by apply list_elem_of_singleton in Hr as ->.
    + destruct Hb as [-> Hl]. split; [done|].
      intros r [Hr|Hr]%elem_of_app; [by apply Hl|]. by apply list_elem_of_singleton in Hr as ->.
Qed.

Lemma survivors_ext m m' l :
  (forall p, p ∈ l -> survives_at m p = survives_at m' p) -> survivors m l = survivors m' l.
Proof.
  unfold survivors. induction l as [|p l IH]; intros E; [done|].
  rewrite !filter_cons, IH by (intros; apply E; by right). by rewrite (E p) by left.
Qed.

Lemma survivors_cons m p l :
  survivors m (p :: l) = if survives_at m p then p :: survivors m l else survivors m l.
Proof. unfold survivors. rewrite filter_cons. by destruct (survives_at m p). Qed.

Lemma survivors_all m l : (forall p, p ∈ l -> survives_at m p = true) -> survivors m l = l.
Proof.
  induction l as [|p l IH]; intros Hl; [done|]. rewrite survivors_cons, (Hl p) by by left.
  f_equal. apply IH. intros q Hq. apply Hl. by right.
Qed.

Lemma elem_of_survivors m p l : p ∈ survivors m l <-> p ∈ l /\ survives_at m p = true.
Proof. unfold survivors. rewrite list_elem_of_filter. tauto. Qed.

Context {B : pcb_ptr -> PCB -> Prop}.

(** Handling the signals of a survivor in place. *)
Lemma settled_survivor a p x :
  settled B a -> proc a p x -> state x = PROCESS_READY -> survives x = true ->
  settled B (a_update p after_signals a).
Proof.
  intros [Hw Hp Hr Hk] Hx Hs Hsv. destruct (after_signals_keeps x) as (Hpid & Hok & Hpd & _).
  pose proof (survives_spec x Hs) as Hst. rewrite Hsv in Hst. apply Z.eqb_eq in Hst.
  constructor.
  - apply (wf_update None None a p _ x); try done; [by apply Hok, (wf_params _ _ Hw p)| |by rewrite Hst].
    intros _ Hi _. by apply (wf_queued _ _ Hw p x).
  - apply all_preempt_update; [done|]. intros y Hy. rewrite (proc_fun _ _ _ _ Hy (proc_pcb _ _ _ Hx)).
    unfold preempt_ok. rewrite Hpd. by eapply Hp.
  - apply no_running_update; [done|]. intros y Hy.
    rewrite (proc_fun _ _ _ _ Hy (proc_pcb _ _ _ Hx)), Hst. done.
  - apply keeps_update; [done|]. intros y Hy. rewrite (proc_fun _ _ _ _ Hy (proc_pcb _ _ _ Hx)). auto.
Qed.

(** What the walk over [rest] leaves, the queue being [kept ++ rest]. *)
Definition walked (cnt : pcb_ptr -> Z) (kept rest : list pcb_ptr) (Q : option pcb_ptr * option pcb_ptr -> astate -> Prop) (a : astate) : Prop :=
  forall best best_previous max a',
    settled B a' -> base a' = set_pcbs (pcbs (base a')) (base a) ->
    lists a' RQ = kept ++ survivors (pcbs (base a)) rest ->
    (forall p, p ∉ rest -> a_pcb a' p = a_pcb a p) ->
    (forall p, p ∈ rest -> a_pcb a' p = after_signals <$> a_pcb a p) ->
    is_best cnt (lists a' RQ) best best_previous max -> Q (best, best_previous) a'.

Lemma survives_at_update a p q : q <> p ->
  survives_at (pcbs (base (a_update p after_signals a))) q = survives_at (pcbs (base a)) q.
Proof. intros Hq. unfold survives_at. simpl. by rewrite lookup_alter_ne. Qed.

(** The first process of the walk is a survivor. *)
Lemma walked_survivor cnt kept p rest Q a x :
  a_pcb a p = Some x -> survives x = true -> p ∉ rest ->
  walked cnt kept (p :: rest) Q a -> walked cnt (kept ++ [p]) rest Q (a_update p after_signals a).
Proof.
  intros Hx Esv Hnp HQ best bp max a' Hs' Hbase Hla Hout Hin Hbest. apply (HQ best bp max); try done.
  - rewrite Hla, <- app_assoc, survivors_cons, (survives_at_pcb a p x), Esv by done.
    rewrite (survivors_ext _ (pcbs (base a))); [done|]. intros q Hq. apply survives_at_update. by intros ->.
  - intros q Hq. apply not_elem_of_cons in Hq as [Hqp Hq]. rewrite Hout by done. by rewrite a_pcb_update_ne.
  - intros q Hq. destruct (decide (q = p)) as [->|Hqp].
    + rewrite Hout by done. by rewrite a_pcb_update_eq.
    + apply elem_of_cons in Hq as [?|Hq]; [done|]. rewrite Hin by done. by rewrite a_pcb_update_ne.
Qed.

(** A signal took it. *)
Lemma walked_gone cnt kept p rest Q a x :
  a_pcb a p = Some x -> survives x = false -> p ∉ rest ->
  walked cnt kept (p :: rest) Q a -> walked cnt kept rest Q (a_set_list RQ (kept ++ rest) (a_update p after_signals a)).
Proof.
  intros Hx Esv Hnp HQ best bp max a' Hs' Hbase Hla Hout Hin Hbest. apply (HQ best bp max); try done.
  - rewrite Hla, survivors_cons, (survives_at_pcb a p x), Esv by done.
    rewrite <- (survivors_ext (pcbs (base (a_update p after_signals a))) (pcbs (base a)) rest); [done|].
    intros q Hq. apply survives_at_update. by intros ->.
  - intros q Hq. apply not_elem_of_cons in Hq as [Hqp Hq]. rewrite Hout by done. by apply (a_pcb_update_ne a).
  - intros q Hq. destruct (decide (q = p)) as [->|Hqp].
    + rewrite Hout by done. apply (a_pcb_update_eq a).
    + apply elem_of_cons in Hq as [?|Hq]; [done|]. rewrite Hin by done. f_equal. by apply (a_pcb_update_ne a).
Qed.

Lemma awp_aging_walk fuel cnt kept rest best best_previous max Q a :
  settled B a -> home_queue (active_algorithm (base a)) RQ -> lists a RQ = kept ++ rest ->
  (length rest < fuel)%nat ->
  (forall p x, p ∈ rest -> a_pcb a p = Some x -> counter x = cnt p) ->
  is_best cnt kept best best_previous max -> walked cnt kept rest Q a ->
  awp (aging_walk fuel (hd_error rest) (last kept) best best_previous max) Q a.
Proof.
  revert kept rest best best_previous max a.
  induction fuel as [|fuel IH]; intros kept rest best bp max a Hs Hh Hl Hf Hc Hb HQ; [lia|].
  destruct rest as [|p rest].
  { apply awp_ret. apply (HQ best bp max); try done; [by destruct (base a)|set_solver|].
    rewrite Hl. by rewrite app_nil_r. }
  pose proof (settled_wf _ _ Hs) as Hw. assert (Hv : valid_queue a RQ) by by eapply wf_valid_home.
  destruct (wf_ready _ _ Hw RQ p) as (x & Hx & Hst); [rewrite Hl; set_solver|].
  pose proof (proc_pcb _ _ _ Hx) as Hxp.
  assert (Hnp : p ∉ rest).
  { pose proof (wf_nodup _ _ Hw RQ) as Hnd. rewrite Hl in Hnd. apply NoDup_app in Hnd as (_ & _ & Hnd).
    by apply NoDup_cons in Hnd as [? _]. }
  assert (Hc' : forall q y, q ∈ rest -> a_pcb (a_update p after_signals a) q = Some y -> counter y = cnt q).
  { intros q y Hq. rewrite a_pcb_update_ne by by intros ->. apply Hc. by right. }
  simpl in Hf. simpl. awp_step. eapply awp_deref_queued; [done|exact Hl|done|]. awp_step.
  apply (awp_signals_ready p x); [done|done|]. awp_step.
  apply (awp_deref p (after_signals x)); [by rewrite a_pcb_update_eq, Hxp|intros nx]. simpl.
  rewrite (survives_spec _ Hst).
  assert (Hcx : counter (after_signals x) = cnt p).
  { destruct (after_signals_keeps x) as (_ & _ & _ & -> & _). apply Hc; [by left|done]. }
  destruct (survives x) eqn:Esv; simpl.
  - pose proof (settled_survivor _ _ _ Hs Hx Hst Esv) as Hs1.
    assert (Hgo : forall best bp max, is_best cnt (kept ++ [p]) best bp max ->
      awp (aging_walk fuel (hd_error rest) (Some p) best bp max) Q (a_update p after_signals a)).
    { intros best' bp' max' Hb'. replace (Some p) with (last (kept ++ [p])) by by rewrite last_snoc.
      apply (IH (kept ++ [p]) rest); try done; [simpl; by rewrite Hl, <- app_assoc|lia|by eapply walked_survivor]. }
    pose proof (is_best_snoc cnt kept p best bp max Hb) as Hb'. rewrite Hcx. destruct (max <? cnt p); by apply Hgo.
  - awp_step. apply (awp_remove RQ kept p rest); [done|done|].
    pose proof (settled_take a RQ kept p rest Hs Hl) as Ht.
    rewrite (survives_at_pcb a p x), Esv in Ht by done. unfold a_take in Ht.
    apply (IH kept rest); try done; [lia|by eapply walked_gone].
Qed.
End Walk.

(** ** Epochs *)

(** The counter of [p] after [k] recharges. *)
Definition epoch_counter (m : gmap pcb_ptr PCB) (k : nat) (p : pcb_ptr) : Z :=
  from_option (fun x => counter (Nat.iter k recharge x)) 0 (m !! p).

(** [p] is the first process of [l] with the largest positive counter. *)
Definition first_max (cnt : pcb_ptr -> Z) (l : list pcb_ptr) (p : pcb_ptr) : Prop :=
  exists before after, l = before ++ p :: after /\ 0 < cnt p /\
    (forall q, q ∈ l -> cnt q <= cnt p) /\ (forall q, q ∈ before -> cnt q < cnt p).

(** The selection: [k] epochs pass before a process has time left. *)
Definition ages (m : gmap pcb_ptr PCB) (l : list pcb_ptr) (r : option pcb_ptr) : Prop :=
  match r with
  | None => survivors m l = []
  | Some p => exists k,
      (forall j q, (j < k)%nat -> q ∈ survivors m l -> epoch_counter m j q <= 0) /\
      first_max (epoch_counter m k) (survivors m l) p
  end.

Section Epochs.
Implicit Types (a : astate) (p : pcb_ptr) (l : list pcb_ptr) (x y : PCB).

Lemma iter_recharge_priority k x : priority (Nat.iter k recharge x) = priority x.
Proof. induction k as [|k IH]; [done|]. exact IH. Qed.

Lemma iter_recharge_counter k x y :
  counter x = counter y -> priority x = priority y ->
  counter (Nat.iter k recharge x) = counter (Nat.iter k recharge y).
Proof.
  intros Hc Hp. induction k as [|k IH]; [done|]. simpl.
  by rewrite IH, !iter_recharge_priority, Hp.
Qed.

Lemma recharge_counter x :
  params_ok x -> counter (recharge x) = counter x / 2 + priority x /\ params_ok (recharge x).
Proof.
  intros [Hp Ht Hc]. unfold recharge. simpl. change (Z.shiftr (counter x) 1) with (Z.div2 (counter x)).
  rewrite Z.div2_div. pose proof (Z_div_mod_eq_full (counter x) 2). pose proof (Z.mod_pos_bound (counter x) 2).
  rewrite s64_id by lia. split; [done|]. constructor; simpl; lia.
Qed.

Lemma recharge_inert : inert recharge.
Proof. intros x. split; [done|]. split; [done|]. intros Hx. by apply recharge_counter. Qed.

Context {B : pcb_ptr -> PCB -> Prop}.

(** Who is recharged: every process of the table, once. *)
Lemma awp_recharge_all Q a :
  settled B a ->
  (forall a', settled B a' -> base a' = set_pcbs (pcbs (base a')) (base a) ->
    (forall q, lists a' q = lists a q) ->
    (forall p x, proc a p x -> a_pcb a' p = Some (recharge x)) -> Q tt a') ->
  awp recharge_all Q a.
Proof.
  intros Hs HQ. unfold recharge_all.
  apply (awp_for_loop (fun i a' => settled B a' /\ base a' = set_pcbs (pcbs (base a')) (base a) /\
    (forall q, lists a' q = lists a q) /\
    (forall p x, proc a p x -> a_pcb a' p = Some (if pid x <? i then recharge x else x)))).
  - split; [done|]. split; [by destruct (base a)|]. split; [done|]. intros p x Hx.
    destruct (wf_pid _ _ _ _ (settled_wf _ _ Hs) Hx) as [Hr _].
    destruct (Z.ltb_spec (pid x) 0); [lia|]. by apply proc_pcb.
  - intros i a1 Hi (Hs1 & Hb1 & Hl1 & Hp1).
    assert (Hproc : processes (base a1) = processes (base a)) by by rewrite Hb1.
    destruct (lookup_lt_is_Some_2 (processes (base a)) (Z.to_nat i)) as [o Ho].
    { rewrite (wf_len_processes _ _ (settled_wf _ _ Hs)). lia. }
    awp_step. eapply awp_read_array; [done|rewrite Hproc; apply array_get_Some; split; [lia|exact Ho]|].
    assert (Hpid : forall p x, proc a p x -> pid x = i -> o = Some p).
    { intros p x Hx <-. destruct (wf_pid _ _ _ _ (settled_wf _ _ Hs) Hx) as [_ E]. congruence. }
    destruct o as [p|]; simpl.
    + destruct (wf_table _ _ (settled_wf _ _ Hs) _ _ Ho) as (x & Hx & Hxp).
      assert (Hpx : proc a p x) by (split; [done|by eapply list_elem_of_lookup_2]).
      assert (Epid : pid x = i) by lia. pose proof (Hp1 _ _ Hpx) as Hx1.
      rewrite Epid, Z.ltb_irrefl in Hx1.
      apply awp_update; [apply _|by rewrite Hx1|]. split; [|split; [|split]].
      * apply settled_inert; [done| |apply recharge_inert|done|done].
        exists x. split; [done|]. rewrite Hproc. by destruct Hpx.
      * simpl. by rewrite Hb1.
      * intros q. by rewrite <- Hl1.
      * intros p' x' Hx'. destruct (decide (p' = p)) as [->|Hne].
        -- pose proof (proc_fun _ _ _ _ Hx' Hx) as ->. rewrite a_pcb_update_eq, Hx1. simpl.
           destruct (Z.ltb_spec (pid x) (i + 1)); [done|lia].
        -- rewrite a_pcb_update_ne, (Hp1 _ _ Hx') by done. do 2 f_equal.
           assert (pid x' <> i) by (intros E; specialize (Hpid _ _ Hx' E); congruence).
           destruct (Z.ltb_spec (pid x') i), (Z.ltb_spec (pid x') (i + 1)); done || lia.
    + apply awp_ret. split; [done|]. split; [done|]. split; [done|].
      intros p x Hx. rewrite (Hp1 _ _ Hx). do 2 f_equal.
      assert (pid x <> i) by (intros E; specialize (Hpid _ _ Hx E); congruence).
      destruct (Z.ltb_spec (pid x) i), (Z.ltb_spec (pid x) (i + 1)); done || lia.
  - intros a' (Hs' & Hb' & Hl' & Hp'). apply HQ; try done. intros p x Hx.
    rewrite (Hp' _ _ Hx). destruct (wf_pid _ _ _ _ (settled_wf _ _ Hs) Hx) as [Hr _].
    destruct (Z.ltb_spec (pid x) (0 + Z.of_nat (Z.to_nat N_PROCESSES))); [done|lia].
Qed.
End Epochs.

(** ** The selection *)

Section Select.
Implicit Types (a : astate) (p : pcb_ptr) (l : list pcb_ptr) (x y : PCB).

Lemma survives_after_signals x : survives x = true -> survives (after_signals x) = true.
Proof.
  unfold survives. intros Hs. apply negb_true_iff, orb_false_iff in Hs as [Hk Hst].
  apply negb_true_iff, orb_false_iff. unfold after_signals. rewrite Hk, Hst.
  destruct (pending_signals x =? 0); [done|]. destruct (signal_pending x SIGNAL_RESUME); [|done].
  assert (Hc : forall n, signal_pending x n = false ->
    signal_pending (clear_signal SIGNAL_RESUME x) n = false).
  { intros n. unfold signal_pending, clear_signal. simpl. rewrite !negb_false_iff, !Z.eqb_eq.
    rewrite <- Z.land_assoc, (Z.land_comm (Z.lnot _)), Z.land_assoc. intros ->. apply Z.land_0_l. }
  auto.
Qed.

Lemma survives_recharge x : survives (recharge x) = survives x.
Proof. reflexivity. Qed.

(** One more epoch passed before the selection that follows. *)
Lemma ages_later m m' l r :
  survivors m' (survivors m l) = survivors m l ->
  (forall k q, q ∈ survivors m l -> epoch_counter m' k q = epoch_counter m (S k) q) ->
  (forall q, q ∈ survivors m l -> epoch_counter m 0 q <= 0) ->
  ages m' (survivors m l) r -> ages m l r.
Proof.
  intros Hs Hk H0. unfold ages. rewrite Hs. destruct r as [p|]; [|done].
  intros (k & Hlow & b & c & El & Hpos & Hmax & Hfirst). exists (S k). split.
  - intros [|j] q Hj Hq; [by apply H0|]. rewrite <- Hk by done. apply Hlow; [lia|done].
  - assert (Hp : p ∈ survivors m l) by (rewrite El; set_solver).
    exists b, c. split; [done|]. rewrite <- !Hk by done. split; [done|]. split.
    + intros q Hq. rewrite <- Hk by done. by apply Hmax.
    + intros q Hq. rewrite <- Hk; [by apply Hfirst|]. rewrite El. set_solver.
Qed.

(** How the state looks after a walk that found nobody and a recharge. *)
Lemma epoch_step m0 a1 x y p :
  m0 !! p = Some x -> y = after_signals x -> params_ok x ->
  a_pcb a1 p = Some (recharge y) ->
  survives_at (pcbs (base a1)) p = survives (after_signals x) /\
  forall k, epoch_counter (pcbs (base a1)) k p = epoch_counter m0 (S k) p.
Proof.
  intros Hx -> Hok Hp. split; [by rewrite (survives_at_pcb _ _ _ Hp)|].
  intros k. unfold epoch_counter. unfold a_pcb in Hp. rewrite Hx, Hp. unfold from_option.
  rewrite Nat.iter_succ_r. destruct (after_signals_keeps x) as (_ & _ & _ & Hc & _ & Hpr).
  apply iter_recharge_counter; simpl; by rewrite ?Hc, ?Hpr.
Qed.

Context {B : pcb_ptr -> PCB -> Prop}.

(** One turn of the selection loop. *)
Lemma awp_aging_turn f Q a :
  let m := pcbs (base a) in
  let l := survivors m (lists a RQ) in
  settled B a -> home_queue (active_algorithm (base a)) RQ ->
  (forall p a', first_max (epoch_counter m 0) l p -> transit B p a' -> Q (Some p) a') ->
  (forall a', l = [] -> settled B a' -> lists a' RQ = [] -> Q None a') ->
  (forall a', (exists p, p ∈ l) -> (forall q, q ∈ l -> epoch_counter m 0 q <= 0) ->
    settled B a' -> lists a' RQ = l -> base a' = set_pcbs (pcbs (base a')) (base a) ->
    (forall p, p ∈ lists a RQ -> a_pcb a' p = after_signals <$> a_pcb a p) ->
    awp (recharge_all;; aging_select f) Q a') ->
  awp (aging_select (S f)) Q a.
Proof.
  intros m l Hs Hh Hsome Hnone Hepoch. pose proof (settled_wf _ _ Hs) as Hw.
  assert (Hv : valid_queue a RQ) by by eapply wf_valid_home.
  cbn [aging_select]. apply awp_bind, awp_get_queue; [done|]. cbn [q_head]. awp_step.
  apply (awp_aging_walk (B:=B) loop_fuel (epoch_counter m 0) [] (lists a RQ)); try done.
  { unfold loop_fuel. pose proof (queue_length None a RQ Hw). lia. }
  { intros p x _ Hx. unfold epoch_counter, m. unfold a_pcb in Hx. by rewrite Hx. }
  { split; [done|set_solver]. }
  intros best bp max a1 Hs1 Hb1 Hl1 _ Hin Hbest. simpl in Hl1. fold m l in Hl1.
  assert (Hv1 : valid_queue a1 RQ).
  { eapply wf_valid_home; [by eapply settled_wf|]. by rewrite Hb1. }
  destruct best as [p|].
  - destruct Hbest as (b & c & El & -> & -> & Hpos & Hmax & Hfirst).
    awp_step. apply (awp_remove RQ b p c); [done|exact El|]. apply awp_ret, Hsome.
    + rewrite Hl1 in El, Hmax. by exists b, c.
    + by apply transit_remove.
  - destruct Hbest as [_ Hle]. apply awp_bind, awp_get_queue; [done|]. simpl.
    rewrite Hl1 in *. destruct l as [|p l'] eqn:El; simpl.
    + apply awp_ret. by apply Hnone.
    + apply Hepoch; try done. exists p. by left.
Qed.

Lemma awp_aging_select n Q a :
  settled B a -> home_queue (active_algorithm (base a)) RQ ->
  (forall p, p ∈ lists a RQ -> 1 - epoch_counter (pcbs (base a)) 0 p < 2 ^ Z.of_nat n) ->
  (forall r a', ages (pcbs (base a)) (lists a RQ) r ->
    match r with None => settled B a' /\ lists a' RQ = [] | Some p => transit B p a' end -> Q r a') ->
  awp (aging_select (S n)) Q a.
Proof.
  revert a. induction n as [|n IH]; intros a Hs Hh Hbound HQ; apply awp_aging_turn; try done.
  - intros p a' Hf Ht. apply HQ; [|done]. exists 0%nat. split; [lia|done].
  - intros a' Hl Hs' Hl'. by apply HQ.
  - intros a' [p Hp] Hle _ _ _ _. specialize (Hle p Hp). apply elem_of_survivors in Hp as [Hp _].
    specialize (Hbound p Hp). simpl in Hbound. lia.
  - intros p a' Hf Ht. apply HQ; [|done]. exists 0%nat. split; [lia|done].
  - intros a' Hl Hs' Hl'. by apply HQ.
  - intros a1 _ Hle Hs1 Hl1 Hb1 Hp1. awp_step. eapply awp_recharge_all; [exact Hs1|].
    intros a2 Hs2 Hb2 Hl2 Hp2.
    assert (Hstep : forall p, p ∈ survivors (pcbs (base a)) (lists a RQ) ->
      exists x, pcbs (base a) !! p = Some x /\ params_ok x /\
        survives_at (pcbs (base a2)) p = true /\
        forall k, epoch_counter (pcbs (base a2)) k p = epoch_counter (pcbs (base a)) (S k) p).
    { intros p [Hp Hsv]%elem_of_survivors. destruct (wf_ready _ _ (settled_wf _ _ Hs) _ _ Hp) as (x & Hx & Hst).
      pose proof (proc_pcb _ _ _ Hx) as Hxp. rewrite (survives_at_pcb _ _ _ Hxp) in Hsv.
      exists x. split; [done|]. split; [by apply (wf_params _ _ (settled_wf _ _ Hs) p)|].
      assert (Hy : proc a1 p (after_signals x)).
      { split; [by rewrite Hp1, Hxp|]. rewrite Hb1. by destruct Hx. }
      destruct (epoch_step (pcbs (base a)) a2 x _ p Hxp eq_refl) as [E1 E2];
        [by apply (wf_params _ _ (settled_wf _ _ Hs) p)|by apply Hp2|].
      split; [|done]. by rewrite E1, survives_after_signals. }
    apply IH; [done|by rewrite Hb2, Hb1| |].
    + intros p Hp. rewrite Hl2, Hl1 in Hp. destruct (Hstep p Hp) as (x & Hx & Hok & _ & ->).
      specialize (Hle p Hp). apply elem_of_survivors in Hp as [Hp _]. specialize (Hbound p Hp).
      unfold epoch_counter in Hle, Hbound |- *. rewrite Hx in Hle, Hbound |- *.
      cbn [from_option Nat.iter nat_rect] in Hle, Hbound |- *.
      destruct (recharge_counter x Hok) as [-> _]. destruct Hok as [Hpr _ _].
      rewrite Nat2Z.inj_succ, Z.pow_succ_r in Hbound by lia.
      pose proof (Z_div_mod_eq_full (counter x) 2). pose proof (Z.mod_pos_bound (counter x) 2). lia.
    + intros r a' Hr HR. rewrite Hl2, Hl1 in Hr. apply HQ; [|done].
      eapply ages_later; [..|exact Hr]; [| |done].
      * apply survivors_all. intros p Hp. by destruct (Hstep p Hp) as (x & _ & _ & ? & _).
      * intros k q Hq. by destruct (Hstep q Hq) as (x & _ & _ & _ & ->).
Qed.
End Select.

(** ** The algorithm *)

Section Schedule.
Implicit Types (a : astate) (p : pcb_ptr).

Lemma visible_epoch x y k : visible x = visible y -> counter (Nat.iter k recharge x) = counter (Nat.iter k recharge y).
Proof.
  intros E. apply iter_recharge_counter.
  - change (counter (visible x) = counter (visible y)). by rewrite E.
  - change (priority (visible x) = priority (visible y)). by rewrite E.
Qed.

Lemma frame_epoch a a' k p :
  frame a a' -> epoch_counter (pcbs (base a')) k p = epoch_counter (pcbs (base a)) k p.
Proof.
  intros Hf. pose proof (frame_pcb _ _ Hf p) as E. unfold epoch_counter, a_pcb in *.
  destruct (pcbs (base a) !! p) as [x|], (pcbs (base a') !! p) as [y|]; try done.
  cbn [fmap option_fmap option_map] in E. cbn [from_option]. apply visible_epoch. congruence.
Qed.

Lemma ages_ext m m' l r :
  (forall p, survives_at m p = survives_at m' p) ->
  (forall k p, epoch_counter m k p = epoch_counter m' k p) -> ages m l r -> ages m' l r.
Proof.
  intros Hs Hk. unfold ages. rewrite (survivors_ext m m') by auto. destruct r as [p|]; [|done].
  intros (k & Hlow & b & c & El & Hpos & Hmax & Hfirst). exists k.
  split; [intros; rewrite <- Hk; auto|]. exists b, c. rewrite <- Hk. split; [done|]. split; [done|].
  split; intros; rewrite <- Hk; auto.
Qed.

Lemma awp_priority_aging a :
  inv a -> single_queue a ->
  awp _schedule_priority_aging (fun _ a' => inv a' /\ keeps (proc a) a' /\ exists r,
    ages (pcbs (base a)) (lists a RQ ++ outgoing a) r /\
    runs a' (default init_process r) (fun _ => True) /\
    (r = None -> lists a' RQ = [])) a.
Proof.
  intros Hinv Hsq. assert (Hh := single_queue_home a Hsq). unfold _schedule_priority_aging.
  apply awp_enter; [done|intros Hw Hp Hk].
  apply (awp_put_back (B:=proc a) _ (a_enqueue RQ)); [done|done|exact Hk|by eapply requeues_fifo|intros Hs].
  assert (Hfr : frame a (a_requeue (a_enqueue RQ) (a_enter a))).
  { apply frame_requeue. intros. apply frame_enqueue. }
  apply awp_bind. unfold epoch_fuel. eapply (awp_aging_select 65); [exact Hs|by rewrite (frame_algorithm _ _ Hfr)| |].
  { intros p Hp'. destruct (wf_ready _ _ (settled_wf _ _ Hs) _ _ Hp') as (x & Hx & _).
    pose proof (wf_params _ _ (settled_wf _ _ Hs) _ _ Hx) as [_ _ Hc].
    unfold epoch_counter. pose proof (proc_pcb _ _ _ Hx) as E. unfold a_pcb in E. rewrite E. simpl.
    lia. }
  intros r a' Hr HR. rewrite lists_requeue_fifo in Hr.
  apply (ages_ext _ (pcbs (base a))) in Hr;
    [|intros; by apply frame_survives|intros; by apply frame_epoch].
  assert (Ht : transit (proc a) (default init_process r) a').
  { destruct r as [p|]; [done|]. by apply transit_init; destruct HR. }
  eapply awp_finish; [done|]. split; [by eapply inv_finish|]. split; [by apply keeps_finish|]. exists r. split; [done|].
  destruct (transit_proc _ _ _ Ht) as [x Hx]. split; [by eapply runs_finish|].
  intros ->. rewrite lists_finish. by destruct HR.
Qed.
End Schedule.
