(* ===== verification/Handlers.v ===== *)
(** * The entry points of the scheduler

    [_schedule], [schedule], the timer tick, process registration and exit:
    every one of them preserves the invariant [inv], whatever the active
    algorithm, and what they do besides is stated here. *)

From S2P Require Import Prelude Exec Kernel Queue QueueLogic Sched SchedInv SchedSteps Dispatch Algorithms Lottery Aging.

(** A scheduling decision was taken: the invariant holds again, blocked
    processes were left alone and the current process is marked RUNNING. *)
Definition dispatched (B : pcb_ptr -> PCB -> Prop) (a' : astate) : Prop :=
  inv a' /\ keeps B a' /\
  exists x, proc a' (current_process (base a')) x /\ state x = PROCESS_RUNNING.

Section Dispatcher.
Implicit Types (a : astate) (p : pcb_ptr).

Lemma runs_running a p P : runs a p P -> exists x, proc a (current_process (base a)) x /\ state x = PROCESS_RUNNING.
Proof. intros (-> & x & ? & ? & _). by exists x. Qed.

Lemma serves_running m q l P a :
  serves m q l P a -> exists x, proc a (current_process (base a)) x /\ state x = PROCESS_RUNNING.
Proof.
  unfold serves. destruct (first_survivor m l) as [[[d p] r]|]; intros (Hr & _); by eapply runs_running.
Qed.

Lemma cascades_running a pol a' :
  cascades a pol a' -> exists x, proc a' (current_process (base a')) x /\ state x = PROCESS_RUNNING.
Proof.
  intros [[Hr _]|(t & d & p & r & c & _ & _ & _ & _ & _ & _ & Hr)]; by eapply runs_running.
Qed.

Lemma awp__schedule a : inv a -> awp _schedule (fun _ => dispatched (proc a)) a.
Proof.
  intros Hinv. pose proof (wf_alg _ _ (inv_wf _ Hinv)) as Ha. unfold _schedule. awp_step. awp_step.
  assert (Hsq : ml_policy (active_algorithm (base a)) = None -> home_queue (active_algorithm (base a)) RQ)
    by apply single_queue_home.
  unfold algorithms in Ha. unfold dispatched. destruct (inv_enter a Hinv) as [Hw _].
  repeat (apply elem_of_cons in Ha as [Ha|Ha]); [..|by apply elem_of_nil in Ha]; rewrite Ha; simpl.
  - eapply awp_mono; [apply awp_round_robin; [done|by unfold single_queue; rewrite Ha]|].
    intros _ a' [(? & ? & ?) _]. eauto using serves_running.
  - eapply awp_mono; [eapply (awp_queue_head (a_enqueue RQ)); [done|by unfold single_queue; rewrite Ha|..]|].
    + rewrite Ha. eapply requeues_fifo; [done|]. simpl. by rewrite Ha.
    + intros. apply frame_enqueue.
    + intros _ a' (? & ? & ?). eauto using serves_running.
  - eapply awp_mono; [eapply (awp_queue_head (a_enqueue_sorted RQ)); [done|by unfold single_queue; rewrite Ha|..]|].
    + rewrite Ha. eapply requeues_sjf; [done|]. simpl. by rewrite Ha.
    + intros. apply frame_enqueue_sorted.
    + intros _ a' (? & ? & ?). eauto using serves_running.
  - eapply awp_mono; [apply awp_lottery; [done|by unfold single_queue; rewrite Ha]|].
    intros _ a' (? & ? & Hr). split; [done|]. split; [done|]. cbv zeta in Hr.
    destruct (lottery_result _ _ _ _ _ _); [|destruct Hr as [Hr _]]; by eapply runs_running.
  - eapply awp_mono; [apply awp_priority_aging; [done|by unfold single_queue; rewrite Ha]|].
    intros _ a' (? & ? & r & _ & Hr & _). split; [done|]. split; [done|]. by eapply runs_running.
  - eapply awp_mono; [eapply awp_multilevel; [done|by rewrite Ha]|].
    intros _ a' (? & ? & ?). eauto using cascades_running.
  - eapply awp_mono; [eapply awp_multilevel; [done|by rewrite Ha]|].
    intros _ a' (? & ? & ?). eauto using cascades_running.
Qed.

(** Updates the whole invariant does not see. *)
Lemma inv_inert a p f :
  inv a -> (exists x, proc a p x) -> inert f ->
  (forall x, preempt_disabled (f x) = preempt_disabled x) -> inv (a_update p f a).
Proof.
  intros [Hw Hc Ho] Hp Hf Hd. constructor; [by apply wf_inert|..]; simpl.
  - intros x Hx. unfold preempt_ok. apply proc_update_inv in Hx as [[<- (y & Hy & ->)]|[_ Hy]].
    + rewrite Hd. by apply Hc.
    + by apply Hc.
  - intros p' x Hx Hne. unfold preempt_ok. apply proc_update_inv in Hx as [[-> (y & Hy & ->)]|[_ Hy]].
    + rewrite Hd. by eapply Ho.
    + by eapply Ho.
Qed.

Lemma inv_global g a :
  inv a ->
  processes (g (base a)) = processes (base a) -> pcbs (g (base a)) = pcbs (base a) ->
  queue_level (g (base a)) = queue_level (base a) -> ml_queues (g (base a)) = ml_queues (base a) ->
  active_algorithm (g (base a)) = active_algorithm (base a) ->
  current_process (g (base a)) = current_process (base a) ->
  inv (a_global g a).
Proof.
  intros [Hw Hc Ho] E1 E2 E3 E4 E5 E6. constructor; [by apply wf_global|..];
    unfold proc, a_pcb; simpl; rewrite ?E1, ?E2, ?E6; done.
Qed.

Lemma keeps_trans B a a' : keeps B a -> keeps (proc a) a' -> keeps B a'.
Proof.
  intros H1 H2 p x Hx Hi Hr Hn. destruct (H1 p x Hx Hi Hr Hn) as (y & Hy & E1 & E2 & E3).
  destruct (H2 p y Hy Hi) as (z & Hz & F1 & F2 & F3); [congruence|congruence|].
  exists z. split; [done|]. unfold same_block. by rewrite F1, F2, F3.
Qed.

Lemma dispatched_trans B a a' : keeps B a -> dispatched (proc a) a' -> dispatched B a'.
Proof. intros H1 (? & H2 & ?). split; [done|]. split; [by eapply keeps_trans|done]. Qed.

Lemma set_burst_inert f : (forall x, params_ok x -> params_ok (f x)) ->
  (forall x, pid (f x) = pid x /\ state (f x) = state x) -> inert f.
Proof. intros H1 H2 x. destruct (H2 x). auto. Qed.

(** A field update of the current process that the invariant does not see. *)
Lemma awp_update_current f Q a :
  inv a -> Oblivious f -> inert f -> (forall x, preempt_disabled (f x) = preempt_disabled x) ->
  (forall x, same_block x (f x)) ->
  (forall a', inv a' -> keeps (proc a) a' ->
    a' = a_update (current_process (base a)) f a -> Q tt a') ->
  awp (update (current_process (base a)) f) Q a.
Proof.
  intros Hinv Ho Hf Hd Hb HQ. destruct (wf_current _ _ (inv_wf _ Hinv)) as [x Hx].
  apply awp_update; [done|by rewrite (proc_pcb _ _ _ Hx)|]. apply HQ; [|apply keeps_inert|]; try done.
  - apply inv_inert; [done|by exists x|done|done].
  - apply keeps_self.
Qed.

Lemma awp_schedule a : inv a -> awp schedule (fun _ => dispatched (proc a)) a.
Proof.
  intros Hinv. destruct (wf_current _ _ (inv_wf _ Hinv)) as [x Hx]. unfold schedule.
  awp_step. awp_step. awp_step. apply (awp_deref _ x); [by apply proc_pcb|intros nx].
  assert (Htail : forall a1, inv a1 -> keeps (proc a) a1 -> current_process (base a1) = current_process (base a) ->
    awp (update (current_process (base a)) (set_counter 0);; _schedule) (fun _ => dispatched (proc a)) a1).
  { intros a1 H1 Hk E. rewrite <- E. awp_step. apply awp_update_current; [done|apply _| |done|done|].
    - by apply set_counter_inert.
    - intros a2 H2 Hk2 _. eapply awp_mono; [by apply awp__schedule|]. intros [] a'.
      apply dispatched_trans. by eapply keeps_trans. }
  awp_step. apply awp_when; intros _; [|apply Htail; [done|apply keeps_self|done]].
  awp_step. apply awp_update_current; [done|apply _|inert_field|done|done|].
  intros a1 H1 Hk E1.
  assert (Ec : current_process (base a1) = current_process (base a)) by by rewrite E1. rewrite <- Ec.
  apply awp_update_current; [done|apply _|inert_field|done|done|].
  intros a2 H2 Hk2 E2. rewrite Ec. apply Htail; [done|by eapply keeps_trans|by rewrite E2].
Qed.
End Dispatcher.
