(* ===== verification/Fairness.v ===== *)
(** * Round robin starves nobody

    Repeated calls of [schedule] (the running process yields, as
    [syscall_yield] does, or its slice is over) reach every process of the
    ready queue, in the order of the queue. *)

From S2P Require Import Prelude Exec Kernel Queue QueueLogic Sched SchedInv SchedSteps Dispatch Algorithms Handlers.

(** [n] scheduling decisions in a row, each taken by the process the previous
    one chose. *)
Fixpoint decisions (n : nat) : K unit :=
  match n with
  | O => mret tt
  | S n => schedule;; decisions n
  end.

Section RoundRobin.
Implicit Types (a : astate) (p : pcb_ptr).

Lemma outgoing_update a f :
  (forall x, state (f x) = state x) -> outgoing (a_update (current_process (base a)) f a) = outgoing a.
Proof.
  intros Hf. unfold outgoing. simpl. rewrite a_pcb_update_eq.
  destruct (a_pcb a (current_process (base a))); simpl; [by rewrite Hf|done].
Qed.

(** What [schedule] does to the outgoing process before it decides. *)
Lemma awp_schedule_updates Q a :
  inv a ->
  (forall a1, inv a1 -> steady a a1 -> lists a1 RQ = lists a RQ -> outgoing a1 = outgoing a -> awp _schedule Q a1) ->
  awp schedule Q a.
Proof.
  intros Hinv HQ. destruct (wf_current _ _ (inv_wf _ Hinv)) as [x Hx]. unfold schedule.
  awp_step. awp_step. awp_step. apply (awp_deref _ x); [by apply proc_pcb|intros nx]. awp_step.
  assert (Htail : forall a1, inv a1 -> steady a a1 -> lists a1 RQ = lists a RQ -> outgoing a1 = outgoing a ->
    current_process (base a1) = current_process (base a) ->
    awp (update (current_process (base a)) (set_counter 0);; _schedule) Q a1).
  { intros a1 H1 Hs Hl Ho E. rewrite <- E. awp_step. apply awp_update_current; [done|apply _| |done|done|].
    - by apply set_counter_inert.
    - intros a2 H2 _ ->. apply HQ; [done| |done|by rewrite outgoing_update].
      eapply steady_trans; [exact Hs|by apply steady_update]. }
  apply awp_when; intros _; [|by apply Htail].
  awp_step. apply awp_update_current; [done|apply _|inert_field|done|done|].
  intros a1 H1 _ E1. assert (Ec : current_process (base a1) = current_process (base a)) by by rewrite E1.
  rewrite <- Ec. apply awp_update_current; [done|apply _|inert_field|done|done|].
  intros a2 H2 _ E2. rewrite Ec. apply Htail; [done| |by rewrite E2, E1| |by rewrite E2].
  - rewrite E2, E1. eapply steady_trans; by apply steady_update.
  - rewrite E2, outgoing_update by done. by rewrite E1, outgoing_update.
Qed.

(** The members of a ready queue, and the outgoing process, are processes. *)
Lemma candidate_proc a p : inv a -> p ∈ lists a RQ ++ outgoing a -> exists x, proc a p x.
Proof.
  intros Hinv Hp. apply elem_of_app in Hp as [Hp|Hp].
  - destruct (wf_ready _ _ (inv_wf _ Hinv) _ _ Hp) as (x & ? & _). by exists x.
  - unfold outgoing in Hp. case_decide; [by apply elem_of_nil in Hp|].
    destruct (_ =? _); [|by apply elem_of_nil in Hp]. apply list_elem_of_singleton in Hp as ->.
    apply (wf_current _ _ (inv_wf _ Hinv)).
Qed.

(** One decision: the head of the queue runs, the outgoing process is last. *)
Lemma awp_schedule_head p l a :
  inv a -> active_algorithm (base a) = sched_round_robin -> calm a -> lists a RQ = p :: l ->
  awp schedule (fun _ a' => inv a' /\ steady a a' /\ runs a' p (fun slice => slice = 10) /\
    lists a' RQ = l ++ outgoing a) a.
Proof.
  intros Hinv Ha Hc Hl. apply awp_schedule_updates; [done|]. intros a1 Hinv1 Hs El Eo.
  pose proof (steady_algorithm _ _ Hs) as Ea. rewrite Ha in Ea. pose proof (steady_calm _ _ Hs Hc) as Hc1.
  unfold _schedule. awp_step. awp_step. rewrite Ea.
  eapply awp_mono; [apply awp_round_robin; [done|by unfold single_queue; rewrite Ea]|].
  intros _ a' [(Hinv' & _ & Hv) Hs']. split; [done|]. split; [by eapply steady_trans|].
  rewrite El, Eo, Hl in Hv. simpl app in Hv. unfold serves in Hv. rewrite calm_survivor in Hv.
  - destruct Hv as (Hr & Hq & _). done.
  - intros p' Hp'. destruct (candidate_proc a1 p' Hinv1) as [x Hx]; [by rewrite El, Eo, Hl|].
    rewrite (survives_at_pcb _ _ _ (proc_pcb _ _ _ Hx)). by apply (Hc1 p').
Qed.

Lemma awp_decisions l1 p l2 a :
  inv a -> active_algorithm (base a) = sched_round_robin -> calm a -> lists a RQ = l1 ++ p :: l2 ->
  awp (decisions (S (length l1))) (fun _ a' => inv a' /\ runs a' p (fun slice => slice = 10) /\
    exists l, lists a' RQ = l2 ++ l) a.
Proof.
  revert l2 a. induction l1 as [|h l1 IH]; intros l2 a Hinv Ha Hc Hl; cbn [length decisions].
  - awp_step. eapply awp_mono; [by apply (awp_schedule_head p l2)|].
    intros _ a' (? & _ & ? & ?). awp_step. eauto.
  - awp_step. eapply awp_mono; [by apply (awp_schedule_head h (l1 ++ p :: l2))|].
    intros _ a' (Hinv' & [Ea Hc'] & _ & Hl'). rewrite <- app_assoc in Hl'. simpl in Hl'.
    eapply awp_mono; [apply (IH (l2 ++ outgoing a)); [done|congruence|auto|done]|].
    intros _ a2 (? & ? & k & ->). split; [done|]. split; [done|]. eexists. by rewrite <- app_assoc.
Qed.
End RoundRobin.
