(* ===== verification/Multilevel.v ===== *)
(** * The per-tick bookkeeping of the multilevel queues

    [_multilevel_on_tick] of [libs/scheduler.c]: the periodic boost that moves
    every process back to level 0 and the demotion of a process that used its
    whole quantum. *)

From stdpp Require Import list_numbers.
From S2P Require Import Prelude Exec Kernel Queue QueueLogic Sched SchedInv SchedSteps Dispatch Algorithms Lottery Aging Handlers.

(** [a'] differs from [a] in process states, queue contents, the tracked
    levels and the boost timer only. *)
Record tick_frame (a a' : astate) : Prop := mkTickFrame {
  tick_pcb p : set_state 0 <$> a_pcb a' p = set_state 0 <$> a_pcb a p;
  tick_base : base a' = set_pcbs (pcbs (base a'))
    (set_queue_level (queue_level (base a'))
      (set_ml_ticks_since_boost (ml_ticks_since_boost (base a')) (base a)));
}.

Section Frame.
Implicit Types (a : astate) (p : pcb_ptr).

Lemma tick_frame_refl a : tick_frame a a.
Proof. constructor; [done|]. by destruct (base a). Qed.

Lemma tick_frame_trans a1 a2 a3 : tick_frame a1 a2 -> tick_frame a2 a3 -> tick_frame a1 a3.
Proof.
  intros [P1 B1] [P2 B2]. constructor; [intros p; by rewrite P2|].
  rewrite B2 at 1. simpl. by rewrite B1.
Qed.

Lemma tick_current a a' : tick_frame a a' -> current_process (base a') = current_process (base a).
Proof. intros [_ ->]. done. Qed.

Lemma tick_algorithm a a' : tick_frame a a' -> active_algorithm (base a') = active_algorithm (base a).
Proof. intros [_ ->]. done. Qed.

Lemma tick_processes a a' : tick_frame a a' -> processes (base a') = processes (base a).
Proof. intros [_ ->]. done. Qed.

Lemma tick_get a a' p x :
  tick_frame a a' -> a_pcb a p = Some x -> exists y, a_pcb a' p = Some y /\ set_state 0 y = set_state 0 x.
Proof.
  intros [Hp _] Hx. specialize (Hp p). rewrite Hx in Hp.
  destruct (a_pcb a' p) as [y|]; simpl in Hp; [|done]. exists y. split; [done|congruence].
Qed.

Lemma tick_levels ls a : tick_frame a (a_global (set_queue_level ls) a).
Proof. constructor; [done|]. simpl. by destruct (base a). Qed.

Lemma tick_timer t a : tick_frame a (a_global (set_ml_ticks_since_boost t) a).
Proof. constructor; [done|]. simpl. by destruct (base a). Qed.

Lemma tick_list q l a : tick_frame a (a_set_list q l a).
Proof. constructor; [done|]. simpl. by destruct (base a). Qed.

Lemma tick_enqueue q p a : tick_frame a (a_enqueue q p a).
Proof.
  constructor; [|simpl; by destruct (base a)]. intros p'.
  change (a_pcb (a_enqueue q p a) p') with (a_pcb (a_update p (set_state PROCESS_READY) a) p').
  destruct (decide (p' = p)) as [->|Hne]; [|by rewrite a_pcb_update_ne].
  rewrite a_pcb_update_eq. by destruct (a_pcb a p).
Qed.

Lemma levels_in_range ls i v :
  (forall j l, ls !! j = Some l -> 0 <= l < ML_MAX_LEVELS) -> 0 <= v < ML_MAX_LEVELS ->
  forall j l, (<[i := v]> ls : list Z) !! j = Some l -> 0 <= l < ML_MAX_LEVELS.
Proof.
  intros Hls Hv j l Hj. apply list_lookup_insert_Some in Hj as [(_ & <- & _)|[_ Hj]]; [done|eauto].
Qed.

Lemma wf_set_levels e ls a :
  wf e a -> length ls = Z.to_nat N_PROCESSES ->
  (forall j l, ls !! j = Some l -> 0 <= l < ML_MAX_LEVELS) ->
  wf e (a_global (set_queue_level ls) a).
Proof. intros [] Hlen Hls. by constructor. Qed.

Lemma inv_set_level i v a :
  inv a -> 0 <= v < ML_MAX_LEVELS ->
  inv (a_global (set_queue_level (<[i := v]> (queue_level (base a)))) a).
Proof.
  intros [Hw Hc Ho] Hv. constructor; [|done|done]. apply wf_set_levels; [done| |].
  - rewrite length_insert. by apply (wf_len_levels _ _ Hw).
  - apply levels_in_range; [|done]. by apply (wf_levels _ _ Hw).
Qed.
End Frame.

(** ** Moving a queue to level 0 *)

Section Boost.
Implicit Types (a : astate) (p : pcb_ptr).

Lemma inv_requeue a q1 q2 p rest ls :
  inv a -> home_queue (active_algorithm (base a)) q2 -> lists a q1 = p :: rest ->
  length ls = Z.to_nat N_PROCESSES -> (forall j l, ls !! j = Some l -> 0 <= l < ML_MAX_LEVELS) ->
  let a' := a_enqueue q2 p (a_global (set_queue_level ls) (a_set_list q1 rest a)) in
  inv a' /\ keeps (proc a) a'.
Proof.
  intros [Hw Hc Ho] Hh Hl Hlen Hls a'.
  destruct (wf_ready _ _ Hw q1 p) as (x & Hx & Hs); [rewrite Hl; set_solver|].
  assert (Hi : p <> init_process).
  { intros ->. apply (wf_noinit _ _ Hw q1). rewrite Hl. set_solver. }
  assert (Hpre : forall p' y, proc a' p' y -> exists z, proc a p' z /\ preempt_disabled y = preempt_disabled z).
  { intros p' y Hy. apply (proc_update_inv a) in Hy as [[-> (z & Hz & ->)]|[_ Hy]]; by eexists. }
  split; [constructor|].
  - apply (wf_enqueue (Some p) _ q2 p x); try done; [|by eapply (removed_not_queued _ _ _ [])|by right].
    apply wf_set_levels; [|done|done]. by apply (wf_remove _ _ []).
  - intros y Hy. apply Hpre in Hy as (z & Hz & E). unfold preempt_ok. rewrite E. by apply Hc.
  - intros p' y Hy Hne. apply Hpre in Hy as (z & Hz & E). unfold preempt_ok. rewrite E. by eapply Ho.
  - apply (keeps_update a); [apply keeps_self|]. intros y Hy.
    rewrite (proc_fun _ _ _ _ Hy (proc_pcb _ _ _ Hx)). auto.
Qed.

Lemma awp_boost_queue fuel l pol Q a :
  inv a -> ml_policy (active_algorithm (base a)) = Some pol -> 0 < l < n_levels pol ->
  (length (lists a (ML l)) < fuel)%nat ->
  (forall a', inv a' -> keeps (proc a) a' -> tick_frame a a' ->
    lists a' (ML l) = [] -> lists a' (ML 0) = lists a (ML 0) ++ lists a (ML l) ->
    (forall l', l' <> 0 -> l' <> l -> lists a' (ML l') = lists a (ML l')) -> Q tt a') ->
  awp (boost_queue fuel l) Q a.
Proof.
  revert a. induction fuel as [|fuel IH]; intros a Hinv Hpol Hl Hf HQ; [lia|].
  pose proof (inv_wf _ Hinv) as Hw.
  assert (Hh : forall q, 0 <= q < n_levels pol -> home_queue (active_algorithm (base a)) (ML q)).
  { intros q Hq. unfold home_queue. by rewrite Hpol. }
  assert (Hv : valid_queue a (ML l)) by (eapply wf_valid_home; [done|apply Hh; lia]).
  simpl. awp_step. destruct (lists a (ML l)) as [|p rest] eqn:El.
  { apply awp_dequeue_nil; [done|done|]. apply awp_ret, HQ; try done;
      [apply keeps_self|apply tick_frame_refl|by rewrite app_nil_r]. }
  eapply awp_dequeue_cons; [done|done|].
  destruct (wf_ready _ _ Hw (ML l) p) as (x & Hx & Hs); [rewrite El; set_solver|].
  assert (Hi : p <> init_process).
  { intros ->. apply (wf_noinit _ _ Hw (ML l)). rewrite El. set_solver. }
  destruct (wf_pid _ _ _ _ Hw Hx) as [Hpid _]. pose proof (wf_len_levels _ _ Hw) as Hlen.
  awp_step. apply (awp_deref p x); [by apply (proc_pcb a)|intros nx]. awp_step.
  apply awp_write_array; [done|apply _|simpl; lia|]. simpl. awp_step.
  set (ls := <[Z.to_nat (pid x) := 0]> (queue_level (base a))).
  destruct (inv_requeue a (ML l) (ML 0) p rest ls) as [Hinv' Hk']; try done.
  { apply Hh. lia. }
  { unfold ls. by rewrite length_insert. }
  { apply levels_in_range; [by apply (wf_levels _ _ Hw)|done]. }
  apply awp_enqueue; try done.
  { eapply wf_valid_home; [apply wf_set_levels|apply Hh; lia].
    - by apply (wf_remove a (ML l) []).
    - unfold ls. by rewrite length_insert.
    - apply levels_in_range; [by apply (wf_levels _ _ Hw)|done]. }
  { exists x. by apply (proc_pcb a). }
  { by eapply (removed_not_queued _ _ _ []). }
  set (a1 := a_enqueue _ _ _) in *.
  assert (Ht1 : tick_frame a a1).
  { eapply tick_frame_trans; [|apply tick_enqueue]. eapply tick_frame_trans; [|apply tick_levels].
    apply tick_list. }
  assert (Hl1 : lists a1 (ML l) = rest).
  { simpl. rewrite decide_False by (intros [= E]; lia). by rewrite decide_True. }
  apply IH; [done|by rewrite (tick_algorithm _ _ Ht1)|done|rewrite Hl1; simpl in Hf; lia|].
  intros a' Hia Hka Hta Hnil H0 Hother. apply HQ; [done|by eapply keeps_trans|by eapply tick_frame_trans|done|..].
  - rewrite H0, Hl1. simpl. rewrite decide_False by (intros [= E]; lia).
    by rewrite <- app_assoc.
  - intros l' H1 H2. rewrite Hother by done. simpl.
    rewrite decide_False by (intros [= E]; lia). by rewrite decide_False by (intros [= E]; lia).
Qed.
End Boost.

(** ** The boost *)

(** The contents of levels [0] to [n - 1], one after the other. *)
Definition levels_concat (a : astate) (n : Z) : list pcb_ptr :=
  concat ((fun l => lists a (ML l)) <$> seqZ 0 n).

(** Every process is at level 0, in the order the levels were scanned. *)
Definition boosted (a : astate) (pol : MultilevelPolicy) (a' : astate) : Prop :=
  lists a' (ML 0) = levels_concat a (n_levels pol) /\
  (forall l, 0 < l < n_levels pol -> lists a' (ML l) = []) /\
  (forall i, 0 <= i < N_PROCESSES -> queue_level (base a') !! Z.to_nat i = Some 0) /\
  ml_ticks_since_boost (base a') = 0.

Section OnTick.
Implicit Types (a : astate) (p : pcb_ptr).

Lemma levels_concat_succ a n :
  0 <= n -> levels_concat a (n + 1) = levels_concat a n ++ lists a (ML n).
Proof.
  intros Hn. unfold levels_concat. rewrite seqZ_app by lia. rewrite fmap_app, concat_app.
  f_equal. simpl. by rewrite app_nil_r.
Qed.

Lemma awp_boost_levels pol Q a :
  inv a -> ml_policy (active_algorithm (base a)) = Some pol -> 0 < n_levels pol ->
  (forall a', inv a' -> keeps (proc a) a' -> tick_frame a a' ->
    lists a' (ML 0) = levels_concat a (n_levels pol) ->
    (forall l, 0 < l < n_levels pol -> lists a' (ML l) = []) -> Q tt a') ->
  awp (for_loop (Z.to_nat (n_levels pol - 1)) 1 (boost_queue loop_fuel)) Q a.
Proof.
  intros Hinv Hpol Hn HQ.
  apply (awp_for_loop (fun i a' => inv a' /\ keeps (proc a) a' /\ tick_frame a a' /\
    lists a' (ML 0) = levels_concat a i /\ (forall l, 0 < l < i -> lists a' (ML l) = []) /\
    (forall l, i <= l -> lists a' (ML l) = lists a (ML l)))).
  - split; [done|]. split; [apply keeps_self|]. split; [apply tick_frame_refl|].
    split; [by rewrite (levels_concat_succ a 0 ltac:(lia) : levels_concat a 1 = _)|]. split; [lia|done].
  - intros i a1 Hi (Hi1 & Hk1 & Ht1 & H0 & Hlow & Hhigh).
    apply (awp_boost_queue _ i pol); [done|by rewrite (tick_algorithm _ _ Ht1)|lia| |].
    { unfold loop_fuel. pose proof (queue_length None a1 (ML i) (inv_wf _ Hi1)). lia. }
    intros a2 Hi2 Hk2 Ht2 Hnil H02 Hother. split; [done|]. split; [by eapply keeps_trans|].
    split; [by eapply tick_frame_trans|]. split; [|split].
    + rewrite H02, H0, levels_concat_succ, Hhigh by lia. done.
    + intros l Hl. destruct (decide (l = i)) as [->|Hne]; [done|].
      rewrite Hother by lia. apply Hlow. lia.
    + intros l Hl. rewrite Hother by lia. apply Hhigh. lia.
  - intros a' (Hi' & Hk' & Ht' & H0 & Hlow & _).
    replace (1 + Z.of_nat (Z.to_nat (n_levels pol - 1))) with (n_levels pol) in * by lia.
    by apply HQ.
Qed.

Lemma awp_reset_levels Q a :
  inv a ->
  (forall a', inv a' -> keeps (proc a) a' -> tick_frame a a' -> (forall q, lists a' q = lists a q) ->
    (forall i, 0 <= i < N_PROCESSES -> queue_level (base a') !! Z.to_nat i = Some 0) -> Q tt a') ->
  awp (for_loop (Z.to_nat N_PROCESSES) 0 (fun i => write_array queue_level set_queue_level i 0)) Q a.
Proof.
  intros Hinv HQ.
  apply (awp_for_loop (fun i a' => inv a' /\ keeps (proc a) a' /\ tick_frame a a' /\
    (forall q, lists a' q = lists a q) /\
    (forall j, 0 <= j < i -> queue_level (base a') !! Z.to_nat j = Some 0))).
  - split; [done|]. split; [apply keeps_self|]. split; [apply tick_frame_refl|]. split; [done|lia].
  - intros i a1 Hi (Hi1 & Hk1 & Ht1 & Hl1 & Hlev).
    pose proof (wf_len_levels _ _ (inv_wf _ Hi1)) as Hlen.
    apply awp_write_array; [done|apply _|lia|]. split; [|split; [|split; [|split]]]; try done.
    + by apply inv_set_level.
    + eapply tick_frame_trans; [done|apply tick_levels].
    + intros j Hj. simpl. destruct (decide (j = i)) as [->|Hne].
      * apply list_lookup_insert_eq. lia.
      * rewrite list_lookup_insert_ne by lia. apply Hlev. lia.
  - intros a' (Hi' & Hk' & Ht' & Hl' & Hlev). apply HQ; try done.
Qed.

Lemma awp_multilevel_boost pol Q a :
  inv a -> ml_policy (active_algorithm (base a)) = Some pol ->
  (forall a', inv a' -> keeps (proc a) a' -> tick_frame a a' -> boosted a pol a' -> Q tt a') ->
  awp (multilevel_boost pol) Q a.
Proof.
  intros Hinv Hpol HQ.
  destruct (multilevel_levels a pol (wf_alg _ _ (inv_wf _ Hinv)) Hpol) as [Hn _].
  unfold multilevel_boost. apply awp_bind, (awp_boost_levels pol); [done|done|by rewrite Hn|].
  intros a1 Hi1 Hk1 Ht1 H01 Hlow1. apply awp_bind, awp_reset_levels; [done|].
  intros a2 Hi2 Hk2 Ht2 Hl2 Hlev2. awp_step. apply HQ; [by apply inv_global| | |].
  - by eapply keeps_trans.
  - eapply tick_frame_trans; [exact Ht1|]. eapply tick_frame_trans; [exact Ht2|apply tick_timer].
  - unfold boosted. simpl. rewrite Hl2. split; [done|]. split; [|done].
    intros l Hl. rewrite Hl2. by apply Hlow1.
Qed.

(** ** The demotion *)

(** The level of the current process after a tick. *)
Definition demoted_levels (pol : MultilevelPolicy) (a : astate) : list Z :=
  match a_pcb a (current_process (base a)) with
  | Some x =>
    let level := level_of a (current_process (base a)) in
    if (demote_on_expiry pol =? 0) || bool_decide (current_process (base a) = init_process)
       || negb ((counter x <=? 0) && (preempt_disabled x =? 0)) || (n_levels pol - 1 <=? level)
    then queue_level (base a) else <[Z.to_nat (pid x) := level + 1]> (queue_level (base a))
  | None => queue_level (base a)
  end.

Lemma awp_multilevel_demote pol Q a :
  inv a -> ml_policy (active_algorithm (base a)) = Some pol ->
  (let a' := a_global (set_queue_level (demoted_levels pol a)) a in
   inv a' -> forall a'', a'' ≡ a' -> Q tt a'') ->
  awp (multilevel_demote pol) Q a.
Proof.
  intros Hinv Hpol HQ. pose proof (inv_wf _ Hinv) as Hw.
  destruct (wf_current _ _ Hw) as [x Hx].
  destruct (multilevel_levels a pol (wf_alg _ _ Hw) Hpol) as [Hn _].
  destruct (level_of_range _ _ _ _ _ Hw Hx Hpol) as [Hl Hr].
  destruct (wf_pid _ _ _ _ Hw Hx) as [Hpid _]. pose proof (wf_len_levels _ _ Hw) as Hlen.
  assert (Hsame : demoted_levels pol a = queue_level (base a) -> Q tt a).
  { intros E. rewrite E in HQ. apply HQ.
    - apply (inv_global _ a); try done. 
    - split; [simpl; by destruct (base a)|done]. }
  unfold multilevel_demote. awp_step. awp_step.
  unfold demoted_levels in *. rewrite (proc_pcb _ _ _ Hx) in *. cbv zeta in *.
  destruct (_ || bool_decide _) eqn:E1; simpl in *; [apply awp_ret; by apply Hsame|].
  awp_step. apply (awp_deref _ x); [by apply proc_pcb|intros nx]. simpl.
  destruct (negb _) eqn:E2; simpl in *; [apply awp_ret; by apply Hsame|].
  awp_step. eapply awp_read_array; [done|exact Hl|]. apply awp_when; intros E3; reflect_bool.
  - destruct (Z.leb_spec (n_levels pol - 1) (level_of a (current_process (base a)))); [lia|].
    rewrite s32_id by (rewrite Hn in *; unfold ML_MAX_LEVELS in *; lia).
    apply awp_write_array; [done|apply _|lia|]. apply HQ; [|done].
    apply inv_set_level; [done|lia].
  - destruct (Z.leb_spec (n_levels pol - 1) (level_of a (current_process (base a)))); [|lia].
    by apply Hsame.
Qed.
End OnTick.

(** ** A timer tick *)

(** What the per-tick hook does: the boost when its period has elapsed, then
    the demotion of the current process. *)
Definition boost_due (pol : MultilevelPolicy) (a : astate) : bool :=
  (0 <? boost_period pol) && (boost_period pol <=? s32 (ml_ticks_since_boost (base a) + 1)).

Definition hook_result (pol : MultilevelPolicy) (a a' : astate) : Prop :=
  exists a1,
    (if boost_due pol a then boosted a pol a1
     else (forall q, lists a1 q = lists a q) /\ queue_level (base a1) = queue_level (base a) /\
       ml_ticks_since_boost (base a1) =
         if 0 <? boost_period pol then s32 (ml_ticks_since_boost (base a) + 1)
         else ml_ticks_since_boost (base a)) /\
    tick_frame a a1 /\
    a' ≡ a_global (set_queue_level (demoted_levels pol a1)) a1.

Section Tick.
Implicit Types (a : astate) (p : pcb_ptr).

Lemma awp_multilevel_on_tick pol Q a :
  inv a -> ml_policy (active_algorithm (base a)) = Some pol ->
  (forall a', inv a' -> keeps (proc a) a' -> tick_frame a a' -> hook_result pol a a' -> Q tt a') ->
  awp _multilevel_on_tick Q a.
Proof.
  intros Hinv Hpol HQ. unfold _multilevel_on_tick. awp_step. awp_step. awp_step.
  eapply awp_defined; [done|].
  assert (Hdem : forall a1, inv a1 -> keeps (proc a) a1 -> tick_frame a a1 ->
    (if boost_due pol a then boosted a pol a1
     else (forall q, lists a1 q = lists a q) /\ queue_level (base a1) = queue_level (base a) /\
       ml_ticks_since_boost (base a1) =
         if 0 <? boost_period pol then s32 (ml_ticks_since_boost (base a) + 1)
         else ml_ticks_since_boost (base a)) ->
    awp (multilevel_demote pol) Q a1).
  { intros a1 H1 Hk1 Ht1 Hb1. apply awp_multilevel_demote; [done|by rewrite (tick_algorithm _ _ Ht1)|].
    cbv zeta. intros H2 a2 E2. apply HQ; [by rewrite E2|by rewrite E2| |].
    - destruct E2 as [E2 _].
      assert (Htf : tick_frame a (a_global (set_queue_level (demoted_levels pol a1)) a1))
        by (eapply tick_frame_trans; [exact Ht1|apply tick_levels]).
      destruct Htf as [Hp Hb]. constructor; unfold a_pcb in *; rewrite E2; done.
    - exists a1. done. }
  awp_step. apply awp_when; intros Hbp.
  - awp_step. awp_step. awp_step. awp_step. awp_step. awp_step. simpl.
    set (a1 := a_global _ a).
    assert (Hi1 : inv a1) by by apply inv_global.
    apply awp_when; intros Hper.
    + apply awp_multilevel_boost; [done|done|]. intros a2 H2 Hk2 Ht2 Hb2.
      apply Hdem; [done|exact Hk2| |].
      * eapply tick_frame_trans; [apply tick_timer|exact Ht2].
      * unfold boost_due. rewrite Hbp, Hper. simpl. exact Hb2.
    + apply Hdem; [done|apply (keeps_self a)|apply tick_timer|].
      unfold boost_due. by rewrite Hbp, Hper.
  - apply Hdem; [done|apply keeps_self|apply tick_frame_refl|]. unfold boost_due. by rewrite Hbp.
Qed.

Ltac inert_field := intros y; split; [done|]; split; [done|]; intros []; constructor; try done.

(** The tick switches only at the end of a slice, outside critical sections
    and under a preemptive policy. *)
Definition tick_switches (a : astate) (x : PCB) : Prop :=
  s64 (counter x - 1) <= 0 /\ preempt_disabled x <= 0 /\
  is_preemptive (active_algorithm (base a)) <> 0.

(** The outcome of a tick that started in [a] with [x] on the CPU. *)
Definition tick_outcome (a : astate) (x : PCB) (a' : astate) : Prop :=
  inv a' /\ keeps (proc a) a' /\
  (~ tick_switches a x -> current_process (base a') = current_process (base a)) /\
  (tick_switches a x ->
    exists y, proc a' (current_process (base a')) y /\ state y = PROCESS_RUNNING).

(** What follows the per-tick hook. *)
Lemma awp_tick_tail a a2 a3 x y :
  active_algorithm (base a2) = active_algorithm (base a) ->
  current_process (base a2) = current_process (base a) ->
  a_pcb a2 (current_process (base a)) = Some y ->
  counter y = s64 (counter x - 1) -> preempt_disabled y = preempt_disabled x ->
  inv a3 -> keeps (proc a) a3 -> tick_frame a2 a3 ->
  awp (x ← deref (current_process (base a));
    if (0 <? counter x) || (0 <? preempt_disabled x) then mret tt else
    update (current_process (base a)) (set_counter 0);;
    if is_preemptive (active_algorithm (base a)) =? 0 then mret tt else
    enable_irq;; _schedule;; disable_irq) (fun _ => tick_outcome a x) a3.
Proof.
  intros Ea2 Ec2 Hy Hcy Hpy H3 Hk3 Ht3. destruct (tick_get _ _ _ _ Ht3 Hy) as (z & Hz & Ez).
  assert (Hcz : counter z = s64 (counter x - 1)).
  { change (counter (set_state 0 z) = s64 (counter x - 1)). by rewrite Ez. }
  assert (Hpz : preempt_disabled z = preempt_disabled x).
  { change (preempt_disabled (set_state 0 z) = preempt_disabled x). by rewrite Ez. }
  assert (Ec3 : current_process (base a3) = current_process (base a)) by by rewrite (tick_current _ _ Ht3).
  unfold tick_outcome, tick_switches.
  awp_step. apply (awp_deref _ z); [done|intros nx]. simpl. rewrite Hcz, Hpz.
  destruct (Z.ltb_spec 0 (s64 (counter x - 1))); simpl.
  { apply awp_ret. split; [done|]. split; [done|]. split; [done|lia]. }
  destruct (Z.ltb_spec 0 (preempt_disabled x)); simpl.
  { apply awp_ret. split; [done|]. split; [done|]. split; [done|lia]. }
  rewrite <- Ec3. awp_step. apply awp_update_current; [done|apply _|by apply set_counter_inert|done|done|].
  intros a4 H4 Hk4 E4. assert (Ec4 : current_process (base a4) = current_process (base a3)) by by rewrite E4.
  destruct (Z.eqb_spec (is_preemptive (active_algorithm (base a))) 0) as [E|E].
  { apply awp_ret. split; [done|]. split; [by eapply keeps_trans|]. split; [done|].
    intros (_ & _ & ?). done. }
  unfold enable_irq, disable_irq. awp_step. awp_step. awp_step.
  assert (H5 : inv (a_global (set_irq_enabled true) a4)) by by apply inv_global.
  eapply awp_mono; [by apply awp__schedule|]. intros [] a6 (H6 & Hk6 & Hr6). simpl. awp_step.
  split; [by apply inv_global|]. split; [|split; [|done]].
  - eapply (keeps_trans _ a3); [done|]. eapply (keeps_trans _ a4); [done|exact Hk6].
  - intros Hn. exfalso. apply Hn. split; [lia|]. split; [lia|done].
Qed.

Lemma awp_timer_tick a x :
  inv a -> a_pcb a (current_process (base a)) = Some x ->
  awp handle_timer_tick (fun _ => tick_outcome a x) a.
Proof.
  intros Hinv Hx. unfold handle_timer_tick. awp_step. awp_step.
  awp_step. apply awp_update_current; [done|apply _| |done|done|].
  { inert_field. apply s64_range. }
  intros a1 H1 Hk1 E1. awp_step.
  assert (Ec1 : current_process (base a1) = current_process (base a)) by by rewrite E1.
  rewrite <- Ec1. apply awp_update_current; [done|apply _|inert_field|done|done|].
  intros a2 H2 Hk2 E2. awp_step. awp_step.
  assert (Ec2 : current_process (base a2) = current_process (base a)) by by rewrite E2, E1.
  assert (Ea2 : active_algorithm (base a2) = active_algorithm (base a)) by by rewrite E2, E1.
  assert (Hx2 : exists y, a_pcb a2 (current_process (base a)) = Some y /\
    counter y = s64 (counter x - 1) /\ preempt_disabled y = preempt_disabled x).
  { rewrite E2, E1. simpl. rewrite a_pcb_update_eq, a_pcb_update_eq, Hx. by eexists. }
  assert (Hk : keeps (proc a) a2) by by eapply keeps_trans.
  rewrite Ec1, Ea2. destruct Hx2 as (y & Hy & Hcy & Hpy).
  pose proof (wf_alg _ _ (inv_wf _ H2)) as Halg. rewrite Ea2 in Halg.
  awp_step. destruct (on_tick (active_algorithm (base a))) as [[]|] eqn:Eo; simpl.
  - assert (exists pol, ml_policy (active_algorithm (base a)) = Some pol) as [pol Hpol].
    { unfold algorithms in Halg.
      repeat (apply elem_of_cons in Halg as [Ha|Halg];
        [rewrite Ha in *; try discriminate Eo; by eexists|]).
      by apply elem_of_nil in Halg. }
    eapply awp_multilevel_on_tick; [done|by rewrite Ea2|].
    intros a3 H3 Hk3 Ht3 _. eapply awp_tick_tail; try done. by eapply keeps_trans.
  - apply awp_ret. eapply awp_tick_tail; try done. apply tick_frame_refl.
Qed.
End Tick.
