(* ===== verification/Processes.v ===== *)
(** * Process registration, parameters, signals and exit

    [enqueue_process], [add_process_to_scheduler], [sched_set_param] and
    [exit_process] of [libs/scheduler.c], on abstract states. *)

From S2P Require Import Prelude Exec Kernel Queue QueueLogic Sched SchedInv SchedSteps Dispatch Algorithms Lottery Aging Handlers Multilevel.

(** ** Making a process READY *)

(** [a'] is [a] with the process [p] READY, at some place of a queue of the
    active algorithm unless it is the idle process. *)
Record readied (p : pcb_ptr) (a a' : astate) : Prop := mkReadied {
  readied_base : base a' = base (a_update p (set_state PROCESS_READY) a);
  readied_queued : p <> init_process -> queued a' p;
  readied_others p' : p' <> p -> queued a' p' <-> queued a p';
}.

Section Ready.
Implicit Types (a : astate) (p : pcb_ptr).

Lemma requeues_active e a :
  wf e a -> exists aenq, requeues (call_enqueue (enqueue (active_algorithm (base a)))) aenq a.
Proof.
  intros Hw. pose proof (wf_alg _ _ Hw) as Ha. unfold algorithms in Ha.
  assert (Hone : ml_policy (active_algorithm (base a)) = None ->
    (enqueue (active_algorithm (base a)) = fn_enqueue_fifo \/
     enqueue (active_algorithm (base a)) = fn_enqueue_sjf) ->
    exists aenq, requeues (call_enqueue (enqueue (active_algorithm (base a)))) aenq a).
  { intros Hn [-> | ->]; [exists (a_enqueue RQ)|exists (a_enqueue_sorted RQ)];
      [eapply requeues_fifo|eapply requeues_sjf]; try done; unfold home_queue; by rewrite Hn. }
  assert (Hml : forall pol, ml_policy (active_algorithm (base a)) = Some pol ->
    enqueue (active_algorithm (base a)) = fn_enqueue_multilevel ->
    exists aenq, requeues (call_enqueue (enqueue (active_algorithm (base a)))) aenq a).
  { intros pol Hp ->. exists (fun p a => a_enqueue (ML (level_of a p)) p a).
    by eapply requeues_multilevel. }
  repeat (apply elem_of_cons in Ha as [Ha|Ha];
    [rewrite Ha in Hone, Hml |- *; first [apply Hone; auto; fail|by eapply Hml]|]).
  by apply elem_of_nil in Ha.
Qed.

Lemma awp_enqueue_process e p x Q a :
  wf e a -> proc a p x -> ~ queued a p -> e = None \/ e = Some p ->
  (p = init_process -> Q tt a) ->
  (forall a', p <> init_process -> wf None a' -> readied p a a' -> Q tt a') ->
  awp (enqueue_process (Some p)) Q a.
Proof.
  intros Hw Hx Hq He Hinit HQ. unfold enqueue_process. case_decide as Hi; [by apply awp_ret, Hinit|].
  awp_step. awp_step. destruct (requeues_active e a Hw) as [aenq Henq].
  destruct (Henq p x Hx Hi Hq) as [(q & l1 & l2 & Hh & Hl & E) Hawp]. apply Hawp, HQ; [done|..].
  - rewrite E. apply (wf_insert e a q l1 l2 p x); try done.
    intros y. split; [done|]. split; [done|]. intros []; by constructor.
  - rewrite E. constructor; [done|..].
    + intros _. exists q. simpl. rewrite decide_True by done. set_solver.
    + intros p' Hne. unfold queued. split; intros [q' Hq']; exists q'; simpl in *.
      * case_decide; [subst|done]. rewrite Hl. set_solver.
      * case_decide; [subst|done]. rewrite Hl in Hq'. set_solver.
Qed.

Lemma readied_pcb p a a' p' :
  readied p a a' -> a_pcb a' p' = a_pcb (a_update p (set_state PROCESS_READY) a) p'.
Proof. intros [E _ _]. unfold a_pcb. by rewrite E. Qed.

Lemma readied_proc p a a' p' y :
  readied p a a' -> proc a' p' y <-> proc (a_update p (set_state PROCESS_READY) a) p' y.
Proof. intros [E _ _]. unfold proc, a_pcb. by rewrite E. Qed.

Lemma preempt_readied p a a' : all_preempt a -> readied p a a' -> all_preempt a'.
Proof.
  intros Ha Hr p' y Hy. rewrite (readied_proc _ _ _ _ _ Hr) in Hy. revert p' y Hy.
  apply all_preempt_update; [done|]. intros x Hx. by apply Ha in Hx.
Qed.

(** A process that waits for something becomes READY, with [f] recorded. *)
Lemma awp_wake p x f Q a :
  wf None a -> all_preempt a -> proc a p x -> ~ queued a p -> state x <> PROCESS_RUNNING ->
  Oblivious f -> inert f -> (forall y, preempt_disabled (f y) = preempt_disabled y) ->
  (forall a', wf None a' -> all_preempt a' ->
    base a' = base (a_update p (fun y => f (set_state PROCESS_READY y)) a) ->
    (p <> init_process -> queued a' p) ->
    (forall p', p' <> p -> queued a' p' <-> queued a p') -> Q tt a') ->
  awp (update p (set_state PROCESS_READY);; update p f;; enqueue_process (Some p)) Q a.
Proof.
  intros Hw Hpre Hx Hq Hr Ho Hf Hd HQ. pose proof (proc_pcb _ _ _ Hx) as Hxp.
  awp_step. apply awp_update; [apply _|by rewrite Hxp|].
  awp_step. apply awp_update; [done|by rewrite a_pcb_update_eq, Hxp|].
  rewrite a_update_compose. set (g := f ∘ set_state PROCESS_READY).
  assert (Hw1 : wf (Some p) (a_update p g a)).
  { destruct (Hf (set_state PROCESS_READY x)) as (E1 & E2 & E3).
    apply (wf_update None (Some p) a p g x); try done.
    - apply E3. destruct (wf_params _ _ Hw p x Hx). by constructor.
    - unfold g; simpl. by rewrite E2. }
  assert (Hp1 : all_preempt (a_update p g a)).
  { apply all_preempt_update; [done|]. intros y Hy. unfold preempt_ok, g. simpl. rewrite Hd.
    by apply (Hpre p y). }
  assert (Hx1 : proc (a_update p g a) p (g x)) by by apply proc_update_eq.
  apply (awp_enqueue_process (Some p) p (g x)); [done|done|done|by right|..].
  - intros ->. apply HQ; try done. constructor; try by destruct Hw1.
    intros p' y Hy Hs Hi _. apply (wf_queued _ _ Hw1 p' y); [done|done|done|congruence].
  - intros a' Hi Hw' Hr'. pose proof (preempt_readied _ _ _ Hp1 Hr') as Hp'.
    apply HQ; [done|done|..].
    + rewrite (readied_base _ _ _ Hr'). f_equal. rewrite a_update_compose.
      apply (a_update_ext _ _ _ _ x Hxp). unfold g. simpl.
      destruct (Hf (set_state PROCESS_READY x)) as (_ & E & _). simpl in E.
      rewrite <- E at 1. by destruct (f (set_state PROCESS_READY x)).
    + intros _. by apply (readied_queued _ _ _ Hr').
    + apply (readied_others _ _ _ Hr').
Qed.
End Ready.

(** ** Exit *)

(** [x] waits for the process with identifier [k]. *)
Definition waits_for (k : Z) (x : PCB) : bool :=
  (state x =? PROCESS_WAITING_ANOTHER_PROCESS) && (pid_to_wait x =? k).

Definition woken (x : PCB) : PCB := set_pid_to_wait (-1) (set_state PROCESS_READY x).

(** [a1] is [a] after the process [p] died: it is a zombie, the processes
    that waited for it are READY and queued, all others are as they were. *)
Definition released (a : astate) (p : pcb_ptr) (k : Z) (a1 : astate) : Prop :=
  (exists x, proc a1 p x /\ state x = PROCESS_ZOMBIE) /\
  forall w x, proc a w x -> w <> p ->
    if waits_for k x then proc a1 w (woken x) /\ (w <> init_process -> queued a1 w)
    else proc a1 w x.

Section Exit.
Implicit Types (a : astate) (p : pcb_ptr).

Lemma waiting_not_queued e a p x k : wf e a -> proc a p x -> waits_for k x = true -> ~ queued a p.
Proof.
  intros Hw Hx Hk [q Hq]. unfold waits_for in Hk. reflect_bool.
  destruct (wf_ready _ _ Hw _ _ Hq) as (y & Hy & Hs).
  pose proof (proc_fun _ _ _ _ Hx (proc_pcb _ _ _ Hy)) as ->. rewrite Hs in *. done.
Qed.

(** The loop invariant of the wake-up loop, at index [i]. *)
Record waking (a : astate) (p : pcb_ptr) (k i : Z) (a' : astate) : Prop := mkWaking {
  waking_wf : wf None a';
  waking_preempt : all_preempt a';
  waking_current : current_process (base a') = p;
  waking_table : processes (base a') = processes (base a);
  waking_self : a_pcb a' p = a_pcb a p;
  waking_others w x : proc a w x -> w <> p ->
    if waits_for k x && (pid x <? i)
    then a_pcb a' w = Some (woken x) /\ (w <> init_process -> queued a' w) else a_pcb a' w = Some x;
}.

Lemma wf_pid_inj e a p q x y : wf e a -> proc a p x -> proc a q y -> pid x = pid y -> p = q.
Proof.
  intros Hw Hx Hy E. destruct (wf_pid _ _ _ _ Hw Hx) as [_ Hp], (wf_pid _ _ _ _ Hw Hy) as [_ Hq].
  rewrite E in Hp. congruence.
Qed.

Lemma ltb_succ_ne x i : x <> i -> (x <? i + 1) = (x <? i).
Proof. intros. destruct (Z.ltb_spec x i), (Z.ltb_spec x (i + 1)); done || lia. Qed.

(** An entry that is not woken leaves the invariant alone. *)
Lemma waking_skip a p k i a' :
  waking a p k i a' ->
  (forall w y, proc a w y -> w <> p -> pid y = i -> waits_for k y = false) ->
  waking a p k (i + 1) a'.
Proof.
  intros [] Hno. constructor; try done. intros w y Hy Hne. specialize (waking_others0 w y Hy Hne).
  destruct (decide (pid y = i)) as [E|E]; [|by rewrite ltb_succ_ne].
  rewrite (Hno w y) in * by done. done.
Qed.

Lemma waking_step a p k i w y a' a2 :
  wf None a -> proc a w y -> w <> p -> pid y = i -> waits_for k y = true ->
  waking a p k i a' -> wf None a2 -> all_preempt a2 ->
  base a2 = base (a_update w woken a') -> (w <> init_process -> queued a2 w) ->
  (forall p', p' <> w -> queued a2 p' <-> queued a' p') ->
  waking a p k (i + 1) a2.
Proof.
  intros Hw Hy Hne Epid Hwk [_ _ Hc' Ht' Hs' Ho'] Hw2 Hp2 Hb2 Hq2 Hqo2.
  assert (Hpcb : forall v, a_pcb a2 v = a_pcb (a_update w woken a') v).
  { intros v. unfold a_pcb. by rewrite Hb2. }
  constructor; try done; [by rewrite Hb2|by rewrite Hb2| |].
  { by rewrite Hpcb, a_pcb_update_ne. }
  intros v z Hz Hv. rewrite Hpcb. specialize (Ho' v z Hz Hv).
  destruct (decide (v = w)) as [->|Hvw].
  - pose proof (proc_fun _ _ _ _ Hz (proc_pcb _ _ _ Hy)) as ->. rewrite Hwk in *. simpl in *.
    rewrite Epid, Z.ltb_irrefl in Ho'. destruct (Z.ltb_spec (pid y) (i + 1)); [|lia].
    split; [|done]. by rewrite a_pcb_update_eq, Ho'.
  - rewrite a_pcb_update_ne by done. rewrite ltb_succ_ne.
    2: { intros E. apply Hvw. apply (wf_pid_inj _ _ _ _ _ _ Hw Hz Hy). congruence. }
    destruct (waits_for k z && (pid z <? i)); [|done].
    destruct Ho' as [? Hqz]. split; [done|]. intros Hi'. apply Hqo2; auto.
Qed.

Lemma awp_wake_waiter a p x k i a' :
  proc a p x -> pid x = k -> state x = PROCESS_ZOMBIE -> wf None a -> 0 <= i < N_PROCESSES ->
  waking a p k i a' -> awp (wake_waiter i) (fun _ => waking a p k (i + 1)) a'.
Proof.
  intros Hx Hk Hz Hw Hi Hwk'. pose proof Hwk' as [Hw' Hp' Hc' Ht' Hs' Ho'].
  destruct (lookup_lt_is_Some_2 (processes (base a)) (Z.to_nat i)) as [o Ho].
  { rewrite (wf_len_processes _ _ Hw). lia. }
  unfold wake_waiter. awp_step.
  eapply awp_read_array; [done|rewrite Ht'; apply array_get_Some; split; [lia|exact Ho]|].
  assert (Hpid : forall w y, proc a w y -> pid y = i -> o = Some w).
  { intros w y Hy <-. destruct (wf_pid _ _ _ _ Hw Hy) as [_ E]. congruence. }
  destruct o as [w|].
  2: { apply awp_ret, waking_skip; [done|]. intros w y Hy Hne E. by specialize (Hpid _ _ Hy E). }
  destruct (wf_table _ _ Hw _ _ Ho) as (y & Hy & Hyp). rewrite Z2Nat.id in Hyp by lia.
  assert (Hyw : proc a w y) by (split; [done|by eapply list_elem_of_lookup_2]).
  assert (Hcur : a_pcb a' p = Some x) by (rewrite Hs'; by apply proc_pcb).
  assert (Hywa : a_pcb a' w = Some y).
  { destruct (decide (w = p)) as [->|Hne]; [by rewrite Hs'|].
    specialize (Ho' w y Hyw Hne). by rewrite Hyp, Z.ltb_irrefl, andb_false_r in Ho'. }
  awp_step. apply (awp_deref w y); [done|intros nx]. unfold get_current. awp_step. awp_step. awp_step.
  rewrite Hc'. apply (awp_deref p x); [done|intros nx']. simpl. rewrite Hk. fold (waits_for k y).
  apply awp_when; intros Hwk.
  - assert (Hne : w <> p).
    { intros ->. pose proof (proc_fun _ _ _ _ Hx Hy) as ->. unfold waits_for in Hwk. by rewrite Hz in Hwk. }
    assert (Hy' : proc a' w y) by (split; [done|rewrite Ht'; by destruct Hyw]).
    apply (awp_wake w y (set_pid_to_wait (-1))); try done.
    { by eapply waiting_not_queued. }
    { unfold waits_for in Hwk. reflect_bool. by intros E; rewrite E in *. }
    { intros z. split; [done|]. split; [done|]. intros []; by constructor. }
    intros a2 Hw2 Hp2 Hb2 Hq2 Hqo2. by eapply waking_step.
  - apply waking_skip; [done|]. intros v z Hz' Hv E. specialize (Hpid _ _ Hz' E). injection Hpid as ->.
    by pose proof (proc_fun _ _ _ _ Hz' Hy) as ->.
Qed.

(** Leaving the critical section. *)
Lemma inv_leave a :
  wf None a -> all_preempt a -> inv (a_update (current_process (base a)) (add_preempt (-1)) a).
Proof.
  intros Hw Hp. destruct (wf_current _ _ Hw) as [x Hx]. constructor; simpl.
  - apply wf_inert; [done|by exists x|apply add_preempt_inert].
  - intros y Hy. apply proc_update_inv in Hy as [[_ (z & Hz & ->)]|[? _]]; [|done].
    by eapply add_preempt_m1, Hp.
  - intros p y Hy Hne. apply proc_update_inv in Hy as [[? _]|[_ Hy]]; [done|]. by eapply Hp.
Qed.

(** The waiting processes are released. *)
Lemma awp_release_waiters a x :
  inv a -> proc a (current_process (base a)) x -> state x = PROCESS_RUNNING ->
  awp release_waiters (fun _ a1 => inv a1 /\ released a (current_process (base a)) (pid x) a1) a.
Proof.
  intros Hinv Hx Hs. set (p := current_process (base a)) in *. unfold release_waiters.
  apply awp_enter; [done|]. intros Hw Hpre _.
  assert (Hx1 : proc (a_enter a) p (add_preempt 1 x)) by by apply proc_update_eq.
  awp_step. awp_step. awp_step. change (current_process (base (a_enter a))) with p.
  apply awp_update; [apply _|by rewrite (proc_pcb _ _ _ Hx1)|].
  set (a2 := a_update p (set_state PROCESS_ZOMBIE) (a_enter a)).
  set (x2 := set_state PROCESS_ZOMBIE (add_preempt 1 x)).
  assert (Hx2 : proc a2 p x2) by by apply proc_update_eq.
  assert (Hw2 : wf None a2).
  { apply (wf_block None None (a_enter a) p _ PROCESS_ZOMBIE _ Hw Hx1); try done; [|by left|].
    - by apply (running_not_queued _ _ _ _ Hw Hx1).
    - intros y. split; [done|]. split; [done|]. intros []; by constructor. }
  assert (Hpre2 : all_preempt a2).
  { apply all_preempt_update; [done|]. intros y Hy. by apply Hpre in Hy. }
  apply awp_bind, (awp_for_loop (fun i => waking a2 p (pid x) i)).
  - constructor; try done. intros w y Hy Hne. destruct (wf_pid _ _ _ _ Hw2 Hy) as [Hr _].
    destruct (Z.ltb_spec (pid y) 0); [lia|]. rewrite andb_false_r. by apply proc_pcb.
  - intros i a' Hi Hwk. apply (awp_wake_waiter a2 p x2); try done. 
  - intros a3 [Hw3 Hp3 Hc3 Ht3 Hs3 Ho3].
    assert (Hx3 : a_pcb a3 p = Some x2) by (rewrite Hs3; by apply proc_pcb).
    apply (awp_preempt_enable x2); [by rewrite Hc3|].
    pose proof (inv_leave a3 Hw3 Hp3) as Hinv4. rewrite Hc3 in *.
    set (a4 := a_update p (add_preempt (-1)) a3) in *.
    split; [done|].
    assert (Htab : forall w, Some w ∈ processes (base a) -> Some w ∈ processes (base a4)).
    { intros w Hin. simpl. by rewrite Ht3. }
    split.
    + eexists. split; [split; [unfold a4; by rewrite a_pcb_update_eq, Hx3|apply Htab; by destruct Hx]|done].
    + intros w y Hy Hne.
      assert (Hy2 : proc a2 w y) by by do 2 (apply proc_update_ne; [done|]).
      specialize (Ho3 w y Hy2 Hne). destruct (wf_pid _ _ _ _ Hw2 Hy2) as [Hr _].
      destruct (Z.ltb_spec (pid y) (0 + Z.of_nat (Z.to_nat N_PROCESSES))); [|lia].
      rewrite andb_true_r in Ho3.
      assert (Hup : a_pcb a4 w = a_pcb a3 w) by by apply a_pcb_update_ne.
      destruct (waits_for (pid x) y).
      * destruct Ho3 as [E Hq]. split; [|done]. split; [by rewrite Hup|apply Htab; by destruct Hy].
      * split; [by rewrite Hup|apply Htab; by destruct Hy].
Qed.

(** [exit_process] releases the waiting processes and calls the scheduler. *)
Lemma awp_exit_process a x :
  inv a -> proc a (current_process (base a)) x -> state x = PROCESS_RUNNING ->
  awp exit_process (fun _ a' => exists a1, inv a1 /\
    released a (current_process (base a)) (pid x) a1 /\ dispatched (proc a1) a') a.
Proof.
  intros Hinv Hx Hs. unfold exit_process. apply awp_bind. eapply awp_mono; [by eapply awp_release_waiters|].
  intros [] a1 [Hi1 Hrel]. eapply awp_mono; [by apply awp_schedule|]. intros [] a' Hd. by exists a1.
Qed.
End Exit.

(** ** Registration *)

Section Register.
Implicit Types (a : astate) (p : pcb_ptr).

(** [process] is a new PCB with a free slot of the process table. *)
Record fresh_process (a : astate) (p : pcb_ptr) (x : PCB) : Prop := mkFresh {
  fresh_pcb : a_pcb a p = Some x;
  fresh_unregistered : Some p ∉ processes (base a);
  fresh_slot : processes (base a) !! Z.to_nat (pid x) = Some None;
  fresh_pid : 0 <= pid x < N_PROCESSES;
  fresh_params : params_ok x;
  fresh_preempt : preempt_ok 1 x;
  fresh_state : state x <> PROCESS_RUNNING;
}.

Definition a_register (p : pcb_ptr) (k level : Z) (a : astate) : astate :=
  a_global (set_queue_level (<[Z.to_nat k := level]> (queue_level (base a))))
    (a_global (set_processes (<[Z.to_nat k := Some p]> (processes (base a)))) a).

Lemma register_proc a p x level p' y :
  fresh_process a p x ->
  proc (a_register p (pid x) level a) p' y <-> (p' = p /\ y = x) \/ proc a p' y.
Proof.
  intros [Hx Hun Hsl Hr _ _ _]. unfold proc, a_pcb, a_register. simpl. split.
  - intros [Hy Hin]. apply list_elem_of_lookup in Hin as [i Hi].
    apply list_lookup_insert_Some in Hi as [(_ & E & _)|[_ Hi]].
    + injection E as <-. left. split; [done|]. unfold a_pcb in Hx. congruence.
    + right. split; [done|]. by eapply list_elem_of_lookup_2.
  - intros [[-> ->]|[Hy Hin]].
    + split; [done|]. apply list_elem_of_lookup. exists (Z.to_nat (pid x)).
      apply list_lookup_insert_eq. by eapply lookup_lt_Some.
    + split; [done|]. apply list_elem_of_lookup in Hin as [i Hi]. apply list_elem_of_lookup. exists i.
      rewrite list_lookup_insert_ne; [done|]. intros E. rewrite E in Hsl. congruence.
Qed.

Lemma fresh_not_queued e a p x : wf e a -> fresh_process a p x -> ~ queued a p.
Proof.
  intros Hw Hf [q Hq]. destruct (wf_ready _ _ Hw _ _ Hq) as (y & [_ Hin] & _).
  by apply (fresh_unregistered _ _ _ Hf).
Qed.

Lemma wf_register a p x level :
  wf None a -> fresh_process a p x -> 0 <= level < ML_MAX_LEVELS ->
  wf (Some p) (a_register p (pid x) level a).
Proof.
  intros Hw Hf Hlev. pose proof (register_proc a p x level) as Hproc. destruct Hw. pose proof Hf as [].
  assert (Hold : forall p' y, proc a p' y -> proc (a_register p (pid x) level a) p' y).
  { intros p' y Hy. apply Hproc; [done|by right]. }
  constructor; simpl; try done.
  - by rewrite length_insert.
  - by rewrite length_insert.
  - intros i p' Hi. apply list_lookup_insert_Some in Hi as [(<- & E & _)|[_ Hi]].
    + injection E as <-. exists x. split; [done|]. lia.
    + by apply wf_table.
  - rewrite list_lookup_insert_ne; [done|]. intros E. rewrite E in *. congruence.
  - destruct wf_current as [y Hy]. exists y. by apply Hold.
  - apply levels_in_range; done.
  - intros q p' Hp'. destruct (wf_ready q p' Hp') as (y & Hy & Hs). exists y. auto.
  - intros p' y Hy Hs Hi Hne. apply Hproc in Hy as [[-> ->]|Hy]; [done| |done].
    by apply (wf_queued p' y).
  - intros p' y Hy Hs. apply Hproc in Hy as [[-> ->]|Hy]; [done| |done].
    by apply (wf_running p' y).
  - intros p' y Hy. apply Hproc in Hy as [[-> ->]|Hy]; [done| |done].
    by apply (wf_params p' y).
Qed.

Lemma start_level_range alg l :
  alg ∈ algorithms -> 0 <= start_level alg l < ML_MAX_LEVELS /\
  (0 <= l < ML_MAX_LEVELS -> start_level alg l = l).
Proof.
  intros Ha. unfold start_level, clamp_to_policy, ML_MAX_LEVELS.
  assert (Hp : ml_policy alg = None \/ exists pol, ml_policy alg = Some pol /\ n_levels pol = 5).
  { unfold algorithms in Ha. repeat (apply elem_of_cons in Ha as [->|Ha]; [simpl; eauto|]).
    by apply elem_of_nil in Ha. }
  destruct Hp as [-> |(pol & -> & ->)]; destruct (Z.ltb_spec l 0), (Z.leb_spec 5 l); simpl;
    repeat match goal with |- context [?a <=? ?b] => destruct (Z.leb_spec a b) end; lia.
Qed.

(** [p] has entered the process table, and nothing else has changed. *)
Definition added (a : astate) (p : pcb_ptr) (x : PCB) (a' : astate) : Prop :=
  wf None a' /\ proc a' p x /\ (state x = PROCESS_READY -> queued a' p) /\
  (forall p' y, p' <> p -> proc a' p' y <-> proc a p' y) /\
  (forall p', p' <> p -> queued a' p' <-> queued a p') /\
  queue_level (base a') !! Z.to_nat (pid x) = Some (start_level (active_algorithm (base a)) (queue_priority x)) /\
  n_processes (base a') = s32 (n_processes (base a) + 1) /\
  processes (base a') = <[Z.to_nat (pid x) := Some p]> (processes (base a)) /\
  (current_process (base a'), ram (base a'), memory_pages (base a')) =
    (current_process (base a), ram (base a), memory_pages (base a)).

Definition registered (a : astate) (p : pcb_ptr) (x : PCB) (a' : astate) : Prop :=
  inv a' /\ added a p x a'.

Lemma added_proc a p x a' p' y :
  added a p x a' -> proc a' p' y -> (p' = p /\ y = x) \/ (p' <> p /\ proc a p' y).
Proof.
  intros (_ & Hx & _ & Ho & _) Hy. destruct (decide (p' = p)) as [->|Hne].
  - left. split; [done|]. exact (proc_fun _ _ _ _ Hy (proc_pcb _ _ _ Hx)).
  - right. split; [done|]. by apply Ho.
Qed.

Lemma added_inv a p x a' : inv a -> fresh_process a p x -> added a p x a' -> inv a'.
Proof.
  intros Hinv Hf Ha. pose proof Ha as (Hw & _ & _ & _ & _ & _ & _ & _ & Ec). injection Ec as Ec _ _.
  constructor; [done|..]; rewrite Ec.
  - intros y Hy. destruct (added_proc _ _ _ _ _ _ Ha Hy) as [[E ->]|[_ Hy']]; [|by apply (inv_current _ Hinv)].
    destruct (wf_current _ _ (inv_wf _ Hinv)) as [z [_ Hz]]. rewrite E in Hz.
    by destruct (fresh_unregistered _ _ _ Hf).
  - intros p' y Hy Hne. destruct (added_proc _ _ _ _ _ _ Ha Hy) as [[-> ->]|[_ Hy']]; [apply (fresh_preempt _ _ _ Hf)|].
    by apply (inv_others _ Hinv p').
Qed.

Lemma added_preempt a p x a' : all_preempt a -> fresh_process a p x -> added a p x a' -> all_preempt a'.
Proof.
  intros Hp Hf Ha p' y Hy. destruct (added_proc _ _ _ _ _ _ Ha Hy) as [[-> ->]|[_ Hy']].
  - apply (fresh_preempt _ _ _ Hf).
  - by eapply Hp.
Qed.

(** The end of [add_process_to_scheduler], once the process is registered and,
    if it is ready, queued. *)
Lemma awp_count a p x a2 :
  let a1 := a_register p (pid x) (start_level (active_algorithm (base a)) (queue_priority x)) a in
  wf None a -> fresh_process a p x -> proc a1 p x ->
  wf None a2 -> (forall p' y, proc a2 p' y <-> proc a1 p' y) ->
  (forall p', p' <> p -> queued a2 p' <-> queued a p') -> (state x = PROCESS_READY -> queued a2 p) ->
  base a2 = set_pcbs (pcbs (base a2)) (base a1) ->
  awp (n ← gets n_processes; modify (set_n_processes (s32 (n + 1)));; mret 0)
    (fun r a' => r = 0 /\ added a p x a') a2.
Proof.
  intros a1 Hw Hf Hx1 Hw2 Hp2 Hq2 Hr2 Hb2. pose proof (fresh_pid _ _ _ Hf) as Hpid. repeat awp_step. split; [done|].
  assert (Hpr : forall p' y, proc a2 p' y -> (p' = p /\ y = x) \/ proc a p' y).
  { intros p' y Hy. apply Hp2, register_proc in Hy; done. }
  split; [|split; [|split; [done|split; [|split; [done|split; [|split; [|split]]]]]]].
  - by apply wf_global.
  - by apply Hp2.
  - intros p' y Hne. split; [|intros Hy; apply Hp2, register_proc; auto].
    intros Hy. by apply Hpr in Hy as [[? _]|Hy].
  - simpl. rewrite Hb2. simpl. apply list_lookup_insert_eq. rewrite (wf_len_levels _ _ Hw). lia.
  - simpl. by rewrite Hb2.
  - simpl. by rewrite Hb2.
  - simpl. by rewrite Hb2.
Qed.

Lemma awp_add a p x :
  wf None a -> fresh_process a p x -> n_processes (base a) < N_PROCESSES ->
  awp (add_process_to_scheduler p) (fun r a' => r = 0 /\ added a p x a') a.
Proof.
  intros Hw Hf Hn. pose proof (fresh_pcb _ _ _ Hf) as Hx.
  pose proof (fresh_pid _ _ _ Hf) as Hpid. unfold add_process_to_scheduler. awp_step. awp_step.
  awp_step. apply (awp_deref p x); [done|intros nx]. simpl.
  destruct (Z.leb_spec N_PROCESSES (n_processes (base a))); [lia|].
  destruct (Z.leb_spec N_PROCESSES (pid x)); [lia|]. simpl.
  awp_step. apply awp_write_array; [done|apply _|rewrite (wf_len_processes _ _ Hw); lia|]. awp_step. awp_step.
  simpl. awp_step.
  apply awp_write_array; [done|apply _|simpl; rewrite (wf_len_levels _ _ Hw); lia|]. simpl.
  destruct (start_level_range (active_algorithm (base a)) (queue_priority x) (wf_alg _ _ Hw)) as [Hlev _].
  pose proof (awp_count a p x) as Hcount. cbv zeta in Hcount.
  set (lv := start_level _ _) in *. change (a_global (set_queue_level _) _) with (a_register p (pid x) lv a).
  pose proof (wf_register _ _ _ _ Hw Hf Hlev) as Hw1. set (a1 := a_register p (pid x) lv a) in *.
  assert (Hx1 : proc a1 p x) by (apply register_proc; [done|by left]).
  pose proof (fresh_not_queued _ _ _ _ Hw Hf) as Hnq.
  awp_step. apply awp_when; intros Hs; reflect_bool.
  - apply (awp_enqueue_process (Some p) p x); [done|done|done|by right|..].
    + intros ->. pose proof (wf_init_entry _ _ Hw) as E0. destruct (fresh_unregistered _ _ _ Hf).
      by eapply list_elem_of_lookup_2.
    + intros a2 Hi Hw2 Hr2. apply Hcount; [done..| |apply (readied_others _ _ _ Hr2)|by intros _; apply Hr2|].
      * intros p' y. rewrite (readied_proc _ _ _ _ _ Hr2).
        rewrite (a_update_id p _ a1 x); [done|by apply proc_pcb|]. destruct x; simpl in *. by subst.
      * by rewrite (readied_base _ _ _ Hr2).
  - assert (Hw2 : wf None a1); [|apply Hcount; done || by destruct (base a1)].
    constructor; try by destruct Hw1.
    intros p' y Hy Hsy Hi _. apply (wf_queued _ _ Hw1 p' y); [done|done|done|]. intros [= ->].
    pose proof (proc_fun _ _ _ _ Hy (proc_pcb _ _ _ Hx1)). congruence.
Qed.

Lemma awp_add_process a p x :
  inv a -> fresh_process a p x -> n_processes (base a) < N_PROCESSES ->
  awp (add_process_to_scheduler p) (fun r a' => r = 0 /\ registered a p x a') a.
Proof.
  intros Hinv Hf Hn. eapply awp_mono; [by apply awp_add; [apply Hinv|..]|].
  intros r a' [-> Ha]. split; [done|]. split; [by eapply added_inv|done].
Qed.
End Register.

(** ** Parameters *)

Section Parameters.
Implicit Types (a : astate) (p : pcb_ptr).

(** The parameter change [sched_set_param] makes, when it accepts one. *)
Definition param_change (param value : Z) (x : PCB) : option (PCB * option Z) :=
  if param =? SCHED_PARAM_PRIORITY then
    if value <? 1 then None else Some (set_priority value x, None)
  else if param =? SCHED_PARAM_TICKETS then
    if value <? 1 then None else Some (set_tickets value x, None)
  else if param =? SCHED_PARAM_QUEUE_PRIORITY then
    if (0 <=? value) && (value <? ML_MAX_LEVELS)
    then Some (set_queue_priority value x, Some value) else None
  else None.

Definition param_set (a : astate) (p : pcb_ptr) (x x' : PCB) (level : option Z) (a' : astate) : Prop :=
  inv a' /\ (forall q, lists a' q = lists a q) /\
  (forall p', a_pcb a' p' = if decide (p' = p) then Some x' else a_pcb a p') /\
  queue_level (base a') =
    match level with
    | Some l => <[Z.to_nat (pid x) := l]> (queue_level (base a))
    | None => queue_level (base a)
    end /\
  processes (base a') = processes (base a).

Lemma param_set_update a p x f :
  inv a -> proc a p x -> inert f -> preempt_disabled (f x) = preempt_disabled x ->
  (forall y, preempt_disabled (f y) = preempt_disabled y) ->
  param_set a p x (f x) None (a_update p f a).
Proof.
  intros Hinv Hx Hf Hd Hd'. split; [by apply inv_inert; [|exists x|..]|]. split; [done|]. split; [|done].
  intros p'. case_decide as E; [subst|by apply a_pcb_update_ne].
  by rewrite a_pcb_update_eq, (proc_pcb _ _ _ Hx).
Qed.

Lemma clamp_idle a value :
  active_algorithm (base a) ∈ algorithms -> 0 <= value < ML_MAX_LEVELS ->
  clamp_to_policy (ml_policy (active_algorithm (base a))) value = value.
Proof.
  intros Ha Hv. destruct (start_level_range _ value Ha) as [_ E]. specialize (E Hv).
  unfold start_level in E. unfold ML_MAX_LEVELS in *.
  destruct (Z.ltb_spec value 0); [lia|]. by destruct (Z.leb_spec 5 value); [lia|].
Qed.

(** The PCBs after a critical section around a change of the level of [p]. *)
Lemma guarded_level_pcb a p x value ls p' :
  inv a -> proc a p x ->
  let cur := current_process (base a) in
  a_pcb (a_update cur (add_preempt (-1)) (a_global (set_queue_level ls) (a_update p (set_queue_priority value) (a_enter a)))) p' =
  if decide (p' = p) then Some (set_queue_priority value x) else a_pcb a p'.
Proof.
  intros Hinv Hx cur. pose proof (inv_wf _ Hinv) as Hw. set (f := set_queue_priority value).
  destruct (wf_current _ _ Hw) as [c Hc]. fold cur in Hc.
  assert (Hpc : preempt_ok 0 c) by by apply (inv_current _ Hinv).
  assert (Hcan : forall u, preempt_disabled u = preempt_disabled c -> add_preempt (-1) (add_preempt 1 u) = u).
  { intros u Hu. unfold add_preempt. simpl. rewrite Hu. unfold preempt_ok in Hpc.
    replace (s32 (preempt_disabled c + 1) + -1) with (s32 (preempt_disabled c + 1) - 1) by lia.
    rewrite s32_succ_pred by lia. rewrite <- Hu. by destruct u. }
  destruct (decide (p' = cur)) as [->|Hnc].
  - rewrite a_pcb_update_eq. change (a_pcb (a_global _ ?a) cur) with (a_pcb a cur).
    case_decide as E.
    + subst p. rewrite a_pcb_update_eq. unfold a_enter. rewrite a_pcb_update_eq, (proc_pcb _ _ _ Hc). simpl.
      pose proof (proc_fun _ _ _ _ Hx (proc_pcb _ _ _ Hc)) as ->.
      change (f (add_preempt 1 c)) with (add_preempt 1 (f c)). by rewrite Hcan.
    + rewrite a_pcb_update_ne by done. unfold a_enter. rewrite a_pcb_update_eq, (proc_pcb _ _ _ Hc). simpl.
      by rewrite Hcan.
  - rewrite a_pcb_update_ne by done. change (a_pcb (a_global _ ?a) p') with (a_pcb a p').
    case_decide as E.
    + subst p'. rewrite a_pcb_update_eq. unfold a_enter. rewrite a_pcb_update_ne by done.
      by rewrite (proc_pcb _ _ _ Hx).
    + rewrite a_pcb_update_ne by done. unfold a_enter. by rewrite a_pcb_update_ne.
Qed.

(** A critical section around a field update of [p]. *)
Lemma awp_guarded_level p x value a Q :
  inv a -> proc a p x -> 0 <= value < ML_MAX_LEVELS ->
  (forall a', param_set a p x (set_queue_priority value x) (Some value) a' -> Q 0 a') ->
  awp (preempt_disable;;
       update p (set_queue_priority (s32 value));;
       x ← deref p;
       write_array queue_level set_queue_level (pid x) (s32 value);;
       preempt_enable;;
       mret 0) Q a.
Proof.
  intros Hinv Hx Hv HQ. pose proof (inv_wf _ Hinv) as Hw. rewrite s32_id by (unfold ML_MAX_LEVELS in *; lia).
  apply awp_enter; [done|]. intros Hw1 Hp1 _. set (cur := current_process (base a)).
  set (f := set_queue_priority value).
  assert (Hx1 : exists y, proc (a_enter a) p y /\ pid y = pid x).
  { unfold a_enter. destruct (decide (p = cur)) as [->|Hne].
    - eexists. split; [by apply proc_update_eq|done].
    - exists x. split; [by apply proc_update_ne|done]. }
  destruct Hx1 as (y & Hy & Epid). destruct (wf_pid _ _ _ _ Hw Hx) as [Hr _].
  pose proof (wf_len_levels _ _ Hw) as Hlen.
  awp_step. apply awp_update; [apply _|by rewrite (proc_pcb _ _ _ Hy)|].
  awp_step. apply (awp_deref p (f y)); [by rewrite a_pcb_update_eq, (proc_pcb _ _ _ Hy)|intros nx]. simpl.
  rewrite Epid. awp_step. apply awp_write_array; [done|apply _|simpl; lia|]. simpl.
  set (ls := <[Z.to_nat (pid x) := value]> (queue_level (base a))).
  set (a2 := a_global (set_queue_level ls) (a_update p f (a_enter a))).
  assert (Hw2 : wf None a2).
  { apply wf_set_levels; [|unfold ls; by rewrite length_insert|].
    - apply wf_inert; [done|by exists y|]. intros z. split; [done|]. split; [done|]. intros []; by constructor.
    - apply levels_in_range; [by apply (wf_levels _ _ Hw)|done]. }
  assert (Hp2 : all_preempt a2).
  { apply (all_preempt_update (a_enter a) p f); [done|]. intros z Hz. by apply Hp1 in Hz. }
  destruct (wf_current _ _ Hw2) as [z Hz].
  awp_step. apply (awp_preempt_enable z); [by apply proc_pcb|]. awp_step. apply HQ.
  split; [by apply inv_leave|]. split; [done|]. split; [|done].
  intros p'. by apply (guarded_level_pcb a p x value ls p').
Qed.

Lemma awp_set_param a p x param value :
  inv a -> proc a p x -> p <> init_process -> value < 2 ^ 31 ->
  awp (sched_set_param (Some p) param value) (fun r a' =>
    match param_change param value x with
    | Some (x', level) => r = 0 /\ param_set a p x x' level a'
    | None => r = -1 /\ a' ≡ a
    end) a.
Proof.
  intros Hinv Hx Hi Hv. unfold sched_set_param, param_change. rewrite decide_False by done.
  pose proof (proc_pcb _ _ _ Hx) as Hxp.
  destruct (param =? SCHED_PARAM_PRIORITY).
  { destruct (Z.ltb_spec value 1); [by apply awp_ret|]. awp_step.
    apply awp_update; [apply _|by rewrite Hxp|]. awp_step. split; [done|].
    apply param_set_update; try done. intros y. split; [done|]. split; [done|]. intros []; constructor; done || lia. }
  destruct (param =? SCHED_PARAM_TICKETS).
  { destruct (Z.ltb_spec value 1); [by apply awp_ret|]. awp_step.
    apply awp_update; [apply _|by rewrite Hxp|]. awp_step. split; [done|].
    apply param_set_update; try done. intros y. split; [done|]. split; [done|]. intros []; constructor; done || lia. }
  destruct (param =? SCHED_PARAM_QUEUE_PRIORITY); [|by apply awp_ret].
  destruct (Z.ltb_spec value 0), (Z.leb_spec 0 value); try lia; simpl; [by apply awp_ret|].
  destruct (Z.leb_spec ML_MAX_LEVELS value), (Z.ltb_spec value ML_MAX_LEVELS); try lia; simpl; [by apply awp_ret|].
  awp_step. awp_step. cbv zeta. rewrite clamp_idle by (done || apply (wf_alg _ _ (inv_wf _ Hinv))).
  apply (awp_guarded_level p x); done.
Qed.
End Parameters.
