(* ===== verification/System.v ===== *)
(** * The kernel as a transition system

    [boot_state] is the state the globals of [libs/scheduler.c] are initialised
    to.  A step of the system is one of the events that reach the scheduler;
    reachable states satisfy the invariant, so the safety of every handler
    holds whenever it is entered. *)

From S2P Require Import Prelude Exec Kernel Queue QueueLogic Sched SchedInv SchedSteps Dispatch Algorithms Lottery Aging Handlers Multilevel Processes.

(** ** The initial state *)

(** The globals of scheduler.c and mm.c before [kernel_main] runs. *)
Definition boot_state (alg : SchedAlgorithm) (timer : nat -> Z) : kstate :=
  {| pcbs := {[ init_process := INIT_PROCESS ]};
     current_process := init_process;
     processes := Some init_process :: replicate (Z.to_nat (N_PROCESSES - 1)) None;
     n_processes := 1;
     ready_queue := QUEUE_INIT;
     ml_queues := replicate (Z.to_nat ML_MAX_LEVELS) QUEUE_INIT;
     queue_level := replicate (Z.to_nat N_PROCESSES) 0;
     active_algorithm := alg;
     lottery_rng_state := lottery_seed;
     ml_ticks_since_boost := 0;
     cpu := zero_context;
     ttbr0 := 0;
     irq_enabled := false;
     system_timer := timer;
     timer_reads := 0;
     memory_pages := ∅;
     ram := fun _ => 0;
     fault_index := -1 |}.

Definition boot_abstract (alg : SchedAlgorithm) (timer : nat -> Z) : astate :=
  mkA (erase (boot_state alg timer)) (fun _ => []).

(** Projects the fields of the boot state without unfolding its arrays. *)
Ltac boot_simpl :=
  cbn [base lists boot_abstract erase set_pcbs set_ready_queue set_ml_queues boot_state pcbs processes
    queue_level ml_queues active_algorithm current_process].

Section Boot.
Context (alg : SchedAlgorithm) (timer : nat -> Z).

Lemma boot_repr : repr (boot_state alg timer) (boot_abstract alg timer).
Proof.
  constructor; cbn [lists boot_abstract]; try done.
  - intros q v Hq. destruct q as [|i]; cbn [queue_at boot_state ready_queue ml_queues] in Hq;
      [by injection Hq as <-|]. apply array_get_Some in Hq as [_ Hq]. apply lookup_replicate in Hq as [-> _]. done.
  - intros q. constructor.
  - intros q1 q2 p Hp. by apply elem_of_nil in Hp.
  - intros q. apply not_elem_of_nil.
Qed.

Lemma boot_proc p x : proc (boot_abstract alg timer) p x <-> p = init_process /\ x = INIT_PROCESS.
Proof.
  unfold proc, a_pcb. boot_simpl. rewrite lookup_fmap. split.
  - intros [Hx Hin]. apply elem_of_cons in Hin as [E|Hin].
    + injection E as ->. rewrite lookup_singleton_eq in Hx. by injection Hx as <-.
    + apply elem_of_replicate in Hin as [Hin _]. done.
  - intros [-> ->]. rewrite lookup_singleton_eq. split; [done|]. by left.
Qed.

Lemma boot_inv : alg ∈ algorithms -> inv (boot_abstract alg timer).
Proof.
  intros Ha. assert (Hinit : proc (boot_abstract alg timer) init_process INIT_PROCESS) by by apply boot_proc.
  constructor; [constructor|..];
    boot_simpl; try done.
  - intros [|i] p Hi; cbn [lookup list_lookup] in Hi.
    + injection Hi as <-. exists INIT_PROCESS. split; [by apply proc_pcb|done].
    + apply lookup_replicate in Hi as [? _]. done.
  - by exists INIT_PROCESS.
  - intros i l Hl. apply lookup_replicate in Hl as [-> _]. done.
  - intros q p Hp. by apply elem_of_nil in Hp.
  - intros p x Hx. by apply boot_proc in Hx as [-> _].
  - intros p x Hx Hs. apply boot_proc in Hx as [-> ->]. done.
  - intros q p Hp. by apply elem_of_nil in Hp.
  - intros p x Hx. apply boot_proc in Hx as [_ ->]. by constructor.
  - intros q. constructor.
  - intros q1 q2 p Hp. by apply elem_of_nil in Hp.
  - intros q. apply not_elem_of_nil.
  - intros x Hx. apply boot_proc in Hx as [_ ->]. unfold preempt_ok. simpl. lia.
  - intros p x Hx Hne. by apply boot_proc in Hx as [-> _].
Qed.
End Boot.

(** ** Events *)

(** The states in which a process waits for an event: somebody else makes it
    READY when the event comes. *)
Definition waiting (st : Z) : bool :=
  bool_decide (PROCESS_WAITING_UART_INPUT <= st <= PROCESS_WAITING_ANOTHER_PROCESS).

(** How a process blocks: it marks itself and calls the scheduler. *)
Definition block_current (st awaited : Z) : K unit :=
  current ← gets current_process;
  update current (set_state st);;
  update current (set_pid_to_wait awaited);;
  schedule.

(** How a waiting process is woken. *)
Definition wake_process (p : pcb_ptr) : K unit :=
  update p (set_state PROCESS_READY);;
  enqueue_process (Some p).

(** [send_signal] of ipc.c. *)
Definition send_signal (destination_process : pcb_ptr) (signal_flag : Z) : K Z :=
  update destination_process (fun x =>
    set_pending_signals (s32 (Z.lor (pending_signals x) (Z.shiftl 1 signal_flag))) x);;
  mret 0.

(** A registered process of a kernel state. *)
Definition process_at (s : kstate) (p : pcb_ptr) (x : PCB) : Prop :=
  pcbs s !! p = Some x /\ Some p ∈ processes s.

(** The allocator hands out a page with the PCB [x]. *)
Definition provide (p : pcb_ptr) (x : PCB) (s : kstate) : kstate := set_pcbs (<[p := x]> (pcbs s)) s.

Lemma registered_compute s p : bool_decide (Some p ∈ processes s) = true -> Some p ∈ processes s.
Proof. apply bool_decide_eq_true. Qed.

Lemma unregistered_compute (l : list (option pcb_ptr)) p : bool_decide (Some p ∈ l) = false -> Some p ∉ l.
Proof. apply bool_decide_eq_false. Qed.

(** One event: the timer fires, a process yields, blocks, exits, is allocated,
    is registered, is woken, is signalled, or has a parameter changed. *)
Inductive step (s s' : kstate) : Prop :=
  | step_tick : handle_timer_tick s = Done tt s' -> step s s'
  | step_yield : schedule s = Done tt s' -> step s s'
  | step_block x st awaited :
      pcbs s !! current_process s = Some x -> state x = PROCESS_RUNNING ->
      current_process s <> init_process -> waiting st = true ->
      block_current st awaited s = Done tt s' -> step s s'
  | step_exit x :
      pcbs s !! current_process s = Some x -> state x = PROCESS_RUNNING ->
      exit_process s = Done tt s' -> step s s'
  | step_wake p x :
      process_at s p x -> waiting (state x) = true -> p <> init_process ->
      wake_process p s = Done tt s' -> step s s'
  | step_signal p x flag :
      process_at s p x -> send_signal p flag s = Done 0 s' -> step s s'
  | step_param p x param value r :
      process_at s p x -> p <> init_process -> value < 2 ^ 31 ->
      sched_set_param (Some p) param value s = Done r s' -> step s s'
  | step_alloc p x :
      pcbs s !! p = None -> s' = provide p x s -> step s s'
  | step_register p x r :
      pcbs s !! p = Some x -> Some p ∉ processes s ->
      processes s !! Z.to_nat (pid x) = Some None -> 0 <= pid x < N_PROCESSES ->
      params_ok x -> preempt_ok 1 x -> state x <> PROCESS_RUNNING -> n_processes s < N_PROCESSES ->
      add_process_to_scheduler p s = Done r s' -> step s s'.

Definition steps : kstate -> kstate -> Prop := rtc step.

(** [p] is a stopped process. *)
Definition stopped (p : pcb_ptr) (a : astate) : Prop :=
  exists x, proc a p x /\ p <> init_process /\ state x = PROCESS_STOPPED.

Section Steps.
Implicit Types (s : kstate) (a : astate) (p : pcb_ptr).

(** What every event guarantees. *)
Definition safe_result (a a' : astate) : Prop :=
  inv a' /\ forall p, stopped p a -> stopped p a'.

Lemma keeps_stopped a a' p : keeps (proc a) a' -> stopped p a -> stopped p a'.
Proof.
  intros Hk (x & Hx & Hi & Hs). destruct (Hk p x Hx Hi) as (y & Hy & Ey & _); [by rewrite Hs|by rewrite Hs|].
  exists y. by rewrite Ey.
Qed.

Lemma safe_dispatched a a1 a' :
  dispatched (proc a1) a' -> (forall p, stopped p a -> stopped p a1) -> safe_result a a'.
Proof. intros (Hi & Hk & _) Hs. split; [done|]. intros p Hp. by eapply keeps_stopped, Hs. Qed.

Lemma stopped_update p f a p' :
  (forall x, proc a p x -> state x <> PROCESS_STOPPED \/ state (f x) = PROCESS_STOPPED) ->
  stopped p' a -> stopped p' (a_update p f a).
Proof.
  intros Hf (x & Hx & Hi & Hs). destruct (decide (p' = p)) as [->|Hne].
  - exists (f x). split; [by apply proc_update_eq|]. split; [done|]. by destruct (Hf x Hx).
  - exists x. split; [by apply proc_update_ne|done].
Qed.

Lemma repr_process_at s a p x : repr s a -> process_at s p x -> proc a p (strip x).
Proof.
  intros Hr [Hx Hin]. split; [by eapply repr_pcb_rev|]. by rewrite (repr_base _ _ Hr).
Qed.

Lemma awp_block st awaited a x :
  inv a -> proc a (current_process (base a)) x -> state x = PROCESS_RUNNING ->
  current_process (base a) <> init_process -> waiting st = true ->
  awp (block_current st awaited) (fun _ => safe_result a) a.
Proof.
  intros Hinv Hx Hs Hi Hst. unfold waiting in Hst. reflect_bool.
  pose proof (inv_wf _ Hinv) as Hw. set (p := current_process (base a)) in *.
  assert (Hst' : st <> PROCESS_READY /\ st <> PROCESS_RUNNING).
  { unfold PROCESS_WAITING_UART_INPUT, PROCESS_WAITING_ANOTHER_PROCESS, PROCESS_READY, PROCESS_RUNNING in *. lia. }
  unfold block_current. awp_step. awp_step. fold p.
  awp_step. apply awp_update; [apply _|by rewrite (proc_pcb _ _ _ Hx)|].
  awp_step. apply awp_update; [apply _|by rewrite a_pcb_update_eq, (proc_pcb _ _ _ Hx)|].
  rewrite a_update_compose. set (f := set_pid_to_wait awaited ∘ set_state st).
  assert (Hinv1 : inv (a_update p f a)).
  { constructor.
    - apply (wf_block None None a p x st f); try (done || apply Hst'); [|by left|].
      + by apply (running_not_queued _ _ _ _ Hw Hx).
      + intros y. split; [done|]. split; [done|]. intros []; by constructor.
    - simpl. fold p. intros y Hy. apply proc_update_inv in Hy as [[_ (z & Hz & ->)]|[? _]]; [|done].
      by apply (inv_current _ Hinv z).
    - simpl. fold p. intros p' y Hy Hne. apply proc_update_inv in Hy as [[? _]|[_ Hy]]; [done|].
      by apply (inv_others _ Hinv p'). }
  eapply awp_mono; [by apply awp_schedule|]. intros [] a' Hd. apply (safe_dispatched _ _ _ Hd).
  intros q. apply stopped_update. intros y Hy. left.
  rewrite (proc_fun _ _ _ _ Hy (proc_pcb _ _ _ Hx)). by rewrite Hs.
Qed.

(** Changing one process without touching the invariant. *)
Lemma inv_readied p a a' x :
  inv a -> proc a p x -> wf None a' -> readied p a a' -> inv a'.
Proof.
  intros Hinv Hx Hw Hr. pose proof (readied_base _ _ _ Hr) as Hb.
  assert (Hpre : forall q y, proc a' q y -> exists z, proc a q z /\ preempt_disabled y = preempt_disabled z).
  { intros q y Hy. apply (readied_proc _ _ _ _ _ Hr) in Hy.
    apply proc_update_inv in Hy as [[-> (z & Hz & ->)]|[_ Hy]]; by eexists. }
  assert (Hc : current_process (base a') = current_process (base a)) by by rewrite Hb.
  constructor; [done|..]; rewrite Hc; unfold preempt_ok.
  - intros y Hy. apply Hpre in Hy as (z & Hz & ->). by apply (inv_current _ Hinv).
  - intros q y Hy Hne. apply Hpre in Hy as (z & Hz & ->). by apply (inv_others _ Hinv q).
Qed.

(** Waking a process: it is READY and queued, the others are as they were. *)
Lemma awp_wake_readied p x a :
  inv a -> proc a p x -> waiting (state x) = true -> p <> init_process ->
  awp (wake_process p) (fun _ a' => inv a' /\ readied p a a') a.
Proof.
  intros Hinv Hx Hst Hi. unfold waiting in Hst. reflect_bool. pose proof (inv_wf _ Hinv) as Hw.
  assert (Hq : ~ queued a p).
  { intros [q Hq]. destruct (wf_ready _ _ Hw _ _ Hq) as (y & Hy & Hsy).
    rewrite (proc_fun _ _ _ _ Hx (proc_pcb _ _ _ Hy)), Hsy in Hst.
    unfold PROCESS_WAITING_ANOTHER_PROCESS, PROCESS_READY in Hst. lia. }
  unfold wake_process. awp_step. apply awp_update; [apply _|by rewrite (proc_pcb _ _ _ Hx)|].
  set (a1 := a_update p (set_state PROCESS_READY) a).
  assert (Hw1 : wf (Some p) a1).
  { apply (wf_update None (Some p) a p _ x); try done. destruct (wf_params _ _ Hw p x Hx). by constructor. }
  apply (awp_enqueue_process (Some p) p (set_state PROCESS_READY x)); try done; [by apply proc_update_eq|by right|].
  intros a' _ Hw' Hr.
  assert (Hr' : readied p a a').
  { destruct Hr as [Hb Hq' Ho]. constructor; [|done|done]. rewrite Hb. unfold a1.
    by rewrite a_update_compose. }
  split; [|done]. by eapply inv_readied.
Qed.

Lemma awp_wake_process p x a :
  inv a -> proc a p x -> waiting (state x) = true -> p <> init_process ->
  awp (wake_process p) (fun _ a' => safe_result a a' /\ queued a' p) a.
Proof.
  intros Hinv Hx Hst Hi. eapply awp_mono; [by apply (awp_wake_readied p x)|].
  intros _ a' [Hinv' Hr]. unfold waiting in Hst. reflect_bool.
  split; [|by apply (readied_queued _ _ _ Hr)]. split; [done|].
  intros q Hsq. apply (stopped_update p (set_state PROCESS_READY)) in Hsq as (y & Hy & ?).
  - exists y. split; [|done]. by apply (readied_proc _ _ _ _ _ Hr).
  - intros y Hy. left. rewrite (proc_fun _ _ _ _ Hy (proc_pcb _ _ _ Hx)). intros E. rewrite E in Hst.
    unfold PROCESS_WAITING_ANOTHER_PROCESS, PROCESS_STOPPED in Hst. lia.
Qed.
End Steps.

Section Provide.
Implicit Types (s : kstate) (a : astate) (p : pcb_ptr).

Definition a_provide (p : pcb_ptr) (x : PCB) (a : astate) : astate :=
  a_global (provide p (strip x)) a.

Lemma seg_insert m p x hd l tl : p ∉ l -> seg m hd l tl -> seg (<[p := x]> m) hd l tl.
Proof.
  revert hd. induction l as [|h l IH]; intros hd Hp; simpl; [done|].
  apply not_elem_of_cons in Hp as [Hne Hp]. intros (-> & y & Hy & Hs). split; [done|].
  exists y. split; [by rewrite lookup_insert_ne|by apply IH].
Qed.

Lemma repr_provide p x s a :
  repr s a -> (forall q, p ∉ lists a q) -> repr (provide p x s) (a_provide p x a).
Proof.
  intros [Hb Hq Ha Hn Hd Hi] Hp. constructor; try done.
  - simpl. rewrite Hb. unfold erase, provide, set_pcbs; simpl. f_equal. by rewrite fmap_insert.
  - intros q v Hv. destruct (Hq q v) as [Hs Ht]; [by destruct q|]. split; [|done].
    apply seg_insert; [apply Hp|done].
Qed.

Lemma proc_provide p x a p' y :
  Some p ∉ processes (base a) -> proc (a_provide p x a) p' y <-> proc a p' y.
Proof.
  intros Hp. unfold proc, a_pcb. simpl. split; intros [Hy Hin]; (split; [|done]).
  - by rewrite lookup_insert_ne in Hy by (intros ->; done).
  - by rewrite lookup_insert_ne by (intros ->; done).
Qed.

Lemma wf_provide e p x a : wf e a -> Some p ∉ processes (base a) -> wf e (a_provide p x a).
Proof.
  intros Hw Hp. pose proof (fun p' y => proc_provide p x a p' y Hp) as Hproc.
  destruct Hw. constructor; try done.
  - intros i p' Hi. destruct (wf_table i p' Hi) as (y & Hy & E). exists y. split; [|done].
    unfold a_pcb. simpl. rewrite lookup_insert_ne; [done|]. intros ->. apply Hp.
    by eapply list_elem_of_lookup_2.
  - destruct wf_current as [y Hy]. exists y. by apply Hproc.
  - intros q p' Hp'. destruct (wf_ready q p' Hp') as (y & Hy & E). exists y. by rewrite Hproc.
  - intros p' y Hy. apply Hproc in Hy. by apply wf_queued.
  - intros p' y Hy. apply Hproc in Hy. by apply wf_running.
  - intros p' y Hy. apply Hproc in Hy. by apply wf_params with p'.
Qed.

Lemma inv_provide p x a : inv a -> Some p ∉ processes (base a) -> inv (a_provide p x a).
Proof.
  intros [Hw Hc Ho] Hp. pose proof (fun p' y => proc_provide p x a p' y Hp) as Hproc.
  constructor; [by apply wf_provide|..].
  - intros y Hy. apply Hproc in Hy. by apply Hc.
  - intros p' y Hy. apply Hproc in Hy. by apply (Ho p').
Qed.
End Provide.

Section Safety.
Implicit Types (s : kstate) (a : astate) (p : pcb_ptr).

Lemma safe_run {A} (m : K A) (Q : A -> astate -> Prop) s s' a r :
  repr s a -> awp m Q a -> m s = Done r s' -> (forall r a', Q r a' -> safe_result a a') ->
  exists a', repr s' a' /\ safe_result a a'.
Proof.
  intros Hr Hm E HQ. destruct (awp_elim _ _ _ _ Hm Hr) as (r' & s1 & a' & E' & Hr' & HQ').
  rewrite E in E'. injection E' as <- <-. exists a'. eauto.
Qed.

Lemma keeps_safe a a' : inv a' -> keeps (proc a) a' -> safe_result a a'.
Proof. intros Hi Hk. split; [done|]. intros p. by apply keeps_stopped. Qed.

Lemma released_stopped a p k a1 x q :
  proc a p x -> state x = PROCESS_RUNNING -> released a p k a1 -> stopped q a -> stopped q a1.
Proof.
  intros Hx Hs [_ Hrel] (y & Hy & Hi & Hsy).
  assert (q <> p) by (intros ->; rewrite (proc_fun _ _ _ _ Hx (proc_pcb _ _ _ Hy)), Hsy in Hs; done).
  specialize (Hrel q y Hy H). unfold waits_for in Hrel. rewrite Hsy in Hrel. by exists y.
Qed.

Lemma awp_send_signal p x flag a :
  inv a -> proc a p x -> awp (send_signal p flag) (fun _ => safe_result a) a.
Proof.
  intros Hinv Hx. unfold send_signal. awp_step.
  apply awp_update; [apply _|by rewrite (proc_pcb _ _ _ Hx)|]. awp_step. split.
  - apply inv_inert; [done|by exists x| |done]. intros y. split; [done|]. split; [done|]. intros []; by constructor.
  - intros q. apply stopped_update. intros y Hy. destruct (decide (state y = PROCESS_STOPPED)); auto.
Qed.

Lemma set_param_safe a p x param value r a' :
  inv a -> proc a p x ->
  match param_change param value x with
  | Some (x', level) => r = 0 /\ param_set a p x x' level a'
  | None => r = -1 /\ a' ≡ a
  end -> safe_result a a'.
Proof.
  intros Hinv Hx. assert (Hstate : forall x' l, param_change param value x = Some (x', l) -> state x' = state x).
  { intros x' l. unfold param_change. repeat case_match; intros E; simplify_eq; done. }
  destruct (param_change param value x) as [[x' l]|].
  - intros [_ (Hi & _ & Hp & _ & Ht)]. split; [done|]. intros q (y & Hy & Hqi & Hs).
    exists (if decide (q = p) then x' else y). split; [|split; [done|]].
    + split; [rewrite Hp; case_decide; [done|by apply proc_pcb]|].
      rewrite Ht. by destruct Hy.
    + case_decide; [|done]. subst. rewrite (Hstate _ _ eq_refl).
      by rewrite (proc_fun _ _ _ _ Hx (proc_pcb _ _ _ Hy)).
  - intros [_ E]. split; [by rewrite E|]. intros q (y & Hy & ?). exists y. by rewrite E.
Qed.

(** Every event leads from a well-formed state to a well-formed state, and
    leaves stopped processes stopped. *)
Lemma step_safe s s' a :
  repr s a -> inv a -> step s s' -> exists a', repr s' a' /\ safe_result a a'.
Proof.
  intros Hr Hinv Hstep. pose proof (inv_wf _ Hinv) as Hw. destruct (wf_current _ _ Hw) as [c Hc].
  assert (Ecur : current_process (base a) = current_process s) by by rewrite (repr_base _ _ Hr).
  assert (Hcur : forall x, pcbs s !! current_process s = Some x -> c = strip x).
  { intros x Hx. rewrite Ecur in Hc. apply (proc_fun _ _ _ _ Hc). by eapply repr_pcb_rev. }
  destruct Hstep as [E|E|x st k Hx Hs Hi Hst E|x Hx Hs E|p x Hx Hst Hi E|p x flag Hx E|
    p x param value r Hx Hi Hv E|p x Hx ->|p x r Hx Hun Hsl Hp Hok Hpre Hst Hn E].
  - eapply safe_run; [done|by eapply (awp_timer_tick a c); [|apply proc_pcb]|exact E|].
    intros [] a' (Hi & Hk & _). by apply keeps_safe.
  - eapply safe_run; [done|by apply awp_schedule|exact E|]. intros [] a' (Hi & Hk & _). by apply keeps_safe.
  - specialize (Hcur x Hx) as ->. rewrite <- Ecur in Hi.
    eapply safe_run; [done|by eapply (awp_block st k a)|exact E|done].
  - specialize (Hcur x Hx) as ->.
    eapply safe_run; [done|by eapply (awp_exit_process a (strip x))|exact E|].
    intros [] a' (a1 & Hi1 & Hrel & Hd). apply (safe_dispatched _ _ _ Hd).
    intros q. by eapply released_stopped.
  - pose proof (repr_process_at _ _ _ _ Hr Hx) as Hx'.
    eapply safe_run; [done|by eapply (awp_wake_process p (strip x) a)|exact E|]. by intros [] a' [? _].
  - pose proof (repr_process_at _ _ _ _ Hr Hx) as Hx'.
    eapply safe_run; [done|by eapply (awp_send_signal p (strip x) flag a)|exact E|done].
  - pose proof (repr_process_at _ _ _ _ Hr Hx) as Hx'.
    eapply safe_run; [done|by eapply (awp_set_param a p (strip x) param value)|exact E|].
    intros r' a'. by apply set_param_safe.
  - assert (Hun : Some p ∉ processes (base a)).
    { intros Hin. apply list_elem_of_lookup in Hin as [i Hin].
      destruct (wf_table _ _ Hw _ _ Hin) as (y & Hy & _).
      destruct (repr_pcb _ _ _ _ Hr Hy) as (z & Hz & _). congruence. }
    exists (a_provide p x a). split; [apply repr_provide; [done|]|].
    { intros q Hq. destruct (wf_ready _ _ Hw _ _ Hq) as (y & [_ Hin] & _). done. }
    split; [by apply inv_provide|]. intros q (y & Hy & ?). exists y. split; [|done]. by apply proc_provide.
  - assert (Hf : fresh_process a p (strip x)).
    { pose proof (repr_base _ _ Hr) as Hb.
      constructor; rewrite ?Hb; try done; [by eapply repr_pcb_rev|].
      destruct Hok. by constructor. }
    eapply safe_run; [done|eapply (awp_add_process a p (strip x)); [done|done|by rewrite (repr_base _ _ Hr)]|exact E|].
    intros r' a' [_ (Hi' & _ & Hp' & _ & Ho & _)]. split; [done|]. intros q (y & Hy & Hqi & Hs).
    exists y. split; [|done]. apply Ho; [|done]. intros ->.
    apply (fresh_unregistered _ _ _ Hf). by destruct Hy.
Qed.
End Safety.

(** ** Concrete states

    States for the examples: the boot state with three processes created by
    [add_process_to_scheduler]. *)


(** The processes linked from [hd], for at most [fuel] links. *)
Fixpoint chase (fuel : nat) (m : gmap pcb_ptr PCB) (hd : option pcb_ptr) : list pcb_ptr :=
  match fuel, hd with
  | S fuel, Some p => p :: chase fuel m (m !! p ≫= next_ready)
  | _, _ => []
  end.

Lemma seg_chase m fuel hd l :
  seg m hd l None -> (length l <= fuel)%nat -> chase fuel m hd = l.
Proof.
  revert hd l. induction fuel as [|fuel IH]; intros hd [|p l]; simpl; try done.
  - intros _ ?. lia.
  - by intros -> _.
  - intros (-> & x & Hx & Hs) Hl. f_equal. rewrite Hx. simpl. apply IH; [done|lia].
Qed.

(** The lists a kernel state represents can be read off it. *)
Lemma repr_chase s a e q v :
  repr s a -> wf e a -> queue_at s q = Some v ->
  lists a q = chase (Z.to_nat N_PROCESSES) (pcbs s) (q_head v).
Proof.
  intros Hr Hw Hv. destruct (repr_queue _ _ Hr q v Hv) as [Hs _]. symmetry. apply seg_chase; [done|].
  by eapply queue_length.
Qed.

(** Three processes: [A] has a stop signal pending and an expired counter,
    [B] and [C] differ in their parameters. *)
Definition demo_pcb (k cnt prio tick burst level sig : Z) : PCB :=
  set_pid k (set_counter cnt (set_priority prio (set_tickets tick (set_est_burst burst
    (set_queue_priority level (set_pending_signals sig (set_preempt_disabled 1
      (set_state PROCESS_READY zero_PCB)))))))).

Definition demo_A : PCB := demo_pcb 1 0 3 20 9 2 4.
Definition demo_B : PCB := demo_pcb 2 (-5) 1 5 4 0 0.
Definition demo_C : PCB := demo_pcb 3 (-5) 2 75 6 3 0.

Definition demo_program : K unit :=
  modify (provide (page_pcb 1) demo_A);; add_process_to_scheduler (page_pcb 1);;
  modify (provide (page_pcb 2) demo_B);; add_process_to_scheduler (page_pcb 2);;
  modify (provide (page_pcb 3) demo_C);; add_process_to_scheduler (page_pcb 3);;
  mret tt.

(** The value the timer register holds in the examples. *)
Definition demo_timer : nat -> Z := fun n => 1000 * Z.of_nat n.

Definition demo_state (alg : SchedAlgorithm) : kstate :=
  let s := boot_state alg demo_timer in final (demo_program s) s.

Definition demo_abstract (alg : SchedAlgorithm) : astate :=
  mkA (erase (demo_state alg))
    (fun q => from_option (fun v => chase (Z.to_nat N_PROCESSES) (pcbs (demo_state alg)) (q_head v)) []
      (queue_at (demo_state alg) q)).

Section Demo.
Implicit Types (s : kstate) (a : astate).

Lemma awp_provide p x Q a :
  inv a -> Some p ∉ processes (base a) -> (forall q, p ∉ lists a q) ->
  (inv (a_provide p x a) -> Q tt (a_provide p x a)) -> awp (modify (provide p x)) Q a.
Proof.
  intros Hinv Hp Hq HQ s Hr. apply wp_modify. exists (a_provide p x a). split; [by apply repr_provide|].
  by apply HQ, inv_provide.
Qed.

(** Creating one more process. *)
Lemma awp_spawn {C} p x k (rest : K C) Q a :
  inv a -> Some p ∉ processes (base a) -> strip x = x ->
  processes (base a) !! Z.to_nat k = Some None -> pid x = k -> 0 <= k < N_PROCESSES ->
  params_ok x -> preempt_ok 1 x -> state x <> PROCESS_RUNNING ->
  n_processes (base a) < N_PROCESSES ->
  (forall a', inv a' -> processes (base a') = <[Z.to_nat k := Some p]> (processes (base a)) ->
    n_processes (base a') = s32 (n_processes (base a) + 1) -> awp rest Q a') ->
  awp (modify (provide p x);; add_process_to_scheduler p;; rest) Q a.
Proof.
  intros Hinv Hp Hx Hsl Hk Hr Hok Hpre Hst Hn HQ. apply awp_bind.
  apply awp_provide; [done|done| |].
  { intros q Hq. destruct (wf_ready _ _ (inv_wf _ Hinv) _ _ Hq) as (y & [_ Hin] & _). done. }
  intros Hinv1. apply awp_bind.
  eapply awp_mono; [apply (awp_add_process _ p x); [done| |done]|].
  - constructor; try done; [|by rewrite Hk|by rewrite Hk]. unfold a_pcb. simpl. by rewrite lookup_insert_eq, Hx.
  - intros r a' [_ (Hi' & _ & _ & _ & _ & _ & _ & Hn' & Ht' & _)]. apply HQ; [done|by rewrite Ht', Hk|done].
Qed.

Lemma demo_good alg : alg ∈ algorithms -> awp demo_program (fun _ => inv) (boot_abstract alg demo_timer).
Proof.
  intros Ha. unfold demo_program.
  assert (Hpar : forall k c pr t b lv sg, 1 <= pr < 100 -> 1 <= t < 100 -> -100 <= c < 100 ->
    params_ok (demo_pcb k c pr t b lv sg)) by (intros; constructor; simpl; lia).
  assert (Hpre : forall k c pr t b lv sg, preempt_ok 1 (demo_pcb k c pr t b lv sg))
    by (intros; unfold preempt_ok; simpl; lia).
  apply (awp_spawn _ _ 1); [by apply boot_inv|by apply unregistered_compute|done|done|done|done|by apply Hpar|apply Hpre|done|done|].
  intros a1 H1 Ht1 Hn1.
  apply (awp_spawn _ _ 2); rewrite ?Ht1, ?Hn1; [done|by apply unregistered_compute|done|done|done|done|by apply Hpar|apply Hpre|done|done|].
  intros a2 H2 Ht2 Hn2.
  apply (awp_spawn _ _ 3); rewrite ?Ht2, ?Hn2; [done|by apply unregistered_compute|done|done|done|done|by apply Hpar|apply Hpre|done|done|].
  intros a3 H3 _ _. by apply awp_ret.
Qed.

Lemma demo_ok alg : alg ∈ algorithms -> repr (demo_state alg) (demo_abstract alg) /\ inv (demo_abstract alg).
Proof.
  intros Ha. destruct (awp_elim _ _ _ _ (demo_good alg Ha) (boot_repr alg demo_timer))
    as ([] & s' & a' & E & Hr & Hi).
  assert (Hs : demo_state alg = s') by (unfold demo_state; by rewrite E).
  assert (Heq : a' ≡ demo_abstract alg).
  { split; [simpl; rewrite Hs; apply (repr_base _ _ Hr)|]. intros q. simpl. rewrite Hs.
    destruct (queue_at s' q) as [v|] eqn:Hv; simpl.
    - by apply (repr_chase _ _ _ _ _ Hr (inv_wf _ Hi)).
    - by apply (repr_absent _ _ Hr). }
  rewrite Hs in *. by rewrite <- Heq.
Qed.
End Demo.

Example demo_lists : lists (demo_abstract sched_sjf) RQ = [page_pcb 2; page_pcb 3; page_pcb 1] /\
  lists (demo_abstract sched_mlfq) (ML 2) = [page_pcb 1].
Proof. split; vm_compute; reflexivity. Qed.

(** Reachability from the initial state. *)
Definition reachable (alg : SchedAlgorithm) (timer : nat -> Z) (s : kstate) : Prop :=
  steps (boot_state alg timer) s.

Lemma steps_safe s s' a :
  repr s a -> inv a -> steps s s' ->
  exists a', repr s' a' /\ inv a' /\ forall p, stopped p a -> stopped p a'.
Proof.
  intros Hr Hi Hs. revert a Hr Hi. induction Hs as [s|s s1 s' Hst _ IH]; intros a Hr Hi.
  - by exists a.
  - destruct (step_safe _ _ _ Hr Hi Hst) as (a1 & Hr1 & Hi1 & Hp1).
    destruct (IH a1 Hr1 Hi1) as (a' & ? & ? & Hp). exists a'. auto.
Qed.

Lemma reachable_inv alg timer s :
  alg ∈ algorithms -> reachable alg timer s -> exists a, repr s a /\ inv a.
Proof.
  intros Ha Hs. destruct (steps_safe _ _ _ (boot_repr alg timer) (boot_inv alg timer Ha) Hs) as (a & ? & ? & _).
  by exists a.
Qed.

(** The example state is reachable. *)
Lemma demo_reachable : reachable sched_round_robin demo_timer (demo_state sched_round_robin).
Proof.
  set (s0 := boot_state sched_round_robin demo_timer).
  set (s1 := provide (page_pcb 1) demo_A s0).
  set (s2 := final (add_process_to_scheduler (page_pcb 1) s1) s1).
  set (s3 := provide (page_pcb 2) demo_B s2).
  set (s4 := final (add_process_to_scheduler (page_pcb 2) s3) s3).
  set (s5 := provide (page_pcb 3) demo_C s4).
  set (s6 := final (add_process_to_scheduler (page_pcb 3) s5) s5).
  assert (Hpar : forall k c pr t b lv sg, 1 <= pr < 100 -> 1 <= t < 100 -> -100 <= c < 100 ->
    params_ok (demo_pcb k c pr t b lv sg)) by (intros; constructor; simpl; lia).
  assert (Hpre : forall k c pr t b lv sg, preempt_ok 1 (demo_pcb k c pr t b lv sg))
    by (intros; unfold preempt_ok; simpl; lia).
  assert (Hreg : forall s s' k c pr t b lv sg, 1 <= pr < 100 -> 1 <= t < 100 -> -100 <= c < 100 ->
    0 <= k < N_PROCESSES ->
    pcbs s !! page_pcb k = Some (demo_pcb k c pr t b lv sg) ->
    bool_decide (Some (page_pcb k) ∈ processes s) = false ->
    processes s !! Z.to_nat k = Some None -> n_processes s < N_PROCESSES ->
    add_process_to_scheduler (page_pcb k) s = Done 0 s' -> step s s').
  { intros s s' k c pr t b lv sg H1 H2 H3 Hk Hp Hin Hsl Hn E. apply bool_decide_eq_false in Hin.
    eapply (step_register _ _ _ _ 0 Hp); try done. by apply Hpar. }
  apply (rtc_l _ _ s1); [by eapply (step_alloc _ _ (page_pcb 1) demo_A)|].
  apply (rtc_l _ _ s2); [apply (Hreg s1 s2 1 0 3 20 9 2 4); solve [lia|vm_compute; done]|].
  apply (rtc_l _ _ s3); [by eapply (step_alloc _ _ (page_pcb 2) demo_B)|].
  apply (rtc_l _ _ s4); [apply (Hreg s3 s4 2 (-5) 1 5 4 0 0); solve [lia|vm_compute; done]|].
  apply (rtc_l _ _ s5); [by eapply (step_alloc _ _ (page_pcb 3) demo_C)|].
  apply (rtc_l _ _ s6); [apply (Hreg s5 s6 3 (-5) 2 75 6 3 0); solve [lia|vm_compute; done]|].
  assert (demo_state sched_round_robin = s6) as -> by (vm_compute; reflexivity).
  apply rtc_refl.
Qed.
