(* ===== verification/Waking.v ===== *)
(** * Waking the processes that wait for something

    The loops of [receive_message] and of the UART interrupt go over the process
    table and make the processes in one of the waiting states READY.  Their
    common step is [wake_if]; [woken] says what a prefix of such a loop does. *)

From S2P Require Import Prelude Exec Kernel Queue QueueLogic Sched SchedInv SchedSteps Dispatch Algorithms Handlers Processes System.

(** One iteration: an empty entry is dereferenced like any other. *)
Definition wake_if (st i : Z) : K unit :=
  o ← read_array processes i;
  p ← non_null o;
  x ← deref p;
  when (state x =? st) (wake_process p).

Definition asleep (st : Z) (x : PCB) : bool := state x =? st.

(** [a'] is [a] with the processes in state [st], of identifiers below [i],
    READY and queued. *)
Record woken (st i : Z) (a a' : astate) : Prop := mkWoken {
  woken_inv : inv a';
  woken_ram : ram (base a') = ram (base a);
  woken_table : processes (base a') = processes (base a);
  woken_current : current_process (base a') = current_process (base a);
  woken_count : n_processes (base a') = n_processes (base a);
  woken_procs p x : proc a p x ->
    if asleep st x && (pid x <? i)
    then proc a' p (set_state PROCESS_READY x) /\ queued a' p else proc a' p x;
  woken_queued p : queued a p -> queued a' p;
}.

Section Waking.
Context (st : Z) (Hst : waiting st = true).
Implicit Types (a : astate) (p : pcb_ptr) (x : PCB) (s : kstate).

Lemma asleep_not_queued a p x : inv a -> proc a p x -> asleep st x = true -> ~ queued a p.
Proof using Hst.
  intros Hinv Hx E [q Hq]. destruct (wf_ready _ _ (inv_wf _ Hinv) _ _ Hq) as (y & Hy & Hsy).
  rewrite (proc_fun _ _ _ _ Hx (proc_pcb _ _ _ Hy)) in E. unfold asleep in E. rewrite Hsy in E.
  apply Z.eqb_eq in E. rewrite <- E in Hst. by vm_compute in Hst.
Qed.

Lemma woken_start a : inv a -> woken st 0 a a.
Proof.
  intros Hinv. constructor; try done. intros p x Hx.
  destruct (wf_pid _ _ _ _ (inv_wf _ Hinv) Hx) as [Hp _]. destruct (Z.ltb_spec (pid x) 0); [lia|].
  by rewrite andb_false_r.
Qed.

Lemma woken_skip i a a' p x :
  inv a -> woken st i a a' -> proc a p x -> pid x = i -> asleep st x = false -> woken st (i + 1) a a'.
Proof.
  intros Hinv Hk Hx Hp Hn. destruct Hk as [H1 H2 H3 H4 H5 Hk H6]. constructor; try done. intros q y Hy.
  specialize (Hk q y Hy). destruct (decide (pid y = i)) as [E|E]; [|by rewrite ltb_succ_ne].
  assert (q = p) as -> by (eapply wf_pid_inj; [apply (inv_wf _ Hinv)|done|done|congruence]).
  rewrite (proc_fun _ _ _ _ Hy (proc_pcb _ _ _ Hx)) in *. by rewrite Hn in *.
Qed.

Lemma woken_step i a a' a2 p x :
  inv a -> woken st i a a' -> proc a p x -> p <> init_process -> pid x = i -> asleep st x = true ->
  inv a2 -> readied p a' a2 -> woken st (i + 1) a a2.
Proof.
  intros Hinv [H1 H2 H3 H4 H5 Hk H6] Hx Hi Hp Hn Hinv2 Hr. pose proof (readied_base _ _ _ Hr) as Hb.
  constructor; [done|by rewrite Hb|by rewrite Hb|by rewrite Hb|by rewrite Hb|..].
  2: { intros q Hq. destruct (decide (q = p)) as [->|]; [by apply (readied_queued _ _ _ Hr)|].
    by apply (readied_others _ _ _ Hr), H6. }
  intros q y Hy. specialize (Hk q y Hy). destruct (decide (q = p)) as [->|Hne].
  - rewrite (proc_fun _ _ _ _ Hy (proc_pcb _ _ _ Hx)) in *. rewrite Hn, Hp, Z.ltb_irrefl in Hk. simpl in Hk.
    rewrite Hn, (proj2 (Z.ltb_lt _ _)) by lia. simpl. split; [|by apply (readied_queued _ _ _ Hr)].
    apply (readied_proc _ _ _ _ _ Hr). by apply proc_update_eq.
  - rewrite ltb_succ_ne.
    2: { intros E. apply Hne. eapply wf_pid_inj; [apply (inv_wf _ Hinv)|done|done|congruence]. }
    destruct (asleep st y && (pid y <? i)); rewrite (readied_proc _ _ _ _ _ Hr), proc_update_ne by done; [|done].
    destruct Hk as [? ?]. split; [done|]. by apply (readied_others _ _ _ Hr).
Qed.

Lemma awp_wake_if i p a a' :
  inv a -> array_get (processes (base a)) i = Some (Some p) -> (forall x, proc a init_process x -> asleep st x = false) ->
  0 <= i < N_PROCESSES -> woken st i a a' ->
  awp (wake_if st i) (fun _ => woken st (i + 1) a) a'.
Proof using Hst.
  intros Hinv Hp Hi0 Hi Hk. pose proof Hk as [Hinv' _ Ht _ _ Hs _]. unfold wake_if.
  awp_step. eapply awp_read_array; [done|by rewrite Ht|]. awp_step. eapply awp_defined; [done|]. awp_step.
  pose proof Hp as Hp'. apply array_get_Some in Hp' as [_ Hp'].
  destruct (wf_table _ _ (inv_wf _ Hinv) _ _ Hp') as (x & Hx & Hpid). rewrite Z2Nat.id in Hpid by lia.
  assert (Hpx : proc a p x) by (split; [done|by eapply list_elem_of_lookup_2]).
  pose proof (Hs p x Hpx) as Hx'. rewrite Hpid, Z.ltb_irrefl, andb_false_r in Hx'.
  eapply awp_deref; [by apply proc_pcb, Hx'|]. intros nx. simpl state. fold (asleep st x).
  apply awp_when; intros E.
  - assert (Hpi : p <> init_process) by (intros ->; by rewrite (Hi0 x) in E).
    eapply awp_mono; [apply (awp_wake_readied p x _ Hinv' Hx')|]; [|done|].
    + unfold asleep in E. by apply Z.eqb_eq in E as ->.
    + intros _ a2 [? ?]. by eapply woken_step.
  - by eapply woken_skip.
Qed.

(** A loop over [n] entries without an empty one. *)
Lemma awp_wake_loop n a :
  inv a -> 0 <= n <= N_PROCESSES ->
  (forall i, 0 <= i < n -> exists p, array_get (processes (base a)) i = Some (Some p)) ->
  (forall x, proc a init_process x -> asleep st x = false) ->
  awp (for_loop (Z.to_nat n) 0 (wake_if st)) (fun _ => woken st n a) a.
Proof using Hst.
  intros Hinv Hn Hf Hi. apply (awp_for_loop (fun i => woken st i a)); [by apply woken_start| |].
  - intros i a' Hi' Hk. rewrite Z.add_0_l, Z2Nat.id in Hi' by lia. destruct (Hf i Hi') as [p Hp].
    apply (awp_wake_if i p); try done. lia.
  - intros a' Hk. by rewrite Z.add_0_l, Z2Nat.id in Hk by lia.
Qed.

(** A loop over an empty entry faults. *)
Lemma wake_loop_faults n from i a a' s s' r :
  inv a -> (forall y, proc a init_process y -> asleep st y = false) ->
  0 <= from -> from + Z.of_nat n <= N_PROCESSES -> from <= i < from + Z.of_nat n ->
  array_get (processes (base a)) i = Some None ->
  repr s a' -> woken st from a a' -> for_loop n from (wake_if st) s <> Done r s'.
Proof using Hst.
  intros Hinv Hi0. revert from a' s. induction n as [|n IH]; intros from a' s Hf Hn Hi He Hr Hk; [lia|].
  simpl. unfold mbind, exec_bind at 1. intros E.
  destruct (lookup_lt_is_Some_2 (processes (base a)) (Z.to_nat from)) as [o Ho].
  { rewrite (wf_len_processes _ _ (inv_wf _ Hinv)). lia. }
  assert (Ho' : array_get (processes (base a)) from = Some o) by by apply array_get_Some.
  destruct o as [p|].
  - pose proof (awp_wake_if from p a a' Hinv Ho' Hi0 ltac:(lia) Hk) as Hw.
    destruct (awp_elim _ _ _ _ Hw Hr) as ([] & s1 & a1 & E1 & Hr1 & Hk1). rewrite E1 in E.
    assert (from <> i) by congruence. by apply (IH (from + 1) a1 s1) in E; try lia.
  - unfold wake_if, read_array, mbind, exec_bind, gets in E.
    rewrite <- (woken_table _ _ _ _ Hk), (repr_base _ _ Hr) in Ho'. simpl in Ho'. by rewrite Ho' in E.
Qed.

(** Waking again finds nobody: the first loop already woke them. *)
Lemma woken_again n a a' a2 :
  inv a -> woken st n a a' -> woken st n a' a2 -> woken st n a a2.
Proof using Hst.
  intros Hinv Hk1 Hk2. pose proof Hk1 as [H1 H2 H3 H4 H5 H6 H7]. destruct Hk2 as [K1 K2 K3 K4 K5 K6 K7].
  constructor; [done|congruence..| |by eauto].
  intros p x Hx. specialize (H6 p x Hx). destruct (asleep st x && (pid x <? n)) eqn:E.
  - destruct H6 as [Hy Hq]. specialize (K6 _ _ Hy).
    assert (asleep st (set_state PROCESS_READY x) = false) as Ha.
    { unfold asleep. change (state _) with PROCESS_READY. apply Z.eqb_neq. intros E'. by rewrite <- E' in Hst. }
    rewrite Ha in K6. split; [exact K6|by apply K7].
  - specialize (K6 _ _ H6). by rewrite E in K6.
Qed.
End Waking.
