(* ===== verification/Ipc.v ===== *)
(** * Messages between processes

    [libs/ipc.c]: the ring buffer of messages in every PCB and the blocking
    [send_message] and [receive_message].  ([send_signal] is in [System].)  A
    [struct MessagesCircularBuffer*] is the process whose PCB holds it; a local
    [struct Message] is a value, whose first contents, left on the stack, are a
    parameter.

    A call of [schedule] gives the CPU away: [others] lists what the other
    processes do, each until one such call returns to this process. *)

From S2P Require Import Prelude Exec Kernel Memory Cstring Queue QueueLogic Sched SchedInv SchedSteps Dispatch Algorithms Handlers Processes System Waking.

(** ** The operations *)

(** The array written has one cell less than the indices [head] takes. *)
Definition push_message (owner : pcb_ptr) (message : Message) : K Z :=
  x ← deref owner;
  let b := messages_buffer x in
  let next_head := if MAX_MESSAGES_PER_PROCESS <? head b + 1 then 0 else head b + 1 in
  if next_head =? tail b then mret (-1) else
  slots ← defined (array_set (buffer b) (head b) message);
  update owner (set_messages_buffer (mkBuffer next_head (tail b) slots));;
  destination ← non_null (destination_process message);
  y ← deref destination;
  when (state y =? PROCESS_WAITING_TO_RECEIVE_MESSAGE) (wake_process destination);;
  mret 0.

(** A [char body[MAX_MESSAGES_BODY_SIZE]] and its terminator bound [strcpy]. *)
Definition body_fuel : nat := S (Z.to_nat MAX_MESSAGES_BODY_SIZE).
#[global] Arguments body_fuel : simpl never.

(** Returns the code and the structure [message] points to. *)
Definition pop_message (owner : pcb_ptr) (message : Message) : K (Z * Message) :=
  x ← deref owner;
  let b := messages_buffer x in
  if head b =? tail b then mret (-1, message) else
  let next_tail := if MAX_MESSAGES_PER_PROCESS <? tail b + 1 then 0 else tail b + 1 in
  m ← defined (array_get (buffer b) (tail b));
  text ← into_array (body message) (copy_loop (cell (body m)) set_cell body_fuel 0 0);
  update owner (set_messages_buffer (mkBuffer (head b) next_tail (buffer b)));;
  mret (0, mkMessage (source_process m) (destination_process m) text).

(** One iteration of the loop over the process table: an empty entry is
    dereferenced like any other. *)
Definition wake_sender (i : Z) : K unit := wake_if PROCESS_WAITING_TO_SEND_MESSAGE i.

Section Messages.
Context {S : Type} `{!Kernel S}.
Implicit Types (others : list (Exec S unit)).

Fixpoint send_loop others (source destination : pcb_ptr) (message : Message) : Exec S Z :=
  push_ok ← call (push_message destination message);
  if push_ok =? 0 then mret 0 else
  when (push_ok =? -1) (call (update source (set_state PROCESS_WAITING_TO_SEND_MESSAGE);; schedule));;
  match others with
  | [] => out_of_fuel
  | resumed :: others => resumed;; send_loop others source destination message
  end.

(** [body] is a string in memory; [stack] is what the local array holds. *)
Definition send_message (source destination : pcb_ptr) (body : Z) (stack : list Z) others : Exec S Z :=
  current ← call (gets current_process);
  memory ← call (gets ram);
  text ← into_array stack (copy_loop (fun a => mret (memory a)) set_cell body_fuel 0 body);
  send_loop others source destination (mkMessage (Some current) (Some destination) text).

Fixpoint receive_loop others (destination : pcb_ptr) (received : Message) : Exec S Message :=
  '(pop_ok, received) ← call (pop_message destination received);
  if pop_ok =? 0 then mret received else
  call (current ← gets current_process;
        update current (set_state PROCESS_WAITING_TO_RECEIVE_MESSAGE);;
        schedule);;
  match others with
  | [] => out_of_fuel
  | resumed :: others => resumed;; receive_loop others destination received
  end.

Definition receive_message (destination : pcb_ptr) (body_address : Z) (stack : Message) others : Exec S unit :=
  received ← receive_loop others destination stack;
  call (copy_loop (cell (body received)) store8 body_fuel body_address 0;;
        for_loop (Z.to_nat N_PROCESSES) 0 wake_sender).
End Messages.

(** ** The ring *)

(** [b] holds the messages [ms], oldest first: the indices go from 0 to
    [MAX_MESSAGES_PER_PROCESS] included, one more than the array has. *)
Record ring (b : MessagesCircularBuffer) (ms : list Message) : Prop := mkRing {
  ring_head : 0 <= head b <= MAX_MESSAGES_PER_PROCESS;
  ring_tail : 0 <= tail b <= MAX_MESSAGES_PER_PROCESS;
  ring_slots : length (buffer b) = Z.to_nat MAX_MESSAGES_PER_PROCESS;
  ring_length : Z.of_nat (length ms) = (head b - tail b) `mod` (MAX_MESSAGES_PER_PROCESS + 1);
  ring_lookup i m : ms !! i = Some m ->
    array_get (buffer b) ((tail b + Z.of_nat i) `mod` (MAX_MESSAGES_PER_PROCESS + 1)) = Some m;
}.

(** The text of a message: a string that fits the body with its terminator. *)
Definition message_text (m : Message) (text : list Z) : Prop :=
  chars text /\ length (body m) = Z.to_nat MAX_MESSAGES_BODY_SIZE /\
  (length text < Z.to_nat MAX_MESSAGES_BODY_SIZE)%nat /\
  take (S (length text)) (body m) = text ++ [0].

(** The mailbox of the process [p]: the texts it has not received yet. *)
Definition mailbox (a : astate) (p : pcb_ptr) (texts : list (list Z)) : Prop :=
  exists x ms, proc a p x /\ ring (messages_buffer x) ms /\ Forall2 message_text ms texts.

Section Ring.
Implicit Types (b : MessagesCircularBuffer) (ms : list Message) (m : Message).

Lemma zero_ring : ring zero_buffer [].
Proof. by constructor; vm_compute. Qed.

Lemma ring_bound b ms : ring b ms -> (length ms <= 4)%nat.
Proof.
  intros Hr. pose proof (ring_length _ _ Hr) as E.
  pose proof (Z.mod_pos_bound (head b - tail b) (MAX_MESSAGES_PER_PROCESS + 1)) as H.
  unfold MAX_MESSAGES_PER_PROCESS in *. lia.
Qed.

(** The index after [i]. *)
Definition next_index (i : Z) : Z := if MAX_MESSAGES_PER_PROCESS <? i + 1 then 0 else i + 1.

(** A full ring starts at the first cell: the index 4 has no cell. *)
Lemma ring_full b ms : ring b ms -> (next_index (head b) =? tail b) = bool_decide (length ms = 4%nat).
Proof.
  intros [[Hh Hh'] [Ht Ht'] _ Hl _]. unfold next_index, MAX_MESSAGES_PER_PROCESS in *.
  destruct (Z.ltb_spec 4 (head b + 1)), (Z.eqb_spec 0 (tail b)), (Z.eqb_spec (head b + 1) (tail b));
    case_bool_decide; try done; exfalso.
  all: Z.div_mod_to_equations; lia.
Qed.

Lemma ring_push b ms m :
  ring b ms -> head b < MAX_MESSAGES_PER_PROCESS -> (length ms < 4)%nat ->
  exists slots, array_set (buffer b) (head b) m = Some slots /\
    ring (mkBuffer (next_index (head b)) (tail b) slots) (ms ++ [m]).
Proof.
  intros [Hh Ht Hs Hl Hm] Hlt Hn. unfold MAX_MESSAGES_PER_PROCESS in *.
  exists (<[Z.to_nat (head b) := m]> (buffer b)). split.
  { unfold array_set. rewrite Hs. by range_cases; try lia. }
  unfold next_index, MAX_MESSAGES_PER_PROCESS. rewrite (proj2 (Z.ltb_ge _ _)) by lia.
  constructor; unfold MAX_MESSAGES_PER_PROCESS; simpl; [lia|lia|by rewrite length_insert|..].
  { rewrite length_app. simpl. Z.div_mod_to_equations. lia. }
  change (4 + 1) with 5 in *. intros i m' Hi. unfold array_get. set (k := (tail b + Z.of_nat i) `mod` 5).
  assert (Hk : 0 <= k < 5) by (apply Z.mod_pos_bound; lia).
  rewrite (proj2 (Z.ltb_ge _ _)) by lia. apply lookup_snoc_Some in Hi as [[Hi Hi']|[-> <-]].
  - specialize (Hm i m' Hi'). unfold array_get in Hm. fold k in Hm. rewrite (proj2 (Z.ltb_ge _ _)) in Hm by lia.
    rewrite list_lookup_insert_ne; [done|]. assert (head b <> k); [|lia]. subst k. Z.div_mod_to_equations. lia.
  - assert (k = head b) as -> by (subst k; Z.div_mod_to_equations; lia).
    apply list_lookup_insert_eq. lia.
Qed.

(** The oldest message is in a cell, so the index after it never wraps. *)
Lemma ring_pop b m ms :
  ring b (m :: ms) ->
  head b <> tail b /\ tail b < MAX_MESSAGES_PER_PROCESS /\ array_get (buffer b) (tail b) = Some m /\
  ring (mkBuffer (head b) (next_index (tail b)) (buffer b)) ms.
Proof.
  intros [Hh Ht Hs Hl Hm]. unfold MAX_MESSAGES_PER_PROCESS in *. simpl in Hl.
  assert (Hne : head b <> tail b) by (intros E; rewrite E, Z.sub_diag, Z.mod_0_l in Hl; lia).
  pose proof (Hm 0%nat m eq_refl) as H0. simpl Z.of_nat in H0. rewrite Z.add_0_r, Z.mod_small in H0 by lia.
  pose proof H0 as Hi. apply array_get_Some in Hi as [Hi Hi']. apply lookup_lt_Some in Hi'.
  assert (tail b < 4) by lia. split; [done|]. split; [done|]. split; [done|].
  unfold next_index. rewrite (proj2 (Z.ltb_ge _ _)) by (unfold MAX_MESSAGES_PER_PROCESS; lia).
  constructor; unfold MAX_MESSAGES_PER_PROCESS; simpl; [lia|lia|done|..].
  - Z.div_mod_to_equations. lia.
  - intros i m' Hi2. specialize (Hm (S i) m' Hi2).
    by replace (tail b + 1 + Z.of_nat i) with (tail b + Z.of_nat (S i)) by lia.
Qed.
End Ring.

(** ** Messages as texts *)

Section Texts.
Implicit Types (a : astate) (p : pcb_ptr) (m : Message) (text : list Z).

Lemma awp_into_array l (m : Exec (list Z) unit) l' Q a :
  m l = Done tt l' -> Q l' a -> awp (into_array l m) Q a.
Proof.
  intros E HQ s Hr. unfold into_array, wp. rewrite E. by exists a.
Qed.

Lemma message_cell {S} m text i c (t : S) :
  message_text m text -> (text ++ [0]) !! i = Some c -> cell (body m) (0 + Z.of_nat i) t = Done c t.
Proof.
  intros (_ & _ & _ & E) Hi. unfold cell, array_get. rewrite Z.add_0_l.
  destruct (Z.ltb_spec (Z.of_nat i) 0); [lia|]. rewrite Nat2Z.id.
  rewrite <- E in Hi. apply lookup_take_Some in Hi as [-> _]. done.
Qed.

Lemma text_fits m text : message_text m text -> (length text < body_fuel)%nat.
Proof. intros (_ & _ & H & _). unfold body_fuel. lia. Qed.

(** The array [strcpy] leaves is the body of a message with that text. *)
Lemma spliced_text src dest text t :
  chars text -> length t = Z.to_nat MAX_MESSAGES_BODY_SIZE -> (length text < Z.to_nat MAX_MESSAGES_BODY_SIZE)%nat ->
  message_text (mkMessage src dest (splice 0 (text ++ [0]) t)) text.
Proof.
  intros Hc Ht Hl. split; [done|]. split; [|split; [done|]]; simpl.
  - rewrite splice_length; [done|]. rewrite length_app, Ht. simpl. lia.
  - unfold splice. simpl. apply take_app_length'. rewrite length_app. simpl. lia.
Qed.

Lemma inert_buffer b : inert (set_messages_buffer b).
Proof. intros x. split; [done|]. split; [done|]. intros []; by constructor. Qed.

Lemma inv_buffer a p x b : inv a -> proc a p x -> inv (a_update p (set_messages_buffer b) a).
Proof. intros Hi Hx. apply inv_inert; [done|by exists x|apply inert_buffer|done]. Qed.

Lemma awp_pop_message p x m ms text stack a :
  proc a p x -> ring (messages_buffer x) (m :: ms) -> message_text m text ->
  length (body stack) = Z.to_nat MAX_MESSAGES_BODY_SIZE ->
  awp (pop_message p stack) (fun r a' => exists b received,
    r = (0, received) /\ message_text received text /\ source_process received = source_process m /\
    destination_process received = destination_process m /\
    ring b ms /\ a' = a_update p (set_messages_buffer b) a) a.
Proof.
  intros Hx Hr Ht Hs. destruct (ring_pop _ _ _ Hr) as (Hne & _ & Hm & Hr'). unfold pop_message.
  awp_step. eapply awp_deref; [by apply proc_pcb|]. intros nx. simpl messages_buffer. cbv zeta.
  destruct (Z.eqb_spec (head (messages_buffer x)) (tail (messages_buffer x))); [done|].
  awp_step. eapply awp_defined; [exact Hm|]. awp_step. eapply awp_into_array.
  { apply (wp_copy_array _ _ 0 0 text); [by apply Ht|by intros; apply (message_cell m text)| |by eapply text_fits| |].
    - destruct Ht as (_ & _ & Hl & _). unfold MAX_MESSAGES_BODY_SIZE in Hl. split; lia.
    - destruct Ht as (_ & _ & Hl & _). rewrite Hs. lia.
    - by rewrite Hs. }
  awp_step. apply awp_update; [apply _|by rewrite (proc_pcb _ _ _ Hx)|]. awp_step. eexists _, _.
  split; [done|]. split; [|split; [done|split; [done|split; [exact Hr'|done]]]].
  apply spliced_text; [by apply Ht|done|by apply Ht].
Qed.

(** Delivery of [m]: the ring of [p] becomes [b], and [p] is woken if it was
    waiting for a message. *)
Definition delivered (p : pcb_ptr) (x : PCB) (b : MessagesCircularBuffer) (a a' : astate) : Prop :=
  let a1 := a_update p (set_messages_buffer b) a in
  if state x =? PROCESS_WAITING_TO_RECEIVE_MESSAGE then readied p a1 a' else a' = a1.

Lemma awp_push_message p x m ms a :
  inv a -> proc a p x -> ring (messages_buffer x) ms -> destination_process m = Some p ->
  head (messages_buffer x) < MAX_MESSAGES_PER_PROCESS -> (length ms < 4)%nat ->
  (state x = PROCESS_WAITING_TO_RECEIVE_MESSAGE -> p <> init_process) ->
  awp (push_message p m) (fun r a' => r = 0 /\ inv a' /\
    exists b, ring b (ms ++ [m]) /\ delivered p x b a a') a.
Proof.
  intros Hinv Hx Hr Hm Hh Hl Hi. destruct (ring_push _ _ m Hr Hh Hl) as (slots & Hs & Hr'). unfold push_message.
  awp_step. eapply awp_deref; [by apply proc_pcb|]. intros nx. simpl messages_buffer. cbv zeta.
  fold (next_index (head (messages_buffer x))). rewrite (ring_full _ _ Hr), bool_decide_false by lia.
  awp_step. eapply awp_defined; [exact Hs|]. awp_step. set (b := mkBuffer _ _ slots) in *.
  apply awp_update; [apply _|by rewrite (proc_pcb _ _ _ Hx)|]. awp_step. unfold non_null.
  eapply awp_defined; [exact Hm|]. awp_step.
  pose proof (proc_update_eq a p (set_messages_buffer b) x Hx) as Hx1.
  pose proof (inv_buffer a p x b Hinv Hx) as Hinv1.
  eapply awp_deref; [by apply proc_pcb, Hx1|]. intros nx'. simpl state. awp_step. unfold delivered.
  destruct (Z.eqb_spec (state x) PROCESS_WAITING_TO_RECEIVE_MESSAGE) as [E|E].
  - apply awp_when; [intros _|done].
    eapply awp_mono; [apply (awp_wake_readied p _ _ Hinv1 Hx1)|]; [by simpl; rewrite E|by apply Hi|].
    intros _ a' [? ?]. awp_step. eauto.
  - apply awp_when; [done|intros _]. awp_step. eauto.
Qed.

(** [current_process] and [ram] are the same in every state a PCB update leads
    to; so are the other processes. *)
Lemma delivered_base p x b a a' :
  delivered p x b a a' -> current_process (base a') = current_process (base a) /\ ram (base a') = ram (base a) /\
  processes (base a') = processes (base a).
Proof.
  unfold delivered. destruct (_ =? _); [intros Hr; by rewrite (readied_base _ _ _ Hr)|by intros ->].
Qed.

Lemma delivered_self p x b a a' :
  proc a p x -> delivered p x b a a' -> exists y, proc a' p y /\ messages_buffer y = b /\
    state y = (if state x =? PROCESS_WAITING_TO_RECEIVE_MESSAGE then PROCESS_READY else state x).
Proof.
  intros Hx. pose proof (proc_update_eq a p (set_messages_buffer b) x Hx) as Hx1. unfold delivered.
  destruct (_ =? _); [|intros ->; by eexists].
  intros Hr. eexists. split; [apply (readied_proc _ _ _ _ _ Hr); by apply proc_update_eq|done].
Qed.

Lemma delivered_others p x b a a' q y : q <> p -> delivered p x b a a' -> proc a' q y <-> proc a q y.
Proof.
  intros Hne. unfold delivered. destruct (_ =? _).
  - intros Hr. rewrite (readied_proc _ _ _ _ _ Hr). by rewrite !proc_update_ne.
  - intros ->. by rewrite proc_update_ne.
Qed.
End Texts.

(** ** Sending and receiving *)

(** Every entry of the process table is a process. *)
Definition full_table (a : astate) : Prop :=
  forall i, 0 <= i < N_PROCESSES -> exists p, array_get (processes (base a)) i = Some (Some p).

Abbreviation wants_to_send := (asleep PROCESS_WAITING_TO_SEND_MESSAGE).
Abbreviation senders_woken := (woken PROCESS_WAITING_TO_SEND_MESSAGE).

Section Blocking.
Implicit Types (a : astate) (p : pcb_ptr) (m : Message) (text : list Z).

Lemma awp_send_message source p x ms body text stack others a :
  inv a -> proc a p x -> ring (messages_buffer x) ms ->
  head (messages_buffer x) < MAX_MESSAGES_PER_PROCESS -> (length ms < 4)%nat ->
  (state x = PROCESS_WAITING_TO_RECEIVE_MESSAGE -> p <> init_process) ->
  string_at (ram (base a)) body text -> (length text < Z.to_nat MAX_MESSAGES_BODY_SIZE)%nat ->
  length stack = Z.to_nat MAX_MESSAGES_BODY_SIZE ->
  awp (send_message source p body stack others) (fun r a' => r = 0 /\ inv a' /\
    exists m b, message_text m text /\ source_process m = Some (current_process (base a)) /\
      ring b (ms ++ [m]) /\ delivered p x b a a') a.
Proof.
  intros Hinv Hx Hr Hh Hl Hi (Hc & Hb & Hs) Ht Hk. unfold send_message, call, kernel_itself.
  awp_step. awp_step. awp_step. awp_step. awp_step. eapply awp_into_array.
  { apply (wp_copy_array _ _ 0 _ text); [done| |done|unfold body_fuel; lia|by rewrite Hk|by rewrite Hk].
    intros i c t' Hi'. unfold mret, exec_ret. f_equal. by apply Hb. }
  set (m := mkMessage _ _ _). assert (Hm : message_text m text) by by apply spliced_text.
  assert (E : forall os, send_loop (S:=kstate) os source p m =
    (push_ok ← push_message p m;
     if push_ok =? 0 then mret 0 else
     when (push_ok =? -1) (update source (set_state PROCESS_WAITING_TO_SEND_MESSAGE);; schedule);;
     match os with [] => out_of_fuel | resumed :: os => resumed;; send_loop os source p m end)) by by intros [].
  rewrite E. awp_step. eapply awp_mono; [by apply (awp_push_message p x m ms)|].
  intros r a' (-> & Hinv' & b & Hr' & Hd). simpl. awp_step. eauto 10.
Qed.

(** The string of a message copied to memory. *)
Lemma awp_copy_body m text dest Q a :
  message_text m text -> in_memory dest (Z.of_nat (length text) + 1) ->
  Q tt (a_global (set_ram (stored_bytes dest (text ++ [0]) (ram (base a)))) a) ->
  awp (copy_loop (cell (body m)) store8 body_fuel dest 0) Q a.
Proof.
  intros Hm Hd HQ s Hr. pose proof Hm as (Hc & _ & Hl & _). unfold MAX_MESSAGES_BODY_SIZE in Hl.
  eapply wp_mono; [apply (wp_copy_out body_fuel (cell (body m)) dest 0 text); [done|split; lia|done| |]|].
  - by eapply text_fits.
  - intros i c m' Hi _. by apply (message_cell m text).
  - intros [] s' ->. eexists. split; [|exact HQ]. rewrite (repr_base _ _ Hr). simpl ram.
    apply (repr_global s a (set_ram (stored_bytes dest (text ++ [0]) (ram s))) Hr). apply _.
Qed.

Lemma awp_receive_message p x m ms text dest stack others a :
  inv a -> proc a p x -> ring (messages_buffer x) (m :: ms) -> message_text m text ->
  full_table a -> (forall y, proc a init_process y -> wants_to_send y = false) ->
  in_memory dest (Z.of_nat (length text) + 1) -> length (body stack) = Z.to_nat MAX_MESSAGES_BODY_SIZE ->
  awp (receive_message p dest stack others) (fun _ a' => exists b, ring b ms /\
    senders_woken N_PROCESSES
      (a_global (set_ram (stored_bytes dest (text ++ [0]) (ram (base a)))) (a_update p (set_messages_buffer b) a)) a') a.
Proof.
  intros Hinv Hx Hr Ht Hf Hi Hd Hs. unfold receive_message, call, kernel_itself. awp_step.
  assert (E : forall os, receive_loop (S:=kstate) os p stack =
    ('(pop_ok, received) ← pop_message p stack;
     if pop_ok =? 0 then mret received else
     (current ← gets current_process;
      update current (set_state PROCESS_WAITING_TO_RECEIVE_MESSAGE);; schedule);;
     match os with [] => out_of_fuel | resumed :: os => resumed;; receive_loop os p received end)) by by intros [].
  rewrite E. awp_step. eapply awp_mono; [by apply (awp_pop_message p x m ms text)|].
  intros r a' (b & received & -> & Hrt & _ & _ & Hb & ->). cbv beta iota. rewrite Z.eqb_refl. awp_step. awp_step.
  apply (awp_copy_body received text); [done|done|].
  set (a1 := a_global _ _). assert (Hinv1 : inv a1) by by apply inv_global; [by eapply inv_buffer|..].
  eapply awp_mono; [apply (awp_wake_loop PROCESS_WAITING_TO_SEND_MESSAGE eq_refl N_PROCESSES a1 Hinv1); [done|exact Hf|]|].
  - intros y Hy. destruct (decide (init_process = p)) as [<-|Hne].
    + assert (exists z, proc a init_process z /\ wants_to_send y = wants_to_send z) as (z & Hz & ->).
      { apply (proc_update_inv a init_process) in Hy as [[_ (z & Hz & ->)]|[? _]]; [by exists z|done]. }
      by apply Hi.
    + apply Hi. by apply (proc_update_ne a p init_process (set_messages_buffer b)).
  - intros ? a2 Hk. exists b. split; [done|exact Hk].
Qed.
End Blocking.
