(* ===== verification/Crowd.v ===== *)
(** * An example kernel

    [crowd n]: a kernel with the processes 1 to [n] besides the idle one; all
    hold the message "hi", process 5 waits to send and process 6 for input.
    [crowd 63] has a full process table. *)

From S2P Require Import Prelude Exec Kernel Memory Cstring Queue QueueLogic Sched SchedInv SchedSteps Dispatch Algorithms Handlers Processes System Waking Ipc.

(** The idle process never waits to send. *)
Definition idle_ready (a : astate) : Prop := forall y, proc a init_process y -> wants_to_send y = false.

Definition hi : list Z := [104; 105].

Definition hi_message (p : pcb_ptr) : Message :=
  mkMessage (Some init_process) (Some p) (hi ++ replicate 254 0).

Definition crowd_state (k : Z) : Z :=
  if k =? 5 then PROCESS_WAITING_TO_SEND_MESSAGE else
  if k =? 6 then PROCESS_WAITING_UART_INPUT else PROCESS_READY.

Definition crowd_pcb (k : Z) : PCB :=
  set_state (crowd_state k)
    (set_messages_buffer (mkBuffer 1 0 (<[0%nat := hi_message (page_pcb k)]> (buffer zero_buffer)))
      (demo_pcb k 0 1 10 0 0 0)).

(** Creates [n] processes from the identifier [k] on. *)
Fixpoint spawn_crowd (n : nat) (k : Z) : K unit :=
  match n with
  | O => mret tt
  | S n =>
    modify (provide (page_pcb k) (crowd_pcb k));;
    add_process_to_scheduler (page_pcb k);;
    spawn_crowd n (k + 1)
  end.

Definition crowd (n : nat) : kstate :=
  let s := boot_state sched_round_robin demo_timer in
  set_ram (stored_bytes 4096 (hi ++ [0]) (fun _ => 0)) (final (spawn_crowd n 1 s) s).

Section Crowd.
Implicit Types (a : astate).

(** The entries from [k] on are free and the pages of those identifiers unused. *)
Definition free_from (k : Z) (a : astate) : Prop :=
  n_processes (base a) = k /\ length (processes (base a)) = Z.to_nat N_PROCESSES /\
  forall j, k <= j < N_PROCESSES ->
    processes (base a) !! Z.to_nat j = Some None /\ Some (page_pcb j) ∉ processes (base a).

Lemma spawn_crowd_inv n k a :
  inv a -> 1 <= k -> k + Z.of_nat n <= N_PROCESSES -> free_from k a -> awp (spawn_crowd n k) (fun _ => inv) a.
Proof.
  revert k a. induction n as [|n IH]; intros k a Hinv Hk Hn (Hc & Hlen & Hf); cbn [spawn_crowd]; [by awp_step|].
  unfold N_PROCESSES in *. destruct (Hf k) as [Hslot Hfresh]; [lia|].
  apply (awp_spawn _ _ k); [done|done|done|done|done|unfold N_PROCESSES; lia|by constructor; simpl; lia|
    unfold preempt_ok; simpl; lia|unfold crowd_pcb, crowd_state; simpl; by destruct (k =? 5), (k =? 6)|unfold N_PROCESSES; lia|].
  intros a' Hinv' Hp Hn'. apply IH; [done|lia|lia|]. unfold free_from. rewrite Hp, Hn', Hc, length_insert.
  split; [apply s32_id; lia|]. split; [done|]. intros j Hj. destruct (Hf j) as [Hsj Hfj]; [unfold N_PROCESSES in *; lia|].
  split; [rewrite list_lookup_insert_ne by lia; done|].
  intros Hin. apply list_elem_of_lookup in Hin as [i Hi]. destruct (decide (i = Z.to_nat k)) as [->|Hne].
  - rewrite list_lookup_insert_eq in Hi by lia. injection Hi as E. lia.
  - rewrite list_lookup_insert_ne in Hi by done. apply Hfj. by eapply list_elem_of_lookup_2.
Qed.

Lemma crowd_ok n : (n <= 63)%nat -> exists a, repr (crowd n) a /\ inv a.
Proof.
  intros Hn.
  assert (Ha : sched_round_robin ∈ algorithms) by by left.
  destruct (awp_elim _ _ _ _ (spawn_crowd_inv n 1 (boot_abstract sched_round_robin demo_timer)
    (boot_inv _ _ Ha) ltac:(lia) ltac:(unfold N_PROCESSES; lia)
    ltac:(split; [reflexivity|split; [reflexivity|]];
      intros j Hj; unfold N_PROCESSES in Hj; boot_simpl;
      replace (Z.to_nat j) with (S (Z.to_nat (j - 1))) by lia; split;
      [apply (lookup_replicate_2 (Z.to_nat (N_PROCESSES - 1)) (None : option pcb_ptr)); unfold N_PROCESSES; lia
      |intros Hin; apply elem_of_cons in Hin as [E|Hin]; [discriminate E|];
       apply elem_of_replicate in Hin as [E _]; discriminate E]))
    (boot_repr sched_round_robin demo_timer)) as ([] & s & a & E & Hr & Hi).
  unfold crowd, final. rewrite E. eexists. split; [apply (repr_global _ _ _ Hr); apply _|]. by apply inv_global.
Qed.

(** What the examples need of a process of the crowd. *)
Lemma crowd_proc n p b st a :
  (fun x => (messages_buffer x, state x)) <$> pcbs (crowd n) !! p = Some (b, st) ->
  bool_decide (Some p ∈ processes (crowd n)) = true -> repr (crowd n) a ->
  exists x, proc a p x /\ messages_buffer x = b /\ state x = st.
Proof.
  intros E Hin Hr. apply fmap_Some in E as (x & Hx & [= -> ->]). exists (strip x).
  split; [|done]. split; [by eapply repr_pcb_rev|]. rewrite (repr_base _ _ Hr). exact (registered_compute (crowd n) p Hin).
Qed.

Lemma crowd_awake n st a :
  (fun x => (messages_buffer x, state x)) <$> pcbs (crowd n) !! init_process = Some (zero_buffer, 0) -> (0 =? st) = false ->
  repr (crowd n) a -> forall y, proc a init_process y -> asleep st y = false.
Proof.
  intros E Hst Hr y Hy. apply fmap_Some in E as (x & Hx & [= _ Es]).
  rewrite (proc_fun _ _ _ _ Hy (repr_pcb_rev _ _ _ _ Hr Hx)). unfold asleep. simpl. by rewrite <- Es.
Qed.

Lemma crowd_idle n a :
  (fun x => (messages_buffer x, state x)) <$> pcbs (crowd n) !! init_process = Some (zero_buffer, 0) ->
  repr (crowd n) a -> idle_ready a.
Proof. intros E Hr y. by apply (crowd_awake n). Qed.

Lemma table_filled a s n :
  forallb (fun i => match array_get (processes s) (Z.of_nat i) with Some (Some _) => true | _ => false end)
    (seq 0 (Z.to_nat n)) = true -> repr s a ->
  forall i, 0 <= i < n -> exists p, array_get (processes (base a)) i = Some (Some p).
Proof.
  rewrite forallb_forall. intros H Hr i Hi. specialize (H (Z.to_nat i)).
  rewrite Z2Nat.id in H by lia. rewrite (repr_base _ _ Hr). simpl.
  destruct (array_get (processes s) i) as [[p|]|] eqn:E; [by exists p|..];
    (discriminate H; apply in_seq; lia).
Qed.

Definition crowd_buffer (k : Z) : MessagesCircularBuffer :=
  mkBuffer 1 0 (<[0%nat := hi_message (page_pcb k)]> (buffer zero_buffer)).

Lemma crowd_ring k : ring (crowd_buffer k) [hi_message (page_pcb k)].
Proof.
  constructor; try (vm_compute; split; discriminate || reflexivity); [reflexivity..|].
  intros [|i] m; [|by destruct i]. intros [= <-]. reflexivity.
Qed.

Lemma hi_text p : message_text (hi_message p) hi.
Proof.
  split; [by repeat constructor; lia|]. split; [reflexivity|]. split; [vm_compute; lia|reflexivity].
Qed.
End Crowd.
