(* ===== verification/AddressSpace.v ===== *)
(** * Address spaces: allocation of user pages and [copy_virtual_memory]

    Builds on the page-table theorems: a page given to a process is fresh.
    [fills] describes an address space that is filled page by page with given
    contents; a forked process gets a private copy of every page of its parent
    in this way, and [Loading] uses it for programs. *)

From S2P Require Import Prelude Exec Kernel Memory Mmu Mm Paging.

(** ** Memory that leaves the tables alone *)

Section Agree.
Context (m m' : Z -> Z) (pages : gmap Z Z) (pgd : Z).
Hypothesis Hspace : space m pages pgd.
Hypothesis Hsame : forall t b, is_table m pgd t -> va t <= b < va t + PAGE_SIZE -> m' b = m b.

Lemma agree_entry t i : is_table m pgd t -> index_ok i -> entry m' t i = entry m t i.
Proof.
  intros Ht Hi. unfold index_ok in Hi. change PTRS_PER_TABLE with 512 in Hi.
  apply read_le_ext. intros b Hb. apply (Hsame t); [done|]. page_lia.
Qed.

Lemma agree_next t i : is_table m pgd t -> index_ok i -> next m' t i = next m t i.
Proof. intros Ht Hi. unfold next. by rewrite agree_entry. Qed.

Lemma agree_walk path : Forall index_ok path -> (length path <= 4)%nat -> walk m' pgd path = walk m pgd path.
Proof.
  induction path as [|j path IH] using rev_ind; intros Hok Hl; [done|].
  apply Forall_app in Hok as [Hok Hj]. apply Forall_cons in Hj as [Hj _]. rewrite length_app in Hl. simpl in Hl.
  rewrite !walk_snoc, IH by (done || lia). destruct (walk m pgd path) as [t|] eqn:Ew; [|done]. simpl.
  apply agree_next; [|done]. exists path. split; [split; [done|lia]|done].
Qed.

Lemma agree_table t : is_table m' pgd t <-> is_table m pgd t.
Proof.
  split; intros (path & [Hok Hl] & Hw); exists path; (split; [done|]); [rewrite <- agree_walk|rewrite agree_walk]; done || lia.
Qed.

Lemma agree_space pages' : (forall k, page_used pages k -> page_used pages' k) -> space m' pages' pgd.
Proof.
  intros Hu. constructor.
  - intros path t Hp. pose proof Hp as [? ?]. rewrite agree_walk by (done || lia).
    intros Hw. apply (allocated_used pages); [done|]. by apply (space_page _ _ _ Hspace path).
  - intros path path' t Hp Hp'. pose proof Hp as [? ?]. pose proof Hp' as [? ?].
    rewrite !agree_walk by (done || lia). by apply (space_inj _ _ _ Hspace).
  - intros path t i Hp. pose proof Hp as [? ?]. rewrite agree_walk by (done || lia). intros Hw Hi.
    rewrite agree_entry by (done || by exists path). by apply (space_entry _ _ _ Hspace).
Qed.

Lemma agree_mapping v : mapping m' pgd v = mapping m pgd v.
Proof. unfold mapping. destruct (pgd =? 0); [done|]. apply agree_walk; [apply indices_ok|done]. Qed.

Lemma agree_missing_from path0 t path :
  Forall index_ok path0 -> walk m pgd path0 = Some t -> Forall index_ok path -> (length path0 + length path <= 4)%nat ->
  missing_from m' t path = missing_from m t path.
Proof.
  revert path0 t. induction path as [|i path IH]; intros path0 t Hok0 Hw Hok Hl; simpl; [done|].
  apply Forall_cons in Hok as [Hi Hok]. simpl in Hl.
  assert (is_table m pgd t) by (exists path0; split; [split; [done|lia]|done]).
  rewrite agree_next by done. destruct (next m t i) as [t'|] eqn:En; [|done].
  apply (IH (path0 ++ [i])); [|by rewrite walk_snoc, Hw|done|].
  - apply Forall_app. split; [done|]. by constructor.
  - rewrite length_app. simpl. lia.
Qed.

Lemma agree_missing v : missing m' pgd v = missing m pgd v.
Proof.
  unfold missing. destruct (pgd =? 0); [done|]. apply (agree_missing_from []); [constructor|done| |simpl; lia].
  apply Forall_take, indices_ok.
Qed.
End Agree.

(** Writes that only touch pages outside the tables of [mm]. *)
Definition spares (mm : mm_struct) (m m' : Z -> Z) (t0 : Z) : Prop :=
  ~ owns_table m mm t0 /\
  forall b, ~ (va t0 <= b < va t0 + PAGE_SIZE) -> m' b = m b.

Section Spares.
Context (mm : mm_struct) (m m' : Z -> Z) (pages pages' : gmap Z Z) (k : Z).
Hypothesis Hspace : address_space m pages mm.
Hypothesis Hspares : spares mm m m' (page k).
Hypothesis Hused : forall j, page_used pages j -> page_used pages' j.

Lemma spares_same : pgd mm <> 0 -> forall t b, is_table m (pgd mm) t -> va t <= b < va t + PAGE_SIZE -> m' b = m b.
Proof.
  intros H0 t b Ht Hb. destruct Hspares as [Hn Hm]. apply Hm. intros Hb'. apply Hn. split; [done|].
  assert (exists kt, t = page kt) as [kt ->].
  { destruct Ht as (p & Hp & Hw). destruct (space_page _ _ _ (Hspace H0) _ _ Hp Hw) as (kt & _ & -> & _). by exists kt. }
  assert (k = kt) as -> by page_lia. done.
Qed.

Lemma spares_space : address_space m' pages' mm.
Proof. intros H0. apply (agree_space m m' pages (pgd mm)); auto. by apply spares_same. Qed.

Lemma spares_owns t : owns_table m' mm t <-> owns_table m mm t.
Proof.
  unfold owns_table. split; intros [H0 Ht]; (split; [done|]); [|]; revert Ht; eapply (agree_table m m' (pgd mm));
    auto; by apply spares_same.
Qed.

Lemma spares_mapping v : mapping m' (pgd mm) v = mapping m (pgd mm) v.
Proof.
  destruct (decide (pgd mm = 0)) as [E|H0]; [unfold mapping; by rewrite E|].
  apply (agree_mapping m m' (pgd mm)); auto. by apply spares_same.
Qed.

Lemma spares_missing v : missing m' (pgd mm) v = missing m (pgd mm) v.
Proof.
  destruct (decide (pgd mm = 0)) as [E|H0]; [unfold missing; by rewrite E|].
  apply (agree_missing m m' (pgd mm)); auto. by apply spares_same.
Qed.
End Spares.

Lemma zero_spares mm m m' k :
  ~ owns_table m mm (page k) -> page_zero m m' (page k) -> spares mm m m' (page k).
Proof. intros Hn Hz. split; [done|]. intros b Hb. rewrite Hz. unfold filled. range_cases; try done; lia. Qed.

Lemma free_not_owned mm m pages k : address_space m pages mm -> ~ page_used pages k -> ~ owns_table m mm (page k).
Proof.
  intros Hs Hu [H0 (p & Hp & Hw)]. destruct (space_page _ _ _ (Hs H0) _ _ Hp Hw) as (k' & _ & E & Hu').
  by apply page_inj in E as ->.
Qed.

(** ** A fresh page for a process *)

(** [allocate_user_page]: the page [page k] was free, is cleared and mapped. *)
Record gives (k v : Z) (mm : mm_struct) (m : Z -> Z) (pages : gmap Z Z)
             (mm' : mm_struct) (m' : Z -> Z) (pages' : gmap Z Z) : Prop := {
  gives_fresh : 0 <= k < N_PAGES /\ ~ page_used pages k;
  gives_used : page_used pages' k;
  gives_private : ~ owns_table m' mm' (page k);
  gives_zero b : va (page k) <= b < va (page k) + PAGE_SIZE -> m' b = 0;
  gives_maps : maps k v mm m pages mm' m' pages';
}.

Section Give.
Context (s : kstate) (p : pcb_ptr) (x : PCB).
Implicit Types (m : Z -> Z) (pages : gmap Z Z) (mm : mm_struct) (k : Z).
Abbreviation st := (mm_state s p x).

Lemma wp_allocate_user_page n u c v mm m pages Q :
  0 <= u -> 0 <= c -> address_space m pages mm -> free_pages pages (S (missing m (pgd mm) v + n)) ->
  room mm (1 + u) (Z.of_nat (missing m (pgd mm) v) + c) ->
  (forall k mm' m' pages', gives k v mm m pages mm' m' pages' -> free_pages pages' n -> room mm' u c ->
     Q (va (page k)) (st mm' m' pages')) ->
  wp (allocate_user_page p v) Q (st mm m pages).
Proof.
  intros Hu Hc Hs Hf Hr HQ. unfold allocate_user_page. wp_step.
  eapply wp_alloc; [exact Hf|]. intros k m1 Hk Hku Hz Hf1.
  rewrite (proj2 (Z.eqb_neq _ _)) by by apply page_nonzero. wp_step.
  pose proof (free_not_owned mm m pages k Hs Hku) as Hno.
  pose proof (zero_spares mm m m1 k Hno Hz) as Hsp. set (p1 := <[k := 1]> pages) in *.
  assert (Hused : forall j, page_used pages j -> page_used p1 j) by (intros; apply page_used_insert; by right).
  assert (Ha1 : allocated p1 (page k)).
  { exists k. split; [done|split; [done|]]. apply page_used_insert. by left. }
  assert (Hno1 : ~ owns_table m1 mm (page k)) by by rewrite (spares_owns mm m m1 pages k Hs Hsp).
  assert (Hext1 : extends mm m pages mm m1 p1).
  { constructor; [done|by apply (spares_space mm m m1 pages p1 k)|..].
    - intros t. rewrite (spares_owns mm m m1 pages k Hs Hsp). by left.
    - intros t b (kt & Hkt & -> & Hut) _ Hb. destruct Hsp as [_ Hsame]. apply Hsame.
      assert (kt <> k) by by intros ->. page_lia.
    - intros b Hb. destruct Hsp as [_ Hsame]. apply Hsame. page_lia. }
  eapply (wp_map_page s p x n u c k v mm m1 p1); [done|done|by apply (ext_space _ _ _ _ _ _ Hext1)| | |done|].
  { by rewrite (spares_missing mm m m1 pages k Hs Hsp). }
  { by rewrite (spares_missing mm m m1 pages k Hs Hsp). }
  intros mm' m' pages' [He Hp Ht Hus Hnu Hmi] Hf' Hr'. wp_step. rewrite u64_va by done.
  apply HQ; [|done|done]. constructor; [done|..].
  - apply (ext_used _ _ _ _ _ _ He), page_used_insert. by left.
  - intros Ho. by apply (ext_tables _ _ _ _ _ _ He) in Ho as [?|?].
  - intros b Hb. rewrite (ext_bytes _ _ _ _ _ _ He (page k) b) by done.
    rewrite Hz. unfold filled. range_cases; try done; lia.
  - constructor; try done; [by eapply extends_trans|]. intros v'. rewrite Ht. case_decide; [done|].
    apply (spares_mapping mm m m1 pages k Hs Hsp).
Qed.
End Give.

(** ** Filling an address space *)

(** Page [j] of a process is fresh and private, has the bytes [content], and is
    what the processor finds at every address of the page of [v]. *)
Definition page_with (content : Z -> Z) (pages0 : gmap Z Z) (v : Z) (j : nat)
    (mm : mm_struct) (m : Z -> Z) (pages : gmap Z Z) : Prop :=
  exists k, user_pages mm !! j = Some (mkUserPage (page k) v) /\
    0 <= k < N_PAGES /\ ~ page_used pages0 k /\ page_used pages k /\ ~ owns_table m mm (page k) /\
    (forall v', page_number v' = page_number v -> translate m (pgd mm) v' = Some (page k + v' mod PAGE_SIZE)) /\
    forall off, 0 <= off < PAGE_SIZE -> m (va (page k) + off) = content off.

(** Different virtual pages below one PTE table. *)
Record near (vs : list Z) : Prop := {
  near_table j j' v v' : vs !! j = Some v -> vs !! j' = Some v' -> take 3 (indices v) = take 3 (indices v');
  near_distinct j j' v v' : vs !! j = Some v -> vs !! j' = Some v' -> j <> j' -> indices v <> indices v';
}.

(** The first [i] of the addresses [vs] have their pages, from the memory [m0]
    on; the rest of the memory in use is as it was. *)
Record fills (content : nat -> Z -> Z) (m0 : Z -> Z) (pages0 : gmap Z Z) (vs : list Z) (i : nat)
    (mm : mm_struct) (m : Z -> Z) (pages : gmap Z Z) : Prop := {
  fills_used k : page_used pages0 k -> page_used pages k;
  fills_same t b : allocated pages0 t -> va t <= b < va t + PAGE_SIZE -> m b = m0 b;
  fills_below b : b < va (page 0) -> m b = m0 b;
  fills_space : address_space m pages mm;
  fills_private t : allocated pages0 t -> ~ owns_table m mm t;
  fills_n : n_user_pages mm = Z.of_nat i;
  fills_page j v : vs !! j = Some v -> (j < i)%nat -> page_with (content j) pages0 v j mm m pages;
  fills_missing v : (0 < i)%nat -> v ∈ vs -> missing m (pgd mm) v = 0%nat;
}.

Section FillStep.
Context (content : nat -> Z -> Z) (m0 : Z -> Z) (pages0 : gmap Z Z) (vs : list Z) (i : nat) (v : Z).
Context (mm mm' : mm_struct) (m m1 m2 : Z -> Z) (pages pages' : gmap Z Z) (k : Z).
Hypothesis Hnear : near vs.
Hypothesis Hv : vs !! i = Some v.
Hypothesis Hfill : fills content m0 pages0 vs i mm m pages.
Hypothesis Hg : gives k v mm m pages mm' m1 pages'.
Hypothesis Hlen : length (user_pages mm) = Z.to_nat MAX_PROCESS_PAGES.
Hypothesis Hi : (i < Z.to_nat MAX_PROCESS_PAGES)%nat.
Hypothesis Hout : forall b, ~ (va (page k) <= b < va (page k) + PAGE_SIZE) -> m2 b = m1 b.
Hypothesis Hin : forall off, 0 <= off < PAGE_SIZE -> m2 (va (page k) + off) = content i off.

Lemma step_spares : spares mm' m1 m2 (page k).
Proof. split; [apply (gives_private _ _ _ _ _ _ _ _ Hg)|exact Hout]. Qed.

Lemma step_extends : extends mm m pages mm' m1 pages'.
Proof. apply (maps_extends _ _ _ _ _ _ _ _ (gives_maps _ _ _ _ _ _ _ _ Hg)). Qed.

Lemma step_space : address_space m1 pages' mm'.
Proof. apply (ext_space _ _ _ _ _ _ step_extends). Qed.

(** What was in use before the filling began has its bytes. *)
Lemma step_given t b : allocated pages0 t -> va t <= b < va t + PAGE_SIZE -> m1 b = m0 b.
Proof.
  intros Ha Hb. rewrite <- (fills_same _ _ _ _ _ _ _ _ Hfill t b) by done.
  apply (ext_bytes _ _ _ _ _ _ step_extends t); [|by apply Hfill|done].
  apply (allocated_used pages0); [by apply Hfill|done].
Qed.

Lemma step_given_below b : b < va (page 0) -> m1 b = m0 b.
Proof. intros Hb. by rewrite (ext_below _ _ _ _ _ _ step_extends), (fills_below _ _ _ _ _ _ _ _ Hfill). Qed.

(** Pages in use before the step, other than tables, keep their bytes. *)
Lemma step_same t b :
  allocated pages t -> ~ owns_table m mm t -> va t <= b < va t + PAGE_SIZE -> m2 b = m b.
Proof.
  intros Ha Hn Hb. rewrite Hout; [by apply (ext_bytes _ _ _ _ _ _ step_extends t b)|]. destruct Ha as (kt & Hkt & -> & Hut).
  destruct (gives_fresh _ _ _ _ _ _ _ _ Hg) as [Hk Hku]. assert (kt <> k) by by intros ->. page_lia.
Qed.

Lemma step_private t : allocated pages t -> ~ owns_table m mm t -> ~ owns_table m2 mm' t.
Proof.
  intros Ha Hn. rewrite (spares_owns mm' m1 m2 pages' k step_space step_spares).
  intros Ho. by apply (ext_tables _ _ _ _ _ _ step_extends) in Ho as [?|?].
Qed.

Lemma step_mapping v' :
  mapping m2 (pgd mm') v' = if decide (indices v' = indices v) then Some (page k) else mapping m (pgd mm) v'.
Proof.
  rewrite (spares_mapping mm' m1 m2 pages' k step_space step_spares).
  apply (maps_mapping _ _ _ _ _ _ _ _ (gives_maps _ _ _ _ _ _ _ _ Hg)).
Qed.

(** What the processor finds after the step. *)
Lemma step_translate v' :
  translate m2 (pgd mm') v' =
    if decide (page_number v' = page_number v) then Some (page k + v' mod PAGE_SIZE) else translate m (pgd mm) v'.
Proof.
  rewrite (translate_mapping m2 pages' mm') by (by apply (spares_space mm' m1 m2 pages' pages' k step_space step_spares)).
  rewrite step_mapping, (translate_mapping m pages mm) by apply (fills_space _ _ _ _ _ _ _ _ Hfill).
  repeat case_decide; try done; by rewrite indices_eq in *.
Qed.

Lemma step_page_old j v' : vs !! j = Some v' -> (j < i)%nat -> page_with (content j) pages0 v' j mm' m2 pages'.
Proof.
  intros Hj Hji. destruct (fills_page _ _ _ _ _ _ _ _ Hfill j v' Hj Hji) as (kj & Hu & Hk & H0 & Hk1 & Hn & Ht & Hb).
  pose proof (gives_maps _ _ _ _ _ _ _ _ Hg) as Hm.
  assert (Ha : allocated pages (page kj)) by by exists kj.
  exists kj. split; [|split; [done|split; [done|split; [|split; [by apply step_private|split]]]]].
  - rewrite (maps_user _ _ _ _ _ _ _ _ Hm), (fills_n _ _ _ _ _ _ _ _ Hfill), Nat2Z.id.
    rewrite list_lookup_insert_ne by lia. done.
  - by apply (ext_used _ _ _ _ _ _ step_extends).
  - intros w Hw. rewrite step_translate, decide_False; [by apply Ht|]. rewrite Hw, <- indices_eq.
    by apply (near_distinct _ Hnear j i); [..|lia].
  - intros off Hoff. rewrite <- Hb by done. apply (step_same (page kj)); [done|done|lia].
Qed.

Lemma step_page_new : page_with (content i) pages0 v i mm' m2 pages'.
Proof.
  pose proof (gives_maps _ _ _ _ _ _ _ _ Hg) as Hm. destruct (gives_fresh _ _ _ _ _ _ _ _ Hg) as [Hk Hku].
  exists k. split; [|split; [done|split; [|split; [by apply Hg|split; [|split]]]]].
  - rewrite (maps_user _ _ _ _ _ _ _ _ Hm), (fills_n _ _ _ _ _ _ _ _ Hfill), Nat2Z.id.
    by rewrite list_lookup_insert_eq by lia.
  - intros H0. by apply Hku, (fills_used _ _ _ _ _ _ _ _ Hfill).
  - rewrite (spares_owns mm' m1 m2 pages' k step_space step_spares). by apply Hg.
  - intros w Hw. by rewrite step_translate, decide_True.
  - exact Hin.
Qed.

Lemma step_fills : fills content m0 pages0 vs (S i) mm' m2 pages'.
Proof.
  pose proof (gives_maps _ _ _ _ _ _ _ _ Hg) as Hm. constructor.
  - intros j Hj. by apply (ext_used _ _ _ _ _ _ step_extends), (fills_used _ _ _ _ _ _ _ _ Hfill).
  - intros t b Ha Hb. rewrite <- (fills_same _ _ _ _ _ _ _ _ Hfill t b) by done.
    apply (step_same t b); [by apply (allocated_used pages0), Ha; apply Hfill|by apply Hfill|done].
  - intros b Hb. rewrite Hout; [by apply step_given_below|]. destruct (gives_fresh _ _ _ _ _ _ _ _ Hg) as [Hk _]. page_lia.
  - by apply (spares_space mm' m1 m2 pages' pages' k step_space step_spares).
  - intros t Ha. apply step_private; [by apply (allocated_used pages0), Ha; apply Hfill|]. by apply Hfill.
  - rewrite (maps_n_user _ _ _ _ _ _ _ _ Hm), (fills_n _ _ _ _ _ _ _ _ Hfill). lia.
  - intros j v' Hj Hji. destruct (decide (j = i)) as [->|]; [|apply step_page_old; [done|lia]].
    assert (v' = v) as -> by congruence. apply step_page_new.
  - intros v' _ Hv'. rewrite (spares_missing mm' m1 m2 pages' k step_space step_spares).
    apply (maps_missing _ _ _ _ _ _ _ _ Hm). apply list_elem_of_lookup in Hv' as [j Hj].
    by apply (near_table _ Hnear j i).
Qed.
End FillStep.

(** ** Copying an address space *)

(** The bytes of the page [j] of [l]. *)
Definition source_bytes (m0 : Z -> Z) (l : list user_page) (j : nat) (off : Z) : Z :=
  match l !! j with Some q => u8 (m0 (va (physical_address q) + off)) | None => 0 end.

(** The first [i] pages of [l] have been copied. *)
Definition copies (m0 : Z -> Z) (pages0 : gmap Z Z) (l : list user_page) (i : nat) :
    mm_struct -> (Z -> Z) -> gmap Z Z -> Prop :=
  fills (source_bytes m0 l) m0 pages0 (virtual_address <$> l) i.

(** The user pages [l] of a process are allocated, and mapped near each other. *)
Record compact (pages : gmap Z Z) (l : list user_page) : Prop := {
  compact_allocated j q : l !! j = Some q -> allocated pages (physical_address q);
  compact_near : near (virtual_address <$> l);
}.

Section CopyPages.
Context (s : kstate) (source p : pcb_ptr) (xs x : PCB) (l : list user_page).
Hypothesis Hsource : pcbs s !! source = Some xs.
Hypothesis Hne : source <> p.
Hypothesis Hn : n_user_pages (mm xs) = Z.of_nat (length l).
Hypothesis Hl : l = take (length l) (user_pages (mm xs)).
Abbreviation st := (mm_state s p x).
Implicit Types (m : Z -> Z) (pages : gmap Z Z).

Lemma wp_get_source mm0 m pages Q : Q (mm xs) (st mm0 m pages) -> wp (get_mm source) Q (st mm0 m pages).
Proof.
  intros HQ. unfold get_mm, deref. wp_steps; [|exact HQ]. simpl. by rewrite lookup_insert_ne.
Qed.

Lemma source_page i q : l !! i = Some q -> array_get (user_pages (mm xs)) (Z.of_nat i) = Some q.
Proof.
  intros Hq. unfold array_get. rewrite (proj2 (Z.ltb_ge _ 0)), Nat2Z.id by lia.
  pose proof (lookup_lt_Some _ _ _ Hq). rewrite Hl in Hq. by rewrite lookup_take_lt in Hq.
Qed.

Lemma wp_copy_pages m0 pages0 fuel i mm0 m pages Q :
  compact pages0 l -> (length l <= Z.to_nat MAX_PROCESS_PAGES)%nat -> (i + fuel = length l)%nat ->
  copies m0 pages0 l i mm0 m pages ->
  (forall q, l !! i = Some q ->
     free_pages pages (missing m (pgd mm0) (virtual_address q) + fuel) /\
     room mm0 (Z.of_nat fuel) (Z.of_nat (missing m (pgd mm0) (virtual_address q)))) ->
  (forall mm' m' pages', copies m0 pages0 l (length l) mm' m' pages' -> Q 0 (st mm' m' pages')) ->
  wp (copy_pages fuel source p (Z.of_nat i)) Q (st mm0 m pages).
Proof.
  intros Hc Hlen. revert i mm0 m pages. induction fuel as [|fuel IH]; intros i mm0 m pages Hi Hcp Hres HQ;
    cbn [copy_pages]; wp_step; apply wp_get_source; rewrite Hn.
  { rewrite (proj2 (Z.ltb_ge _ _)) by lia. wp_step. apply HQ. by replace (length l) with i by lia. }
  rewrite (proj2 (Z.ltb_lt _ _)) by lia.
  destruct (lookup_lt_is_Some_2 l i) as [q Hq]; [lia|]. destruct (Hres q Hq) as [Hf Hr].
  wp_step. wp_step; [by apply source_page|]. wp_step.
  eapply (wp_allocate_user_page s p x fuel (Z.of_nat fuel) 0); [lia|lia|by apply Hcp| | |].
  { by replace (S (missing m (pgd mm0) (virtual_address q) + fuel)) with
      (missing m (pgd mm0) (virtual_address q) + S fuel)%nat by lia. }
  { rewrite Z.add_0_r. by replace (1 + Z.of_nat fuel) with (Z.of_nat (S fuel)) by lia. }
  intros k mm1 m1 p1 Hg Hf1 Hr1. destruct (gives_fresh _ _ _ _ _ _ _ _ Hg) as [Hk Hku].
  assert ((va (page k) =? 0) = false) as -> by (apply Z.eqb_neq; page_lia).
  wp_step. rewrite <- (u64_va k) by done. apply wp_zero; [done|]. intros m2 Hz. rewrite u64_va by done.
  wp_step. apply wp_get_source. wp_step. wp_step; [by apply source_page|]. wp_step.
  destruct (compact_allocated _ _ Hc _ _ Hq) as (kq & Hkq & Eq & Huq). rewrite Eq, u64_va by done.
  assert (kq <> k). { intros ->. by apply Hku, (fills_used _ _ _ _ _ _ _ _ Hcp). }
  eapply wp_mono; [apply wp_memcpy; [page_lia|page_lia|split; page_lia|split; page_lia|page_lia]|].
  intros [] s' (m3 & -> & Hm3). change (ram (st mm1 m2 p1)) with m2 in Hm3.
  change (set_ram m3 (st mm1 m2 p1)) with (st mm1 m3 p1).
  assert (Hcp' : copies m0 pages0 l (S i) mm1 m3 p1).
  { apply (step_fills _ m0 pages0 _ i (virtual_address q) mm0 mm1 m m1 m3 pages p1 k); try done; [by apply Hc|by rewrite list_lookup_fmap, Hq|by apply Hr|lia|..].
    - intros b Hb. rewrite Hm3. unfold copied. rewrite !Hz. unfold filled. range_cases; try done; lia.
    - intros off Hoff. unfold source_bytes. rewrite Hq, Eq, Hm3. unfold copied. rewrite !Hz. unfold filled.
      replace (va (page k) + off - va (page k)) with off by lia.
      rewrite <- (step_given _ m0 pages0 _ i _ mm0 mm1 m m1 pages p1 k Hcp Hg (page kq)) by (lia || by exists kq).
      range_cases; try done; page_lia. }
  replace (Z.of_nat i + 1) with (Z.of_nat (S i)) by lia. apply IH; [lia|done| |done].
  intros q' Hq'. rewrite (fills_missing _ _ _ _ _ _ _ _ Hcp' (virtual_address q')); [done|lia|].
  apply list_elem_of_fmap_2. by eapply list_elem_of_lookup_2.
Qed.
End CopyPages.

(** A PCB with an empty memory map. *)
Record blank (mm : mm_struct) : Prop := {
  blank_pgd : pgd mm = 0;
  blank_n_user : n_user_pages mm = 0;
  blank_n_kernel : n_kernel_pages mm = 0;
  blank_user : length (user_pages mm) = Z.to_nat MAX_PROCESS_PAGES;
  blank_kernel : length (kernel_pages mm) = Z.to_nat MAX_PROCESS_PAGES;
}.

(** The pages the source process has mapped. *)
Definition mapped_pages (mm : mm_struct) : list user_page :=
  take (Z.to_nat (n_user_pages mm)) (user_pages mm).

Lemma copy_virtual_memory_copies s p x xs Q :
  pcbs s !! current_process s = Some xs -> pcbs s !! p = Some x -> current_process s <> p ->
  blank (mm x) -> 0 <= n_user_pages (mm xs) <= MAX_PROCESS_PAGES ->
  length (user_pages (mm xs)) = Z.to_nat MAX_PROCESS_PAGES ->
  compact (memory_pages s) (mapped_pages (mm xs)) ->
  free_pages (memory_pages s) (4 + Z.to_nat (n_user_pages (mm xs))) ->
  (forall mm' m' pages', copies (ram s) (memory_pages s) (mapped_pages (mm xs))
     (length (mapped_pages (mm xs))) mm' m' pages' -> Q 0 (mm_state s p x mm' m' pages')) ->
  wp (copy_virtual_memory p) Q s.
Proof.
  intros Hxs Hx Hne [B1 B2 B3 B4 B5] Hn Hlen Hc Hf HQ. unfold MAX_PROCESS_PAGES in *.
  set (l := mapped_pages (mm xs)) in *.
  assert (Hll : length l = Z.to_nat (n_user_pages (mm xs))).
  { unfold l, mapped_pages. rewrite length_take. lia. }
  unfold copy_virtual_memory. wp_step. wp_step. wp_step. unfold get_mm at 1, deref. wp_steps; [exact Hxs|].
  apply (wp_mm_state s p x); [done|]. rewrite <- Hll. change 0 with (Z.of_nat 0).
  eapply (wp_copy_pages s (current_process s) p xs x l Hxs Hne); [lia|by rewrite Hll|exact Hc|unfold MAX_PROCESS_PAGES; lia|lia| | |exact HQ].
  - constructor; try done; try lia.
    intros t _ [H0 _]. by rewrite B1 in H0.
  - intros q _. assert (missing (ram s) (pgd (mm x)) (virtual_address q) = 4%nat) as ->.
    { unfold missing. by rewrite B1. }
    rewrite Hll. split; [done|]. constructor; unfold MAX_PROCESS_PAGES; rewrite ?B2, ?B3; try done; lia.
Qed.
