(* ===== verification/Fork.v ===== *)
(** * Process creation

    Translates [libs/fork.c].  The PCB of a new process is the kernel page
    [copy_process] allocates; the registers a process saves on kernel entry
    ([struct pt_regs]) are at the end of that page. *)

From S2P Require Import Prelude Exec Kernel Memory Mm Queue Sched.

Definition THREAD_SIZE : Z := 4096.
Definition PSR_MODE_EL0t : Z := 0.

(** [sizeof(struct pt_regs)]: 31 registers, [sp], [pc] and [pstate]. *)
Definition sizeof_pt_regs : Z := 8 * 34.
Definition pt_regs_sp : Z := 8 * 31.
Definition pt_regs_pc : Z := 8 * 32.
Definition pt_regs_pstate : Z := 8 * 33.

(** [task_pt_regs]: the end of the page of the PCB.  The static [init_process]
    has no such page: the pointer would leave the object. *)
Definition task_pt_regs (process : pcb_ptr) : option Z :=
  match process with
  | init_process => None
  | page_pcb a => Some (u64 (a + THREAD_SIZE - sizeof_pt_regs))
  end.

(** A cleared kernel page used as a [struct PCB]. *)
Definition new_pcb (page_kernel_address : Z) : K pcb_ptr :=
  modify (fun s => set_pcbs (<[page_pcb page_kernel_address := zero_PCB]> (pcbs s)) s);;
  mret (page_pcb page_kernel_address).

(** [*child = *current] on [struct pt_regs]. *)
Definition copy_pt_regs (child current : Z) : K unit :=
  modify (fun s => set_ram (copied child current sizeof_pt_regs (ram s)) s).

Definition clear_files (x : PCB) : PCB :=
  set_files (replicate (Z.to_nat MAX_FILES_PER_PROCESS) None) x.

Definition set_x19 (v : Z) (c : cpu_context) : cpu_context :=
  mkCtx v (x20 c) (x21 c) (x22 c) (x23 c) (x24 c) (x25 c) (x26 c) (x27 c) (x28 c) (fp c) (sp c) (pc c).
Definition set_x20 (v : Z) (c : cpu_context) : cpu_context :=
  mkCtx (x19 c) v (x21 c) (x22 c) (x23 c) (x24 c) (x25 c) (x26 c) (x27 c) (x28 c) (fp c) (sp c) (pc c).
Definition set_sp_pc (vsp vpc : Z) (c : cpu_context) : cpu_context :=
  mkCtx (x19 c) (x20 c) (x21 c) (x22 c) (x23 c) (x24 c) (x25 c) (x26 c) (x27 c) (x28 c) (fp c) vsp vpc.

Section Symbols.
(** The address the linker gives to [ret_from_fork] of entry.S. *)
Context (ret_from_fork : Z).

(** What the parent passes on: the PCB fields set at the end of [copy_process]. *)
Definition inherit (clone_flags process_id : Z) (parent : PCB) (child_registers : Z) (x : PCB) : PCB :=
  set_ctx (set_sp_pc child_registers ret_from_fork (ctx x))
  (set_pid process_id
  (set_preempt_disabled 1
  (set_tickets (tickets parent)
  (set_queue_priority (queue_priority parent)
  (set_burst_ticks 0
  (set_est_burst (est_burst parent)
  (set_counter 10
  (set_state PROCESS_READY
  (set_priority (priority parent)
  (set_flags clone_flags x)))))))))).

(** The registers and the memory of the child: a kernel thread only needs its
    function, another process is a copy of the current one. *)
Definition set_up_child (clone_flags function argument : Z) (new_process : pcb_ptr) (child_registers : Z) : K unit :=
  if negb (Z.land clone_flags PF_KTHREAD =? 0) then
    update new_process (fun x => set_ctx (set_x20 argument (set_x19 function (ctx x))) x)
  else
    current ← gets current_process;
    current_registers ← defined (task_pt_regs current);
    copy_pt_regs child_registers current_registers;;
    store64 child_registers 0;;
    _ ← copy_virtual_memory new_process;
    mret tt.

Definition copy_process (clone_flags function argument : Z) : K Z :=
  preempt_disable;;
  new_page ← allocate_kernel_page;
  n ← gets n_processes;
  if (new_page =? 0) || (N_PROCESSES <=? n) then mret (-1) else
  new_process ← new_pcb new_page;
  child_registers ← defined (task_pt_regs new_process);
  memzero child_registers sizeof_pt_regs;;
  update new_process (set_ctx zero_context);;
  update new_process clear_files;;
  set_up_child clone_flags function argument new_process child_registers;;
  process_id ← gets n_processes;
  parent ← get_current;
  update new_process (inherit clone_flags process_id parent child_registers);;
  r ← add_process_to_scheduler new_process;
  if r <? 0 then mret (-1) else
  preempt_enable;;
  mret process_id.
End Symbols.

(** The loop of [copy_code], from page [i]. *)
Fixpoint copy_code_loop (fuel : nat) (process : pcb_ptr) (buffer size i copied_bytes : Z) : K unit :=
  match fuel with
  | O => mret tt
  | S fuel =>
    let virtual_address := i * PAGE_SIZE in
    kernel_virtual_address ← allocate_user_page process virtual_address;
    if copied_bytes <? size then
      let bytes_to_copy := if PAGE_SIZE <? u64 (size - copied_bytes) then PAGE_SIZE
                           else s32 (u64 (size - copied_bytes)) in
      memcpy kernel_virtual_address (u64 (buffer + copied_bytes)) bytes_to_copy;;
      copy_code_loop fuel process buffer size (i + 1) (u64 (copied_bytes + bytes_to_copy))
    else copy_code_loop fuel process buffer size (i + 1) copied_bytes
  end.

Definition copy_code (process : pcb_ptr) (buffer size : Z) : K unit :=
  copy_code_loop 16 process buffer size 0 0.

Definition move_to_user_mode (start size pc : Z) : K Z :=
  current ← gets current_process;
  regs ← defined (task_pt_regs current);
  memzero regs sizeof_pt_regs;;
  store64 (u64 (regs + pt_regs_pstate)) PSR_MODE_EL0t;;
  store64 (u64 (regs + pt_regs_pc)) pc;;
  store64 (u64 (regs + pt_regs_sp)) (16 * PAGE_SIZE);;
  copy_code current start size;;
  m ← get_mm current;
  set_pgd (pgd m);;
  mret 0.
