(* ===== verification/Creation.v ===== *)
(** * Correctness of process creation

    [copy_process] is verified against both views of the kernel: the
    scheduler's (the child enters the process table and a ready queue, the
    invariant holds) and the memory manager's (the child gets private copies
    of the pages and of the saved registers of its parent). *)

From S2P Require Import Prelude Exec Kernel Memory Mm Paging AddressSpace Queue QueueLogic Sched SchedInv SchedSteps Dispatch Algorithms Handlers Processes System Fork.

(** Every PCB that is not the static one lives in an allocated kernel page. *)
Definition pcb_pages (s : kstate) : Prop :=
  forall b, is_Some (pcbs s !! page_pcb b) ->
    exists k, 0 <= k < N_PAGES /\ b = va (page k) /\ page_used (memory_pages s) k.

(** The address of the saved registers of the process in page [k]. *)
Definition regs_of (k : Z) : Z := va (page k) + PAGE_SIZE - sizeof_pt_regs.

Lemma awp_unfold {A} (m : K A) Q a s (P : A -> kstate -> Prop) :
  repr s a -> awp m Q a -> (forall r s' a', repr s' a' -> Q r a' -> P r s') -> wp m P s.
Proof. intros Hr Hm HP. eapply wp_mono; [by apply Hm|]. intros r s' (a' & Hr' & HQ). eauto. Qed.

Lemma task_pt_regs_page k : 0 <= k < N_PAGES -> task_pt_regs (page_pcb (va (page k))) = Some (regs_of k).
Proof.
  intros Hk. unfold task_pt_regs, regs_of, THREAD_SIZE, sizeof_pt_regs. f_equal.
  rewrite u64_id; page_lia.
Qed.

(** ** The end of [copy_process] *)

Section Finish.
Context (a : astate) (s1 : kstate) (p : pcb_ptr) (X : PCB) (mm' : mm_struct).
Context (m' : Z -> Z) (pages' : gmap Z Z) (n : Z).
Hypothesis Hinv : inv a.
Hypothesis Hr : repr s1 (a_enter a).
Hypothesis Hp : a_pcb a p = None.
Hypothesis Hn : n_processes (base a) = n.
Hypothesis Hrange : 0 <= n < N_PROCESSES.
Hypothesis Hslot : processes (base a) !! Z.to_nat n = Some None.
Hypothesis Hpid : pid X = n.
Hypothesis Hparams : params_ok X.
Hypothesis Hpreempt : preempt_disabled X = 1.
Hypothesis Hready : state X = PROCESS_READY.
Hypothesis Hstrip : next_ready X = None.

Let Y := set_mm mm' X.
Let a2 := a_provide p Y (a_global (with_mem m' pages') (a_enter a)).

Lemma enter_wf : wf None (a_enter a) /\ all_preempt (a_enter a).
Proof. destruct (wf_current _ _ (inv_wf _ Hinv)) as [x Hx]. by split; apply inv_enter. Qed.

Lemma unregistered : Some p ∉ processes (base (a_enter a)).
Proof.
  intros Hin. simpl in Hin. apply list_elem_of_lookup in Hin as [i Hi].
  destruct (wf_table _ _ (inv_wf _ Hinv) _ _ Hi) as (y & Hy & _). congruence.
Qed.

Lemma unqueued q : p ∉ lists (a_enter a) q.
Proof.
  intros Hq. destruct (wf_ready _ _ (inv_wf _ Hinv) _ _ Hq) as (y & [Hy _] & _). congruence.
Qed.

Lemma strip_id : strip Y = Y.
Proof. unfold Y. destruct X; simpl in *. by subst. Qed.

Lemma repr_child : repr (mm_state s1 p X mm' m' pages') a2.
Proof.
  pose proof (repr_provide p Y (with_mem m' pages' s1) (a_global (with_mem m' pages') (a_enter a))) as H.
  apply H; [apply repr_global; [done|apply _]|apply unqueued].
Qed.

Lemma wf_child : wf None a2 /\ all_preempt a2.
Proof.
  destruct enter_wf as [Hw Hap]. split.
  - apply wf_provide; [|apply unregistered]. by apply wf_global.
  - intros p' y Hy. apply proc_provide in Hy; [|apply unregistered]. by apply (Hap p').
Qed.

Lemma fresh_child : fresh_process a2 p Y.
Proof.
  assert (Epid : pid Y = n) by done. constructor; rewrite ?Epid; try done.
  - unfold a_pcb. simpl. rewrite lookup_insert_eq. by rewrite strip_id.
  - apply unregistered.
  - destruct Hparams. by constructor.
  - unfold preempt_ok. change (preempt_disabled Y) with (preempt_disabled X). lia.
  - change (state Y) with (state X). by rewrite Hready.
Qed.

(** The result of creating the process [p] with PCB [Y]. *)
Record created (a' : astate) : Prop := {
  created_inv : inv a';
  created_pcb : proc a' p Y;
  created_queued : queued a' p;
  created_others p' y : p' <> p -> proc a' p' y <-> proc a p' y;
  created_table : processes (base a') = <[Z.to_nat n := Some p]> (processes (base a));
  created_count : n_processes (base a') = n + 1;
  created_current : current_process (base a') = current_process (base a);
  created_ram : ram (base a') = m';
  created_pages : memory_pages (base a') = pages';
}.

Lemma leave_enter c : preempt_ok 0 c -> add_preempt (-1) (add_preempt 1 c) = c.
Proof.
  intros Hc. unfold add_preempt, preempt_ok in *. simpl.
  replace (s32 (preempt_disabled c + 1) + -1) with (s32 (preempt_disabled c + 1) - 1) by lia.
  rewrite s32_succ_pred by lia. by destruct c.
Qed.

Lemma created_after a3 :
  added a2 p Y a3 -> created (a_update (current_process (base a3)) (add_preempt (-1)) a3).
Proof.
  intros Ha. pose proof Ha as (Hw3 & Hx3 & Hq3 & Ho3 & _ & _ & Hn3 & Ht3 & Eg). injection Eg as Ec Er Em.
  destruct wf_child as [Hw2 Hp2]. pose proof (added_preempt _ _ _ _ Hp2 fresh_child Ha) as Hp3.
  simpl in Ec. change (current_process (base a2)) with (current_process (base a)) in Ec.
  set (cur := current_process (base a)) in *.
  destruct (wf_current _ _ (inv_wf _ Hinv)) as [c Hc]. fold cur in Hc.
  assert (Hne : cur <> p) by (intros E; pose proof (proc_pcb _ _ _ Hc); congruence).
  assert (Hpc : preempt_ok 0 c) by by apply (inv_current _ Hinv).
  assert (Hother : forall p' y, p' <> p -> proc a3 p' y <-> proc (a_enter a) p' y).
  { intros p' y Hp'. rewrite Ho3 by done.
    exact (proc_provide p Y (a_global (with_mem m' pages') (a_enter a)) p' y unregistered). }
  constructor; simpl; rewrite ?Ec; try done.
  - rewrite <- Ec. by apply inv_leave.
  - by apply proc_update_ne.
  - by apply Hq3.
  - intros p' y Hp'. destruct (decide (p' = cur)) as [->|Hnc].
    + split.
      * intros Hy. apply proc_update_inv in Hy as [[_ (z & Hz & ->)]|[? _]]; [|done].
        apply Hother in Hz; [|done]. apply proc_update_inv in Hz as [[_ (w & Hw & ->)]|[? _]]; [|done].
        rewrite <- (proc_fun _ _ _ _ Hc (proc_pcb _ _ _ Hw)). by rewrite leave_enter.
      * intros Hy. rewrite <- (proc_fun _ _ _ _ Hc (proc_pcb _ _ _ Hy)). rewrite <- (leave_enter c) by done.
        apply proc_update_eq, Hother; [done|]. by apply proc_update_eq.
    + rewrite proc_update_ne, Hother by done. by apply proc_update_ne.
  - rewrite Ht3. change (pid Y) with (pid X). by rewrite Hpid.
  - rewrite Hn3. simpl. rewrite Hn, s32_id; [done|]. unfold N_PROCESSES in Hrange. lia.
Qed.

Lemma awp_register_child :
  awp (r ← add_process_to_scheduler p; if r <? 0 then mret (-1) else preempt_enable;; mret n)
      (fun r a' => r = n /\ created a') a2.
Proof.
  destruct wf_child as [Hw2 Hp2]. awp_step.
  eapply awp_mono; [apply (awp_add a2 p Y Hw2 fresh_child); simpl; lia|]. intros r a3 [-> Ha]. simpl.
  destruct (wf_current _ _ (proj1 Ha)) as [z Hz]. awp_step.
  apply (awp_preempt_enable z); [by apply proc_pcb|]. awp_step. split; [done|]. by apply created_after.
Qed.
End Finish.

(** ** The beginning of [copy_process] *)

Section States.
Context (s : kstate) (p : pcb_ptr).
Implicit Types (x : PCB) (m : Z -> Z) (pages : gmap Z Z) (mm : mm_struct).

Lemma wp_update_child f x mm m pages Q :
  f (set_mm mm x) = set_mm mm (f x) ->
  Q tt (mm_state s p (f x) mm m pages) -> wp (update p f) Q (mm_state s p x mm m pages).
Proof.
  intros Hf HQ. eapply wp_update; [apply mm_state_pcb|]. unfold mm_state in HQ |- *. simpl.
  rewrite alter_insert_eq, Hf. by destruct s.
Qed.

Lemma wp_new_pcb b m pages Q :
  Q (page_pcb b) (mm_state s (page_pcb b) zero_PCB zero_mm m pages) -> wp (new_pcb b) Q (with_mem m pages s).
Proof. intros HQ. unfold new_pcb. wp_steps. by destruct s. Qed.

Lemma wp_clear_regs k x mm m pages Q :
  0 <= k < N_PAGES ->
  (forall m', (forall b, m' b = filled (regs_of k) sizeof_pt_regs 0 m b) -> Q tt (mm_state s p x mm m' pages)) ->
  wp (memzero (regs_of k) sizeof_pt_regs) Q (mm_state s p x mm m pages).
Proof.
  intros Hk HQ. eapply wp_mono; [apply wp_memzero|].
  - done.
  - done.
  - by exists 34.
  - unfold regs_of, sizeof_pt_regs. split; page_lia.
  - intros [] s' (m' & -> & Hm). specialize (HQ m' Hm). by destruct s.
Qed.
End States.

(** [m'] gives zeroes on page [k], and elsewhere the bytes of [m]. *)
Definition cleared (k : Z) (m m' : Z -> Z) : Prop := forall b, m' b = filled (va (page k)) PAGE_SIZE 0 m b.

Lemma cleared_regs k m m1 m2 :
  0 <= k < N_PAGES -> page_zero m m1 (page k) ->
  (forall b, m2 b = filled (regs_of k) sizeof_pt_regs 0 m1 b) -> cleared k m m2.
Proof.
  intros Hk Hz Hm b. rewrite Hm. unfold filled, regs_of, sizeof_pt_regs. rewrite Hz. unfold filled.
  range_cases; try done; page_lia.
Qed.

Section CopyProcess.
Context (ret_from_fork flags function argument : Z) (a : astate) (parent : PCB) (n : Z).
Hypothesis Hinv : inv a.
Hypothesis Hpages : pcb_pages (base a).
Hypothesis Hparent : proc a (current_process (base a)) parent.
Hypothesis Hn : n_processes (base a) = n.
Hypothesis Hrange : 0 <= n < N_PROCESSES.
Hypothesis Hslot : processes (base a) !! Z.to_nat n = Some None.

(** The PCB of the child in page [k], its context before the fork being [c]. *)
Definition child (k : Z) (c : cpu_context) : PCB :=
  inherit ret_from_fork flags n parent (regs_of k) (set_ctx c zero_PCB).

(** What [copy_process] sets up in the child: its context [c], its memory map
    and the memory. *)
Context (P : Z -> cpu_context -> mm_struct -> (Z -> Z) -> gmap Z Z -> Prop) (free : nat).
Hypothesis Hfree : free_pages (memory_pages (base a)) (S free).
Hypothesis Hmiddle : forall s1 k m1 m2,
  repr s1 (a_enter a) -> 0 <= k < N_PAGES -> ~ page_used (memory_pages (base a)) k ->
  free_pages (<[k := 1]> (memory_pages (base a))) free -> cleared k (ram (base a)) m2 -> page_zero (ram (base a)) m1 (page k) ->
  let p := page_pcb (va (page k)) in
  wp (set_up_child flags function argument p (regs_of k))
     (fun _ s' => exists c mm' m' pages', s' = mm_state s1 p (set_ctx c zero_PCB) mm' m' pages' /\ P k c mm' m' pages')
     (mm_state s1 p zero_PCB zero_mm m2 (<[k := 1]> (memory_pages (base a)))).

Lemma fresh_page k : ~ page_used (memory_pages (base a)) k -> a_pcb a (page_pcb (va (page k))) = None.
Proof.
  intros Hu. apply eq_None_not_Some. intros Hx. destruct (Hpages _ Hx) as (k' & _ & E & Hu').
  assert (k = k') as -> by page_lia. done.
Qed.

Lemma current_pcb s1 :
  repr s1 (a_enter a) -> exists z, pcbs s1 !! current_process s1 = Some z /\ strip z = add_preempt 1 parent.
Proof.
  intros Hr. assert (Hx : a_pcb (a_enter a) (current_process (base a)) = Some (add_preempt 1 parent)).
  { apply proc_pcb. by apply proc_update_eq. }
  destruct (repr_pcb _ _ _ _ Hr Hx) as (z & Hz & E). exists z. split; [|done].
  assert (current_process s1 = current_process (base a)) as -> by (pose proof (repr_base _ _ Hr) as Hb;
    apply (f_equal current_process) in Hb; simpl in Hb; by rewrite Hb). done.
Qed.

Lemma child_ok k c :
  params_ok (child k c) /\ preempt_disabled (child k c) = 1 /\ state (child k c) = PROCESS_READY /\
  next_ready (child k c) = None /\ pid (child k c) = n.
Proof.
  destruct (wf_params _ _ (inv_wf _ Hinv) _ _ Hparent) as [H1 H2 _]. unfold child, inherit. simpl.
  split; [|done]. constructor; simpl; done || lia.
Qed.

Lemma awp_copy_process :
  awp (copy_process ret_from_fork flags function argument)
      (fun r a' => r = n /\ exists k c mm' m' pages', 0 <= k < N_PAGES /\ ~ page_used (memory_pages (base a)) k /\
         P k c mm' m' pages' /\ created a (page_pcb (va (page k))) (child k c) mm' m' pages' n a') a.
Proof.
  unfold copy_process. apply awp_enter; [done|]. intros _ _ _ s1 Hr.
  pose proof (repr_base _ _ Hr) as Hb.
  assert (Eb : (ram s1, memory_pages s1, n_processes s1, current_process s1) =
    (ram (base a), memory_pages (base a), n, current_process (base a))).
  { rewrite <- Hn. change (ram (base a), memory_pages (base a), n_processes (base a), current_process (base a))
      with (ram (base (a_enter a)), memory_pages (base (a_enter a)), n_processes (base (a_enter a)),
        current_process (base (a_enter a))). by rewrite Hb. }
  injection Eb as Er Em En Ec. wp_step. unfold allocate_kernel_page. wp_step.
  eapply (wp_get_free_page_some free); [by rewrite Em|]. intros k m1 Hk Hku Hz Hf. rewrite Em, Er in *.
  rewrite (proj2 (Z.eqb_neq (page k) 0)) by by apply page_nonzero. rewrite u64_va by done. wp_steps.
  change (n_processes (with_mem _ _ s1)) with (n_processes s1). rewrite En.
  assert ((va (page k) =? 0) = false) as -> by (apply Z.eqb_neq; page_lia).
  rewrite (proj2 (Z.leb_gt N_PROCESSES n)) by lia. cbn [orb]. wp_step. apply wp_new_pcb.
  wp_step. wp_step; [by apply task_pt_regs_page|]. wp_step. apply wp_clear_regs; [done|]. intros m2 Hm2.
  pose proof (cleared_regs _ _ _ _ Hk Hz Hm2) as Hcl.
  wp_step. apply wp_update_child; [done|]. wp_step. apply wp_update_child; [done|].
  change (clear_files (set_ctx zero_context zero_PCB)) with zero_PCB.
  wp_step. eapply wp_mono; [by apply (Hmiddle s1 k m1 m2)|].
  intros [] s' (c & mm' & m' & pages' & -> & HP).
  wp_steps. change (n_processes (mm_state _ _ _ _ _ _)) with (n_processes s1). rewrite En.
  destruct (current_pcb s1 Hr) as (z & Hcz & Ez). pose proof (fresh_page k Hku) as Hnone.
  unfold get_current. wp_steps. change (current_process (mm_state _ _ _ _ _ _)) with (current_process s1).
  eapply wp_deref.
  { simpl. rewrite lookup_insert_ne; [exact Hcz|]. rewrite Ec. intros E. pose proof (proc_pcb _ _ _ Hparent). congruence. }
  wp_step. apply wp_update_child; [done|].
  assert (Ei : inherit ret_from_fork flags n z (regs_of k) (set_ctx c zero_PCB) = child k c).
  { unfold child. destruct z, parent. injection Ez. intros; by subst. }
  rewrite Ei. destruct (child_ok k c) as (C1 & C2 & C3 & C4 & C5).
  eapply awp_unfold; [by apply (repr_child a s1 _ (child k c) mm' m' pages')|by apply awp_register_child|].
  intros r s' a' Hr' [-> Hc]. exists a'. split; [done|]. split; [done|]. by exists k, c, mm', m', pages'.
Qed.
End CopyProcess.

(** ** Kernel threads *)

Definition thread_set_up (function argument : Z) (m : Z -> Z) (pages : gmap Z Z)
    (k : Z) (c : cpu_context) (mm' : mm_struct) (m' : Z -> Z) (pages' : gmap Z Z) : Prop :=
  c = set_x20 argument (set_x19 function zero_context) /\ mm' = zero_mm /\
  cleared k m m' /\ pages' = <[k := 1]> pages.

Lemma thread_middle flags function argument m pages s1 k m2 :
  Z.land flags PF_KTHREAD <> 0 -> cleared k m m2 ->
  let p := page_pcb (va (page k)) in
  wp (set_up_child flags function argument p (regs_of k))
     (fun _ s' => exists c mm' m' pages', s' = mm_state s1 p (set_ctx c zero_PCB) mm' m' pages' /\
        thread_set_up function argument m pages k c mm' m' pages')
     (mm_state s1 p zero_PCB zero_mm m2 (<[k := 1]> pages)).
Proof.
  intros Hf Hm p. unfold set_up_child. rewrite (proj2 (Z.eqb_neq _ _)) by done. cbn [negb].
  apply wp_update_child; [done|]. eexists _, _, _, _. split; [done|]. by split.
Qed.

(** ** Forked processes *)

(** The registers saved in page [k] are those saved in page [kp], but for the
    first, which is zero: the value [fork] returns in the child. *)
Definition forked_regs (m : Z -> Z) (kp k : Z) (m' : Z -> Z) : Prop :=
  forall off, 0 <= off < sizeof_pt_regs ->
    m' (regs_of k + off) = if off <? 8 then 0 else u8 (m (regs_of kp + off)).

Definition fork_set_up (m : Z -> Z) (pages : gmap Z Z) (parent : mm_struct) (kp : Z)
    (k : Z) (c : cpu_context) (mm' : mm_struct) (m' : Z -> Z) (pages' : gmap Z Z) : Prop :=
  c = zero_context /\ forked_regs m kp k m' /\
  copies m pages (mapped_pages parent) (length (mapped_pages parent)) mm' m' pages'.

(** What a process needs to be forked: its page table entries are recorded in
    [user_pages], and they are near each other. *)
Record forkable (pages : gmap Z Z) (mm : mm_struct) : Prop := {
  forkable_n : 0 <= n_user_pages mm <= MAX_PROCESS_PAGES;
  forkable_len : length (user_pages mm) = Z.to_nat MAX_PROCESS_PAGES;
  forkable_compact : compact pages (mapped_pages mm);
}.

Lemma compact_used pages pages' l :
  (forall k, page_used pages k -> page_used pages' k) -> compact pages l -> compact pages' l.
Proof.
  intros Hu [H1 H2]. constructor; [|done]. intros j q Hq. by eapply allocated_used, H1.
Qed.

(** The reference memory of a copy may be replaced by one that agrees with it
    on the pages in use and below the pages. *)
Lemma copies_from m0 p0 m1 p1 l mm m pages :
  compact p0 l -> (forall k, page_used p0 k -> page_used p1 k) ->
  (forall t b, allocated p0 t -> va t <= b < va t + PAGE_SIZE -> m1 b = m0 b) ->
  (forall b, b < va (page 0) -> m1 b = m0 b) ->
  copies m1 p1 l (length l) mm m pages -> copies m0 p0 l (length l) mm m pages.
Proof.
  intros Hc Hu Hm Hb [C1 C2 C3 C4 C5 C6 C7 C8]. constructor; try done.
  - intros k Hk. by apply C1, Hu.
  - intros t b Ha Ht. rewrite (C2 t b) by (done || by apply (allocated_used p0)). by apply (Hm t).
  - intros b Hlt. by rewrite C3, Hb.
  - intros t Ha. by apply C5, (allocated_used p0).
  - intros j v Hj Hlt. destruct (C7 j v Hj Hlt) as (k & D1 & D2 & D3 & D4 & D5 & D6 & D7). exists k.
    split; [done|split; [done|split; [|split; [done|split; [done|split; [done|]]]]]].
    + intros H0. by apply D3, Hu.
    + intros off Hoff. rewrite D7 by done. unfold source_bytes. destruct (l !! j) as [q|] eqn:Eq; [|done].
      f_equal. apply (Hm (physical_address q)); [|lia]. by apply (compact_allocated _ _ Hc j).
Qed.

Section ForkMiddle.
Context (a : astate) (parent : PCB) (kp : Z) (s1 : kstate) (k : Z) (m2 : Z -> Z).
Hypothesis Hinv : inv a.
Hypothesis Hpages : pcb_pages (base a).
Hypothesis Hparent : proc a (current_process (base a)) parent.
Hypothesis Hcur : current_process (base a) = page_pcb (va (page kp)).
Hypothesis Hkp : 0 <= kp < N_PAGES.
Hypothesis Hfork : forkable (memory_pages (base a)) (mm parent).
Hypothesis Hr : repr s1 (a_enter a).
Hypothesis Hk : 0 <= k < N_PAGES.
Hypothesis Hku : ~ page_used (memory_pages (base a)) k.
Hypothesis Hfree : free_pages (<[k := 1]> (memory_pages (base a))) (4 + Z.to_nat (n_user_pages (mm parent))).
Hypothesis Hcl : cleared k (ram (base a)) m2.

Let p := page_pcb (va (page k)).
Let p2 := <[k := 1]> (memory_pages (base a)).
Let m4 := write64 (regs_of k) 0 (copied (regs_of k) (regs_of kp) sizeof_pt_regs m2).

Lemma parent_page : page_used (memory_pages (base a)) kp.
Proof.
  destruct (Hpages (va (page kp))) as (k' & _ & E & Hu).
  - rewrite <- Hcur. pose proof (proc_pcb _ _ _ Hparent) as Hx. by exists parent.
  - by assert (kp = k') as -> by page_lia.
Qed.

Lemma parent_differs : kp <> k.
Proof. intros E. apply Hku. rewrite <- E. apply parent_page. Qed.

Lemma set_up_elsewhere t b :
  allocated (memory_pages (base a)) t -> va t <= b < va t + PAGE_SIZE -> m4 b = ram (base a) b.
Proof.
  intros (kt & Hkt & -> & Hut) Hb. assert (kt <> k) by by intros ->.
  unfold m4, write64, write_le, copied. rewrite (Hcl b). unfold filled, regs_of, sizeof_pt_regs.
  range_cases; try done; page_lia.
Qed.

Lemma set_up_below b : b < va (page 0) -> m4 b = ram (base a) b.
Proof.
  intros Hb. unfold m4, write64, write_le, copied. rewrite (Hcl b). unfold filled, regs_of, sizeof_pt_regs.
  range_cases; try done; page_lia.
Qed.

Lemma set_up_regs : forked_regs (ram (base a)) kp k m4.
Proof.
  intros off Hoff. pose proof parent_differs as Hdiff.
  unfold m4, write64, write_le, copied.
  replace (regs_of k + off - regs_of k) with off by lia. rewrite (Hcl (regs_of kp + off)).
  rewrite Z.shiftr_0_l. unfold filled. unfold regs_of, sizeof_pt_regs in *. range_cases; try done; page_lia.
Qed.

Lemma fork_middle flags function argument :
  Z.land flags PF_KTHREAD = 0 ->
  wp (set_up_child flags function argument p (regs_of k))
     (fun _ s' => exists c mm' m' pages', s' = mm_state s1 p (set_ctx c zero_PCB) mm' m' pages' /\
        fork_set_up (ram (base a)) (memory_pages (base a)) (mm parent) kp k c mm' m' pages')
     (mm_state s1 p zero_PCB zero_mm m2 p2).
Proof.
  intros Hfl. unfold set_up_child. rewrite (proj2 (Z.eqb_eq _ _)) by done. cbn [negb].
  destruct (current_pcb a parent Hparent s1 Hr) as (z & Hz & Ez).
  assert (Ec : current_process s1 = page_pcb (va (page kp))).
  { pose proof (repr_base _ _ Hr) as Hb. apply (f_equal current_process) in Hb. simpl in Hb.
    by rewrite Hcur in Hb. }
  assert (Emm : mm z = mm parent) by (apply (f_equal mm) in Ez; exact Ez).
  pose proof parent_differs as Hdiff.
  assert (Hne : page_pcb (va (page kp)) <> p) by (intros [= E]; page_lia).
  wp_step. wp_step. change (current_process (mm_state _ _ _ _ _ _)) with (current_process s1). rewrite Ec.
  wp_step. wp_step; [by apply task_pt_regs_page|]. unfold copy_pt_regs, store64. wp_steps.
  match goal with |- wp _ _ ?s => replace s with (mm_state s1 p zero_PCB zero_mm m4 p2) by by destruct s1 end.
  set (s4 := mm_state s1 p zero_PCB zero_mm m4 p2).
  assert (Hused : forall j, page_used (memory_pages (base a)) j -> page_used p2 j).
  { intros j Hj. apply page_used_insert. by right. }
  destruct Hfork as [F1 F2 F3].
  eapply (copy_virtual_memory_copies s4 p zero_PCB z).
  - simpl. rewrite lookup_insert_ne by (by rewrite Ec). exact Hz.
  - apply mm_state_pcb.
  - simpl. by rewrite Ec.
  - by constructor.
  - by rewrite Emm.
  - by rewrite Emm.
  - rewrite Emm. by eapply compact_used.
  - by rewrite Emm.
  - intros mm' m' pages' Hcp. wp_step. exists zero_context, mm', m', pages'. split.
    { unfold s4, mm_state. simpl. rewrite insert_insert_eq. by destruct s1. }
    rewrite Emm in Hcp. change (ram s4) with m4 in Hcp. change (memory_pages s4) with p2 in Hcp. split; [done|split].
    + intros off Hoff. rewrite <- set_up_regs by done. apply (fills_same _ _ _ _ _ _ _ _ Hcp (page k)).
      * exists k. split; [done|split; [done|]]. apply page_used_insert. by left.
      * unfold regs_of, sizeof_pt_regs in *. page_lia.
    + apply (copies_from _ _ m4 p2); [done|done|apply set_up_elsewhere|apply set_up_below|done].
Qed.
End ForkMiddle.

(** ** The two uses of [copy_process] *)

Section Uses.
Context (ret_from_fork flags function argument : Z) (a : astate) (parent : PCB) (n : Z).
Hypothesis Hinv : inv a.
Hypothesis Hpages : pcb_pages (base a).
Hypothesis Hparent : proc a (current_process (base a)) parent.
Hypothesis Hn : n_processes (base a) = n.
Hypothesis Hrange : 0 <= n < N_PROCESSES.
Hypothesis Hslot : processes (base a) !! Z.to_nat n = Some None.

(** A child was created in a fresh page, with what [P] says set up. *)
Definition spawned (P : Z -> cpu_context -> mm_struct -> (Z -> Z) -> gmap Z Z -> Prop) (r : Z) (a' : astate) : Prop :=
  r = n /\ exists k c mm' m' pages', 0 <= k < N_PAGES /\ ~ page_used (memory_pages (base a)) k /\
    P k c mm' m' pages' /\
    created a (page_pcb (va (page k))) (child ret_from_fork flags parent n k c) mm' m' pages' n a'.

Lemma awp_start_thread :
  Z.land flags PF_KTHREAD <> 0 -> free_pages (memory_pages (base a)) 1 ->
  awp (copy_process ret_from_fork flags function argument)
      (spawned (thread_set_up function argument (ram (base a)) (memory_pages (base a)))) a.
Proof.
  intros Hf Hfree. apply (awp_copy_process ret_from_fork flags function argument a parent n Hinv Hpages Hparent Hn
    Hrange Hslot _ 0 Hfree).
  intros s1 k m1 m2 _ _ _ _ Hcl _. by apply thread_middle.
Qed.

Lemma awp_fork kp :
  current_process (base a) = page_pcb (va (page kp)) -> 0 <= kp < N_PAGES ->
  forkable (memory_pages (base a)) (mm parent) -> Z.land flags PF_KTHREAD = 0 ->
  free_pages (memory_pages (base a)) (5 + Z.to_nat (n_user_pages (mm parent))) ->
  awp (copy_process ret_from_fork flags function argument)
      (spawned (fork_set_up (ram (base a)) (memory_pages (base a)) (mm parent) kp)) a.
Proof.
  intros Hcur Hkp Hfork Hf Hfree.
  apply (awp_copy_process ret_from_fork flags function argument a parent n Hinv Hpages Hparent Hn
    Hrange Hslot _ (4 + Z.to_nat (n_user_pages (mm parent))) Hfree).
  intros s1 k m1 m2 Hr1 Hk Hku Hfr Hcl _. by apply (fork_middle a parent kp s1 k m2).
Qed.

(** Without a free page or a free slot, [copy_process] gives up. *)
Lemma awp_copy_process_fails :
  (forall k, 0 <= k < N_PAGES -> page_used (memory_pages (base a)) k) ->
  awp (copy_process ret_from_fork flags function argument) (fun r a' => r = -1 /\ a' ≡ a_enter a) a.
Proof.
  intros Hall. unfold copy_process. apply awp_enter; [done|]. intros _ _ _ s1 Hr.
  assert (Em : memory_pages s1 = memory_pages (base a)).
  { pose proof (repr_base _ _ Hr) as Hb. by apply (f_equal memory_pages) in Hb. }
  wp_step. unfold allocate_kernel_page. wp_step. eapply wp_mono; [apply wp_get_free_page|].
  intros r s' [k m Hk Hu _ _|_].
  - rewrite Em in Hu. by destruct Hu; apply Hall.
  - simpl. wp_steps. exists (a_enter a). done.
Qed.
End Uses.
