(* ===== verification/Loading.v ===== *)
(** * Loading a program

    [copy_code] and [move_to_user_mode] of [libs/fork.c]: sixteen fresh pages
    from the virtual address 0 on hold the program and zeros after it, and the
    saved registers of the process start it. *)

From S2P Require Import Prelude Exec Kernel Memory Mmu Mm Paging AddressSpace Queue Sched Fork Creation.

(** ** The virtual pages of a program *)

(** Byte [off] of page [j] of the program of [size] bytes at [buffer]. *)
Definition program_byte (m0 : Z -> Z) (buffer size : Z) (j : nat) (off : Z) : Z :=
  let o := Z.of_nat j * PAGE_SIZE + off in if o <? size then u8 (m0 (buffer + o)) else 0.

(** The virtual addresses [copy_code] maps. *)
Definition program_pages : list Z := (fun j => Z.of_nat j * PAGE_SIZE) <$> seq 0 16.

Lemma program_page j : (j < 16)%nat -> program_pages !! j = Some (Z.of_nat j * PAGE_SIZE).
Proof. intros Hj. unfold program_pages. rewrite list_lookup_fmap, lookup_seq_lt by done. done. Qed.

(** An address and the start of its page select the same entries. *)
Lemma indices_page v : indices v = indices (v / PAGE_SIZE * PAGE_SIZE).
Proof.
  assert (H : forall k, 12 <= k -> table_index v k = table_index (v / PAGE_SIZE * PAGE_SIZE) k).
  { intros k Hk. unfold table_index. f_equal. pose proof PAGE_SIZE_eq as ->. rewrite !Z.shiftr_div_pow2 by lia.
    replace k with (12 + (k - 12)) by lia. rewrite Z.pow_add_r by lia. change (2 ^ 12) with 4096.
    rewrite <- !Z.div_div by lia. by rewrite Z.div_mul. }
  unfold indices. by rewrite <- !H by (by vm_compute).
Qed.

Lemma program_indices j : (j < 16)%nat -> indices (Z.of_nat j * PAGE_SIZE) = [0; 0; 0; Z.of_nat j].
Proof. intros Hj. do 16 (destruct j as [|j]; [by vm_compute|]). lia. Qed.

Lemma program_near : near program_pages.
Proof.
  assert (H : forall j v, program_pages !! j = Some v -> indices v = [0; 0; 0; Z.of_nat j]).
  { intros j v Hv. pose proof (lookup_lt_Some _ _ _ Hv) as Hj. change (length program_pages) with 16%nat in Hj.
    rewrite program_page in Hv by done. injection Hv as <-. by apply program_indices. }
  constructor; intros j j' v v' Hv Hv'; rewrite (H j v Hv), (H j' v' Hv'); [done|]. intros Hne [= E]. lia.
Qed.

(** ** The loop of [copy_code] *)

Section Copy.
Context (s : kstate) (p : pcb_ptr) (x : PCB) (m0 : Z -> Z) (pages0 : gmap Z Z) (buffer size : Z).
Hypothesis Hbuffer : 0 <= buffer.
Hypothesis Hsize : 0 <= size.
Hypothesis Hbelow : buffer + size <= va (page 0).
Abbreviation st := (mm_state s p x).
Abbreviation program := (fills (program_byte m0 buffer size) m0 pages0 program_pages).

(** The bytes of page [i], once the page has been given. *)
Lemma wp_copy_bytes i k mm m mm1 m1 p1 pages Q :
  (i < 16)%nat -> program i mm m pages -> gives k (Z.of_nat i * PAGE_SIZE) mm m pages mm1 m1 p1 ->
  Z.of_nat i * PAGE_SIZE < size ->
  let copied_bytes := Z.of_nat i * PAGE_SIZE in
  let bytes_to_copy := Z.min PAGE_SIZE (size - copied_bytes) in
  (forall m2, (forall b, ~ (va (page k) <= b < va (page k) + PAGE_SIZE) -> m2 b = m1 b) ->
     (forall off, 0 <= off < PAGE_SIZE -> m2 (va (page k) + off) = program_byte m0 buffer size i off) ->
     Q tt (st mm1 m2 p1)) ->
  wp (memcpy (va (page k)) (u64 (buffer + copied_bytes)) bytes_to_copy) Q (st mm1 m1 p1).
Proof using All.
  intros Hi Hp Hg Hlt copied_bytes n HQ. destruct (gives_fresh _ _ _ _ _ _ _ _ Hg) as [Hk Hku].
  pose proof PAGE_SIZE_eq as HP. assert (Hn : 0 < n <= PAGE_SIZE /\ copied_bytes + n <= size) by (unfold n, copied_bytes in *; lia).
  assert (Hc : 0 <= copied_bytes) by (unfold copied_bytes; lia).
  rewrite u64_id by page_lia.
  eapply wp_mono; [apply wp_memcpy; [lia|page_lia|split; page_lia|split; page_lia|page_lia]|].
  intros [] s' (m2 & -> & Hm2). change (ram (st mm1 m1 p1)) with m1 in Hm2.
  change (set_ram m2 (st mm1 m1 p1)) with (st mm1 m2 p1). apply HQ.
  - intros b Hb. rewrite Hm2. unfold copied. range_cases; try done; lia.
  - intros off Hoff. rewrite Hm2. unfold copied, program_byte. fold copied_bytes.
    replace (va (page k) + off - va (page k)) with off by lia.
    replace (buffer + copied_bytes + off) with (buffer + (copied_bytes + off)) by lia.
    destruct (Z.ltb_spec (copied_bytes + off) size).
    + rewrite (proj2 (Z.leb_le _ _)), (proj2 (Z.ltb_lt _ _)) by (unfold n in *; lia). cbn [andb].
      by rewrite (step_given_below _ m0 pages0 _ i _ mm mm1 m m1 pages p1 k Hp Hg) by lia.
    + rewrite (proj2 (Z.ltb_ge _ _)) by (unfold n in *; lia). rewrite andb_false_r. apply (gives_zero _ _ _ _ _ _ _ _ Hg). lia.
Qed.

Lemma wp_copy_code_loop fuel i mm m pages Q :
  (i + fuel = 16)%nat -> program i mm m pages ->
  (forall v, program_pages !! i = Some v ->
     free_pages pages (missing m (pgd mm) v + fuel) /\ room mm (Z.of_nat fuel) (Z.of_nat (missing m (pgd mm) v))) ->
  (forall mm' m' pages', program 16%nat mm' m' pages' -> Q tt (st mm' m' pages')) ->
  wp (copy_code_loop fuel p buffer size (Z.of_nat i) (Z.min (Z.of_nat i * PAGE_SIZE) size)) Q (st mm m pages).
Proof using All.
  pose proof PAGE_SIZE_eq as HP.
  revert i mm m pages. induction fuel as [|fuel IH]; intros i mm m pages Hi Hp Hres HQ; cbn [copy_code_loop].
  { wp_step. apply HQ. by replace 16%nat with i by lia. }
  destruct (Hres _ (program_page i ltac:(lia))) as [Hf Hr]. wp_step.
  eapply (wp_allocate_user_page s p x fuel (Z.of_nat fuel) 0); [lia|lia|by apply Hp| | |].
  { by replace (S (missing m (pgd mm) (Z.of_nat i * PAGE_SIZE) + fuel)) with
      (missing m (pgd mm) (Z.of_nat i * PAGE_SIZE) + S fuel)%nat by lia. }
  { rewrite Z.add_0_r. by replace (1 + Z.of_nat fuel) with (Z.of_nat (S fuel)) by lia. }
  intros k mm1 m1 p1 Hg Hf1 Hr1.
  assert (Hnext : forall m2, (forall b, ~ (va (page k) <= b < va (page k) + PAGE_SIZE) -> m2 b = m1 b) ->
    (forall off, 0 <= off < PAGE_SIZE -> m2 (va (page k) + off) = program_byte m0 buffer size i off) ->
    wp (copy_code_loop fuel p buffer size (Z.of_nat (S i)) (Z.min (Z.of_nat (S i) * PAGE_SIZE) size)) Q (st mm1 m2 p1)).
  { intros m2 Hout Hin. assert (Hp' : program (S i) mm1 m2 p1).
    { eapply step_fills; [apply program_near|apply program_page; lia|exact Hp|exact Hg|by apply Hr|
        unfold MAX_PROCESS_PAGES; lia|exact Hout|exact Hin]. }
    apply IH; [lia|done| |done]. intros v Hv.
    rewrite (fills_missing _ _ _ _ _ _ _ _ Hp' v); [done|lia|by eapply list_elem_of_lookup_2]. }
  replace (Z.of_nat i + 1) with (Z.of_nat (S i)) by lia.
  destruct (Z.ltb_spec (Z.min (Z.of_nat i * PAGE_SIZE) size) size) as [Hlt|Hge].
  - rewrite Z.min_l by lia. rewrite (u64_id (size - _)) by page_lia.
    assert (E : (if PAGE_SIZE <? size - Z.of_nat i * PAGE_SIZE then PAGE_SIZE else s32 (size - Z.of_nat i * PAGE_SIZE)) =
      Z.min PAGE_SIZE (size - Z.of_nat i * PAGE_SIZE)).
    { destruct (Z.ltb_spec PAGE_SIZE (size - Z.of_nat i * PAGE_SIZE)); [lia|]. rewrite s32_id by lia. lia. }
    cbv zeta. rewrite E. wp_step. apply (wp_copy_bytes i k mm m mm1 m1 p1 pages); [lia|done|done|lia|]. intros m2 Hout Hin. cbv beta.
    rewrite u64_id by page_lia.
    replace (_ + Z.min _ _) with (Z.min (Z.of_nat (S i) * PAGE_SIZE) size) by lia. by apply Hnext.
  - replace (Z.min (Z.of_nat i * PAGE_SIZE) size) with (Z.min (Z.of_nat (S i) * PAGE_SIZE) size) by lia.
    apply Hnext; [done|]. intros off Hoff. rewrite (gives_zero _ _ _ _ _ _ _ _ Hg) by lia.
    unfold program_byte. by rewrite (proj2 (Z.ltb_ge _ _)) by lia.
Qed.

Lemma wp_copy_code Q :
  blank (mm x) -> free_pages pages0 20 ->
  (forall mm' m' pages', program 16%nat mm' m' pages' -> Q tt (st mm' m' pages')) ->
  wp (copy_code p buffer size) Q (st (mm x) m0 pages0).
Proof using All.
  intros [B1 B2 B3 B4 B5] Hf HQ. unfold copy_code.
  pose proof (wp_copy_code_loop 16 0 (mm x) m0 pages0 Q eq_refl) as H. change (Z.of_nat 0) with 0 in H.
  rewrite Z.mul_0_l, Z.min_l in H by lia. apply H; [| |done]; clear H.
  - constructor; try done; try lia. intros t _ [H0 _]. by rewrite B1 in H0.
  - intros v _. assert (missing m0 (pgd (mm x)) v = 4%nat) as ->; [unfold missing; by rewrite B1|].
    split; [done|]. constructor; unfold MAX_PROCESS_PAGES; rewrite ?B2, ?B3; try done; lia.
Qed.
End Copy.

(** ** The program that starts *)

(** The registers a user program starts with, as [struct pt_regs]. *)
Definition start_frame (pc : Z) : list Z := replicate 31 0 ++ [16 * PAGE_SIZE; pc; PSR_MODE_EL0t].

(** The process in the kernel page [kp] is ready to run the program of [size]
    bytes at [start]: its saved registers are those of a program that starts at
    [pc]; its first sixteen virtual pages are fresh pages with the bytes of the
    program, and zeros after it; all other memory in use is as it was. *)
Record runnable (kp start size pc : Z) (m0 : Z -> Z) (pages0 : gmap Z Z)
    (mm : mm_struct) (m : Z -> Z) (pages : gmap Z Z) : Prop := {
  runnable_frame : words_at m (regs_of kp) (start_frame pc);
  runnable_program o : 0 <= o < 16 * PAGE_SIZE ->
    exists k, translate m (pgd mm) o = Some (page k + o mod PAGE_SIZE) /\ ~ page_used pages0 k /\ page_used pages k /\
      m (va (page k) + o mod PAGE_SIZE) = if o <? size then u8 (m0 (start + o)) else 0;
  runnable_pages : n_user_pages mm = 16;
  runnable_used k : page_used pages0 k -> page_used pages k;
  runnable_same t b : allocated pages0 t -> va t <= b < va t + PAGE_SIZE ->
    b < regs_of kp \/ regs_of kp + sizeof_pt_regs <= b -> m b = m0 b;
  runnable_below b : b < va (page 0) -> m b = m0 b;
}.

Lemma start_frame_words pc r m : 0 <= pc < 2 ^ 64 ->
  (forall b, r <= b < r + sizeof_pt_regs -> m b = 0) ->
  words_at (write64 (r + pt_regs_sp) (16 * PAGE_SIZE) (write64 (r + pt_regs_pc) pc
    (write64 (r + pt_regs_pstate) PSR_MODE_EL0t m))) r (start_frame pc).
Proof.
  intros Hpc Hz i w Hi. pose proof PAGE_SIZE_eq as HP. unfold pt_regs_sp, pt_regs_pc, pt_regs_pstate, sizeof_pt_regs, PSR_MODE_EL0t in *.
  destruct (decide (i < 31)%nat) as [Hlt|Hge].
  - unfold start_frame in Hi. rewrite lookup_app_l in Hi by (rewrite length_replicate; lia).
    apply lookup_replicate in Hi as [-> _]. rewrite !read64_write64_ne by lia.
    transitivity (read64 (fun _ => 0) (r + 8 * Z.of_nat i)); [|done]. apply read_le_ext. intros b Hb. apply Hz. lia.
  - pose proof (lookup_lt_Some _ _ _ Hi) as Hl. unfold start_frame in Hi, Hl.
    rewrite length_app, length_replicate in Hl. simpl length in Hl.
    assert (H : i = 31%nat \/ i = 32%nat \/ i = 33%nat) by lia. destruct H as [->|[->| ->]]; injection Hi as <-.
    + by rewrite read64_write64 by lia.
    + rewrite read64_write64_ne by lia. by rewrite read64_write64 by lia.
    + rewrite !read64_write64_ne by lia. by rewrite read64_write64 by lia.
Qed.

(** The end of the page of a PCB is not changed by the loading. *)
Lemma regs_in_page kp b : regs_of kp <= b < regs_of kp + sizeof_pt_regs -> va (page kp) <= b < va (page kp) + PAGE_SIZE.
Proof. unfold regs_of, sizeof_pt_regs. intros. page_lia. Qed.

Lemma fills_runnable kp start size pc m0 m1 pages0 mm m pages :
  0 <= kp < N_PAGES -> page_used pages0 kp -> 0 <= start -> start + size <= va (page 0) ->
  words_at m1 (regs_of kp) (start_frame pc) ->
  (forall b, b < regs_of kp \/ regs_of kp + sizeof_pt_regs <= b -> m1 b = m0 b) ->
  fills (program_byte m1 start size) m1 pages0 program_pages 16 mm m pages ->
  runnable kp start size pc m0 pages0 mm m pages.
Proof.
  intros Hk Hu Hs Hb Hw Hm [F1 F2 F3 F4 F5 F6 F7 F8]. pose proof PAGE_SIZE_eq as HP.
  assert (Hbelow : forall b, b < va (page 0) -> m1 b = m0 b).
  { intros b Hlt. apply Hm. unfold regs_of, sizeof_pt_regs. page_lia. }
  constructor; try done.
  - eapply words_at_ext; [|exact Hw]. intros b Hr. apply (F2 (page kp)); [by exists kp|].
    apply regs_in_page. unfold start_frame in Hr. exact Hr.
  - intros o Ho. assert (Hj : 0 <= o / PAGE_SIZE < 16) by (rewrite HP in *; Z.div_mod_to_equations; lia).
    set (j := Z.to_nat (o / PAGE_SIZE)).
    assert (Ej : Z.of_nat j = o / PAGE_SIZE) by (unfold j; lia).
    destruct (F7 j _ (program_page j ltac:(lia)) ltac:(lia)) as (k & _ & Hkr & Hk0 & Hk1 & _ & Ht & Hc).
    exists k. split; [|split; [done|split; [done|]]].
    + rewrite Ej in Ht. apply Ht, indices_eq, indices_page.
    + rewrite Hc by (rewrite HP; apply Z.mod_pos_bound; lia). unfold program_byte. rewrite Ej.
      assert (o / PAGE_SIZE * PAGE_SIZE + o mod PAGE_SIZE = o) as -> by (rewrite HP; Z.div_mod_to_equations; lia).
      destruct (Z.ltb_spec o size); [|done]. rewrite Hbelow by lia. done.
  - intros t b Ha Ht Hr. rewrite (F2 t b) by done. by apply Hm.
  - intros b Hlt. rewrite F3 by done. by apply Hbelow.
Qed.

Lemma wp_move_to_user_mode s x kp start size pc Q :
  current_process s = page_pcb (va (page kp)) -> pcbs s !! page_pcb (va (page kp)) = Some x ->
  0 <= kp < N_PAGES -> page_used (memory_pages s) kp -> blank (mm x) -> free_pages (memory_pages s) 20 ->
  0 <= start -> 0 <= size -> start + size <= va (page 0) -> 0 <= pc < 2 ^ 64 ->
  (forall mm' m' pages', runnable kp start size pc (ram s) (memory_pages s) mm' m' pages' ->
     Q 0 (set_ttbr0 (pgd mm') (mm_state s (page_pcb (va (page kp))) x mm' m' pages'))) ->
  wp (move_to_user_mode start size pc) Q s.
Proof.
  intros Hcur Hx Hk Hu Hbl Hf Hs Hsz Hb Hpc HQ. unfold move_to_user_mode. wp_step. wp_step. rewrite Hcur.
  wp_step. wp_step; [by apply task_pt_regs_page|]. wp_step.
  assert (Hr : 0 <= regs_of kp /\ regs_of kp + sizeof_pt_regs < 2 ^ 64) by (unfold regs_of, sizeof_pt_regs; page_lia).
  eapply wp_mono; [apply wp_memzero; [done|done|by exists 34|split; lia]|]. intros [] s1 (m1 & -> & Hm1).
  unfold sizeof_pt_regs in Hr. unfold pt_regs_pstate, pt_regs_pc, pt_regs_sp, store64. rewrite !u64_id by lia. wp_steps.
  cbn [ram set_ram]. set (p := page_pcb (va (page kp))) in *. set (m2 := write64 _ _ (write64 _ _ (write64 _ _ m1))).
  apply (wp_mm_state _ p x); [exact Hx|]. apply (wp_copy_code _ p x m2 (memory_pages s) start size); [done..|].
  intros mm' m' pages' Hfill. wp_step. apply wp_get_mm. unfold set_pgd. wp_steps.
  assert (E : forall t, set_ttbr0 t (mm_state s p x mm' m' pages') =
    set_ttbr0 t (mm_state (set_ram m2 s) p x mm' m' pages')) by by intros t; destruct s.
  assert (Hst : runnable kp start size pc (ram s) (memory_pages s) mm' m' pages').
  { apply (fills_runnable _ _ _ _ _ m2); try done.
    - apply start_frame_words; [done|]. intros b Hbr. rewrite Hm1. unfold filled. by range_cases; try lia.
    - intros b Hbr. unfold m2, write64, write_le. rewrite Hm1. unfold filled, sizeof_pt_regs in *.
      range_cases; try done; lia. }
  specialize (HQ _ _ _ Hst). rewrite E in HQ. destruct s. exact HQ.
Qed.
