(* ===== verification/SchedTheorems.v ===== *)
(** * What the scheduler guarantees

    The theorems about [libs/scheduler.c], on kernel states.  A kernel state
    [s] is read through the abstract state it represents ([repr s a]); [m]
    below is the map of the PCBs and [lists a q] the processes of the queue
    [q], in order. *)

From S2P Require Import Prelude Exec Kernel Queue QueueLogic Sched SchedInv SchedSteps Dispatch Algorithms Lottery Aging Handlers Fairness Multilevel Processes System.

(** ** The system *)

(** C1: every state the kernel can reach from the initial globals, by any
    sequence of events and under any of the seven algorithms, represents an
    abstract state that satisfies the invariant: the intrusive queues are
    acyclic and disjoint, a process is queued exactly when it is READY, only
    the current process is RUNNING, and the preemption counters balance. *)
Theorem reachable_states_well_formed (alg : SchedAlgorithm) (timer : nat -> Z) (s : kstate) :
  alg ∈ algorithms -> reachable alg timer s -> exists a, repr s a /\ inv a.
Proof. apply reachable_inv. Qed.

Lemma reachable_states_well_formed_witness :
  exists a, repr (demo_state sched_round_robin) a /\ inv a.
Proof.
  apply (reachable_states_well_formed sched_round_robin demo_timer); [by left|apply demo_reachable].
Defined.

(** C2: a stopped process stays stopped whatever happens next: no event of the
    kernel resumes it, not even a pending [SIGNAL_RESUME], because signals are
    only handled for the processes a scheduling algorithm takes off a queue. *)
Theorem stopped_is_forever (alg : SchedAlgorithm) (timer : nat -> Z) (s s' : kstate)
    (p : pcb_ptr) (x : PCB) :
  alg ∈ algorithms -> reachable alg timer s -> process_at s p x -> p <> init_process ->
  state x = PROCESS_STOPPED -> steps s s' ->
  exists x', process_at s' p x' /\ state x' = PROCESS_STOPPED.
Proof.
  intros Ha Hs Hx Hi Hst Hss. destruct (reachable_inv _ _ _ Ha Hs) as (a & Hr & Hinv).
  destruct (steps_safe _ _ _ Hr Hinv Hss) as (a' & Hr' & _ & Hp).
  destruct (Hp p) as (y & [Hy Hin] & _ & Hsy).
  { exists (strip x). split; [by eapply repr_process_at|done]. }
  destruct (repr_pcb _ _ _ _ Hr' Hy) as (z & Hz & <-). exists z.
  split; [|done]. split; [done|]. by rewrite (repr_base _ _ Hr') in Hin.
Qed.

(** The example state after one scheduling decision: [A] was stopped. *)
Definition demo_stopped : kstate :=
  final (schedule (demo_state sched_round_robin)) (demo_state sched_round_robin).

Lemma stopped_is_forever_witness :
  exists x x', process_at demo_stopped (page_pcb 1) x /\
    let s' := final (send_signal (page_pcb 1) SIGNAL_RESUME demo_stopped) demo_stopped in
    process_at s' (page_pcb 1) x' /\ state x' = PROCESS_STOPPED.
Proof.
  assert (Hx : exists x, pcbs demo_stopped !! page_pcb 1 = Some x /\ state x = PROCESS_STOPPED)
    by (eexists; split; [vm_compute; reflexivity|reflexivity]).
  destruct Hx as (x & Hx & Hs).
  assert (Hin : Some (page_pcb 1) ∈ processes demo_stopped).
  { apply registered_compute. vm_compute. reflexivity. }
  assert (Hr : reachable sched_round_robin demo_timer demo_stopped).
  { eapply rtc_r; [apply demo_reachable|]. apply step_yield. vm_compute. reflexivity. }
  assert (Ha : sched_round_robin ∈ algorithms) by left.
  assert (Hst : steps demo_stopped (final (send_signal (page_pcb 1) SIGNAL_RESUME demo_stopped) demo_stopped)).
  { apply rtc_once, (step_signal _ _ (page_pcb 1) x SIGNAL_RESUME (conj Hx Hin)).
    vm_compute. reflexivity. }
  destruct (stopped_is_forever sched_round_robin demo_timer _ _ (page_pcb 1) x
    Ha Hr (conj Hx Hin) ltac:(discriminate) Hs Hst) as (x' & Hx' & Hs').
  exists x, x'. exact (conj (conj Hx Hin) (conj Hx' Hs')).
Defined.

(** ** The algorithms *)

(** The queues other than [q] are as they were. *)
Definition same_queues (q : queue_ref) (a a' : astate) : Prop :=
  forall q', q' <> q -> lists a' q' = lists a q'.

Lemma same_queues_set q l f a : same_queues q a (a_set_list q l (mkA f (lists a))).
Proof. intros q' Hne. simpl. by rewrite decide_False. Qed.

(** No process of a table has a kill or stop signal pending. *)
Lemma all_survive (m : gmap pcb_ptr PCB) :
  forallb (fun px => survives (snd px)) (map_to_list m) = true ->
  forall p x, m !! p = Some x -> survives x = true.
Proof.
  rewrite forallb_forall. intros H p x Hx. apply (H (p, x)).
  by apply list_elem_of_In, elem_of_map_to_list.
Qed.

Lemma run_unit (m : K unit) (Q : astate -> Prop) s a :
  repr s a -> awp m (fun _ => Q) a -> exists s' a', m s = Done tt s' /\ repr s' a' /\ Q a'.
Proof.
  intros Hr Hm. destruct (awp_elim _ _ _ _ Hm Hr) as ([] & s' & a' & ? & ? & ?). by exists s', a'.
Qed.

Lemma demo_single alg : ml_policy alg = None -> alg ∈ algorithms -> single_queue (demo_abstract alg).
Proof.
  intros Hn Ha. unfold single_queue.
  unfold algorithms in Ha. repeat (apply elem_of_cons in Ha as [->|Ha]; [vm_compute; done|]).
  by apply elem_of_nil in Ha.
Qed.

(** The algorithms that serve the ready queue in order, and what they do to
    the slice of the process they choose. *)
Inductive fifo_algorithm : SchedAlgorithm -> (Z -> Prop) -> Prop :=
  | fifo_round_robin : fifo_algorithm sched_round_robin (fun slice => slice = 10)
  | fifo_fcfs : fifo_algorithm sched_fcfs (fun _ => True).

(** C3: round robin and first-come-first-served give the CPU to the first
    process of the queue (the outgoing process at its tail) that survives its
    pending signals, round robin with a slice of 10 ticks; the processes before
    it are blocked by their signals, those after it stay queued in order, and
    the idle process runs when there is nobody. *)
Theorem fifo_algorithms_serve_queue (s : kstate) (a : astate) (P : Z -> Prop) :
  repr s a -> inv a -> fifo_algorithm (active_algorithm (base a)) P ->
  exists s' a', _schedule s = Done tt s' /\ repr s' a' /\ inv a' /\ keeps (proc a) a' /\
    serves (pcbs (base a)) RQ (lists a RQ ++ outgoing a) P a'.
Proof.
  intros Hr Hi Ha. apply (run_unit _ _ _ _ Hr). unfold _schedule. awp_step. awp_step.
  remember (active_algorithm (base a)) as alg eqn:E. destruct Ha.
  - eapply awp_mono; [apply awp_round_robin; [done|by unfold single_queue; rewrite <- E]|]. by intros _ a' [? _].
  - eapply awp_mono; [apply (awp_queue_head (a_enqueue RQ)); [done|by unfold single_queue; rewrite <- E|..]|].
    + rewrite <- E. eapply requeues_fifo; [by apply inv_enter|]. simpl. by rewrite <- E.
    + intros. apply frame_enqueue.
    + intros [] a'. by rewrite lists_requeue_fifo.
Qed.

Lemma fifo_algorithms_serve_queue_witness :
  let s := demo_state sched_round_robin in
  let a := demo_abstract sched_round_robin in
  exists s' a', _schedule s = Done tt s' /\ repr s' a' /\ inv a' /\ keeps (proc a) a' /\
    serves (pcbs (base a)) RQ (lists a RQ ++ outgoing a) (fun slice => slice = 10) a'.
Proof.
  destruct (demo_ok sched_round_robin ltac:(by left)) as [Hr Hi].
  exact (fifo_algorithms_serve_queue _ _ _ Hr Hi fifo_round_robin).
Defined.

(** Shortest job first: when the queue is sorted by estimated burst, the
    decision serves a sorted permutation of the queue and the outgoing
    process, so a shortest surviving job runs. *)
Theorem sjf_serves_sorted (s : kstate) (a : astate) :
  repr s a -> inv a -> active_algorithm (base a) = sched_sjf ->
  burst_sorted (pcbs (base a)) (lists a RQ) ->
  exists l s' a', l ≡ₚ lists a RQ ++ outgoing a /\ burst_sorted (pcbs (base a)) l /\
    _schedule s = Done tt s' /\ repr s' a' /\ inv a' /\ keeps (proc a) a' /\
    serves (pcbs (base a)) RQ l (fun _ => True) a'.
Proof.
  intros Hr Hi Ha Hs. exists (sjf_queue a).
  destruct (run_unit _schedule (fun a' => inv a' /\ keeps (proc a) a' /\
    serves (pcbs (base a)) RQ (sjf_queue a) (fun _ => True) a') s a Hr) as (s' & a' & ? & ? & ?).
  - unfold _schedule. awp_step. awp_step. rewrite Ha.
    eapply awp_mono; [apply (awp_queue_head (a_enqueue_sorted RQ)); [done|by unfold single_queue; rewrite Ha|..]|].
    + rewrite Ha. eapply requeues_sjf; [by apply inv_enter|]. simpl. by rewrite Ha.
    + intros. apply frame_enqueue_sorted.
    + intros [] a'. by rewrite lists_requeue_sjf.
  - exists s', a'. split; [apply sjf_queue_perm|]. split; [by apply sjf_queue_sorted|done].
Qed.

Lemma sjf_serves_sorted_witness :
  let s := demo_state sched_sjf in
  let a := demo_abstract sched_sjf in
  exists l s' a', l ≡ₚ lists a RQ ++ outgoing a /\ burst_sorted (pcbs (base a)) l /\
    _schedule s = Done tt s' /\ repr s' a' /\ inv a' /\ keeps (proc a) a' /\
    serves (pcbs (base a)) RQ l (fun _ => True) a'.
Proof.
  destruct (demo_ok sched_sjf ltac:(by do 2 right; left)) as [Hr Hi].
  apply (sjf_serves_sorted _ _ Hr Hi); [vm_compute; reflexivity|].
  assert (lists (demo_abstract sched_sjf) RQ = [page_pcb 2; page_pcb 3; page_pcb 1]) as ->
    by (vm_compute; reflexivity).
  unfold burst_sorted. repeat constructor; vm_compute; discriminate.
Defined.

(** C4: the multilevel algorithms serve the first non-empty level: every level
    above the chosen one holds no process that survives its signals, the
    chosen process gets the quantum of its level, and the levels below are
    left as they were. *)
Theorem multilevel_serves_first_level (s : kstate) (a : astate) (policy : MultilevelPolicy) :
  repr s a -> inv a -> ml_policy (active_algorithm (base a)) = Some policy ->
  exists s' a', _schedule_multilevel s = Done tt s' /\ repr s' a' /\ inv a' /\
    keeps (proc a) a' /\ cascades a policy a'.
Proof. intros Hr Hi Hp. by apply (run_unit _ _ _ _ Hr), awp_multilevel. Qed.

Lemma multilevel_serves_first_level_witness :
  let s := demo_state sched_mlfq in
  let a := demo_abstract sched_mlfq in
  exists s' a', _schedule_multilevel s = Done tt s' /\ repr s' a' /\ inv a' /\
    keeps (proc a) a' /\ cascades a ml_policy_mlfq a'.
Proof.
  destruct (demo_ok sched_mlfq ltac:(by do 6 right; left)) as [Hr Hi].
  apply (multilevel_serves_first_level _ _ _ Hr Hi). vm_compute. reflexivity.
Defined.

(** C5: the lottery terminates, and runs the holder of the winning ticket of
    the first draw whose winner survives its signals, with a slice of 10
    ticks; the idle process runs only when no queued process survives. *)
Theorem lottery_runs_winner (s : kstate) (a : astate) :
  repr s a -> inv a -> single_queue a ->
  let l := lists a RQ ++ outgoing a in
  exists s' a', _schedule_lottery s = Done tt s' /\ repr s' a' /\ inv a' /\ keeps (proc a) a' /\
    match lottery_result (system_timer s) (pcbs (base a)) (length l) (timer_reads s)
            (lottery_rng_state s) l with
    | Some p => runs a' p (fun slice => slice = 10) /\ p ∈ l /\ survives_at (pcbs (base a)) p = true
    | None => runs a' init_process (fun _ => True) /\ lists a' RQ = [] /\
        Forall (fun p => survives_at (pcbs (base a)) p = false) l
    end.
Proof.
  intros Hr Hi Hs l. destruct (run_unit _ _ s a Hr (awp_lottery a Hi Hs)) as (s' & a' & E & Hr' & Hi' & Hk & H).
  exists s', a'. split; [done|]. split; [done|]. split; [done|]. split; [done|].
  replace (system_timer (base a)) with (system_timer s) in H by by rewrite (repr_base _ _ Hr).
  replace (timer_reads (base a)) with (timer_reads s) in H by by rewrite (repr_base _ _ Hr).
  replace (lottery_rng_state (base a)) with (lottery_rng_state s) in H by by rewrite (repr_base _ _ Hr).
  cbv zeta in H. fold l in H.
  pose proof (lottery_result_spec (system_timer s) (pcbs (base a)) (length l) (timer_reads s)
    (lottery_rng_state s) l ltac:(done)) as Hspec.
  destruct (lottery_result _ _ _ _ _ _) as [p|]; [done|]. by destruct H.
Qed.

Lemma lottery_runs_winner_witness :
  let s := demo_state sched_lottery in
  let a := demo_abstract sched_lottery in
  let l := lists a RQ ++ outgoing a in
  exists s' a', _schedule_lottery s = Done tt s' /\ repr s' a' /\ inv a' /\ keeps (proc a) a' /\
    match lottery_result (system_timer s) (pcbs (base a)) (length l) (timer_reads s)
            (lottery_rng_state s) l with
    | Some p => runs a' p (fun slice => slice = 10) /\ p ∈ l /\ survives_at (pcbs (base a)) p = true
    | None => runs a' init_process (fun _ => True) /\ lists a' RQ = [] /\
        Forall (fun p => survives_at (pcbs (base a)) p = false) l
    end.
Proof.
  assert (Ha : sched_lottery ∈ algorithms) by (do 3 right; left).
  destruct (demo_ok sched_lottery Ha) as [Hr Hi].
  exact (lottery_runs_winner _ _ Hr Hi (demo_single sched_lottery eq_refl Ha)).
Defined.

(** C6: a draw is fair: the candidates' tickets add up to [total], and of the
    ticket numbers [0 .. total - 1] the process [p] wins exactly an interval
    of as many numbers as it holds tickets. *)
Theorem lottery_draw_fair (s : kstate) (a : astate) (before after : list pcb_ptr) (p : pcb_ptr) :
  repr s a -> inv a -> single_queue a -> lists a RQ = before ++ p :: after ->
  let m := pcbs (base a) in
  let total := total_tickets m (lists a RQ) in
  let hd := q_head (ready_queue s) in
  (exists s', count_tickets loop_fuel hd 0 s = Done total s' /\ repr s' a) /\
  forall w, 0 <= w < total -> exists s' previous candidate,
    find_winner loop_fuel None hd 0 w s = Done (previous, Some candidate) s' /\ repr s' a /\
    (candidate = p <-> total_tickets m before <= w < total_tickets m before + tickets_of m p).
Proof.
  intros Hr Hi Hs Hl m total hd. pose proof (inv_wf _ Hi) as Hw.
  assert (Hv : valid_queue a RQ) by (eapply wf_valid_home; [done|by apply single_queue_home]).
  assert (Hhd : hd = hd_error (lists a RQ)).
  { destruct (repr_queue _ _ Hr RQ (ready_queue s) eq_refl) as [Hseg _].
    destruct (lists a RQ); [done|]. by destruct Hseg. }
  assert (Hf : (length (lists a RQ) < loop_fuel)%nat).
  { unfold loop_fuel. pose proof (queue_length None a RQ Hw). lia. }
  rewrite Hhd. split.
  - destruct (awp_elim (count_tickets loop_fuel (hd_error (lists a RQ)) 0)
      (fun t a' => t = total /\ a' = a) s a) as (t & s' & a' & E & Hr' & -> & ->); [|done|by exists s'].
    by apply (awp_count_tickets loop_fuel [] (lists a RQ)).
  - intros w Hwr.
    destruct (awp_elim (find_winner loop_fuel None (hd_error (lists a RQ)) 0 w)
      (fun r a' => a' = a /\ exists b q c, r = (last b, Some q) /\
         winner_at m (lists a RQ) w = Some (b, q, c)) s a)
      as ([prev cand] & s' & a' & E & Hr' & -> & b & q & c & [= -> ->] & W); [|done|].
    { apply (awp_find_winner loop_fuel [] (lists a RQ)); try done.
      intros b q c W. split; [done|]. by exists b, q, c. }
    exists s', (last b), q. split; [done|]. split; [done|].
    pose proof (wf_nodup _ _ Hw RQ) as Hnd. rewrite Hl in Hnd.
    assert (Hp : p ∉ before).
    { apply NoDup_app in Hnd as (_ & Hd & _). intros Hp. by apply (Hd p Hp); left. }
    rewrite <- (winner_interval m before p after w) by (done || lia). rewrite <- Hl, W. split.
    + intros ->. exists b, c. split; [done|].
      apply winner_at_spec in W as (El & _). rewrite <- Hl, El in Hnd.
      apply NoDup_app in Hnd as (_ & Hd & _). intros Hp'. by apply (Hd p Hp'); left.
    + intros (b' & c' & [= _ -> _] & _). done.
Qed.

Lemma lottery_draw_fair_witness :
  let s := demo_state sched_lottery in
  let a := demo_abstract sched_lottery in
  let m := pcbs (base a) in
  let total := total_tickets m (lists a RQ) in
  let hd := q_head (ready_queue s) in
  (exists s', count_tickets loop_fuel hd 0 s = Done total s' /\ repr s' a) /\
  forall w, 0 <= w < total -> exists s' previous candidate,
    find_winner loop_fuel None hd 0 w s = Done (previous, Some candidate) s' /\ repr s' a /\
    (candidate = page_pcb 3 <-> total_tickets m [page_pcb 1; page_pcb 2] <= w <
       total_tickets m [page_pcb 1; page_pcb 2] + tickets_of m (page_pcb 3)).
Proof.
  assert (Ha : sched_lottery ∈ algorithms) by (do 3 right; left).
  destruct (demo_ok sched_lottery Ha) as [Hr Hi].
  apply (lottery_draw_fair _ _ [page_pcb 1; page_pcb 2] [] (page_pcb 3) Hr Hi (demo_single sched_lottery eq_refl Ha)).
  vm_compute. reflexivity.
Defined.

(** The random numbers never get stuck at zero and lose no state: a draw
    returns a positive 64-bit number, which is the new state, and the
    xorshift step is injective on 64-bit states. *)
Theorem lottery_random_never_zero (s : kstate) (x y : Z) :
  0 <= lottery_rng_state s < 2 ^ 64 -> 0 <= x < 2 ^ 64 -> 0 <= y < 2 ^ 64 ->
  (exists r s', lottery_random s = Done r s' /\ 0 < r < 2 ^ 64 /\ lottery_rng_state s' = r) /\
  (xorshift64 x = xorshift64 y -> x = y).
Proof.
  intros Hs Hx Hy. split.
  - set (t := u32 (system_timer s (timer_reads s))).
    set (z := if Z.lxor (lottery_rng_state s) t =? 0 then lottery_seed else Z.lxor (lottery_rng_state s) t).
    exists (xorshift64 z), (set_lottery_rng_state (xorshift64 z) (set_timer_reads (S (timer_reads s)) s)).
    split; [reflexivity|]. split; [|done].
    assert (Hz : 0 < z < 2 ^ 64).
    { pose proof (u32_range (system_timer s (timer_reads s))) as Ht. fold t in Ht.
      pose proof (lxor_u64 (lottery_rng_state s) t Hs ltac:(lia)) as Hr. unfold z.
      destruct (Z.eqb_spec (Z.lxor (lottery_rng_state s) t) 0); [unfold lottery_seed|]; lia. }
    pose proof (xorshift64_range z ltac:(lia)).
    assert (xorshift64 z <> 0) by (intros E; apply xorshift64_zero in E; lia). lia.
  - intros E. apply Z.lxor_eq. apply xorshift64_zero; [by apply lxor_u64|].
    by rewrite xorshift64_lxor, E, Z.lxor_nilpotent.
Qed.

Lemma lottery_random_never_zero_witness :
  (exists r s', lottery_random (demo_state sched_lottery) = Done r s' /\ 0 < r < 2 ^ 64 /\
    lottery_rng_state s' = r) /\ (xorshift64 1 = xorshift64 1 -> 1 = 1).
Proof. apply (lottery_random_never_zero (demo_state sched_lottery) 1 1); vm_compute; split; done. Defined.

(** C7: priority aging terminates (at most 64 recharges bring any 64-bit
    counter above zero) and runs the first process with the largest positive
    counter, after the smallest number of epochs that gives one; the idle
    process runs only when no queued process survives its signals. *)
Theorem priority_aging_picks_max (s : kstate) (a : astate) :
  repr s a -> inv a -> single_queue a ->
  exists s' a' r, _schedule_priority_aging s = Done tt s' /\ repr s' a' /\ inv a' /\
    keeps (proc a) a' /\ ages (pcbs (base a)) (lists a RQ ++ outgoing a) r /\
    runs a' (default init_process r) (fun _ => True) /\ (r = None -> lists a' RQ = []).
Proof.
  intros Hr Hi Hs.
  destruct (run_unit _ _ s a Hr (awp_priority_aging a Hi Hs)) as (s' & a' & E & Hr' & Hi' & Hk & r & H).
  by exists s', a', r.
Qed.

Lemma priority_aging_picks_max_witness :
  let s := demo_state sched_priority_aging in
  let a := demo_abstract sched_priority_aging in
  exists s' a' r, _schedule_priority_aging s = Done tt s' /\ repr s' a' /\ inv a' /\
    keeps (proc a) a' /\ ages (pcbs (base a)) (lists a RQ ++ outgoing a) r /\
    runs a' (default init_process r) (fun _ => True) /\ (r = None -> lists a' RQ = []).
Proof.
  assert (Ha : sched_priority_aging ∈ algorithms) by (do 4 right; left).
  destruct (demo_ok sched_priority_aging Ha) as [Hr Hi].
  exact (priority_aging_picks_max _ _ Hr Hi (demo_single sched_priority_aging eq_refl Ha)).
Defined.

(** ** Handlers *)

(** C8: the timer tick finishes, keeps the invariant and switches only at the
    end of the slice, outside critical sections and under a preemptive
    algorithm; when all three hold, a process is dispatched. *)
Theorem timer_tick_preempts_only_expired (s : kstate) (a : astate) (x : PCB) :
  repr s a -> inv a -> a_pcb a (current_process (base a)) = Some x ->
  exists s' a', handle_timer_tick s = Done tt s' /\ repr s' a' /\ inv a' /\ keeps (proc a) a' /\
    (~ tick_switches a x -> current_process s' = current_process s) /\
    (tick_switches a x ->
      exists y, proc a' (current_process s') y /\ state y = PROCESS_RUNNING).
Proof.
  intros Hr Hi Hx.
  destruct (run_unit _ _ s a Hr (awp_timer_tick a x Hi Hx)) as (s' & a' & E & Hr' & Hi' & Hk & H).
  replace (current_process (base a)) with (current_process s) in H by by rewrite (repr_base _ _ Hr).
  replace (current_process (base a')) with (current_process s') in H by by rewrite (repr_base _ _ Hr').
  by exists s', a'.
Qed.

Lemma timer_tick_preempts_only_expired_witness :
  let s := demo_state sched_mlfq in
  let a := demo_abstract sched_mlfq in
  exists s' a', handle_timer_tick s = Done tt s' /\ repr s' a' /\ inv a' /\ keeps (proc a) a' /\
    (~ tick_switches a INIT_PROCESS -> current_process s' = current_process s) /\
    (tick_switches a INIT_PROCESS ->
      exists y, proc a' (current_process s') y /\ state y = PROCESS_RUNNING).
Proof.
  destruct (demo_ok sched_mlfq ltac:(by do 6 right; left)) as [Hr Hi].
  apply (timer_tick_preempts_only_expired _ _ _ Hr Hi). vm_compute. reflexivity.
Defined.

(** C9: the per-tick hook of MLQ and MLFQ boosts every process to level 0
    exactly when the boost period has elapsed, keeping the order of the levels
    and of the processes inside them, and lowers the current process by one
    level when it has used its whole quantum outside a critical section, never
    below the last level. *)
Theorem multilevel_hook_migrates (s : kstate) (a : astate) (policy : MultilevelPolicy) :
  repr s a -> inv a -> ml_policy (active_algorithm (base a)) = Some policy ->
  exists s' a', _multilevel_on_tick s = Done tt s' /\ repr s' a' /\ inv a' /\
    tick_frame a a' /\ hook_result policy a a'.
Proof.
  intros Hr Hi Hp. apply (run_unit _ _ s a Hr). by eapply awp_multilevel_on_tick.
Qed.

Lemma multilevel_hook_migrates_witness :
  let s := demo_state sched_mlfq in
  let a := demo_abstract sched_mlfq in
  exists s' a', _multilevel_on_tick s = Done tt s' /\ repr s' a' /\ inv a' /\
    tick_frame a a' /\ hook_result ml_policy_mlfq a a'.
Proof.
  destruct (demo_ok sched_mlfq ltac:(by do 6 right; left)) as [Hr Hi].
  apply (multilevel_hook_migrates _ _ _ Hr Hi). vm_compute. reflexivity.
Defined.

(** C10: [exit_process] first runs to a state in which the current process is a
    zombie, every process that waited for it is READY and queued and no longer
    waits, and every other process is as it was; from that state [schedule] takes
    the decision: it marks the process it chooses RUNNING, the dead process is a
    zombie still, and processes that are blocked stay so. *)
Theorem exit_releases_waiters (s : kstate) (a : astate) (x : PCB) :
  repr s a -> inv a -> proc a (current_process s) x -> state x = PROCESS_RUNNING ->
  exists s1 a1 s' a', release_waiters s = Done tt s1 /\ repr s1 a1 /\ inv a1 /\
    released a (current_process s) (pid x) a1 /\
    schedule s1 = Done tt s' /\ exit_process s = Done tt s' /\ repr s' a' /\ dispatched (proc a1) a' /\
    (current_process s <> init_process -> exists y, proc a' (current_process s) y /\ state y = PROCESS_ZOMBIE).
Proof.
  intros Hr Hi Hx Hs.
  replace (current_process s) with (current_process (base a)) in * by by rewrite (repr_base _ _ Hr).
  destruct (run_unit _ _ s a Hr (awp_release_waiters a x Hi Hx Hs)) as (s1 & a1 & E1 & Hr1 & Hi1 & Hrel).
  destruct (run_unit _ _ s1 a1 Hr1 (awp_schedule a1 Hi1)) as (s' & a' & E & Hr' & Hd).
  exists s1, a1, s', a'. split; [done|]. split; [done|]. split; [done|]. split; [done|]. split; [done|].
  split; [unfold exit_process, mbind, exec_bind; by rewrite E1|]. split; [done|]. split; [done|]. intros Hne.
  destruct Hrel as [(z & Hz & Ez) _]. destruct Hd as (_ & Hk & _).
  destruct (Hk _ z Hz Hne) as (y & Hy & Ey & _); [by rewrite Ez|by rewrite Ez|]. exists y. by rewrite Ey.
Qed.

(** The example state after a scheduling decision: a process is RUNNING. *)
Lemma demo_running alg : alg ∈ algorithms -> exists s a x,
  repr s a /\ inv a /\ proc a (current_process s) x /\ state x = PROCESS_RUNNING.
Proof.
  intros Ha. destruct (demo_ok alg Ha) as [Hr Hi].
  destruct (run_unit _ _ _ _ Hr (awp_schedule _ Hi)) as (s' & a' & _ & Hr' & Hi' & _ & x & Hx & Hs).
  exists s', a', x. split; [done|]. split; [done|]. split; [|done].
  by replace (current_process s') with (current_process (base a')) by by rewrite (repr_base _ _ Hr').
Qed.

Lemma exit_releases_waiters_witness : exists s a x s1 a1 s' a',
  release_waiters s = Done tt s1 /\ repr s1 a1 /\ inv a1 /\ released a (current_process s) (pid x) a1 /\
  schedule s1 = Done tt s' /\ exit_process s = Done tt s' /\ repr s' a' /\ dispatched (proc a1) a'.
Proof.
  destruct (demo_running sched_sjf ltac:(by do 2 right; left)) as (s & a & x & Hr & Hi & Hx & Hs).
  destruct (exit_releases_waiters s a x Hr Hi Hx Hs) as (s1 & a1 & s' & a' & H1 & H2 & H3 & H4 & H5 & H6 & H7 & H8 & _).
  exists s, a, x, s1, a1, s', a'. tauto.
Defined.

(** Registering a new READY process puts it in its slot of the process
    table and in a queue of the active algorithm, at the level its class asks
    for, and leaves the other processes alone; a full table or an identifier
    outside it is refused and changes nothing. *)
Theorem add_process_registers (s : kstate) (a : astate) (p : pcb_ptr) (x : PCB) :
  repr s a -> inv a -> fresh_process a p x ->
  if (N_PROCESSES <=? n_processes s) || (N_PROCESSES <=? pid x)
  then add_process_to_scheduler p s = Done (-1) s
  else exists s' a', add_process_to_scheduler p s = Done 0 s' /\ repr s' a' /\ registered a p x a'.
Proof.
  intros Hr Hi Hf. destruct (repr_pcb _ _ _ _ Hr (fresh_pcb _ _ _ Hf)) as (z & Hz & Ez).
  assert (Hn : n_processes (base a) = n_processes s) by by rewrite (repr_base _ _ Hr).
  assert (Hpid : pid z = pid x) by by rewrite <- Ez.
  destruct (_ || _) eqn:E.
  - unfold add_process_to_scheduler, deref, mbind, exec_bind, gets. rewrite Hz. simpl.
    unfold mret, exec_ret. by rewrite Hpid, E.
  - reflect_bool.
    destruct (awp_elim _ _ s a (awp_add_process a p x Hi Hf ltac:(lia)) Hr) as (r & s' & a' & Er & Hr' & -> & Hreg).
    by exists s', a'.
Qed.

Lemma add_process_registers_witness :
  let p := page_pcb 9 in
  let x := demo_pcb 4 10 1 10 0 1 0 in
  let s := provide p x (demo_state sched_mlq) in
  let a := a_provide p x (demo_abstract sched_mlq) in
  if (N_PROCESSES <=? n_processes s) || (N_PROCESSES <=? pid x)
  then add_process_to_scheduler p s = Done (-1) s
  else exists s' a', add_process_to_scheduler p s = Done 0 s' /\ repr s' a' /\ registered a p x a'.
Proof.
  destruct (demo_ok sched_mlq ltac:(by do 5 right; left)) as [Hr Hi].
  assert (Hp : Some (page_pcb 9) ∉ processes (base (demo_abstract sched_mlq))).
  { apply unregistered_compute. vm_compute. reflexivity. }
  apply add_process_registers.
  - apply repr_provide; [exact Hr|]. intros q Hq.
    destruct (wf_ready _ _ (inv_wf _ Hi) _ _ Hq) as (y & [_ Hin] & _). contradiction.
  - apply inv_provide; [exact Hi|exact Hp].
  - constructor; [vm_compute; reflexivity|exact Hp|vm_compute; reflexivity|vm_compute; split; done| |
      unfold preempt_ok; simpl; lia|discriminate].
    constructor; simpl; lia.
Defined.

(** [sched_set_param] accepts exactly the positive priorities and ticket
    counts and the existing queue levels, for every process but the idle one;
    it changes that parameter of that process (and its tracked level) only,
    and refuses everything else without changing anything. *)
Theorem set_param_checked (s : kstate) (a : astate) (p : pcb_ptr) (x : PCB) (param value : Z) :
  repr s a -> inv a -> proc a p x -> p <> init_process -> value < 2 ^ 31 ->
  exists r s' a', sched_set_param (Some p) param value s = Done r s' /\ repr s' a' /\
    match param_change param value x with
    | Some (x', level) => r = 0 /\ param_set a p x x' level a'
    | None => r = -1 /\ a' ≡ a
    end.
Proof.
  intros Hr Hi Hx Hp Hv. exact (awp_elim _ _ _ _ (awp_set_param a p x param value Hi Hx Hp Hv) Hr).
Qed.

Lemma set_param_checked_witness :
  let s := demo_state sched_mlfq in
  let a := demo_abstract sched_mlfq in
  exists r s' a', sched_set_param (Some (page_pcb 3)) SCHED_PARAM_QUEUE_PRIORITY 4 s = Done r s' /\
    repr s' a' /\
    match param_change SCHED_PARAM_QUEUE_PRIORITY 4 demo_C with
    | Some (x', level) => r = 0 /\ param_set a (page_pcb 3) demo_C x' level a'
    | None => r = -1 /\ a' ≡ a
    end.
Proof.
  destruct (demo_ok sched_mlfq ltac:(by do 6 right; left)) as [Hr Hi].
  apply (set_param_checked _ _ (page_pcb 3) demo_C _ _ Hr Hi); [|discriminate|lia].
  split; [vm_compute; reflexivity|].
  replace (processes (base (demo_abstract sched_mlfq))) with (processes (demo_state sched_mlfq)) by reflexivity.
  apply registered_compute. vm_compute. reflexivity.
Defined.

(** ** The queues *)

(** C11: the intrusive queue implements a list.  [enqueue_process_to] puts a
    process that is in no queue at the tail and marks it READY;
    [dequeue_process_from] takes the head off, or returns [NULL] without
    changing anything when the queue is empty; [remove_process_from], given the
    predecessor, unlinks a process from any place.  No operation touches
    another queue, and the last two touch nothing but links. *)
Theorem queue_implements_list (s : kstate) (a : astate) (q : queue_ref) :
  repr s a -> is_Some (queue_at s q) ->
  (forall p, is_Some (a_pcb a p) -> p <> init_process -> ~ queued a p ->
    exists s' a', enqueue_process_to q (Some p) s = Done tt s' /\ repr s' a' /\
      lists a' q = lists a q ++ [p] /\ same_queues q a a' /\
      base a' = base (a_update p (set_state PROCESS_READY) a)) /\
  match lists a q with
  | [] => dequeue_process_from q s = Done None s
  | p :: rest => exists s' a', dequeue_process_from q s = Done (Some p) s' /\ repr s' a' /\
      lists a' q = rest /\ same_queues q a a' /\ base a' = base a
  end /\
  (forall l1 p l2, lists a q = l1 ++ p :: l2 ->
    exists s' a', remove_process_from q (last l1) p s = Done tt s' /\ repr s' a' /\
      lists a' q = l1 ++ l2 /\ same_queues q a a' /\ base a' = base a).
Proof.
  intros Hr Hq. split; [|split].
  - intros p Hp Hi Hn.
    destruct (proj1 (wp_inv _ _ _) (enqueue_process_to_refines s a q p Hr Hq Hp Hi Hn)) as ([] & s' & E & Hr').
    exists s', (a_enqueue q p a). split; [done|]. split; [done|]. split; [apply a_set_list_eq|].
    split; [apply same_queues_set|done].
  - destruct (proj1 (wp_inv _ _ _) (dequeue_process_from_refines s a q Hr Hq)) as (r & s' & E & H).
    destruct (lists a q) as [|p rest]; [by destruct H as [-> ->]|]. destruct H as [-> Hr'].
    exists s', (a_set_list q rest a). split; [done|]. split; [done|]. split; [apply a_set_list_eq|].
    split; [apply same_queues_set|done].
  - intros l1 p l2 Hl.
    destruct (proj1 (wp_inv _ _ _) (remove_process_from_refines s a q l1 p l2 Hr Hq Hl)) as ([] & s' & E & Hr').
    exists s', (a_set_list q (l1 ++ l2) a). split; [done|]. split; [done|]. split; [apply a_set_list_eq|].
    split; [apply same_queues_set|done].
Qed.

Lemma queue_implements_list_witness :
  let p := page_pcb 9 in
  let s := provide p (demo_pcb 4 10 1 10 0 1 0) (demo_state sched_round_robin) in
  let a := a_provide p (demo_pcb 4 10 1 10 0 1 0) (demo_abstract sched_round_robin) in
  (exists s' a', enqueue_process_to RQ (Some p) s = Done tt s' /\ repr s' a' /\
    lists a' RQ = lists a RQ ++ [p]) /\
  (exists s' a', dequeue_process_from RQ s = Done (Some (page_pcb 1)) s' /\ repr s' a' /\
    lists a' RQ = [page_pcb 2; page_pcb 3]) /\
  (exists s' a', remove_process_from RQ (Some (page_pcb 1)) (page_pcb 2) s = Done tt s' /\ repr s' a' /\
    lists a' RQ = [page_pcb 1; page_pcb 3]).
Proof.
  intros p s a. destruct (demo_ok sched_round_robin ltac:(by left)) as [Hr Hi].
  assert (Hq : forall q, page_pcb 9 ∉ lists (demo_abstract sched_round_robin) q).
  { intros q Hq. destruct (wf_ready _ _ (inv_wf _ Hi) _ _ Hq) as (y & [_ Hin] & _).
    revert Hin. apply unregistered_compute. vm_compute. reflexivity. }
  assert (Hl : lists a RQ = [page_pcb 1; page_pcb 2; page_pcb 3]) by (vm_compute; reflexivity).
  destruct (queue_implements_list s a RQ (repr_provide _ _ _ _ Hr Hq)) as (He & Hd & Hm); [eexists; reflexivity|].
  split; [|split].
  - destruct (He p) as (s' & a' & E & Hr' & Hl' & _);
      [eexists; vm_compute; reflexivity|discriminate|intros [q Hin]; exact (Hq q Hin)|].
    exists s', a'. exact (conj E (conj Hr' Hl')).
  - rewrite Hl in Hd. destruct Hd as (s' & a' & E & Hr' & Hl' & _). exists s', a'. exact (conj E (conj Hr' Hl')).
  - destruct (Hm [page_pcb 1] (page_pcb 2) [page_pcb 3] Hl) as (s' & a' & E & Hr' & Hl' & _).
    exists s', a'. exact (conj E (conj Hr' Hl')).
Defined.

(** C12: [enqueue_sorted_to] inserts a process into a queue sorted by estimated
    burst after every process whose estimate is shorter or equal and before every
    one whose estimate is longer: the queue stays sorted, and processes with equal
    estimates are served in the order they came. *)
Theorem sorted_insertion (s : kstate) (a : astate) (q : queue_ref) (p : pcb_ptr) :
  repr s a -> inv a -> is_Some (queue_at s q) -> is_Some (a_pcb a p) -> p <> init_process ->
  ~ queued a p -> burst_sorted (pcbs (base a)) (lists a q) ->
  exists s' a' l1 l2, enqueue_sorted_to q (Some p) s = Done tt s' /\ repr s' a' /\
    lists a q = l1 ++ l2 /\ lists a' q = l1 ++ p :: l2 /\
    Forall (fun h => burst_of (pcbs (base a)) h <= burst_of (pcbs (base a)) p) l1 /\
    Forall (fun h => burst_of (pcbs (base a)) p < burst_of (pcbs (base a)) h) l2 /\
    burst_sorted (pcbs (base a)) (lists a' q) /\ same_queues q a a' /\
    base a' = base (a_update p (set_state PROCESS_READY) a).
Proof.
  intros Hr Hinv Hq Hp Hi Hn Hs.
  destruct (proj1 (wp_inv _ _ _) (enqueue_sorted_to_refines s a q p Hr Hq Hp Hi Hn
    (queue_length None a q (inv_wf _ Hinv)))) as ([] & s' & E & Hr').
  destruct (insert_by_burst_place _ p _ Hs) as (l1 & l2 & Hl & Ea & H1 & H2).
  assert (El : lists (a_enqueue_sorted q p a) q = insert_by_burst (pcbs (base a)) (burst_of (pcbs (base a)) p) p (lists a q))
    by apply a_set_list_eq.
  exists s', (a_enqueue_sorted q p a), l1, l2. split; [done|]. split; [done|]. split; [done|].
  split; [by rewrite El|]. split; [done|]. split; [done|].
  split; [rewrite El; by apply insert_by_burst_sorted|]. split; [apply same_queues_set|done].
Qed.

Lemma sorted_insertion_witness :
  let p := page_pcb 9 in
  let s := provide p (demo_pcb 4 10 1 10 5 1 0) (demo_state sched_sjf) in
  let a := a_provide p (demo_pcb 4 10 1 10 5 1 0) (demo_abstract sched_sjf) in
  exists s' a' l1 l2, enqueue_sorted_to RQ (Some p) s = Done tt s' /\ repr s' a' /\
    lists a RQ = l1 ++ l2 /\ lists a' RQ = l1 ++ p :: l2 /\
    Forall (fun h => burst_of (pcbs (base a)) h <= burst_of (pcbs (base a)) p) l1 /\
    Forall (fun h => burst_of (pcbs (base a)) p < burst_of (pcbs (base a)) h) l2 /\
    burst_sorted (pcbs (base a)) (lists a' RQ) /\ same_queues RQ a a' /\
    base a' = base (a_update p (set_state PROCESS_READY) a).
Proof.
  destruct (demo_ok sched_sjf ltac:(by do 2 right; left)) as [Hr Hi].
  assert (Hp : Some (page_pcb 9) ∉ processes (base (demo_abstract sched_sjf)))
    by (apply unregistered_compute; vm_compute; reflexivity).
  assert (Hq : forall q, page_pcb 9 ∉ lists (demo_abstract sched_sjf) q).
  { intros q Hq. destruct (wf_ready _ _ (inv_wf _ Hi) _ _ Hq) as (y & [_ Hin] & _). contradiction. }
  apply sorted_insertion; [apply repr_provide; [exact Hr|exact Hq]|apply inv_provide; [exact Hi|exact Hp]|
    eexists; reflexivity|eexists; vm_compute; reflexivity|discriminate|intros [q Hin]; exact (Hq q Hin)|].
  assert (lists (a_provide (page_pcb 9) (demo_pcb 4 10 1 10 5 1 0) (demo_abstract sched_sjf)) RQ =
    [page_pcb 2; page_pcb 3; page_pcb 1]) as -> by (vm_compute; reflexivity).
  unfold burst_sorted. repeat constructor; vm_compute; discriminate.
Defined.

(** C13: round robin starves nobody: when no kill or stop signal is pending, a
    process that has [length l1] others before it in the ready queue gets the
    CPU, with a full slice, after [length l1 + 1] scheduling decisions. *)
Theorem round_robin_starves_nobody (s : kstate) (a : astate) (l1 l2 : list pcb_ptr) (p : pcb_ptr) :
  repr s a -> inv a -> active_algorithm (base a) = sched_round_robin -> calm a ->
  lists a RQ = l1 ++ p :: l2 ->
  exists s' a', decisions (S (length l1)) s = Done tt s' /\ repr s' a' /\ inv a' /\
    runs a' p (fun slice => slice = 10) /\ exists l, lists a' RQ = l2 ++ l.
Proof. intros Hr Hi Ha Hc Hl. by apply (run_unit _ _ _ _ Hr), (awp_decisions l1 p l2). Qed.

(** The example without the stop signal of the first process. *)
Definition demo_calm : kstate :=
  let s := demo_state sched_round_robin in
  set_pcbs (alter (set_pending_signals 0) (page_pcb 1) (pcbs s)) s.

Definition demo_calm_abstract : astate :=
  a_update (page_pcb 1) (set_pending_signals 0) (demo_abstract sched_round_robin).

Lemma demo_calm_ok : repr demo_calm demo_calm_abstract /\ inv demo_calm_abstract /\ calm demo_calm_abstract.
Proof.
  destruct (demo_ok sched_round_robin ltac:(by left)) as [Hr Hi].
  assert (Hp : exists x, proc (demo_abstract sched_round_robin) (page_pcb 1) x).
  { eexists. split; [vm_compute; reflexivity|]. apply registered_compute. vm_compute. reflexivity. }
  split; [|split].
  - by apply repr_update; [|constructor].
  - apply inv_inert; [done|done| |done]. intros x. split; [done|]. split; [done|]. intros []; by constructor.
  - intros p x [Hx _]. apply (all_survive (pcbs (base demo_calm_abstract))) with p; [|exact Hx].
    vm_compute. reflexivity.
Qed.

Lemma round_robin_starves_nobody_witness :
  exists s' a', decisions 3 demo_calm = Done tt s' /\ repr s' a' /\ inv a' /\
    runs a' (page_pcb 3) (fun slice => slice = 10) /\ exists l, lists a' RQ = [] ++ l.
Proof.
  destruct demo_calm_ok as (Hr & Hi & Hc).
  apply (round_robin_starves_nobody _ _ [page_pcb 1; page_pcb 2] [] (page_pcb 3) Hr Hi); [|exact Hc|];
    vm_compute; reflexivity.
Defined.
