(* ===== verification/IpcTheorems.v ===== *)
(** * What the messages guarantee

    The theorems about [libs/ipc.c], on kernel states: delivery in order while
    the ring has room, and the two places where the code leaves its arrays. *)

From S2P Require Import Prelude Exec Kernel Memory Cstring Queue QueueLogic Sched SchedInv SchedSteps Dispatch Algorithms Handlers Processes System Waking Ipc Crowd.

(** The process [q], in the state [y] before, was woken if it waited to send. *)
Definition woken_if_sender (q : pcb_ptr) (y : PCB) (a' : astate) : Prop :=
  if wants_to_send y then proc a' q (set_state PROCESS_READY y) /\ queued a' q else proc a' q y.

(** ** Lemmas *)

Section Lemmas.
Implicit Types (s : kstate) (a : astate) (p q : pcb_ptr) (text : list Z) (texts : list (list Z)).

Lemma delivered_queued p x b a a' :
  p <> init_process -> state x = PROCESS_WAITING_TO_RECEIVE_MESSAGE -> delivered p x b a a' -> queued a' p.
Proof. intros Hi E. unfold delivered. rewrite E. simpl. intros Hr. by apply (readied_queued _ _ _ Hr). Qed.

(** The state just before the process table is searched for senders. *)
Definition taken (p : pcb_ptr) (b : MessagesCircularBuffer) (dest : Z) (text : list Z) (a : astate) : astate :=
  a_global (set_ram (stored_bytes dest (text ++ [0]) (ram (base a)))) (a_update p (set_messages_buffer b) a).

Lemma taken_others p b dest text a q y : q <> p -> proc (taken p b dest text a) q y <-> proc a q y.
Proof. intros Hne. apply (proc_update_ne a p q (set_messages_buffer b) y Hne). Qed.

Lemma taken_self p b dest text a x : proc a p x -> proc (taken p b dest text a) p (set_messages_buffer b x).
Proof. apply (proc_update_eq a p (set_messages_buffer b) x). Qed.

Lemma woken_all a a' q y : inv a -> senders_woken N_PROCESSES a a' -> proc a q y -> woken_if_sender q y a'.
Proof.
  intros Hinv Hk Hy. pose proof (woken_procs _ _ _ _ Hk q y Hy) as H.
  destruct (wf_pid _ _ _ _ (inv_wf _ Hinv) Hy) as [Hp _].
  rewrite (proj2 (Z.ltb_lt _ _)), andb_true_r in H by lia. exact H.
Qed.

Lemma taken_inv p x b dest text a : inv a -> proc a p x -> inv (taken p b dest text a).
Proof. intros Hinv Hx. apply inv_global; [by eapply inv_buffer|done..]. Qed.

Lemma taken_mailbox p x b ms texts dest text a a' :
  inv a -> proc a p x -> ring b ms -> Forall2 message_text ms texts ->
  senders_woken N_PROCESSES (taken p b dest text a) a' -> mailbox a' p texts.
Proof.
  intros Hinv Hx Hr Ht Hk.
  pose proof (woken_all _ _ p _ (taken_inv p x b dest text a Hinv Hx) Hk (taken_self p b dest text a x Hx)) as H.
  unfold woken_if_sender in H. destruct (wants_to_send _); [destruct H as [H _]|]; eexists _, ms; eauto.
Qed.

Lemma idle_ready_taken p x b dest text a : proc a p x -> idle_ready a -> idle_ready (taken p b dest text a).
Proof.
  intros Hx Hi y Hy. destruct (decide (init_process = p)) as [<-|Hne].
  - rewrite (proc_fun _ _ _ _ Hy (proc_pcb _ _ _ (taken_self _ b dest text a x Hx))). by apply (Hi x).
  - apply Hi. by apply (taken_others p b dest text a init_process y Hne).
Qed.

(** The part of [receive_message] before the search for senders. *)
Lemma receive_prefix p x m ms text dest stack others s a :
  repr s a -> inv a -> proc a p x -> ring (messages_buffer x) (m :: ms) -> message_text m text ->
  in_memory dest (Z.of_nat (length text) + 1) -> length (body stack) = Z.to_nat MAX_MESSAGES_BODY_SIZE ->
  exists s1 b, repr s1 (taken p b dest text a) /\ ring b ms /\
    receive_message p dest stack others s = for_loop (Z.to_nat N_PROCESSES) 0 wake_sender s1.
Proof.
  intros Hr Hinv Hx Hb Ht Hd Hs. unfold receive_message.
  destruct (awp_elim _ _ _ _ (awp_pop_message p x m ms text stack a Hx Hb Ht Hs) Hr)
    as (? & s1 & a1 & E1 & Hr1 & b & received & -> & Hrt & _ & _ & Hb' & ->).
  destruct (awp_elim _ (fun _ a' => a' = taken p b dest text a) s1 _
    (awp_copy_body received text dest _ (a_update p (set_messages_buffer b) a) Hrt Hd eq_refl) Hr1)
    as ([] & s2 & ? & E2 & Hr2 & ->).
  exists s2, b. split; [exact Hr2|]. split; [exact Hb'|].
  assert (E : receive_loop others p stack s = Done received s1).
  { destruct others; cbn [receive_loop]; unfold call, kernel_itself, mbind, exec_bind; by rewrite E1. }
  unfold call, kernel_itself in E |- *. unfold mbind, exec_bind. by rewrite E, E2.
Qed.
End Lemmas.

(** ** Delivery *)

(** C14: while the ring of the receiver has a free cell at its head,
    [send_message] returns 0 and appends the text to the mailbox of the
    receiver, behind the texts it has not received yet; a receiver that waits
    for a message becomes READY and is queued; no other process changes. *)
Theorem send_message_delivers (s : kstate) (a : astate) (source p : pcb_ptr) (x : PCB) (ms : list Message)
    (texts : list (list Z)) (address : Z) (text stack : list Z) (others : list (K unit)) :
  repr s a -> inv a -> proc a p x -> p <> init_process ->
  ring (messages_buffer x) ms -> Forall2 message_text ms texts ->
  head (messages_buffer x) < MAX_MESSAGES_PER_PROCESS -> (length ms < 4)%nat ->
  string_at (ram s) address text -> (length text < Z.to_nat MAX_MESSAGES_BODY_SIZE)%nat ->
  length stack = Z.to_nat MAX_MESSAGES_BODY_SIZE ->
  exists s' a', send_message source p address stack others s = Done 0 s' /\ repr s' a' /\ inv a' /\
    mailbox a' p (texts ++ [text]) /\
    (state x = PROCESS_WAITING_TO_RECEIVE_MESSAGE -> queued a' p) /\
    forall q y, q <> p -> proc a q y -> proc a' q y.
Proof.
  intros Hr Hinv Hx Hi Hb Ht Hh Hl Hstr Hlen Hs.
  assert (Hstr' : string_at (ram (base a)) address text) by by rewrite (repr_base _ _ Hr).
  destruct (awp_elim _ _ _ _ (awp_send_message source p x ms address text stack others a
    Hinv Hx Hb Hh Hl (fun _ => Hi) Hstr' Hlen Hs) Hr)
    as (? & s' & a' & E & Hr' & -> & Hinv' & m & b & Hm & _ & Hb' & Hd).
  exists s', a'. split; [done|]. split; [done|]. split; [done|].
  destruct (delivered_self _ _ _ _ _ Hx Hd) as (y & Hy & Ey & _). split; [|split].
  - exists y, (ms ++ [m]). split; [done|]. rewrite Ey. split; [done|]. apply Forall2_app; auto.
  - intros E'. by eapply delivered_queued.
  - intros q z Hq Hz. by apply (delivered_others p x b a a' q z Hq Hd).
Qed.

(** C15: when the process table has no empty entry, [receive_message] takes
    the oldest text of the mailbox, stores it with its terminator at the given
    address and nowhere else, leaves the later texts in the mailbox, and makes
    every process that waited to send READY. *)
Theorem receive_message_takes (s : kstate) (a : astate) (p : pcb_ptr) (x : PCB) (ms : list Message)
    (text : list Z) (texts : list (list Z)) (dest : Z) (stack : Message) (others : list (K unit)) :
  repr s a -> inv a -> proc a p x ->
  ring (messages_buffer x) ms -> Forall2 message_text ms (text :: texts) ->
  full_table a -> idle_ready a ->
  in_memory dest (Z.of_nat (length text) + 1) -> length (body stack) = Z.to_nat MAX_MESSAGES_BODY_SIZE ->
  exists s' a', receive_message p dest stack others s = Done tt s' /\ repr s' a' /\ inv a' /\
    string_at (ram s') dest text /\
    (forall b, b < dest \/ dest + Z.of_nat (length text) + 1 <= b -> ram s' b = ram s b) /\
    mailbox a' p texts /\
    forall q y, q <> p -> proc a q y -> woken_if_sender q y a'.
Proof.
  intros Hr Hinv Hx Hb Ht Hf Hi Hd Hs. apply Forall2_cons_inv_r in Ht as (m & ms' & Hm & Ht & ->).
  destruct (awp_elim _ _ _ _ (awp_receive_message p x m ms' text dest stack others a
    Hinv Hx Hb Hm Hf Hi Hd Hs) Hr) as ([] & s' & a' & E & Hr' & b & Hb' & Hk).
  change (senders_woken N_PROCESSES (taken p b dest text a) a') in Hk.
  assert (Eram : ram s' = stored_bytes dest (text ++ [0]) (ram s)).
  { transitivity (ram (base a')); [by rewrite (repr_base _ _ Hr')|].
    rewrite (woken_ram _ _ _ _ Hk). simpl. by rewrite (repr_base _ _ Hr). }
  exists s', a'. split; [done|]. split; [done|]. split; [apply (woken_inv _ _ _ _ Hk)|].
  rewrite Eram. split; [apply string_stored; [apply Hm|done]|]. split; [|split].
  - intros c Hc. apply stored_outside. rewrite length_app. simpl. lia.
  - by apply (taken_mailbox p x b ms' texts dest text a a').
  - intros q y Hq Hy. apply (woken_all (taken p b dest text a)); [by apply taken_inv with x|done|].
    by apply taken_others.
Qed.

(** ** Where the code leaves its arrays *)

(** The ring counts one index more than it has cells.  Once the head has
    reached that index, after the fourth message in the life of the process,
    [push_message] either reports a full ring without changing anything (none
    of the four was received) or writes outside the array. *)
Theorem push_message_overruns (s : kstate) (p : pcb_ptr) (x : PCB) (ms : list Message) (m : Message) :
  pcbs s !! p = Some x -> ring (messages_buffer x) ms ->
  head (messages_buffer x) = MAX_MESSAGES_PER_PROCESS ->
  push_message p m s = if decide (length ms = 4%nat) then Done (-1) s else Stuck.
Proof.
  intros Hx Hr Hh. unfold push_message, deref, mbind, exec_bind, gets. rewrite Hx. simpl.
  fold (next_index (head (messages_buffer x))). rewrite (ring_full _ _ Hr).
  case_decide as Hl; [by rewrite bool_decide_true|]. rewrite bool_decide_false by done.
  unfold array_set. rewrite Hh, (ring_slots _ _ Hr). done.
Qed.

(** [receive_message] never returns while an entry of the process table
    is empty: after taking the message it reads the state of every entry, the
    empty ones included. *)
Theorem receive_message_faults (s : kstate) (a : astate) (p : pcb_ptr) (x : PCB) (m : Message)
    (ms : list Message) (text : list Z) (dest : Z) (stack : Message) (others : list (K unit))
    (i : Z) (r : unit) (s' : kstate) :
  repr s a -> inv a -> proc a p x ->
  ring (messages_buffer x) (m :: ms) -> message_text m text -> idle_ready a ->
  in_memory dest (Z.of_nat (length text) + 1) -> length (body stack) = Z.to_nat MAX_MESSAGES_BODY_SIZE ->
  0 <= i < N_PROCESSES -> array_get (processes s) i = Some None ->
  receive_message p dest stack others s <> Done r s'.
Proof.
  intros Hr Hinv Hx Hb Hm Hi Hd Hs Hn He.
  destruct (receive_prefix p x m ms text dest stack others s a) as (s1 & b & Hr1 & _ & ->); [done..|].
  pose proof (taken_inv p x b dest text a Hinv Hx) as Hinv1.
  apply (wake_loop_faults PROCESS_WAITING_TO_SEND_MESSAGE eq_refl _ _ i (taken p b dest text a) (taken p b dest text a)); try done.
  - by apply idle_ready_taken with x.
  - simpl. by rewrite (repr_base _ _ Hr).
  - by apply woken_start.
Qed.

(** ** Examples *)

Lemma send_message_delivers_witness :
  exists a s' a', repr (crowd 10) a /\
    send_message init_process (page_pcb 7) 4096 (replicate 256 0) [] (crowd 10) = Done 0 s' /\
    repr s' a' /\ inv a' /\ mailbox a' (page_pcb 7) [hi; hi].
Proof.
  destruct (crowd_ok 10 ltac:(lia)) as (a & Hr & Hi).
  destruct (crowd_proc 10 (page_pcb 7) (crowd_buffer 7) PROCESS_READY a) as (x & Hx & Eb & Es);
    [vm_compute; reflexivity|vm_compute; reflexivity|exact Hr|].
  destruct (send_message_delivers (crowd 10) a init_process (page_pcb 7) x [hi_message (page_pcb 7)] [hi] 4096 hi
    (replicate 256 0) [] Hr Hi Hx) as (s' & a' & E & Hr' & Hi' & Hm & _).
  - discriminate.
  - rewrite Eb. apply crowd_ring.
  - constructor; [apply hi_text|constructor].
  - rewrite Eb. reflexivity.
  - simpl. lia.
  - apply string_stored; [by repeat constructor; lia|split; simpl; lia].
  - vm_compute. lia.
  - reflexivity.
  - exists a, s', a'. exact (conj Hr (conj E (conj Hr' (conj Hi' Hm)))).
Defined.

Lemma receive_message_takes_witness :
  exists a s' a', repr (crowd 63) a /\
    receive_message (page_pcb 7) 8192 (mkMessage None None (replicate 256 0)) [] (crowd 63) = Done tt s' /\
    repr s' a' /\ inv a' /\ string_at (ram s') 8192 hi /\ mailbox a' (page_pcb 7) [] /\
    queued a' (page_pcb 5).
Proof.
  destruct (crowd_ok 63 ltac:(lia)) as (a & Hr & Hi).
  destruct (crowd_proc 63 (page_pcb 7) (crowd_buffer 7) PROCESS_READY a) as (x & Hx & Eb & Es);
    [vm_compute; reflexivity|vm_compute; reflexivity|exact Hr|].
  destruct (crowd_proc 63 (page_pcb 5) (crowd_buffer 5) PROCESS_WAITING_TO_SEND_MESSAGE a) as (y & Hy & _ & Ey);
    [vm_compute; reflexivity|vm_compute; reflexivity|exact Hr|].
  destruct (receive_message_takes (crowd 63) a (page_pcb 7) x [hi_message (page_pcb 7)] hi [] 8192
    (mkMessage None None (replicate 256 0)) [] Hr Hi Hx) as (s' & a' & E & Hr' & Hi' & Hs & _ & Hm & Hw).
  - rewrite Eb. apply crowd_ring.
  - constructor; [apply hi_text|constructor].
  - exact (table_filled a (crowd 63) N_PROCESSES ltac:(vm_compute; reflexivity) Hr).
  - apply (crowd_idle 63); [vm_compute; reflexivity|exact Hr].
  - split; simpl; lia.
  - reflexivity.
  - specialize (Hw (page_pcb 5) y ltac:(discriminate) Hy). unfold woken_if_sender, asleep in Hw. rewrite Ey in Hw.
    exists a, s', a'. exact (conj Hr (conj E (conj Hr' (conj Hi' (conj Hs (conj Hm (proj2 Hw))))))).
Defined.

(** Three more messages to process 7, of which it takes the first. *)
Definition fill_ring : K unit :=
  push_message (page_pcb 7) (hi_message (page_pcb 7));;
  push_message (page_pcb 7) (hi_message (page_pcb 7));;
  push_message (page_pcb 7) (hi_message (page_pcb 7));;
  pop_message (page_pcb 7) (hi_message (page_pcb 7));;
  mret tt.

Definition filled_ring : MessagesCircularBuffer := mkBuffer 4 1 (replicate 4 (hi_message (page_pcb 7))).

Lemma push_message_overruns_witness :
  exists s, fill_ring (crowd 10) = Done tt s /\ push_message (page_pcb 7) (hi_message (page_pcb 7)) s = Stuck.
Proof.
  destruct (fill_ring (crowd 10)) as [[] s| |] eqn:E; [|exfalso; vm_compute in E; discriminate E..].
  exists s. split; [reflexivity|].
  assert (H : messages_buffer <$> pcbs s !! page_pcb 7 = Some filled_ring).
  { replace s with (final (fill_ring (crowd 10)) (crowd 10)) by (rewrite E; reflexivity). vm_compute. reflexivity. }
  apply fmap_Some in H as (x & Hx & Eb). symmetry in Eb.
  rewrite (push_message_overruns s (page_pcb 7) x (replicate 3 (hi_message (page_pcb 7))) _ Hx); rewrite ?Eb; [reflexivity| |reflexivity].
  constructor; try (vm_compute; split; discriminate || reflexivity); [reflexivity..|].
  intros [|[|[|i]]] m; intros [= <-]; reflexivity.
Defined.

Lemma receive_message_faults_witness :
  exists a, repr (crowd 10) a /\ inv a /\
    forall r s', receive_message (page_pcb 7) 8192 (mkMessage None None (replicate 256 0)) [] (crowd 10) <> Done r s'.
Proof.
  destruct (crowd_ok 10 ltac:(lia)) as (a & Hr & Hi).
  destruct (crowd_proc 10 (page_pcb 7) (crowd_buffer 7) PROCESS_READY a) as (x & Hx & Eb & Es);
    [vm_compute; reflexivity|vm_compute; reflexivity|exact Hr|].
  exists a. split; [exact Hr|]. split; [exact Hi|]. intros r s'.
  apply (receive_message_faults (crowd 10) a (page_pcb 7) x (hi_message (page_pcb 7)) [] hi 8192 _ _ 11); try assumption.
  - rewrite Eb. apply crowd_ring.
  - apply hi_text.
  - apply (crowd_idle 10); [vm_compute; reflexivity|exact Hr].
  - split; simpl; lia.
  - reflexivity.
  - unfold N_PROCESSES. lia.
  - vm_compute. reflexivity.
Defined.
