(* ===== verification/MemoryTheorems.v ===== *)
(** * What the memory manager and process creation guarantee

    The theorems about [libs/mm.c] and [libs/fork.c], on kernel states. *)

From S2P Require Import Prelude Exec Kernel Memory Mmu Mm Paging AddressSpace Queue QueueLogic Sched SchedInv SchedSteps Dispatch Algorithms Handlers Processes System Fork Creation.

Lemma free_pages_empty n : (n <= 100)%nat -> free_pages ∅ n.
Proof.
  intros Hn. exists (Z.of_nat <$> seq 0 n). split; [apply NoDup_fmap; [apply _|apply NoDup_seq]|].
  rewrite length_fmap, length_seq. split; [done|]. apply Forall_fmap, Forall_seq. intros j Hj. simpl.
  split; [page_lia|]. intros Hu. by apply Hu.
Qed.

(** ** Pages *)

(** [get_free_page] is a first-fit allocator: it marks the lowest free
    page, clears it and returns its address, leaving every other page and its
    contents alone; it returns 0 and changes nothing when no page is free. *)
Theorem get_free_page_first_fit (s : kstate) : wp get_free_page (allocates s) s.
Proof. apply wp_get_free_page. Qed.

(** [free_page] refuses a misaligned address with -1 and no effect; the
    page it is given is cleared and becomes free, and an allocation that
    follows finds a page at or below it. *)
Theorem free_page_releases (s : kstate) (k : Z) :
  0 <= k < N_PAGES ->
  (forall d, 0 < d < PAGE_SIZE -> free_page (va (page k) + d) s = Done (-1) s) /\
  exists m, free_page (va (page k)) s = Done 0 (with_mem m (<[k := 0]> (memory_pages s)) s) /\
    cleared k (ram s) m /\
    wp get_free_page (fun r _ => exists j, r = page j /\ 0 <= j <= k) (with_mem m (<[k := 0]> (memory_pages s)) s).
Proof.
  intros Hk. assert (Hz : va (page k) mod PAGE_SIZE = 0).
  { replace (va (page k)) with ((2 ^ 52 - 2 ^ 36 + 1024 + k) * PAGE_SIZE) by page_lia.
    apply Z.mod_mul. by pose proof PAGE_SIZE_eq as ->. }
  split.
  - intros d Hd. unfold free_page. rewrite Z.add_mod, Hz, Z.add_0_l, Z.mod_mod, Z.mod_small by page_lia.
    by rewrite (proj2 (Z.eqb_neq d 0)) by lia.
  - assert (Hw : wp (free_page (va (page k))) (fun r s' => r = 0 /\ exists m, cleared k (ram s) m /\
      s' = with_mem m (<[k := 0]> (memory_pages s)) s) s).
    { unfold free_page. rewrite Hz. cbn [negb Z.eqb]. wp_step. eapply wp_mono; [by apply wp_zero_page|].
      intros [] s' (m & -> & Hm). wp_step.
      assert (u64 (va (page k) - VA_START - LOW_MEMORY) / PAGE_SIZE = k) as ->.
      { replace (va (page k) - VA_START - LOW_MEMORY) with (k * PAGE_SIZE) by page_lia.
        rewrite u64_id by page_lia. apply Z.div_mul. by pose proof PAGE_SIZE_eq as ->. }
      apply wp_set_page_slot; [done|]. wp_step. split; [done|]. exists m. split; [done|]. by destruct s. }
    apply wp_inv in Hw as (r & s' & E & -> & m & Hm & ->). exists m. split; [done|split; [done|]].
    eapply wp_mono; [apply wp_get_free_page|]. intros r s' [j m' Hj Hu Hlow _|Hall].
    + exists j. split; [done|]. split; [lia|]. destruct (decide (j <= k)); [done|].
      exfalso. specialize (Hlow k ltac:(lia)). simpl in Hlow. unfold page_used in Hlow.
      by rewrite lookup_insert_eq in Hlow.
    + exfalso. specialize (Hall k Hk). simpl in Hall. unfold page_used in Hall. by rewrite lookup_insert_eq in Hall.
Qed.

Lemma free_page_releases_witness :
  let s := boot_state sched_round_robin demo_timer in
  (forall d, 0 < d < PAGE_SIZE -> free_page (va (page 5) + d) s = Done (-1) s) /\
  exists m, free_page (va (page 5)) s = Done 0 (with_mem m (<[5 := 0]> (memory_pages s)) s) /\
    cleared 5 (ram s) m /\
    wp get_free_page (fun r _ => exists j, r = page j /\ 0 <= j <= 5) (with_mem m (<[5 := 0]> (memory_pages s)) s).
Proof. apply free_page_releases. page_lia. Defined.

(** ** Page tables *)

(** C19: [map_page] maps the page of a virtual address to a physical page.
    Afterwards the processor, which follows the descriptors the architecture
    calls valid and checks the access flag and the permissions of a program,
    takes exactly the addresses of that page there, and all other addresses
    where they went before.  The missing tables are created in free pages, the
    tables stay a tree, and the contents of every other page in use are left
    alone. *)
Theorem map_page_translates (s : kstate) (p : pcb_ptr) (x : PCB) (v k : Z) (n : nat) :
  pcbs s !! p = Some x -> 0 <= k < N_PAGES ->
  address_space (ram s) (memory_pages s) (mm x) -> room (mm x) 1 (Z.of_nat (missing (ram s) (pgd (mm x)) v)) ->
  free_pages (memory_pages s) (missing (ram s) (pgd (mm x)) v + n) ->
  wp (map_page p v (page k)) (fun _ s' => exists mm' m' pages',
    s' = mm_state s p x mm' m' pages' /\
    (forall v', translate m' (pgd mm') v' =
       if decide (page_number v' = page_number v) then Some (page k + v' mod PAGE_SIZE)
       else translate (ram s) (pgd (mm x)) v') /\
    maps k v (mm x) (ram s) (memory_pages s) mm' m' pages' /\ free_pages pages' n) s.
Proof.
  intros Hx Hk Hs Hr Hf.
  apply (wp_mm_state s p x); [done|]. eapply (wp_map_page s p x n 0 0); [done|done|done|done|by rewrite !Z.add_0_r|done|].
  intros mm' m' pages' Hm Hf' _. exists mm', m', pages'. split; [done|]. split; [|done].
  intros v'. by apply (maps_translate k v (mm x) (ram s) (memory_pages s) mm' m' pages').
Qed.

Lemma map_page_translates_witness :
  let s := boot_state sched_round_robin demo_timer in
  wp (map_page init_process 0x5000 (page 7)) (fun _ s' => exists mm' m' pages',
    s' = mm_state s init_process INIT_PROCESS mm' m' pages' /\
    translate m' (pgd mm') 0x5abc = Some (page 7 + 0xabc) /\ translate m' (pgd mm') 0x6000 = None) s.
Proof.
  intros s. eapply wp_mono; [apply (map_page_translates s init_process INIT_PROCESS 0x5000 7 3)|].
  - reflexivity.
  - page_lia.
  - intros H0. by destruct H0.
  - constructor; simpl; done.
  - apply free_pages_empty. vm_compute. lia.
  - intros _ s' (mm' & m' & pages' & Hs & Ht & _ & _). exists mm', m', pages'. split; [exact Hs|].
    rewrite !Ht. split; [|reflexivity]. rewrite PAGE_SIZE_eq. reflexivity.
Defined.

(** [do_mem_abort] never serves a page fault: the comparison of the fault
    status can only fail, so every data abort is reported as an error and
    leaves the state as it is. *)
Theorem do_mem_abort_fails (address esr : Z) (s : kstate) : do_mem_abort address esr s = Done (-1) s.
Proof.
  unfold do_mem_abort. assert (H : 0 <= Z.land esr 63 < 64).
  { change 63 with (Z.ones 6). rewrite Z.land_ones by done. by apply Z.mod_pos_bound. }
  assert (Z.land esr 63 / 60 < 4) by (apply Z.div_lt_upper_bound; lia).
  by rewrite (proj2 (Z.eqb_neq _ _)) by lia.
Qed.

(** ** Process creation *)

(** Running a computation whose result is known. *)
Lemma run_spawn (m : K Z) Q s a n :
  repr s a -> awp m Q a -> (forall r a', Q r a' -> r = n) ->
  exists s' a', m s = Done n s' /\ repr s' a' /\ Q n a'.
Proof.
  intros Hr Hm Hn. destruct (awp_elim _ _ _ _ Hm Hr) as (r & s' & a' & E & Hr' & HQ).
  pose proof (Hn r a' HQ) as ->. by exists s', a'.
Qed.

(** [copy_process] with [PF_KTHREAD] creates a kernel thread: it returns
    the next identifier, and the new process is READY, in a queue, with the
    function and argument in the registers [ret_from_fork] reads, with its
    parent's scheduling parameters and no memory of its own; the scheduler's
    invariant holds and the other processes are as they were. *)
Theorem copy_process_starts_thread (ret_from_fork flags function argument : Z) (s : kstate) (a : astate)
    (parent : PCB) (n : Z) :
  repr s a -> inv a -> pcb_pages (base a) -> proc a (current_process (base a)) parent ->
  Z.land flags PF_KTHREAD <> 0 -> n_processes (base a) = n -> 0 <= n < N_PROCESSES ->
  processes (base a) !! Z.to_nat n = Some None -> free_pages (memory_pages (base a)) 1 ->
  exists s' a', copy_process ret_from_fork flags function argument s = Done n s' /\ repr s' a' /\
    spawned ret_from_fork flags a parent n
      (thread_set_up function argument (ram (base a)) (memory_pages (base a))) n a'.
Proof.
  intros Hr Hi Hp Hpar Hf Hn Hrange Hslot Hfree.
  apply (run_spawn (copy_process ret_from_fork flags function argument) _ s a n Hr); [|by intros ? ? []].
  by apply awp_start_thread.
Qed.

Lemma boot_pcb_pages alg timer : pcb_pages (base (boot_abstract alg timer)).
Proof. intros b [y Hb]. simpl in Hb. rewrite lookup_fmap, lookup_singleton_ne in Hb by done. done. Qed.

Lemma copy_process_starts_thread_witness :
  let s := boot_state sched_round_robin demo_timer in
  let a := boot_abstract sched_round_robin demo_timer in
  exists s' a', copy_process 0x80000 PF_KTHREAD 0x90000 7 s = Done 1 s' /\ repr s' a' /\
    spawned 0x80000 PF_KTHREAD a INIT_PROCESS 1 (thread_set_up 0x90000 7 (ram (base a)) (memory_pages (base a))) 1 a'.
Proof.
  assert (Ha : sched_round_robin ∈ algorithms) by left.
  apply copy_process_starts_thread; [apply boot_repr|by apply boot_inv|apply boot_pcb_pages|by apply boot_proc|
    done|done|done|done|apply free_pages_empty; lia].
Defined.

(** C20: [copy_process] without [PF_KTHREAD] forks the current process: it
    returns the child's identifier; the child is READY, queued, and inherits
    the scheduling parameters; it is given a private copy of every page of
    its parent at the same virtual addresses, and the saved registers of its
    parent with 0 as the result of the call.  No byte of a page in use before
    changes, and the scheduler's invariant holds. *)
Theorem copy_process_forks (ret_from_fork flags function argument : Z) (s : kstate) (a : astate)
    (parent : PCB) (n kp : Z) :
  repr s a -> inv a -> pcb_pages (base a) -> proc a (current_process (base a)) parent ->
  current_process (base a) = page_pcb (va (page kp)) -> 0 <= kp < N_PAGES ->
  forkable (memory_pages (base a)) (mm parent) ->
  Z.land flags PF_KTHREAD = 0 -> n_processes (base a) = n -> 0 <= n < N_PROCESSES ->
  processes (base a) !! Z.to_nat n = Some None ->
  free_pages (memory_pages (base a)) (5 + Z.to_nat (n_user_pages (mm parent))) ->
  exists s' a', copy_process ret_from_fork flags function argument s = Done n s' /\ repr s' a' /\
    spawned ret_from_fork flags a parent n
      (fork_set_up (ram (base a)) (memory_pages (base a)) (mm parent) kp) n a'.
Proof.
  intros Hr Hi Hp Hpar Hcur Hkp Hfork Hf Hn Hrange Hslot Hfree.
  apply (run_spawn (copy_process ret_from_fork flags function argument) _ s a n Hr); [|by intros ? ? []].
  by apply awp_fork.
Qed.

(** A process with one user page, created and dispatched after boot. *)
Definition fork_boot : kstate := boot_state sched_round_robin demo_timer.
Definition fork_thread : kstate := final (copy_process 0x80000 PF_KTHREAD 0x90000 7 fork_boot) fork_boot.
Definition fork_running : kstate := final (schedule fork_thread) fork_thread.
Definition fork_mm : mm_struct :=
  mkMm 0 1 (mkUserPage (page 1) 0x2000 :: replicate 15 (mkUserPage 0 0)) 0 (replicate 16 0).
Definition fork_parent : K unit :=
  current ← gets current_process;
  update current (set_mm fork_mm);;
  modify (fun s => set_memory_pages (<[1 := 1]> (memory_pages s)) s).
Definition fork_state : kstate := final (fork_parent fork_running) fork_running.

Lemma fork_state_ok : exists a, repr fork_state a /\ inv a.
Proof.
  assert (Ha : sched_round_robin ∈ algorithms) by left.
  pose proof (boot_repr sched_round_robin demo_timer) as Hr0.
  pose proof (boot_inv sched_round_robin demo_timer Ha) as Hi0.
  destruct (awp_elim _ _ _ _ (awp_start_thread 0x80000 PF_KTHREAD 0x90000 7 _ INIT_PROCESS 1 Hi0 (boot_pcb_pages _ _)
    (proj2 (boot_proc _ _ _ _) (conj eq_refl eq_refl)) eq_refl ltac:(done) eq_refl ltac:(done)
    (free_pages_empty 1 ltac:(lia))) Hr0) as (r1 & s1 & a1 & E1 & Hr1 & _ & k & c & mm' & m' & pages' & _ & _ & _ & Hc).
  assert (Es1 : fork_thread = s1).
  { unfold fork_thread, fork_boot. rewrite E1. reflexivity. }
  rewrite <- Es1 in *. clear Es1 E1.
  pose proof (created_inv _ _ _ _ _ _ _ _ Hc) as Hi1.
  destruct (awp_elim _ _ _ _ (awp_schedule a1 Hi1) Hr1) as ([] & s2 & a2 & E2 & Hr2 & Hi2 & _).
  assert (Es2 : fork_running = s2).
  { unfold fork_running. rewrite E2. reflexivity. }
  rewrite <- Es2 in *. clear Es2 E2.
  assert (Hw : awp fork_parent (fun _ => inv) a2).
  { destruct (wf_current _ _ (inv_wf _ Hi2)) as [x Hx]. unfold fork_parent. awp_step. awp_step.
    awp_step. apply awp_update; [apply _|by rewrite (proc_pcb _ _ _ Hx)|].
    apply awp_modify; [apply _|]. apply inv_global; try done.
    apply inv_inert; [done|by exists x| |done]. intros y. split; [done|]. split; [done|]. intros []; by constructor. }
  destruct (awp_elim _ _ _ _ Hw Hr2) as ([] & s3 & a3 & E3 & Hr3 & Hi3).
  exists a3. assert (Es3 : fork_state = s3).
  { unfold fork_state. rewrite E3. reflexivity. }
  rewrite Es3. exact (conj Hr3 Hi3).
Qed.

Definition fork_parent_pcb : PCB :=
  strip (default zero_PCB (pcbs fork_state !! current_process fork_state)).

(** What the example state looks like. *)
Lemma fork_state_facts :
  current_process fork_state = page_pcb (va (page 0)) /\ n_processes fork_state = 2 /\
  processes fork_state !! 2%nat = Some None /\
  bool_decide (Some (page_pcb (va (page 0))) ∈ processes fork_state) = true /\
  memory_pages fork_state = {[0 := 1; 1 := 1]} /\
  (map_to_list (pcbs fork_state)).*1 = [page_pcb (va (page 0)); init_process] /\
  mm <$> pcbs fork_state !! page_pcb (va (page 0)) = Some fork_mm.
Proof. repeat split; vm_compute; reflexivity. Qed.

Lemma fork_pages_used k : page_used {[0 := 1; 1 := 1]} k <-> k = 0 \/ k = 1.
Proof.
  unfold page_used. destruct (decide (k = 0)) as [->|H0]; [by vm_compute; split; [left|]|].
  rewrite lookup_insert_ne by done. destruct (decide (k = 1)) as [->|H1]; [by vm_compute; split; [right|]|].
  rewrite lookup_singleton_ne by done. simpl. lia.
Qed.

Lemma fork_free_pages : free_pages {[0 := 1; 1 := 1]} 6.
Proof.
  exists [2; 3; 4; 5; 6; 7]. split; [|split; [done|]].
  - apply (bool_decide_unpack _). vm_compute. exact I.
  - repeat (constructor; [split; [page_lia|rewrite fork_pages_used; lia]|]). constructor.
Qed.

Lemma fork_state_forkable : forkable {[0 := 1; 1 := 1]} fork_mm.
Proof.
  constructor; [vm_compute; split; discriminate|reflexivity|].
  constructor.
  - intros [|j] q Hq; [|done]. injection Hq as <-. exists 1. split; [page_lia|split; [done|]].
    apply fork_pages_used. by right.
  - constructor.
    + intros [|j] [|j'] v v' Hv Hv'; [congruence|done..].
    + intros [|j] [|j'] v v' Hv Hv' Hne; [done|done..].
Qed.

Lemma erase_fields s :
  current_process (erase s) = current_process s /\ n_processes (erase s) = n_processes s /\
  processes (erase s) = processes s /\ memory_pages (erase s) = memory_pages s /\
  pcbs (erase s) = strip <$> pcbs s.
Proof. done. Qed.

Lemma copy_process_forks_witness :
  exists a s' a', copy_process 0x80000 0 0 0 fork_state = Done 2 s' /\ repr s' a' /\
    spawned 0x80000 0 a fork_parent_pcb 2
      (fork_set_up (ram (base a)) (memory_pages (base a)) fork_mm 0) 2 a'.
Proof.
  pose proof fork_state_ok as Hok. pose proof fork_state_facts as Hfacts. unfold fork_parent_pcb.
  revert Hok Hfacts. generalize fork_state. intros st (a & Hr & Hi) (F1 & F2 & F3 & F4 & F5 & F6 & F7).
  pose proof (repr_base _ _ Hr) as Hb. apply bool_decide_eq_true in F4.
  assert (B : current_process (base a) = page_pcb (va (page 0)) /\ n_processes (base a) = 2 /\
    processes (base a) = processes st /\ memory_pages (base a) = {[0 := 1; 1 := 1]} /\
    pcbs (base a) = strip <$> pcbs st) by (rewrite Hb; destruct (erase_fields st) as (-> & -> & -> & -> & ->); exact (conj F1 (conj F2 (conj eq_refl (conj F5 eq_refl))))).
  destruct B as (B1 & B2 & B3 & B4 & B5).
  assert (Hx : exists y, pcbs st !! page_pcb (va (page 0)) = Some y /\ mm y = fork_mm).
  { destruct (pcbs st !! page_pcb (va (page 0))) as [y|]; [|discriminate]. exists y.
    injection F7 as ->. split; reflexivity. }
  destruct Hx as (y & Hy & Emm).
  rewrite F1, Hy. change (strip (default zero_PCB (Some y))) with (strip y).
  exists a. rewrite <- Emm. change (mm y) with (mm (strip y)).
  apply (copy_process_forks 0x80000 0 0 0 st a (strip y) 2 0 Hr Hi).
  - intros b [z Hz]. rewrite B5, lookup_fmap in Hz. rewrite B4.
    assert (Hin : page_pcb b ∈ (map_to_list (pcbs st)).*1).
    { destruct (pcbs st !! page_pcb b) as [w|] eqn:Ew; [|discriminate].
      apply list_elem_of_fmap. exists (page_pcb b, w). split; [reflexivity|]. apply elem_of_map_to_list, Ew. }
    rewrite F6 in Hin. apply elem_of_cons in Hin as [E|Hin].
    + injection E as ->. exists 0. split; [page_lia|split; [reflexivity|]]. apply fork_pages_used. by left.
    + apply elem_of_cons in Hin as [?|Hin]; [discriminate|]. by apply elem_of_nil in Hin.
  - rewrite B1. split; [|rewrite B3; exact F4]. unfold a_pcb. rewrite B5, lookup_fmap, Hy. reflexivity.
  - exact B1.
  - clear. page_lia.
  - rewrite B4. change (mm (strip y)) with (mm y). rewrite Emm. apply fork_state_forkable.
  - reflexivity.
  - exact B2.
  - split; [discriminate|reflexivity].
  - rewrite B3. exact F3.
  - rewrite B4. change (mm (strip y)) with (mm y). rewrite Emm. apply fork_free_pages.
Defined.

(** When no page is free, [copy_process] creates nothing and returns -1;
    the critical section it entered is not left: the current process keeps one
    more level of [preempt_disabled], so the timer no longer preempts it. *)
Theorem copy_process_out_of_memory (ret_from_fork flags function argument : Z) (s : kstate) (a : astate) :
  repr s a -> inv a -> (forall k, 0 <= k < N_PAGES -> page_used (memory_pages (base a)) k) ->
  exists s' a', copy_process ret_from_fork flags function argument s = Done (-1) s' /\ repr s' a' /\ a' ≡ a_enter a.
Proof.
  intros Hr Hi Hall.
  destruct (run_spawn (copy_process ret_from_fork flags function argument) (fun r a' => r = -1 /\ a' ≡ a_enter a) s a (-1) Hr)
    as (s' & a' & E & Hr' & _ & H); [by apply awp_copy_process_fails|by intros ? ? []|]. by exists s', a'.
Qed.

(** The map in which every page is taken. *)
Definition full_pages : gmap Z Z := gset_to_gmap 1 (list_to_set (seqZ 0 N_PAGES)).

Lemma used_of_set (X : gset Z) k : k ∈ X -> page_used (gset_to_gmap 1 X) k.
Proof.
  intros Hk. unfold page_used. rewrite (proj2 (lookup_gset_to_gmap_Some 1 X k 1)); [discriminate|by split].
Qed.

Lemma full_pages_used k : 0 <= k < N_PAGES -> page_used full_pages k.
Proof. intros Hk. apply used_of_set, elem_of_list_to_set, elem_of_seqZ. lia. Qed.

Lemma with_mem_global m pages : GlobalUpdate (with_mem m pages).
Proof. apply _. Qed.

Lemma inv_with_mem m pages a : inv a -> inv (a_global (with_mem m pages) a).
Proof. intros Hi. by apply inv_global. Qed.

Lemma copy_process_out_of_memory_witness :
  let s := with_mem (fun _ => 0) full_pages (boot_state sched_fcfs demo_timer) in
  let a := a_global (with_mem (fun _ => 0) full_pages) (boot_abstract sched_fcfs demo_timer) in
  exists s' a', copy_process 0x80000 0 0 0 s = Done (-1) s' /\ repr s' a' /\ a' ≡ a_enter a.
Proof.
  assert (Ha : sched_fcfs ∈ algorithms) by (right; left).
  apply copy_process_out_of_memory.
  - apply repr_global; [apply boot_repr|apply with_mem_global].
  - apply inv_with_mem, boot_inv, Ha.
  - exact full_pages_used.
Defined.
