(* ===== verification/StartTheorems.v ===== *)
(** * The first page tables map the memory of the machine *)

From S2P Require Import Prelude Exec Kernel Memory Mmu Mm Start Crowd.

(** ** Writing the tables *)

(** The descriptors of [n] blocks, from [phys] on. *)
Fixpoint descriptors (n : nat) (phys : Z) : list Z :=
  match n with O => [] | S n => phys :: descriptors n (phys + SECTION_SIZE) end.

Lemma descriptors_length n phys : length (descriptors n phys) = n.
Proof. revert phys. induction n; intros phys; simpl; [done|by f_equal]. Qed.

(** The address of an entry does not wrap around. *)
Lemma slot_address t i : 0 <= t < 2 ^ 47 -> 0 <= i < 512 ->
  u64 (t + Z.shiftl i 3 + VA_START) = t + VA_START + 8 * i.
Proof. intros Ht Hi. rewrite Z.shiftl_mul_pow2 by lia. unfold VA_START. rewrite u64_id; lia. Qed.

Lemma str_done v t i s : 0 <= t < 2 ^ 47 -> 0 <= i < 512 ->
  str v t i s = Done tt (set_ram (write64 (t + VA_START + 8 * i) v (ram s)) s).
Proof. intros Ht Hi. unfold str. by rewrite slot_address. Qed.

Lemma block_loop_done fuel t phys i n s :
  0 <= t < 2 ^ 47 -> 0 <= i -> (0 < n <= fuel)%nat -> i + Z.of_nat n <= 512 -> 0 <= phys < 2 ^ 40 ->
  block_loop fuel t phys i (i + Z.of_nat n - 1) s =
  Done tt (set_ram (store_words (t + VA_START + 8 * i) (descriptors n phys) (ram s)) s).
Proof.
  intros Ht. revert i phys n s.
  assert (H : forall i phys n s, 0 <= i -> (0 < n <= fuel)%nat -> i + Z.of_nat n <= 512 ->
    0 <= phys < 2 ^ 40 + i * SECTION_SIZE -> block_loop fuel t phys i (i + Z.of_nat n - 1) s =
    Done tt (set_ram (store_words (t + VA_START + 8 * i) (descriptors n phys) (ram s)) s)).
  2: { intros i phys n s Hi Hn Hb Hp. apply H; try done. change SECTION_SIZE with 2097152. lia. }
  induction fuel as [|fuel IH]; intros i phys n s Hi Hn Hb Hp; [lia|]. change SECTION_SIZE with 2097152 in *.
  cbn [block_loop]. unfold mbind, exec_bind. rewrite str_done by lia. destruct n as [|n]; [lia|].
  rewrite (u64_id (i + 1)), (u64_id (phys + _)) by (change SECTION_SIZE with 2097152; lia).
  cbn [descriptors store_words]. destruct (Z.leb_spec (i + 1) (i + Z.of_nat (S n) - 1)).
  - replace (i + Z.of_nat (S n) - 1) with (i + 1 + Z.of_nat n - 1) by lia.
    rewrite IH by (change SECTION_SIZE with 2097152; lia). cbn [ram set_ram].
    by replace (t + VA_START + 8 * (i + 1)) with (t + VA_START + 8 * i + 8) by lia.
  - assert (n = 0%nat) as -> by lia. done.
Qed.

Lemma create_table_entry_done t virt shift s : 0 <= t < 2 ^ 46 -> table_index virt shift = 0 ->
  create_table_entry t virt shift s =
  Done (t + PAGE_SIZE) (set_ram (write64 (t + VA_START) (Z.lor (t + PAGE_SIZE) 3) (ram s)) s).
Proof.
  intros Ht Hi. unfold create_table_entry. change PAGE_SIZE with 4096. fold (table_index virt shift). rewrite Hi.
  rewrite u64_id by lia. unfold mbind, exec_bind. rewrite str_done by lia. by rewrite Z.mul_0_r, Z.add_0_r.
Qed.

Lemma create_block_map_done t phys start last flags i n ph s :
  0 <= t < 2 ^ 47 -> table_index start SECTION_SHIFT = i -> table_index last SECTION_SHIFT = i + Z.of_nat n - 1 ->
  Z.lor flags (u64 (Z.shiftl (Z.shiftr phys SECTION_SHIFT) SECTION_SHIFT)) = ph ->
  0 <= i -> (0 < n <= 512)%nat -> i + Z.of_nat n <= 512 -> 0 <= ph < 2 ^ 40 ->
  create_block_map t phys start last flags s =
  Done tt (set_ram (store_words (t + VA_START + 8 * i) (descriptors n ph) (ram s)) s).
Proof.
  intros Ht Hi Hl Hp H0 Hn Hb Hph. unfold create_block_map. cbv zeta.
  fold (table_index start SECTION_SHIFT). fold (table_index last SECTION_SHIFT). rewrite Hi, Hl, Hp.
  by apply block_loop_done.
Qed.

(** The entries of the last table. *)
Definition blocks : list Z := descriptors 504 MMU_FLAGS ++ descriptors 8 (Z.lor MMU_DEVICE_FLAGS DEVICE_BASE).

(** The memory with the tables at [pgd], whose bytes were cleared. *)
Definition tables (pgd : Z) (m : Z -> Z) : Z -> Z :=
  store_words (pgd + 8192 + VA_START) blocks
    (write64 (pgd + 4096 + VA_START) (Z.lor (pgd + 8192) 3)
      (write64 (pgd + VA_START) (Z.lor (pgd + 4096) 3) m)).

Lemma create_page_tables_done pgd s : 0 <= pgd < 2 ^ 40 ->
  exists m, __create_page_tables pgd s = Done tt (set_ram (tables pgd m) s) /\
    forall b, m b = filled (pgd + VA_START) PGD_SIZE 0 (ram s) b.
Proof.
  intros Hp. assert (H : wp (memzero (u64 (pgd + VA_START)) PGD_SIZE)
    (fun _ s' => exists m, s' = set_ram m s /\ forall b, m b = filled (pgd + VA_START) PGD_SIZE 0 (ram s) b) s).
  { unfold VA_START. rewrite u64_id by lia. apply wp_memzero; try done; [by exists 1536|].
    change PGD_SIZE with 12288. split; lia. }
  destruct (proj1 (wp_inv _ _ _) H) as ([] & s1 & E & m & -> & Hm). clear H. exists m. split; [|done].
  unfold __create_page_tables, create_pgd_entry, mbind, exec_bind. rewrite E. clear E.
  rewrite create_table_entry_done by (lia || done). change PAGE_SIZE with 4096.
  rewrite create_table_entry_done by (lia || done). change PAGE_SIZE with 4096.
  rewrite (create_block_map_done _ 0 _ _ MMU_FLAGS 0 504 MMU_FLAGS) by (lia || done).
  rewrite (create_block_map_done _ DEVICE_BASE _ _ MMU_DEVICE_FLAGS 504 8 (Z.lor MMU_DEVICE_FLAGS DEVICE_BASE))
    by (lia || done).
  unfold tables, blocks. rewrite store_words_app, descriptors_length. replace (pgd + 8192) with (pgd + 4096 + 4096) by lia.
  change (8 * Z.of_nat 504) with (8 * 504). change (8 * 0) with 0. rewrite (Z.add_0_r (_ + VA_START)).
  reflexivity.
Qed.

(** ** Reading them *)

Lemma zero_word m a : (forall b, a <= b < a + 8 -> m b = 0) -> read64 m a = 0.
Proof. intros H. transitivity (read64 (fun _ => 0) a); [|done]. by apply read_le_ext. Qed.

(** A pointer to a table. *)
Lemma table_descriptor t : (4096 | t) -> 0 <= t < 2 ^ 40 ->
  word64 (Z.lor t 3) /\ Z.land (Z.lor t 3) 3 = 3 /\ address_field 12 (Z.lor t 3) = t /\ Z.lor t 3 < 2 ^ 59.
Proof.
  intros Ha Hq. assert (E : Z.lor t 3 = t + 3).
  { assert (Z.land t 3 = 0).
    { destruct Ha as [q ->]. change 3 with (Z.ones 2). rewrite Z.land_ones by lia. Z.div_mod_to_equations. lia. }
    by rewrite <- Z.lxor_lor, <- Z.add_nocarry_lxor. }
  rewrite E. split; [unfold word64; lia|]. split; [|split; [apply address_field_add; (done || lia)|lia]].
  destruct Ha as [q ->]. change 3 with (Z.ones 2) at 2. rewrite Z.land_ones by lia. change (2 ^ 2) with 4.
  Z.div_mod_to_equations. lia.
Qed.

(** Entry [j] of the last table: a block that can be accessed, of memory or of devices. *)
Definition block_ok (j e : Z) : bool :=
  (Z.land e 3 =? 1) && Z.testbit e 10 && (address_field 21 e =? j * SECTION_SIZE) &&
  (Z.land (Z.shiftr e 2) 7 =? if j <? 504 then MT_NORMAL_NC else MT_DEVICE_nGnRnE) && (0 <=? e) && (e <? 2 ^ 64).

Lemma blocks_ok : forallb (fun j => block_ok (Z.of_nat j) (nth j blocks 0)) (seq 0 512) = true.
Proof. by vm_compute. Qed.

Lemma block_entry j : (j < 512)%nat -> exists e, blocks !! j = Some e /\ block_ok (Z.of_nat j) e = true.
Proof.
  intros Hj. exists (nth j blocks 0). split.
  - rewrite nth_lookup. destruct (blocks !! j) eqn:E; [done|].
    apply lookup_ge_None in E. unfold blocks in E. rewrite length_app, !descriptors_length in E. lia.
  - apply (proj1 (forallb_forall _ _) blocks_ok j). apply in_seq. lia.
Qed.

Lemma blocks_words : Forall word64 blocks.
Proof.
  apply Forall_lookup. intros k w Hk. pose proof (lookup_lt_Some _ _ _ Hk) as Hl. change (length blocks) with 512%nat in Hl.
  destruct (block_entry k Hl) as (w' & Hk' & Hw). simplify_eq. unfold block_ok in Hw. unfold word64. lia.
Qed.

Lemma block_translates e v p : 0 <= p < 2 ^ 30 -> block_ok (p / 2 ^ 21) e = true -> v `mod` 2 ^ 21 = p `mod` 2 ^ 21 ->
  Z.land e 3 = 1 /\ Z.testbit e 10 = true /\ address_field 21 e + v `mod` 2 ^ 21 = p /\
  Z.land (Z.shiftr e 2) 7 = if p <? 504 * 2 ^ 21 then MT_NORMAL_NC else MT_DEVICE_nGnRnE.
Proof.
  intros Hp Hb Hv. unfold block_ok in Hb.
  apply andb_true_iff in Hb as [Hb _]. apply andb_true_iff in Hb as [Hb _].
  apply andb_true_iff in Hb as [Hb Ht]. apply andb_true_iff in Hb as [Hb Ha]. apply andb_true_iff in Hb as [H1 H10].
  apply Z.eqb_eq in H1, Ha, Ht. split; [done|]. split; [done|]. rewrite Ha, Ht. change SECTION_SIZE with (2 ^ 21).
  rewrite Hv. split; [Z.div_mod_to_equations; lia|].
  assert ((p / 2 ^ 21 <? 504) = (p <? 504 * 2 ^ 21)) as ->; [|reflexivity].
  apply eq_true_iff_eq. rewrite !Z.ltb_lt. clear. split; intros; Z.div_mod_to_equations; lia.
Qed.

Section Tables.
Context (pgd : Z) (m : Z -> Z).
Context (Haligned : (4096 | pgd)) (Hpgd : 0 <= pgd < 2 ^ 39).
Context (Hzero : forall b, pgd + VA_START <= b < pgd + VA_START + PGD_SIZE -> m b = 0).

Lemma blocks_length : length blocks = 512%nat.
Proof using. done. Qed.

(** An entry of the first two tables: the first one points to the next table. *)
Lemma upper_entry t i : t = pgd \/ t = pgd + 4096 -> 0 <= i < 512 ->
  descriptor (tables pgd m) t i = if i =? 0 then Z.lor (t + 4096) 3 else 0.
Proof using All.
  intros Ht Hi. unfold descriptor. change linear_map with VA_START. unfold tables. rewrite read64_store_words by (rewrite blocks_length; lia).
  destruct (table_descriptor (pgd + 4096)) as [H1 _]; [by apply Z.divide_add_r; [|by exists 1]|lia|].
  destruct (table_descriptor (pgd + 8192)) as [H2 _]; [by apply Z.divide_add_r; [|by exists 2]|lia|].
  assert (Hm : i <> 0 -> read64 m (t + VA_START + 8 * i) = 0).
  { intros Hi0. apply zero_word. intros b Hb. apply Hzero. change PGD_SIZE with 12288. lia. }
  destruct (Z.eqb_spec i 0) as [->|Hi0]; [rewrite Z.mul_0_r, Z.add_0_r|].
  - destruct Ht as [->| ->].
    + rewrite read64_write64_ne by lia. by apply read64_write64.
    + rewrite read64_write64 by done. by rewrite <- Z.add_assoc.
  - rewrite !read64_write64_ne by lia. by apply Hm.
Qed.

Lemma last_entry j : 0 <= j < 512 -> block_ok j (descriptor (tables pgd m) (pgd + 8192) j) = true.
Proof using All.
  intros Hj. destruct (block_entry (Z.to_nat j)) as (e & He & Hok); [lia|]. rewrite Z2Nat.id in Hok by lia.
  assert (E : descriptor (tables pgd m) (pgd + 8192) j = e); [|by rewrite E].
  unfold descriptor. change linear_map with VA_START. unfold tables. replace (pgd + 8192 + VA_START + 8 * j) with (pgd + 8192 + VA_START + 8 * Z.of_nat (Z.to_nat j)) by lia.
  by apply store_words_at; [apply blocks_words|].
Qed.

(** ** The translation *)

(** One level of the walk through the first two tables. *)
Lemma translation_first below t v : t = pgd \/ t = pgd + 4096 ->
  translation (S below) (tables pgd m) t v =
  if index v (12 + 9 * Z.of_nat (S below)) =? 0 then translation below (tables pgd m) (t + 4096) v else None.
Proof using All.
  intros Ht. cbn [translation]. rewrite upper_entry by (done || apply index_range).
  destruct (index v _ =? 0); [|done].
  destruct (table_descriptor (t + 4096)) as (_ & -> & -> & Hlt); [|lia|].
  { destruct Ht as [->| ->]; repeat (apply Z.divide_add_r; [|by exists 1]); done. }
  by rewrite Z.eqb_refl, (proj2 (Z.ltb_lt _ _) Hlt).
Qed.

Lemma walk_blocks v :
  translation 3 (tables pgd m) pgd v =
  if index v 39 =? 0 then
    if index v 30 =? 0 then translation 1 (tables pgd m) (pgd + 8192) v else None
  else None.
Proof using All.
  rewrite translation_first by auto. change (12 + 9 * Z.of_nat 3) with 39. destruct (index v 39 =? 0); [|done].
  rewrite translation_first by auto. change (12 + 9 * Z.of_nat 2) with 30. destruct (index v 30 =? 0); [|done].
  by replace (pgd + 4096 + 4096) with (pgd + 8192) by lia.
Qed.

Lemma translate_tables v :
  translate_any (tables pgd m) pgd v =
  let p := v `mod` 2 ^ 48 in
  if p <? PHYS_MEMORY_SIZE then Some (p, if p <? DEVICE_BASE then MT_NORMAL_NC else MT_DEVICE_nGnRnE) else None.
Proof using All.
  unfold translate_any. rewrite walk_blocks, (index_low v 39), (index_low v 30) by lia. set (p := v `mod` 2 ^ 48). cbv zeta.
  assert (Hp : 0 <= p < 2 ^ 48) by by apply Z.mod_pos_bound.
  assert (Hv : v `mod` 2 ^ 21 = p `mod` 2 ^ 21) by (symmetry; apply Z.mod_mod_divide; by exists (2 ^ 27)).
  assert (Hi : index v 21 = index p 21) by (by rewrite index_low). clearbody p.
  change PHYS_MEMORY_SIZE with (2 ^ 30). change DEVICE_BASE with (504 * 2 ^ 21).
  destruct (Z.ltb_spec p (2 ^ 30)) as [H|H].
  - unfold index in *. rewrite (Z.div_small p (2 ^ 39)), (Z.div_small p (2 ^ 30)) by lia.
    cbn [translation]. change (12 + 9 * Z.of_nat 1) with 21. unfold index. rewrite Hi.
    rewrite (Z.mod_small (p / 2 ^ 21)) by (Z.div_mod_to_equations; lia).
    destruct (block_translates (descriptor (tables pgd m) (pgd + 8192) (p / 2 ^ 21)) v p) as (H1 & H10 & Ha & Ht); [lia| |done|].
    { apply last_entry. Z.div_mod_to_equations. lia. }
    rewrite H1, H10. cbn [Z.eqb Pos.eqb andb Nat.leb]. change (0 `mod` 512 =? 0) with true. cbv iota.
    by rewrite Ha, <- Ht.
  - unfold index. destruct (Z.eqb_spec ((p / 2 ^ 39) `mod` 512) 0); [|done].
    destruct (Z.eqb_spec ((p / 2 ^ 30) `mod` 512) 0); [|done]. exfalso. Z.div_mod_to_equations. lia.
Qed.
End Tables.

(** After [__create_page_tables] the MMU translates an address of the
    kernel, [VA_START + p], and the address [p] itself, from which the processor
    fetches the instruction after the MMU is on, to the physical address [p],
    for the gigabyte the machine has; the memory below [DEVICE_BASE] is normal
    memory and the registers above it are device memory.  No other address is
    translated, and no memory but the three tables is written. *)
Theorem create_page_tables_maps_memory (pgd : Z) (s : kstate) :
  (4096 | pgd) -> 0 <= pgd < PHYS_MEMORY_SIZE ->
  exists m, __create_page_tables pgd s = Done tt (set_ram m s) /\
    (forall p, 0 <= p < PHYS_MEMORY_SIZE ->
       let type := if p <? DEVICE_BASE then MT_NORMAL_NC else MT_DEVICE_nGnRnE in
       translate_any m pgd (VA_START + p) = Some (p, type) /\ translate_any m pgd p = Some (p, type)) /\
    (forall v, PHYS_MEMORY_SIZE <= v `mod` 2 ^ 48 -> translate_any m pgd v = None) /\
    (forall b, b < pgd + VA_START \/ pgd + VA_START + PGD_SIZE <= b -> m b = ram s b).
Proof.
  intros Ha Hp. change PHYS_MEMORY_SIZE with (2 ^ 30) in *.
  destruct (create_page_tables_done pgd s) as (m & E & Hm); [lia|]. exists (tables pgd m). split; [exact E|]. clear E.
  assert (Hz : forall b, pgd + VA_START <= b < pgd + VA_START + PGD_SIZE -> m b = 0).
  { intros b Hb. rewrite Hm. unfold filled. by range_cases; try lia. }
  assert (T : forall v, _) by exact (translate_tables pgd m Ha ltac:(lia) Hz). repeat split.
  - rewrite T. cbv zeta. assert ((VA_START + p) `mod` 2 ^ 48 = p) as ->.
    { change VA_START with ((2 ^ 16 - 1) * 2 ^ 48). rewrite Z.add_comm, Z_mod_plus_full. apply Z.mod_small. lia. }
    by rewrite (proj2 (Z.ltb_lt p _)) by (unfold PHYS_MEMORY_SIZE; lia).
  - rewrite T. cbv zeta. rewrite (Z.mod_small p) by lia. by rewrite (proj2 (Z.ltb_lt p _)) by (unfold PHYS_MEMORY_SIZE; lia).
  - intros v Hv. rewrite T. cbv zeta. by rewrite (proj2 (Z.ltb_ge _ _)).
  - intros b Hb. unfold tables. change PGD_SIZE with 12288 in *.
    rewrite store_words_outside by (change (length blocks) with 512%nat; lia).
    unfold write64, write_le. rewrite Hm. unfold filled. change PGD_SIZE with 12288. range_cases; try done; lia.
Qed.

(** The kernel is loaded at 0x80000 and the tables follow it. *)
Lemma create_page_tables_maps_memory_witness :
  exists m, __create_page_tables 0x90000 (crowd 1) = Done tt (set_ram m (crowd 1)) /\
    translate_any m 0x90000 (VA_START + 0x80000) = Some (0x80000, MT_NORMAL_NC) /\
    translate_any m 0x90000 0x3F201000 = Some (0x3F201000, MT_DEVICE_nGnRnE) /\
    translate_any m 0x90000 0x40000000 = None.
Proof.
  destruct (create_page_tables_maps_memory 0x90000 (crowd 1)) as (m & E & Hm & Hn & _);
    [by exists 0x90|by unfold PHYS_MEMORY_SIZE; lia|]. exists m. split; [exact E|]. clear E. split; [|split].
  - apply (Hm 0x80000). unfold PHYS_MEMORY_SIZE. lia.
  - apply (Hm 0x3F201000). unfold PHYS_MEMORY_SIZE. lia.
  - apply Hn. by vm_compute.
Defined.

(** C21: from reset to [kernel_main].  The first core, started in EL2 or EL1,
    reaches [kernel_main] in EL1 with the MMU on, its interrupts masked when it
    was started in EL2, the bss cleared, and tables that translate an address of
    the kernel, [VA_START + p], and the address [p] itself, from which the
    instruction after the MMU is on is fetched, to the physical address [p]: RAM
    below [DEVICE_BASE] as normal memory, the registers above as device memory,
    nothing else; no other memory is written.  The other cores wait and write
    nothing. *)
Theorem start_reaches_kernel_main (bss_start bss_end pgd start kernel_main : Z) (r : system_registers) (s : kstate) :
  (CurrentEL r = 4 \/ CurrentEL r = 8) -> (8 | bss_end - bss_start) -> 0 <= bss_start < bss_end -> bss_end <= pgd ->
  (4096 | pgd) -> pgd < PHYS_MEMORY_SIZE ->
  if Z.land (mpidr_el1 r) 3 =? 0 then
    exists m r', _start bss_start bss_end pgd start kernel_main r s = Done (branch kernel_main r') (set_ram m s) /\
      CurrentEL r' = 4 /\ (CurrentEL r = 8 -> Z.testbit (daif r') 7 = true) /\ Z.testbit (sctlr_el1 r') 0 = true /\
      stack_pointer r' = VA_START + LOW_MEMORY /\ ttbr0_el1 r' = pgd /\ ttbr1_el1 r' = pgd /\
      (forall p, 0 <= p < PHYS_MEMORY_SIZE ->
         let type := if p <? DEVICE_BASE then MT_NORMAL_NC else MT_DEVICE_nGnRnE in
         translate_any m (ttbr1_el1 r') (VA_START + p) = Some (p, type) /\ translate_any m (ttbr0_el1 r') p = Some (p, type)) /\
      (forall v, PHYS_MEMORY_SIZE <= v `mod` 2 ^ 48 -> translate_any m pgd v = None) /\
      (forall b, bss_start <= b < bss_end -> m (b + VA_START) = 0) /\
      (forall b, b < bss_start \/ bss_end <= b < pgd \/ pgd + PGD_SIZE <= b -> m (b + VA_START) = ram s (b + VA_START))
  else _start bss_start bss_end pgd start kernel_main r s = Done wait_for_event s.
Proof.
  intros Hel H8 Hb He Ha Hp.
  assert (Hst : exists r1, _start bss_start bss_end pgd start kernel_main r = already_el1 bss_start bss_end pgd start kernel_main r1 /\
    mpidr_el1 r1 = mpidr_el1 r /\ CurrentEL r1 = 4 /\ (CurrentEL r = 8 -> Z.testbit (daif r1) 7 = true)).
  { unfold _start. destruct Hel as [E|E]; rewrite E; [exists r; split; [done|]; split; [done|]; split; [done|lia]|]. by eexists. }
  destruct Hst as (r1 & -> & Em & Ec & Ed). unfold already_el1. cbn [mpidr_el1 set_sctlr_el1]. rewrite Em.
  destruct (Z.land (mpidr_el1 r) 3 =? 0); [|done].
  unfold init_primary_code, clear_bss, el1_entry, mbind, exec_bind. change PHYS_MEMORY_SIZE with (2 ^ 30) in Hp.
  rewrite (u64_id (bss_end - bss_start)), (u64_id (bss_start + VA_START)) by (unfold VA_START; lia).
  destruct (proj1 (wp_inv _ _ _) (wp_memzero (bss_start + VA_START) (bss_end - bss_start) s ltac:(lia) ltac:(lia) H8
    ltac:(unfold VA_START, in_memory; lia))) as ([] & s1 & E & m1 & -> & Hm1). rewrite E. clear E.
  destruct (create_page_tables_maps_memory pgd (set_ram m1 s)) as (m & E & Hmap & Hnone & Hrest);
    [done|change PHYS_MEMORY_SIZE with (2 ^ 30); lia|]. rewrite E. clear E.
  eexists m, _. split; [reflexivity|]. cbn [CurrentEL daif sctlr_el1 stack_pointer ttbr0_el1 ttbr1_el1 set_sctlr_el1].
  split; [done|]. split; [done|]. do 4 (split; [done|]). split; [done|]. split; [done|].
  change PGD_SIZE with 12288 in *. split; intros b Hb'.
  - rewrite Hrest by lia. cbn [ram set_ram]. rewrite Hm1. unfold filled. range_cases; try done; lia.
  - rewrite Hrest by lia. cbn [ram set_ram]. rewrite Hm1. unfold filled. range_cases; try done; lia.
Qed.

(** The kernel is loaded at 0x80000: the first core, started in EL2. *)
Lemma start_reaches_kernel_main_witness :
  exists m r', _start 0x8F000 0x90000 0x90000 0x80000 (VA_START + 0x80100) (mkSystem 8 0 0 0 0 0 0 0 0 0) (crowd 1) =
      Done (branch (VA_START + 0x80100) r') (set_ram m (crowd 1)) /\
    translate_any m (ttbr1_el1 r') (VA_START + 0x80100) = Some (0x80100, MT_NORMAL_NC) /\
    translate_any m (ttbr0_el1 r') 0x3F201000 = Some (0x3F201000, MT_DEVICE_nGnRnE).
Proof.
  destruct (start_reaches_kernel_main 0x8F000 0x90000 0x90000 0x80000 (VA_START + 0x80100) (mkSystem 8 0 0 0 0 0 0 0 0 0) (crowd 1))
    as (m & r' & E & _ & _ & _ & _ & _ & _ & Hm & _);
    [by right|by exists 512|lia|lia|by exists 0x90|by unfold PHYS_MEMORY_SIZE; lia|]. exists m, r'. split; [exact E|]. clear E. split.
  - apply (Hm 0x80100). unfold PHYS_MEMORY_SIZE. lia.
  - apply (Hm 0x3F201000). unfold PHYS_MEMORY_SIZE. lia.
Defined.
