(* ===== verification/FatTypes.v ===== *)
(** * The FAT32 library: data and monad

    Models [libs/fat32/fat.h] and the on-disk structures of
    [libs/fat32/fat.c].  Sectors are lists of 512 bytes; the packed structures
    of the source are offsets into a sector.  A function that returns an error
    code runs in [FM]: what it changed before failing stays changed. *)

From S2P Require Import Prelude Exec.

(** ** Constants *)

Definition FAT_ERR_NONE : Z := 0.
Definition FAT_ERR_NOFAT : Z := -1.
Definition FAT_ERR_BROKEN : Z := -2.
Definition FAT_ERR_IO : Z := -3.
Definition FAT_ERR_PARAM : Z := -4.
Definition FAT_ERR_PATH : Z := -5.
Definition FAT_ERR_EOF : Z := -6.
Definition FAT_ERR_DENIED : Z := -7.
Definition FAT_ERR_FULL : Z := -8.

Definition FAT_ATTR_RO : Z := 0x01.
Definition FAT_ATTR_SYS : Z := 0x04.
Definition FAT_ATTR_LABEL : Z := 0x08.
Definition FAT_ATTR_DIR : Z := 0x10.
Definition FAT_ATTR_ARCHIVE : Z := 0x20.
Definition FAT_ATTR_LFN : Z := 0x0f.

Definition FAT_WRITE : Z := 0x01.
Definition FAT_READ : Z := 0x02.
Definition FAT_APPEND : Z := 0x04.
Definition FAT_TRUNC : Z := 0x08.
Definition FAT_CREATE : Z := 0x10.
Definition FAT_ACCESSED : Z := 0x20.
Definition FAT_MODIFIED : Z := 0x40.
Definition FAT_FILE_DIRTY : Z := 0x80.

Definition FAT_BUF_DIRTY : Z := 0x01.
Definition FAT_INFO_DIRTY : Z := 0x02.

Definition CLUST_FREE : Z := 0x01.
Definition CLUST_USED : Z := 0x02.
Definition CLUST_LAST : Z := 0x04.
Definition CLUST_BAD : Z := 0x08.

Definition FSINFO_HEAD_SIG : Z := 0x41615252.
Definition FSINFO_STRUCT_SIG : Z := 0x61417272.
Definition FSINFO_TAIL_SIG : Z := 0xaa550000.
Definition EXT_FLAG_MIRROR : Z := 0x80.
Definition EXT_FLAG_ACT : Z := 0x000f.
Definition EXT_FLAG_SECOND : Z := 0x0001.
Definition LFN_HEAD_MSK : Z := 0x40.
Definition LFN_SEQ_MSK : Z := 0x1f.
Definition SFN_FREE : Z := 0xe5.
Definition SFN_LAST : Z := 0x00.
Definition SFN_PAD : Z := 0x20.

(** ** Bytes of a buffer

    Little-endian fields; [None] outside the buffer. *)

Fixpoint get_le (n : nat) (l : list Z) (i : nat) : option Z :=
  match n with
  | O => Some 0
  | S n => b ← l !! i; v ← get_le n l (S i); Some (b + 256 * v)
  end.

Fixpoint put_le (n : nat) (l : list Z) (i : nat) (v : Z) : option (list Z) :=
  match n with
  | O => Some l
  | S n => _ ← l !! i; put_le n (<[i := v mod 256]> l) (S i) (v / 256)
  end.

Definition get8 (l : list Z) (i : Z) : option Z := if i <? 0 then None else get_le 1 l (Z.to_nat i).
Definition get16 (l : list Z) (i : Z) : option Z := if i <? 0 then None else get_le 2 l (Z.to_nat i).
Definition get32 (l : list Z) (i : Z) : option Z := if i <? 0 then None else get_le 4 l (Z.to_nat i).
Definition put8 (l : list Z) (i v : Z) : option (list Z) := if i <? 0 then None else put_le 1 l (Z.to_nat i) v.
Definition put16 (l : list Z) (i v : Z) : option (list Z) := if i <? 0 then None else put_le 2 l (Z.to_nat i) v.
Definition put32 (l : list Z) (i v : Z) : option (list Z) := if i <? 0 then None else put_le 4 l (Z.to_nat i) v.

(** The [n] bytes from [i]. *)
Definition get_bytes (l : list Z) (i n : Z) : option (list Z) :=
  if (i <? 0) || (n <? 0) || (Z.of_nat (length l) <? i + n) then None
  else Some (take (Z.to_nat n) (drop (Z.to_nat i) l)).

(** The bytes [src] written from [i]. *)
Definition put_bytes (l : list Z) (i : Z) (src : list Z) : option (list Z) :=
  if (i <? 0) || (Z.of_nat (length l) <? i + Z.of_nat (length src)) then None
  else Some (take (Z.to_nat i) l ++ src ++ drop (Z.to_nat i + length src) l).

(** ** On-disk structures: offsets of the packed fields *)

Definition sizeof_Sfn : Z := 32.
Definition Sfn_attr : Z := 11.
Definition Sfn_reserved : Z := 12.
Definition Sfn_tenth : Z := 13.
Definition Sfn_cre_time : Z := 14.
Definition Sfn_cre_date : Z := 16.
Definition Sfn_acc_date : Z := 18.
Definition Sfn_clust_hi : Z := 20.
Definition Sfn_mod_time : Z := 22.
Definition Sfn_mod_date : Z := 24.
Definition Sfn_clust_lo : Z := 26.
Definition Sfn_size : Z := 28.

Definition Lfn_seq : Z := 0.
Definition Lfn_attr : Z := 11.
Definition Lfn_type : Z := 12.
Definition Lfn_crc : Z := 13.
Definition Lfn_clust : Z := 26.

Definition Mbr_part : Z := 446.
Definition sizeof_part : Z := 16.
Definition part_type : Z := 4.
Definition part_lba : Z := 8.
Definition Mbr_sig : Z := 510.

Definition Bpb_bytes_per_sect : Z := 11.
Definition Bpb_sect_per_clust : Z := 13.
Definition Bpb_res_sect_cnt : Z := 14.
Definition Bpb_fat_cnt : Z := 16.
Definition Bpb_root_ent_cnt : Z := 17.
Definition Bpb_sect_cnt_16 : Z := 19.
Definition Bpb_sect_per_fat_16 : Z := 22.
Definition Bpb_sect_cnt_32 : Z := 32.
Definition Bpb_sect_per_fat_32 : Z := 36.
Definition Bpb_ext_flags : Z := 40.
Definition Bpb_root_cluster : Z := 44.
Definition Bpb_info_sect : Z := 48.
Definition Bpb_fs_type : Z := 82.

Definition FsInfo_head_sig : Z := 0.
Definition FsInfo_struct_sig : Z := 484.
Definition FsInfo_free_cnt : Z := 488.
Definition FsInfo_next_free : Z := 492.
Definition FsInfo_tail_sig : Z := 508.

(** ** Structures *)

(** [DiskOps]: the functions that transfer a sector, on a device of type [D].
    [read] gets the old contents of the buffer: a failed transfer may leave
    anything in it. *)
Record DiskOps (D : Type) : Type := mkOps {
  op_read : list Z -> Z -> Exec D (bool * list Z);
  op_write : list Z -> Z -> Exec D bool;
}.
Arguments mkOps {D}.
Arguments op_read {D}.
Arguments op_write {D}.

(** A mounted volume: [struct Fat] of fat.h. *)
Record Fat (D : Type) : Type := mkFat {
  f_next : option Z;  (* struct Fat* next *)
  f_ops : DiskOps D;
  clust_msk : Z;  (* uint32_t *)
  clust_cnt : Z;
  info_sect : Z;
  fat_sect0 : Z;  (* fat_sect[0]: the active FAT *)
  fat_sect1 : Z;  (* fat_sect[1]: its mirror, 0 without mirroring *)
  data_sect : Z;
  root_clust : Z;
  last_used : Z;
  free_cnt : Z;
  f_sect : Z;  (* the sector in buf *)
  f_buf : list Z;  (* uint8_t buf[512] *)
  f_flags : Z;  (* uint8_t *)
  clust_shift : Z;  (* uint8_t *)
  f_name : list Z;  (* char name[32], the first name_len of them *)
}.

Arguments mkFat {D}.
Arguments f_next {D}.
Arguments f_ops {D}.
Arguments clust_msk {D}.
Arguments clust_cnt {D}.
Arguments info_sect {D}.
Arguments fat_sect0 {D}.
Arguments fat_sect1 {D}.
Arguments data_sect {D}.
Arguments root_clust {D}.
Arguments last_used {D}.
Arguments free_cnt {D}.
Arguments f_sect {D}.
Arguments f_buf {D}.
Arguments f_flags {D}.
Arguments clust_shift {D}.
Arguments f_name {D}.

(** [Dir]: a position in a directory, [sclust] being its first cluster. *)
Record Dir : Type := mkDir {
  d_fat : option Z;  (* Fat* fat *)
  d_sclust : Z;
  d_clust : Z;
  d_sect : Z;
  d_idx : Z;  (* uint16_t *)
}.

(** [File]: an open file. *)
Record File : Type := mkFile {
  fl_fat : option Z;
  dir_sect : Z;
  fl_sclust : Z;
  fl_clust : Z;
  fl_sect : Z;
  fl_size : Z;
  fl_offset : Z;
  dir_idx : Z;  (* uint16_t *)
  fl_attr : Z;
  fl_flags : Z;
  fl_buf : list Z;  (* uint8_t buf[512] *)
}.

(** [Timestamp] *)
Record Timestamp : Type := mkTimestamp {
  hour : Z;
  min : Z;
  sec : Z;
  day : Z;
  month : Z;
  year : Z;
}.

(** [DirInfo]: what [fat_dir_read] reports. *)
Record DirInfo : Type := mkDirInfo {
  i_created : Timestamp;
  i_modified : Timestamp;
  i_size : Z;
  i_attr : Z;
  i_name : list Z;
}.

(** [Loc]: the position of a directory entry. *)
Record Loc : Type := mkLoc {
  l_sect : Z;
  l_idx : Z;
}.

(** A [Dir*]: a structure of the caller, or a local variable of the library
    ([dir] and [tmp]). *)
Inductive dir_ref : Type :=
  | user_dir (a : Z)
  | local_dir
  | local_tmp.

#[export] Instance dir_ref_eq_dec : EqDecision dir_ref.
Proof. solve_decision. Defined.

#[export] Instance dir_ref_countable : Countable dir_ref.
Proof.
  refine (inj_countable'
    (fun d => match d with user_dir a => inl a | local_dir => inr true | local_tmp => inr false end)
    (fun o => match o with inl a => user_dir a | inr true => local_dir | inr false => local_tmp end) _).
  by intros [].
Defined.

Definition zero_Dir : Dir := mkDir None 0 0 0 0.
Definition zero_File : File := mkFile None 0 0 0 0 0 0 0 0 0 (replicate 512 0).

(** The state of the library: the device, the structures its callers own, and
    its static variables. *)
Record fstate (D : Type) : Type := mkFs {
  disk : D;  (* the block device *)
  fats : gmap Z (Fat D);  (* the Fat structures, by address *)
  g_fat_list : option Z;
  dirs : gmap dir_ref Dir;  (* the Dir structures, by address *)
  fat_files : gmap Z File;  (* the File structures, by address *)
  g_buf : list Z;  (* uint8_t g_buf[512] *)
  g_len : Z;  (* uint16_t *)
  g_crc : Z;  (* uint8_t *)
}.

Arguments mkFs {D}.
Arguments disk {D}.
Arguments fats {D}.
Arguments g_fat_list {D}.
Arguments dirs {D}.
Arguments fat_files {D}.
Arguments g_buf {D}.
Arguments g_len {D}.
Arguments g_crc {D}.

Definition set_f_next {D} (v : option Z) (r : Fat D) : Fat D :=
  mkFat v (f_ops r) (clust_msk r) (clust_cnt r) (info_sect r) (fat_sect0 r) (fat_sect1 r)
    (data_sect r) (root_clust r) (last_used r) (free_cnt r) (f_sect r) (f_buf r) (f_flags r)
    (clust_shift r) (f_name r).
Definition set_last_used {D} (v : Z) (r : Fat D) : Fat D :=
  mkFat (f_next r) (f_ops r) (clust_msk r) (clust_cnt r) (info_sect r) (fat_sect0 r)
    (fat_sect1 r) (data_sect r) (root_clust r) v (free_cnt r) (f_sect r) (f_buf r)
    (f_flags r) (clust_shift r) (f_name r).
Definition set_free_cnt {D} (v : Z) (r : Fat D) : Fat D :=
  mkFat (f_next r) (f_ops r) (clust_msk r) (clust_cnt r) (info_sect r) (fat_sect0 r)
    (fat_sect1 r) (data_sect r) (root_clust r) (last_used r) v (f_sect r) (f_buf r)
    (f_flags r) (clust_shift r) (f_name r).
Definition set_f_sect {D} (v : Z) (r : Fat D) : Fat D :=
  mkFat (f_next r) (f_ops r) (clust_msk r) (clust_cnt r) (info_sect r) (fat_sect0 r)
    (fat_sect1 r) (data_sect r) (root_clust r) (last_used r) (free_cnt r) v (f_buf r)
    (f_flags r) (clust_shift r) (f_name r).
Definition set_f_buf {D} (v : list Z) (r : Fat D) : Fat D :=
  mkFat (f_next r) (f_ops r) (clust_msk r) (clust_cnt r) (info_sect r) (fat_sect0 r)
    (fat_sect1 r) (data_sect r) (root_clust r) (last_used r) (free_cnt r) (f_sect r) v
    (f_flags r) (clust_shift r) (f_name r).
Definition set_f_flags {D} (v : Z) (r : Fat D) : Fat D :=
  mkFat (f_next r) (f_ops r) (clust_msk r) (clust_cnt r) (info_sect r) (fat_sect0 r)
    (fat_sect1 r) (data_sect r) (root_clust r) (last_used r) (free_cnt r) (f_sect r)
    (f_buf r) v (clust_shift r) (f_name r).
Definition set_d_fat (v : option Z) (r : Dir) : Dir :=
  mkDir v (d_sclust r) (d_clust r) (d_sect r) (d_idx r).
Definition set_d_sclust (v : Z) (r : Dir) : Dir :=
  mkDir (d_fat r) v (d_clust r) (d_sect r) (d_idx r).
Definition set_d_clust (v : Z) (r : Dir) : Dir :=
  mkDir (d_fat r) (d_sclust r) v (d_sect r) (d_idx r).
Definition set_d_sect (v : Z) (r : Dir) : Dir :=
  mkDir (d_fat r) (d_sclust r) (d_clust r) v (d_idx r).
Definition set_d_idx (v : Z) (r : Dir) : Dir :=
  mkDir (d_fat r) (d_sclust r) (d_clust r) (d_sect r) v.
Definition set_fl_clust (v : Z) (r : File) : File :=
  mkFile (fl_fat r) (dir_sect r) (fl_sclust r) v (fl_sect r) (fl_size r) (fl_offset r)
    (dir_idx r) (fl_attr r) (fl_flags r) (fl_buf r).
Definition set_fl_sect (v : Z) (r : File) : File :=
  mkFile (fl_fat r) (dir_sect r) (fl_sclust r) (fl_clust r) v (fl_size r) (fl_offset r)
    (dir_idx r) (fl_attr r) (fl_flags r) (fl_buf r).
Definition set_fl_size (v : Z) (r : File) : File :=
  mkFile (fl_fat r) (dir_sect r) (fl_sclust r) (fl_clust r) (fl_sect r) v (fl_offset r)
    (dir_idx r) (fl_attr r) (fl_flags r) (fl_buf r).
Definition set_fl_offset (v : Z) (r : File) : File :=
  mkFile (fl_fat r) (dir_sect r) (fl_sclust r) (fl_clust r) (fl_sect r) (fl_size r) v
    (dir_idx r) (fl_attr r) (fl_flags r) (fl_buf r).
Definition set_fl_flags (v : Z) (r : File) : File :=
  mkFile (fl_fat r) (dir_sect r) (fl_sclust r) (fl_clust r) (fl_sect r) (fl_size r)
    (fl_offset r) (dir_idx r) (fl_attr r) v (fl_buf r).
Definition set_fl_buf (v : list Z) (r : File) : File :=
  mkFile (fl_fat r) (dir_sect r) (fl_sclust r) (fl_clust r) (fl_sect r) (fl_size r)
    (fl_offset r) (dir_idx r) (fl_attr r) (fl_flags r) v.
Definition set_disk {D} (v : D) (r : fstate D) : fstate D :=
  mkFs v (fats r) (g_fat_list r) (dirs r) (fat_files r) (g_buf r) (g_len r) (g_crc r).
Definition set_fats {D} (v : gmap Z (Fat D)) (r : fstate D) : fstate D :=
  mkFs (disk r) v (g_fat_list r) (dirs r) (fat_files r) (g_buf r) (g_len r) (g_crc r).
Definition set_g_fat_list {D} (v : option Z) (r : fstate D) : fstate D :=
  mkFs (disk r) (fats r) v (dirs r) (fat_files r) (g_buf r) (g_len r) (g_crc r).
Definition set_dirs {D} (v : gmap dir_ref Dir) (r : fstate D) : fstate D :=
  mkFs (disk r) (fats r) (g_fat_list r) v (fat_files r) (g_buf r) (g_len r) (g_crc r).
Definition set_fat_files {D} (v : gmap Z File) (r : fstate D) : fstate D :=
  mkFs (disk r) (fats r) (g_fat_list r) (dirs r) v (g_buf r) (g_len r) (g_crc r).
Definition set_g_buf {D} (v : list Z) (r : fstate D) : fstate D :=
  mkFs (disk r) (fats r) (g_fat_list r) (dirs r) (fat_files r) v (g_len r) (g_crc r).
Definition set_g_len {D} (v : Z) (r : fstate D) : fstate D :=
  mkFs (disk r) (fats r) (g_fat_list r) (dirs r) (fat_files r) (g_buf r) v (g_crc r).
Definition set_g_crc {D} (v : Z) (r : fstate D) : fstate D :=
  mkFs (disk r) (fats r) (g_fat_list r) (dirs r) (fat_files r) (g_buf r) (g_len r) v.

(** ** The monad *)

(** The value of a function that returns [FAT_ERR_NONE], or its error. *)
Inductive result (A : Type) : Type :=
  | Ok (a : A)
  | Err (e : Z).
Arguments Ok {A} a.
Arguments Err {A} e.

Definition FM (D A : Type) : Type := fstate D -> outcome (fstate D) (result A).

Section Monad.
Context {D : Type}.

Definition ok {A} (a : A) : FM D A := fun s => Done (Ok a) s.
(** [return err] *)
Definition fail {A} (e : Z) : FM D A := fun s => Done (Err e) s.
Definition undefined {A} : FM D A := fun _ => Stuck.
Definition exhausted {A} : FM D A := fun _ => OutOfFuel.

(** [err = m; if (err) return err;] *)
Definition ebind {A B} (m : FM D A) (f : A -> FM D B) : FM D B := fun s =>
  match m s with
  | Done (Ok a) s' => f a s'
  | Done (Err e) s' => Done (Err e) s'
  | Stuck => Stuck
  | OutOfFuel => OutOfFuel
  end.

(** A call whose error code the caller looks at. *)
Definition attempt {A} (m : FM D A) : FM D (result A) := fun s =>
  match m s with
  | Done r s' => Done (Ok r) s'
  | Stuck => Stuck
  | OutOfFuel => OutOfFuel
  end.

Definition read_state {A} (f : fstate D -> A) : FM D A := fun s => Done (Ok (f s)) s.
Definition write_state (f : fstate D -> fstate D) : FM D unit := fun s => Done (Ok tt) (f s).

(** An access that is undefined behaviour when it is [None]. *)
Definition access {A} (o : option A) : FM D A :=
  match o with Some a => ok a | None => undefined end.

(** [return cond ? e : ...] *)
Definition fail_if (b : bool) (e : Z) : FM D unit := if b then fail e else ok tt.
Definition unless (b : bool) (m : FM D unit) : FM D unit := if b then ok tt else m.
End Monad.

Declare Scope fat_scope.
Delimit Scope fat_scope with fat.
Notation "'let!' x := m 'in' k" := (ebind m (fun x => k))
  (at level 10, x pattern, m at level 100, k at level 200) : fat_scope.
Notation "'do!' m 'in' k" := (ebind m (fun _ => k))
  (at level 10, m at level 100, k at level 200) : fat_scope.

(** ** Pointers *)

Section Pointers.
Context {D : Type}.
Open Scope fat_scope.

Definition get_fs (fat : Z) : FM D (Fat D) := let! m := read_state fats in access (m !! fat).
Definition upd_fs (fat : Z) (f : Fat D -> Fat D) : FM D unit :=
  do! get_fs fat in write_state (fun s => set_fats (alter f fat (fats s)) s).

Definition get_dir (dir : dir_ref) : FM D Dir := let! m := read_state dirs in access (m !! dir).
Definition put_dir (dir : dir_ref) (d : Dir) : FM D unit :=
  write_state (fun s => set_dirs (<[dir := d]> (dirs s)) s).
Definition upd_dir (dir : dir_ref) (f : Dir -> Dir) : FM D unit :=
  do! get_dir dir in write_state (fun s => set_dirs (alter f dir (dirs s)) s).
(** [dir->fat] *)
Definition dir_fat (dir : dir_ref) : FM D Z := let! d := get_dir dir in access (d_fat d).

Definition get_file (file : Z) : FM D File := let! m := read_state fat_files in access (m !! file).
Definition upd_file (file : Z) (f : File -> File) : FM D unit :=
  do! get_file file in write_state (fun s => set_fat_files (alter f file (fat_files s)) s).
End Pointers.
