(* ===== verification/FatBytes.v ===== *)
(** * The FAT32 library: bytes of a sector

    Reading back what was written: a little-endian field gives the value
    written to it, modulo its width, and fields that do not overlap are
    independent. *)

From S2P Require Import Prelude Exec FatTypes.

Section LittleEndian.
Implicit Types (l : list Z) (n m i j : nat) (v : Z).

Lemma get_le_lt n l i : (i + n <= length l)%nat -> is_Some (get_le n l i).
Proof.
  revert i. induction n as [|n IH]; intros i H; simpl; [done|].
  destruct (lookup_lt_is_Some_2 l i) as [b ->]; [lia|]. simpl.
  destruct (IH (S i)) as [v ->]; [lia|]. by eexists.
Qed.

Lemma get_le_some n l i v : get_le n l i = Some v -> (0 < n)%nat -> (i + n <= length l)%nat.
Proof.
  revert i v. induction n as [|n IH]; intros i v; simpl; [lia|].
  destruct (l !! i) eqn:Hb; simpl; [|done]. apply lookup_lt_Some in Hb.
  destruct (get_le n l (S i)) eqn:Hr; simpl; [|done]. intros _ _.
  destruct n; [lia|]. specialize (IH _ _ Hr). lia.
Qed.

Lemma put_le_lt n l i v : (i + n <= length l)%nat -> is_Some (put_le n l i v).
Proof.
  revert l i v. induction n as [|n IH]; intros l i v H; simpl; [done|].
  destruct (lookup_lt_is_Some_2 l i) as [b ->]; [lia|]. simpl.
  apply IH. rewrite length_insert. lia.
Qed.

Lemma put_le_length n l i v l' : put_le n l i v = Some l' -> length l' = length l.
Proof.
  revert l i v. induction n as [|n IH]; intros l i v; simpl; [by intros [= ->]|].
  destruct (l !! i); simpl; [|done]. intros ->%IH. apply length_insert.
Qed.

(** Bytes outside the field are unchanged. *)
Lemma put_le_lookup n l i v l' k :
  put_le n l i v = Some l' -> (k < i \/ i + n <= k)%nat -> l' !! k = l !! k.
Proof.
  revert l i v. induction n as [|n IH]; intros l i v; simpl; [by intros [= ->]|].
  destruct (l !! i); simpl; [|done]. intros H Hk. rewrite (IH _ _ _ H) by lia. apply list_lookup_insert_ne. lia.
Qed.

(** The bytes of a buffer stay bytes. *)
Lemma put_le_bytes n l i v l' : put_le n l i v = Some l' -> Forall is_byte l -> Forall is_byte l'.
Proof.
  revert l i v. induction n as [|n IH]; intros l i v; simpl; [by intros [= ->]|].
  destruct (l !! i); simpl; [|done]. intros H Hl. apply (IH _ _ _ H), Forall_insert; [done|].
  apply Z.mod_pos_bound. lia.
Qed.

Lemma get_le_ext n l l' i :
  (forall k, (i <= k < i + n)%nat -> l' !! k = l !! k) -> get_le n l' i = get_le n l i.
Proof.
  revert i. induction n as [|n IH]; intros i H; simpl; [done|].
  rewrite H by lia. rewrite IH; [done|]. intros k Hk. apply H. lia.
Qed.

Lemma get_put_le_ne n m l i j v l' :
  put_le n l i v = Some l' -> (j + m <= i \/ i + n <= j)%nat -> get_le m l' j = get_le m l j.
Proof. intros H Hj. apply get_le_ext. intros k Hk. eapply put_le_lookup; [done|lia]. Qed.

Lemma get_put_le n l i v l' :
  put_le n l i v = Some l' -> get_le n l' i = Some (v mod 256 ^ Z.of_nat n).
Proof.
  revert l i v. induction n as [|n IH]; intros l i v; [by rewrite Z.mod_1_r|].
  cbn [put_le get_le]. destruct (l !! i) eqn:Hb; simpl; [|done]. apply lookup_lt_Some in Hb.
  intros H. rewrite (put_le_lookup _ _ _ _ _ i H), list_lookup_insert_eq by lia. simpl.
  rewrite (IH _ _ _ H). simpl. f_equal.
  rewrite Nat2Z.inj_succ, Z.pow_succ_r by lia.
  rewrite Z.rem_mul_r by lia. done.
Qed.
End LittleEndian.

(** ** The fields of the source's types *)

Section Fields.
Implicit Types (l : list Z) (i j v : Z).

Lemma get32_lt l i : 0 <= i -> i + 4 <= Z.of_nat (length l) -> is_Some (get32 l i).
Proof. intros Hi H. unfold get32. destruct (Z.ltb_spec i 0); [lia|]. apply get_le_lt. lia. Qed.

Lemma put32_lt l i v : 0 <= i -> i + 4 <= Z.of_nat (length l) -> is_Some (put32 l i v).
Proof. intros Hi H. unfold put32. destruct (Z.ltb_spec i 0); [lia|]. apply put_le_lt. lia. Qed.

Lemma put32_length l i v l' : put32 l i v = Some l' -> length l' = length l.
Proof. unfold put32. destruct (i <? 0); [done|]. apply put_le_length. Qed.

Lemma get_put32 l i v l' : put32 l i v = Some l' -> get32 l' i = Some (u32 v).
Proof. unfold put32, get32. destruct (i <? 0); [done|]. intros ->%get_put_le. done. Qed.

Lemma get_put32_ne l i v l' j :
  put32 l i v = Some l' -> 0 <= j -> j + 4 <= i \/ i + 4 <= j -> get32 l' j = get32 l j.
Proof.
  unfold put32, get32. destruct (Z.ltb_spec i 0); [done|]. destruct (Z.ltb_spec j 0); [done|].
  intros Hp _ Hj. eapply get_put_le_ne; [done|]. lia.
Qed.
Lemma put8_lt l i v : 0 <= i < Z.of_nat (length l) -> is_Some (put8 l i v).
Proof. intros Hi. unfold put8. destruct (Z.ltb_spec i 0); [lia|]. apply put_le_lt. lia. Qed.

Lemma put8_length l i v l' : put8 l i v = Some l' -> length l' = length l.
Proof. unfold put8. destruct (i <? 0); [done|]. apply put_le_length. Qed.

Lemma get_put8 l i v l' : put8 l i v = Some l' -> get8 l' i = Some (u8 v).
Proof. unfold put8, get8. destruct (i <? 0); [done|]. intros ->%get_put_le. done. Qed.

Lemma get_put8_ne l i v l' j : put8 l i v = Some l' -> j <> i -> get8 l' j = get8 l j.
Proof.
  unfold put8, get8. destruct (Z.ltb_spec i 0); [done|]. destruct (Z.ltb_spec j 0); [done|].
  intros Hp Hj. eapply get_put_le_ne; [done|]. lia.
Qed.
End Fields.

(** *** Fields of any width *)

Section AnyWidth.
Implicit Types (l : list Z) (n m : nat) (i j v : Z).

(** The field of [n] bytes at [i]: [get8], [get16] and [get32] are those of 1,
    2 and 4 bytes. *)
Definition field n l i : option Z := if i <? 0 then None else get_le n l (Z.to_nat i).

(** [l'] is [l] with [v] in the field of [n] bytes at [i]. *)
Definition wrote n i v l l' : Prop := 0 <= i /\ put_le n l (Z.to_nat i) v = Some l'.

Lemma put8_wrote l i v l' : put8 l i v = Some l' -> wrote 1 i v l l'.
Proof. unfold put8, wrote. destruct (Z.ltb_spec i 0); [done|]. by split. Qed.

Lemma put16_wrote l i v l' : put16 l i v = Some l' -> wrote 2 i v l l'.
Proof. unfold put16, wrote. destruct (Z.ltb_spec i 0); [done|]. by split. Qed.

Lemma put32_wrote l i v l' : put32 l i v = Some l' -> wrote 4 i v l l'.
Proof. unfold put32, wrote. destruct (Z.ltb_spec i 0); [done|]. by split. Qed.

Lemma wrote_field n i v l l' : wrote n i v l l' -> field n l' i = Some (v mod 256 ^ Z.of_nat n).
Proof. intros [Hi H]. unfold field. destruct (Z.ltb_spec i 0); [lia|]. by eapply get_put_le. Qed.

Lemma wrote_field_ne n i v l l' m j :
  wrote n i v l l' -> 0 <= j -> j + Z.of_nat m <= i \/ i + Z.of_nat n <= j -> field m l' j = field m l j.
Proof.
  intros [Hi H] Hj Hd. unfold field. destruct (Z.ltb_spec j 0); [done|]. eapply get_put_le_ne; [done|lia].
Qed.

Lemma wrote_lookup n i v l l' j :
  wrote n i v l l' -> 0 <= j -> j < i \/ i + Z.of_nat n <= j -> l' !! Z.to_nat j = l !! Z.to_nat j.
Proof. intros [Hi H] Hj Hd. eapply put_le_lookup; [done|lia]. Qed.
End AnyWidth.

(** ** Blocks of bytes *)

Section Blocks.
Implicit Types (l src : list Z) (i n : Z) (k : nat).

Lemma get_bytes_lt l i n : 0 <= i -> 0 <= n -> i + n <= Z.of_nat (length l) ->
  get_bytes l i n = Some (take (Z.to_nat n) (drop (Z.to_nat i) l)).
Proof.
  intros Hi Hn H. unfold get_bytes. destruct (Z.ltb_spec i 0), (Z.ltb_spec n 0), (Z.ltb_spec (Z.of_nat (length l)) (i + n));
    simpl; lia || done.
Qed.

Lemma put_bytes_lt l i src : 0 <= i -> i + Z.of_nat (length src) <= Z.of_nat (length l) ->
  put_bytes l i src = Some (take (Z.to_nat i) l ++ src ++ drop (Z.to_nat i + length src) l).
Proof.
  intros Hi H. unfold put_bytes. destruct (Z.ltb_spec i 0), (Z.ltb_spec (Z.of_nat (length l)) (i + Z.of_nat (length src)));
    simpl; lia || done.
Qed.

Lemma put_bytes_length l i src l' : put_bytes l i src = Some l' -> length l' = length l.
Proof.
  unfold put_bytes. destruct (Z.ltb_spec i 0), (Z.ltb_spec (Z.of_nat (length l)) (i + Z.of_nat (length src))); try done.
  intros [= <-]. rewrite !length_app, length_take, length_drop. lia.
Qed.

Lemma put_bytes_lookup l i src l' k :
  put_bytes l i src = Some l' ->
  l' !! k = if decide (i <= Z.of_nat k < i + Z.of_nat (length src)) then src !! Z.to_nat (Z.of_nat k - i) else l !! k.
Proof.
  unfold put_bytes. destruct (Z.ltb_spec i 0), (Z.ltb_spec (Z.of_nat (length l)) (i + Z.of_nat (length src))); try done.
  intros [= <-]. destruct (decide (Z.of_nat k < i)) as [Hk|Hk].
  - rewrite decide_False, lookup_app_l, lookup_take_lt by (rewrite ?length_take; lia). done.
  - rewrite lookup_app_r by (rewrite length_take; lia). rewrite length_take.
    replace (Z.to_nat i `min` length l)%nat with (Z.to_nat i) by lia. case_decide as Hin.
    + rewrite lookup_app_l by lia. f_equal. lia.
    + rewrite lookup_app_r by lia. rewrite lookup_drop. f_equal. lia.
Qed.
End Blocks.

(** ** Editing a sector *)

(** The contents of a sector. *)
Definition block (l : list Z) : Prop := length l = 512%nat /\ Forall is_byte l.

Lemma block_length l : block l -> length l = 512%nat.
Proof. by intros []. Qed.

Lemma put8_block l i v l' : put8 l i v = Some l' -> block l -> block l'.
Proof.
  unfold put8. destruct (i <? 0); [done|]. intros H [Hl Hb].
  split; [by rewrite (put_le_length _ _ _ _ _ H)|by eapply put_le_bytes].
Qed.

Lemma put16_block l i v l' : put16 l i v = Some l' -> block l -> block l'.
Proof.
  unfold put16. destruct (i <? 0); [done|]. intros H [Hl Hb].
  split; [by rewrite (put_le_length _ _ _ _ _ H)|by eapply put_le_bytes].
Qed.

Lemma put32_block l i v l' : put32 l i v = Some l' -> block l -> block l'.
Proof.
  unfold put32. destruct (i <? 0); [done|]. intros H [Hl Hb].
  split; [by rewrite (put_le_length _ _ _ _ _ H)|by eapply put_le_bytes].
Qed.

Lemma put_bytes_block l i src l' : put_bytes l i src = Some l' -> Forall is_byte src -> block l -> block l'.
Proof.
  intros H Hs [Hl Hb]. split; [by rewrite (put_bytes_length _ _ _ _ H)|].
  unfold put_bytes in H. destruct (_ || _); [done|]. injection H as <-.
  apply Forall_app. split; [by apply Forall_take|]. apply Forall_app. split; [done|by apply Forall_drop].
Qed.

(** An edit that stays inside the sector. *)
Definition edits (o : option (list Z)) : Prop := exists buf, o = Some buf /\ block buf.

Create HintDb edits.

Section Edits.
Implicit Types (l : list Z) (i v : Z).

Lemma edits_some l : block l -> edits (Some l).
Proof. by exists l. Qed.

Lemma edits_bind o (f : list Z -> option (list Z)) :
  edits o -> (forall l, block l -> edits (f l)) -> edits (o ≫= f).
Proof. intros (l & -> & Hl) H. by apply H. Qed.

Lemma edits_if (b : bool) o o' : edits o -> edits o' -> edits (if b then o else o').
Proof. by destruct b. Qed.

Lemma edits_put8 l i v : block l -> 0 <= i < 512 -> edits (put8 l i v).
Proof.
  intros Hl Hi. pose proof (block_length _ Hl). destruct (put8_lt l i v) as [b Hb]; [lia|].
  exists b. split; [done|by eapply put8_block].
Qed.

Lemma edits_put16 l i v : block l -> 0 <= i < 511 -> edits (put16 l i v).
Proof.
  intros Hl Hi. pose proof (block_length _ Hl). assert (is_Some (put16 l i v)) as [b Hb].
  { unfold put16. destruct (Z.ltb_spec i 0); [lia|]. apply put_le_lt. lia. }
  exists b. split; [done|by eapply put16_block].
Qed.

Lemma edits_put32 l i v : block l -> 0 <= i < 509 -> edits (put32 l i v).
Proof.
  intros Hl Hi. pose proof (block_length _ Hl). destruct (put32_lt l i v) as [b Hb]; [lia..|].
  exists b. split; [done|by eapply put32_block].
Qed.

Lemma edits_get8 l i (f : Z -> option (list Z)) :
  block l -> 0 <= i < 512 -> (forall v, edits (f v)) -> edits (get8 l i ≫= f).
Proof.
  intros Hl Hi Hf. pose proof (block_length _ Hl). unfold get8. destruct (Z.ltb_spec i 0); [lia|].
  destruct (get_le_lt 1 l (Z.to_nat i)) as [v ->]; [lia|]. apply Hf.
Qed.
End Edits.

#[export] Hint Resolve edits_some edits_bind edits_if edits_put8 edits_put16 edits_put32 edits_get8 : edits.
