(* ===== verification/FatNames.v ===== *)
(** * The FAT32 library: names, checksums and timestamps

    The pure helpers of [libs/fat32/fat.c].  A C string is the list of its
    characters; a [(name, len)] pair of the source is the list of the first
    [len] of them. *)

From Stdlib Require Import String.
From S2P Require Import Prelude Exec FatTypes.
Local Open Scope list_scope.

(** ** Paths *)

Definition slash : Z := 47.
Definition dot : Z := 46.

Definition to_upper (c : Z) : Z :=
  if (97 <=? c) && (c <=? 122) then Z.land c (Z.lnot 0x20) else c.

(** The number of characters before a slash or the end. *)
Fixpoint subpath_len (path : list Z) : nat :=
  match path with
  | [] => 0
  | c :: path => if c =? slash then 0 else S (subpath_len path)
  end.

(** [while ( *path == '/') path++;] *)
Fixpoint skip_slashes (path : list Z) : list Z :=
  match path with
  | c :: path' => if c =? slash then skip_slashes path' else path
  | [] => []
  end.

Definition last_subpath_len (path : list Z) : nat :=
  let len := subpath_len path in
  match len with
  | O => O
  | _ => match skip_slashes (drop len path) with [] => len | _ => O end
  end.

(** ** Short names *)

(** The allowed special characters: [!#$%&'()-@^_`{}~] and the space. *)
Definition sfn_specials : list Z :=
  [33; 35; 36; 37; 38; 39; 40; 41; 45; 64; 94; 95; 96; 123; 125; 126; 32].

Definition sfn_char (c : Z) : Z :=
  let c := to_upper c in
  if (65 <=? c) && (c <=? 90) then c
  else if bool_decide (c ∈ sfn_specials) then c
  else 95.

(** The characters before the first dot, and those after it. *)
Fixpoint before_dot (name : list Z) : list Z :=
  match name with
  | [] => []
  | c :: name => if c =? dot then [] else c :: before_dot name
  end.

Fixpoint after_dot (name : list Z) : list Z :=
  match name with
  | [] => []
  | c :: name => if c =? dot then name else after_dot name
  end.

Definition pad (n : nat) (l : list Z) : list Z := l ++ replicate (n - length l) SFN_PAD.

(** The base is cut at 8 characters or at the first dot; the extension is what
    follows the first dot that was not part of the base. *)
Definition put_sfn_name (name : list Z) : list Z :=
  let base := before_dot (take 8 name) in
  let ext := take 3 (after_dot (drop (length base) name)) in
  pad 8 (sfn_char <$> base) ++ pad 3 (sfn_char <$> ext).

Fixpoint before_pad (name : list Z) : list Z :=
  match name with
  | [] => []
  | c :: name => if c =? SFN_PAD then [] else c :: before_pad name
  end.

(** The name [parse_sfn_name] leaves in the global buffer. *)
Definition parse_sfn_name (sfn_name : list Z) : list Z :=
  let ext := drop 8 sfn_name in
  before_pad (take 8 sfn_name) ++
  match ext with
  | c :: _ => if c =? SFN_PAD then [] else dot :: before_pad ext
  | [] => []
  end.

Definition get_crc (name : list Z) : Z :=
  foldl (fun sum c => u8 (Z.shiftl (Z.land sum 1) 7 + Z.shiftr sum 1 + c)) 0 name.

(** ** Long names *)

Definition g_lfn_indices : list Z := [1; 3; 5; 7; 9; 14; 16; 18; 20; 22; 24; 28; 30].

(** The character at position [i] of a fragment of [len] characters: the name,
    then a zero, then padding. *)
Definition lfn_unit (name : list Z) (i : nat) : Z * Z :=
  match name !! i with
  | Some c => (c, 0x00)
  | None => if (i =? length name)%nat then (0x00, 0x00) else (0xff, 0xff)
  end.

Fixpoint put_units (buf : list Z) (idx : Z) (name : list Z) (i : nat) (indices : list Z) : option (list Z) :=
  match indices with
  | [] => Some buf
  | k :: indices =>
    buf ← put8 buf (idx + k) (lfn_unit name i).1;
    buf ← put8 buf (idx + k + 1) (lfn_unit name i).2;
    put_units buf idx name (S i) indices
  end.

(** [put_lfn_name_frag] on the entry at [idx] of the sector. *)
Definition put_lfn_name_frag (buf : list Z) (idx : Z) (name : list Z) : option (list Z) :=
  put_units buf idx name 0 g_lfn_indices.

(** The loop of [parse_lfn_name] over one entry: the characters up to the
    zero, and whether padding came before it, which is an error. *)
Fixpoint read_units (buf : list Z) (idx : Z) (indices : list Z) : option (list Z * bool) :=
  match indices with
  | [] => Some ([], false)
  | k :: indices =>
    c ← get8 buf (idx + k);
    if c =? 0xff then Some ([], true)
    else if c =? 0 then Some ([], false)
    else r ← read_units buf idx indices; Some (c :: r.1, r.2)
  end.

(** ** Timestamps *)

Definition decode_timestamp (date time : Z) : Timestamp :=
  {| day := Z.land date 0x1f;
     month := Z.land (Z.shiftr date 5) 0xf;
     year := Z.land (Z.shiftr date 9) 0x3f + 1980;
     hour := Z.land (Z.shiftr time 11) 0x1f;
     min := Z.land (Z.shiftr time 5) 0x3f;
     sec := 2 * Z.land time 0x1f |}.

(** Returns [*date] and [*time]. *)
Definition encode_timestamp (ts : Timestamp) : Z * Z :=
  (u16 (Z.lor (Z.lor (Z.shiftl (Z.land (year ts - 1980) 0x3f) 9) (Z.shiftl (Z.land (month ts) 0xf) 5))
              (Z.land (day ts) 0x1f)),
   u16 (Z.lor (Z.lor (Z.land (sec ts / 2) 0x1f) (Z.shiftl (Z.land (min ts) 0x3f) 5))
              (Z.shiftl (Z.land (hour ts) 0x1f) 11))).

(** The weak definition of [fat_get_timestamp], which nothing overrides. *)
Definition fat_get_timestamp : Timestamp :=
  {| hour := 0; min := 0; sec := 0; day := 1; month := 1; year := 1980 |}.

(** ** Error names *)

Definition error_strings : list string :=
  ["FAT_ERR_NONE"; "FAT_ERR_NOFAT"; "FAT_ERR_BROKEN"; "FAT_ERR_IO"; "FAT_ERR_PARAM";
   "FAT_ERR_PATH"; "FAT_ERR_EOF"; "FAT_ERR_DENIED"; "FAT_ERR_FULL"]%string.

Definition fat_get_error (err : Z) : string :=
  let err := s32 (- err) in
  if (err <? 0) || (Z.of_nat (length error_strings) <=? err) then "NULL"%string
  else default "NULL"%string (error_strings !! Z.to_nat err).
