(* ===== verification/FatTable.v ===== *)
(** * The FAT32 library: the sector buffer and the allocation table

    The first part of [libs/fat32/fat.c]: geometry, the one-sector buffer of a
    volume, the entries of the allocation table (mirrored or not), and the
    chains of clusters built from them. *)

From S2P Require Import Prelude Exec FatTypes.
Open Scope fat_scope.

(** ** Geometry *)

Definition sect_to_clust {D} (fs : Fat D) (sect : Z) : Z :=
  u32 (Z.shiftr (u32 (sect - data_sect fs)) (clust_shift fs) + 2).

Definition clust_to_sect {D} (fs : Fat D) (clust : Z) : Z :=
  u32 (u32 (Z.shiftl (u32 (clust - 2)) (clust_shift fs)) + data_sect fs).

Section Table.
Context {D : Type}.
Implicit Types (fat clust sect : Z).

(** ** The sector buffer *)

(** A transfer of the device. *)
Definition transfer {A} (m : Exec D A) : FM D A := fun s =>
  match m (disk s) with
  | Done a d => Done (Ok a) (set_disk d s)
  | Stuck => Stuck
  | OutOfFuel => OutOfFuel
  end.

(** [fat->ops.write(fat->buf, fat->sect)] *)
Definition ops_write (ops : DiskOps D) (buf : list Z) (sect : Z) : FM D bool := transfer (op_write ops buf sect).

(** [fat->ops.read(buf, sect)], with the new contents of [buf]. *)
Definition ops_read (ops : DiskOps D) (buf : list Z) (sect : Z) : FM D (bool * list Z) := transfer (op_read ops buf sect).

Definition sync_buf (fat : Z) : FM D unit :=
  let! fs := get_fs fat in
  if has (f_flags fs) FAT_BUF_DIRTY then
    let! b := ops_write (f_ops fs) (f_buf fs) (f_sect fs) in
    do! fail_if (negb b) FAT_ERR_IO in
    upd_fs fat (fun fs => set_f_flags (clear (f_flags fs) FAT_BUF_DIRTY) fs)
  else ok tt.

Definition update_buf (fat sect : Z) : FM D unit :=
  let! fs := get_fs fat in
  if f_sect fs =? sect then ok tt else
  do! sync_buf fat in
  let! fs := get_fs fat in
  let! (b, buf) := ops_read (f_ops fs) (f_buf fs) sect in
  do! upd_fs fat (set_f_buf buf) in
  do! fail_if (negb b) FAT_ERR_IO in
  upd_fs fat (set_f_sect sect).

(** [fat->flags |= mask] *)
Definition raise_flag (fat mask : Z) : FM D unit :=
  upd_fs fat (fun fs => set_f_flags (raise (f_flags fs) mask) fs).

(** Changing bytes of [fat->buf]. *)
Definition edit_buf (fat : Z) (f : list Z -> option (list Z)) : FM D unit :=
  let! fs := get_fs fat in
  let! buf := access (f (f_buf fs)) in
  upd_fs fat (set_f_buf buf).

Definition sync_fs (fat : Z) : FM D unit :=
  do! sync_buf fat in
  let! fs := get_fs fat in
  if has (f_flags fs) FAT_INFO_DIRTY then
    do! update_buf fat (info_sect fs) in
    do! raise_flag fat FAT_BUF_DIRTY in
    let! fs := get_fs fat in
    do! edit_buf fat (fun buf => put32 buf FsInfo_next_free (last_used fs)) in
    do! edit_buf fat (fun buf => put32 buf FsInfo_free_cnt (free_cnt fs)) in
    do! sync_buf fat in
    upd_fs fat (fun fs => set_f_flags (clear (f_flags fs) FAT_INFO_DIRTY) fs)
  else ok tt.

(** ** Entries of the table *)

(** What the value of an entry says of its cluster; [None] if it is invalid. *)
Definition classify (clust_cnt val : Z) : option Z :=
  if val =? 0 then Some CLUST_FREE
  else if val =? 0x0ffffff7 then Some CLUST_BAD
  else if 0x0ffffff8 <=? val then Some (Z.lor CLUST_USED CLUST_LAST)
  else if (2 <=? val) && (val <? clust_cnt) then Some CLUST_USED
  else None.

(** Returns [*out_val] and [*out_flags]. *)
Definition get_fat (fat clust : Z) : FM D (Z * Z) :=
  let! fs := get_fs fat in
  let sect := u32 (fat_sect0 fs + clust / 128) in
  let idx := clust mod 128 in
  do! update_buf fat sect in
  let! fs := get_fs fat in
  let! item := access (get32 (f_buf fs) (4 * idx)) in
  let val := Z.land item 0x0fffffff in
  match classify (clust_cnt fs) val with
  | Some flags => ok (val, flags)
  | None => fail FAT_ERR_BROKEN
  end.

Definition put_fat2 (fat fat_sect clust val : Z) : FM D unit :=
  let sect := u32 (fat_sect + clust / 128) in
  let idx := clust mod 128 in
  do! update_buf fat sect in
  do! edit_buf fat (fun buf =>
    item ← get32 buf (4 * idx);
    put32 buf (4 * idx) (Z.lor (Z.land item 0xf0000000) (Z.land val 0x0fffffff))) in
  raise_flag fat FAT_BUF_DIRTY.

Definition put_fat (fat clust val : Z) : FM D unit :=
  let! fs := get_fs fat in
  do! unless (fat_sect1 fs =? 0) (put_fat2 fat (fat_sect1 fs) clust val) in
  let! fs := get_fs fat in
  put_fat2 fat (fat_sect0 fs) clust val.

(** ** Chains *)

Fixpoint remove_chain_loop (fuel : nat) (fat clust : Z) : FM D unit :=
  match fuel with
  | O => exhausted
  | S fuel =>
    let! (next, flags) := get_fat fat clust in
    do! fail_if (has flags (Z.lor CLUST_BAD CLUST_FREE)) FAT_ERR_BROKEN in
    do! put_fat fat clust 0 in
    do! upd_fs fat (fun fs => set_free_cnt (u32 (free_cnt fs + 1)) fs) in
    if has flags CLUST_LAST then ok tt else remove_chain_loop fuel fat next
  end.

(** A chain has at most one link per entry of the table. *)
Definition remove_chain (fat clust : Z) : FM D unit :=
  do! raise_flag fat FAT_INFO_DIRTY in
  let! fs := get_fs fat in
  do! remove_chain_loop (S (Z.to_nat (clust_cnt fs))) fat clust in
  sync_fs fat.

(** [if (++clust >= fat->clust_cnt) clust = 2;] *)
Definition next_candidate (clust_cnt clust : Z) : Z :=
  if clust_cnt <=? u32 (clust + 1) then 2 else u32 (clust + 1).

(** The scan for a free cluster.  [flags] is the C variable, [None] while it
    is uninitialised: it is what the function returns when the table cannot be
    read. *)
Fixpoint scan_free (fuel : nat) (fat clust : Z) (flags : option Z) : FM D Z :=
  match fuel with
  | O => exhausted
  | S fuel =>
    let! fs := get_fs fat in
    let clust := next_candidate (clust_cnt fs) clust in
    if clust =? last_used fs then fail FAT_ERR_FULL else
    let! r := attempt (get_fat fat clust) in
    match r with
    | Err _ => let! f := access flags in if f =? 0 then undefined else fail f
    | Ok (_, f) => if has f CLUST_FREE then ok clust else scan_free fuel fat clust (Some f)
    end
  end.

(** The end of [stretch_chain]: [clust] ends a chain, after [prev] unless it is
    zero. *)
Definition attach (fat prev clust : Z) : FM D Z :=
  do! put_fat fat clust 0x0fffffff in
  do! unless (prev =? 0) (put_fat fat prev clust) in
  do! upd_fs fat (fun fs => set_free_cnt (u32 (free_cnt fs - 1)) (set_last_used clust fs)) in
  do! sync_fs fat in
  ok clust.

(** Returns [*out_clust]. *)
Definition stretch_chain (fat clust : Z) : FM D Z :=
  let prev := clust in
  do! raise_flag fat FAT_INFO_DIRTY in
  let! fs := get_fs fat in
  let! (scan, clust, flags) :=
    if prev =? 0 then ok (true, clust, None) else
    let clust := next_candidate (clust_cnt fs) clust in
    let! (_, flags) := get_fat fat clust in
    ok (negb (has flags CLUST_FREE), clust, Some flags) in
  let! clust :=
    if scan then scan_free (S (Z.to_nat (clust_cnt fs))) fat (last_used fs) flags else ok clust in
  attach fat prev clust.

Definition create_chain (fat : Z) : FM D Z := stretch_chain fat 0.

(** The loop of [clust_clear]: [n] sectors from [sect]. *)
Fixpoint clust_clear_loop (n : nat) (fat sect : Z) : FM D unit :=
  match n with
  | O => ok tt
  | S n =>
    do! raise_flag fat FAT_BUF_DIRTY in
    do! upd_fs fat (set_f_sect sect) in
    do! sync_buf fat in
    clust_clear_loop n fat (u32 (sect + 1))
  end.

Definition clust_clear (fat clust : Z) : FM D unit :=
  do! sync_buf fat in
  let! fs := get_fs fat in
  do! edit_buf fat (fun buf => put_bytes buf 0 (replicate 512 0)) in
  clust_clear_loop (Z.to_nat (Z.shiftl 1 (clust_shift fs))) fat (clust_to_sect fs clust).
End Table.
