(* ===== verification/FatDir.v ===== *)
(** * The FAT32 library: directories

    The part of [libs/fat32/fat.c] that walks directories: positions, search,
    paths, and the entries added to or removed from a directory.  A walk
    follows a chain of clusters the disk describes, which a damaged disk may
    make circular: the loops over entries take [fuel]. *)

From S2P Require Import Prelude Exec FatTypes FatNames FatTable.
Open Scope fat_scope.

Section Directories.
Context {D : Type} (fuel : nat).
Implicit Types (dir : dir_ref) (clust sect : Z) (name path : list Z).

(** ** Positions *)

Definition dir_at_clust dir clust : FM D unit :=
  let! fat := dir_fat dir in
  let! fs := get_fs fat in
  upd_dir dir (fun d => set_d_idx 0 (set_d_sect (clust_to_sect fs clust) (set_d_clust clust d))).

Definition dir_enter dir clust : FM D unit :=
  let! fat := dir_fat dir in
  let! fs := get_fs fat in
  let clust := if clust =? 0 then root_clust fs else clust in
  do! upd_dir dir (set_d_sclust clust) in
  dir_at_clust dir clust.

Definition dir_next dir : FM D unit :=
  do! upd_dir dir (fun d => set_d_idx (u16 (d_idx d + sizeof_Sfn)) d) in
  let! d := get_dir dir in
  if d_idx d <? 512 then ok tt else
  do! upd_dir dir (fun d => set_d_sect (u32 (d_sect d + 1)) (set_d_idx 0 d)) in
  let! d := get_dir dir in
  let! fat := dir_fat dir in
  let! fs := get_fs fat in
  if negb (Z.land (d_sect d) (clust_msk fs) =? 0) then ok tt else
  let! (next, flags) := get_fat fat (d_clust d) in
  do! fail_if (has flags (Z.lor CLUST_BAD CLUST_FREE)) FAT_ERR_BROKEN in
  do! fail_if (has flags CLUST_LAST) FAT_ERR_EOF in
  dir_at_clust dir next.

Fixpoint dir_advance (cnt : nat) dir : FM D unit :=
  match cnt with
  | O => ok tt
  | S cnt => do! dir_next dir in dir_advance cnt dir
  end.

Definition dir_next_stretch dir : FM D unit :=
  let! r := attempt (dir_next dir) in
  match r with
  | Ok _ => ok tt
  | Err e =>
    if e =? FAT_ERR_EOF then
      let! fat := dir_fat dir in
      let! d := get_dir dir in
      let! next := stretch_chain fat (d_clust d) in
      do! dir_at_clust dir next in
      let! d := get_dir dir in
      clust_clear fat (d_clust d)
    else fail e
  end.

(** ** The entry at a position *)

(** [update_buf(dir->fat, dir->sect)] *)
Definition load_entry dir : FM D unit :=
  let! fat := dir_fat dir in
  let! d := get_dir dir in
  update_buf fat (d_sect d).

(** Reading a field of [dir_ptr(dir)]. *)
Definition entry_field {A} dir (get : list Z -> Z -> option A) (off : Z) : FM D A :=
  let! fat := dir_fat dir in
  let! d := get_dir dir in
  let! fs := get_fs fat in
  access (get (f_buf fs) (d_idx d + off)).

(** Writing through [dir_ptr(dir)]. *)
Definition edit_entry dir (f : list Z -> Z -> option (list Z)) : FM D unit :=
  let! fat := dir_fat dir in
  let! d := get_dir dir in
  edit_buf fat (fun buf => f buf (d_idx d)).

(** [dir->fat->flags |= FAT_BUF_DIRTY] *)
Definition entry_dirty dir : FM D unit := let! fat := dir_fat dir in raise_flag fat FAT_BUF_DIRTY.

Definition sfn_is_last dir : FM D bool :=
  let! c := entry_field dir get8 0 in ok (c =? SFN_LAST).

Definition sfn_is_free dir : FM D bool :=
  let! c := entry_field dir get8 0 in ok ((c =? SFN_LAST) || (c =? SFN_FREE)).

Definition sfn_is_lfn dir : FM D bool :=
  let! a := entry_field dir get8 Sfn_attr in ok (a =? FAT_ATTR_LFN).

Definition sfn_cluster dir : FM D Z :=
  let! hi := entry_field dir get16 Sfn_clust_hi in
  let! lo := entry_field dir get16 Sfn_clust_lo in
  ok (u32 (Z.lor (Z.shiftl hi 16) lo)).

Definition sfn_name dir : FM D (list Z) := entry_field dir (fun b i => get_bytes b i 11) 0.

(** ** Long names *)

(** The loop of [parse_lfn_name] over [cnt] entries; the characters of an
    entry are stored at their place in the global buffer. *)
Fixpoint parse_lfn_loop (cnt : nat) dir : FM D unit :=
  match cnt with
  | O => ok tt
  | S cnt =>
    let! attr := entry_field dir get8 Lfn_attr in
    let! crc := entry_field dir get8 Lfn_crc in
    let! g := read_state g_crc in
    do! fail_if (negb (attr =? FAT_ATTR_LFN) || negb (crc =? g)) FAT_ERR_BROKEN in
    let! (chars, broken) := entry_field dir (fun b i => read_units b i g_lfn_indices) 0 in
    let! buf := read_state g_buf in
    let! buf := access (put_bytes buf (13 * Z.of_nat cnt) chars) in
    do! write_state (set_g_buf buf) in
    do! write_state (fun s => set_g_len (u16 (g_len s + Z.of_nat (length chars))) s) in
    do! fail_if broken FAT_ERR_BROKEN in
    do! dir_next dir in
    do! load_entry dir in
    parse_lfn_loop cnt dir
  end.

Definition parse_lfn_name dir : FM D unit :=
  do! load_entry dir in
  let! crc := entry_field dir get8 Lfn_crc in
  do! write_state (set_g_crc crc) in
  do! write_state (set_g_len 0) in
  let! seq := entry_field dir get8 Lfn_seq in
  do! fail_if (negb (has seq LFN_HEAD_MSK)) FAT_ERR_BROKEN in
  let cnt := Z.land seq LFN_SEQ_MSK in
  do! fail_if (20 <? cnt) FAT_ERR_BROKEN in
  do! parse_lfn_loop (Z.to_nat cnt) dir in
  let! len := read_state g_len in
  fail_if (255 <? len) FAT_ERR_BROKEN.

(** [g_buf] up to [g_len] *)
Definition parsed_name : FM D (list Z) :=
  let! buf := read_state g_buf in
  let! len := read_state g_len in
  access (get_bytes buf 0 len).

(** ** Search *)

(** The loop of [dir_search], the position being that of an entry to look at.
    [loc] is the last position recorded; a caller that passes [NULL] ignores
    it. *)
Fixpoint dir_search_loop (n : nat) dir name (sfn : list Z) (loc : option Loc) : FM D (option Loc) :=
  match n with
  | O => exhausted
  | S n =>
    do! load_entry dir in
    let! last := sfn_is_last dir in
    do! fail_if last FAT_ERR_EOF in
    let! free := sfn_is_free dir in
    if free then do! dir_next dir in dir_search_loop n dir name sfn loc else
    let! d := get_dir dir in
    let loc := Some (mkLoc (d_sect d) (d_idx d)) in
    let! lfn := sfn_is_lfn dir in
    let! found :=
      if lfn then
        do! parse_lfn_name dir in
        let! free := sfn_is_free dir in
        let! lfn := sfn_is_lfn dir in
        let! short := sfn_name dir in
        let! crc := read_state g_crc in
        do! fail_if (free || lfn || negb (crc =? get_crc short)) FAT_ERR_BROKEN in
        let! long := parsed_name in
        ok (bool_decide (long = name))
      else
        let! short := sfn_name dir in
        ok (bool_decide (sfn = short)) in
    if found then ok loc else do! dir_next dir in dir_search_loop n dir name sfn loc
  end.

Definition dir_search dir name (loc : option Loc) : FM D (option Loc) :=
  let! d := get_dir dir in
  do! dir_at_clust dir (d_sclust d) in
  dir_search_loop fuel dir name (put_sfn_name name) loc.

Definition dir_at_root dir : FM D bool :=
  let! d := get_dir dir in
  let! fat := dir_fat dir in
  let! fs := get_fs fat in
  ok ((d_clust d =? root_clust fs) && (d_sect d =? clust_to_sect fs (root_clust fs)) && (d_idx d =? 0)).

(** ** Paths *)

Fixpoint find_volume_loop (n : nat) (it : option Z) name : FM D (option Z) :=
  match it with
  | None => ok None
  | Some fat =>
    match n with
    | O => exhausted
    | S n =>
      let! fs := get_fs fat in
      if bool_decide (f_name fs = name) then ok (Some fat) else find_volume_loop n (f_next fs) name
    end
  end.

Definition find_fat_volume name : FM D (option Z) :=
  let! it := read_state g_fat_list in find_volume_loop fuel it name.

(** The loop of [follow_path] at [path].  The result is the error, the path
    that is left ( *path of the source) and the last location. *)
Fixpoint follow_loop (n : nat) dir (dir_clust : Z) (dir_enterable : bool) path (loc : option Loc)
    : FM D (Z * list Z * option Loc) :=
  match n with
  | O => exhausted
  | S n =>
    let path := skip_slashes path in
    match subpath_len path with
    | O => ok (FAT_ERR_NONE, path, loc)
    | len =>
      if negb dir_enterable then ok (FAT_ERR_PATH, path, loc) else
      do! dir_enter dir dir_clust in
      let! r := attempt (dir_search dir (take len path) loc) in
      match r with
      | Err e => ok (e, path, loc)
      | Ok loc =>
        let! clust := sfn_cluster dir in
        let! attr := entry_field dir get8 Sfn_attr in
        follow_loop n dir clust (has attr FAT_ATTR_DIR) (drop len path) loc
      end
    end
  end.

Definition follow_path dir path : FM D (Z * list Z * option Loc) :=
  match path with
  | [] => ok (FAT_ERR_PATH, path, None)
  | c :: str =>
    if negb (c =? slash) then ok (FAT_ERR_PATH, path, None) else
    match subpath_len str with
    | O => ok (FAT_ERR_PATH, path, None)
    | len =>
      let! fat := find_fat_volume (take len str) in
      do! upd_dir dir (set_d_fat fat) in
      match fat with
      | None => ok (FAT_ERR_PATH, path, None)
      | Some fat =>
        let! fs := get_fs fat in
        do! dir_enter dir (root_clust fs) in
        let! d := get_dir dir in
        follow_loop (S (length str)) dir (d_clust d) true (drop len str) None
      end
    end
  end.

(** A call of [follow_path] whose caller returns its error. *)
Definition follow_or_fail dir path : FM D (list Z * option Loc) :=
  let! (err, path, loc) := follow_path dir path in
  do! fail_if (negb (err =? 0)) err in
  ok (path, loc).

(** ** Removing and adding entries *)

Definition dir_at_loc dir (loc : Loc) : FM D unit :=
  let! fat := dir_fat dir in
  let! fs := get_fs fat in
  upd_dir dir (fun d =>
    set_d_idx (l_idx loc) (set_d_sect (l_sect loc) (set_d_clust (sect_to_clust fs (l_sect loc)) d))).

Fixpoint remove_entries_loop (n : nat) dir (sect idx : Z) : FM D unit :=
  match n with
  | O => exhausted
  | S n =>
    do! load_entry dir in
    do! edit_entry dir (fun buf i => put8 buf i SFN_FREE) in
    do! entry_dirty dir in
    let! d := get_dir dir in
    if (d_sect d =? sect) && (d_idx d =? idx) then ok tt else
    do! dir_next dir in
    remove_entries_loop n dir sect idx
  end.

Definition remove_entries dir (loc : Loc) : FM D unit :=
  let! d := get_dir dir in
  do! dir_at_loc dir loc in
  remove_entries_loop fuel dir (d_sect d) (d_idx d).

(** The search for [want] consecutive free entries: [cnt] have been seen, the
    first at [loc]; [eod] once the end of the directory has been passed. *)
Fixpoint find_room (n : nat) dir (want cnt : nat) (eod : bool) (loc : Loc) : FM D (bool * Loc) :=
  if (want <=? cnt)%nat then ok (eod, loc) else
  match n with
  | O => exhausted
  | S n =>
    do! load_entry dir in
    let! free := sfn_is_free dir in
    let! d := get_dir dir in
    let loc := if (eod || free) && (cnt =? 0)%nat then mkLoc (d_sect d) (d_idx d) else loc in
    let cnt := if eod || free then S cnt else O in
    let! last := sfn_is_last dir in
    let eod := eod || last in
    do! dir_next_stretch dir in
    find_room n dir want cnt eod loc
  end.

(** The long-name entries [i], ..., 1, in this order. *)
Fixpoint add_lfns (i : nat) dir name (mask crc : Z) : FM D unit :=
  match i with
  | O => ok tt
  | S j =>
    do! load_entry dir in
    do! entry_dirty dir in
    do! edit_entry dir (fun buf k => put_lfn_name_frag buf k (take 13 (drop (13 * j) name))) in
    do! edit_entry dir (fun buf k => put8 buf (k + Lfn_attr) FAT_ATTR_LFN) in
    do! edit_entry dir (fun buf k => put8 buf (k + Lfn_seq) (Z.lor mask (Z.of_nat i))) in
    do! edit_entry dir (fun buf k => put8 buf (k + Lfn_crc) crc) in
    do! edit_entry dir (fun buf k => put8 buf (k + Lfn_type) 0) in
    do! edit_entry dir (fun buf k => put16 buf (k + Lfn_clust) 0) in
    do! dir_next dir in
    add_lfns j dir name 0 crc
  end.

(** The fields [dir_add] gives a new entry, at [k]. *)
Definition put_sfn (buf : list Z) (k : Z) (name : list Z) (attr clust date time : Z) : option (list Z) :=
  buf ← put_bytes buf k name;
  buf ← put16 buf (k + Sfn_clust_hi) (Z.shiftr clust 16);
  buf ← put16 buf (k + Sfn_clust_lo) (Z.land clust 0xffff);
  buf ← put8 buf (k + Sfn_attr) attr;
  buf ← put8 buf (k + Sfn_reserved) 0;
  buf ← put8 buf (k + Sfn_tenth) 0;
  buf ← put16 buf (k + Sfn_cre_time) time;
  buf ← put16 buf (k + Sfn_mod_time) time;
  buf ← put16 buf (k + Sfn_cre_date) date;
  buf ← put16 buf (k + Sfn_mod_date) date;
  buf ← put16 buf (k + Sfn_acc_date) date;
  put32 buf (k + Sfn_size) 0.

Definition dir_add dir name (attr clust : Z) : FM D unit :=
  do! fail_if ((length name =? 0)%nat || (255 <? length name)%nat) FAT_ERR_PARAM in
  let lfns := ((length name + 12) / 13)%nat in
  let! d := get_dir dir in
  do! dir_enter dir (d_sclust d) in
  let! (eod, loc) := find_room fuel dir (lfns + 1) 0 false (mkLoc 0 0) in
  do! (if eod then
         do! load_entry dir in
         do! edit_entry dir (fun buf i => put8 buf i 0x00) in
         entry_dirty dir
       else ok tt) in
  do! dir_at_loc dir loc in
  let short := put_sfn_name name in
  do! add_lfns lfns dir name LFN_HEAD_MSK (get_crc short) in
  let (date, time) := encode_timestamp fat_get_timestamp in
  do! load_entry dir in
  do! entry_dirty dir in
  edit_entry dir (fun buf k => put_sfn buf k short attr clust date time).
End Directories.
