(* ===== verification/FatFile.v ===== *)
(** * The FAT32 library: files and the operations offered to the kernel

    The part of [libs/fat32/fat.c] that reads and writes files, and the
    functions declared in [fat.h]. *)

From S2P Require Import Prelude Exec FatTypes FatNames FatTable FatDir.
Open Scope fat_scope.

Section Files.
Context {D : Type} (fuel : nat).
Implicit Types (dir : dir_ref) (file fat : Z) (path name : list Z).

(** ** Seeking *)

Definition FAT_SEEK_START : Z := 0.
Definition FAT_SEEK_CURR : Z := 1.
Definition FAT_SEEK_END : Z := 2.

(** [file->fat] of an open file, [FAT_ERR_PARAM] if it is [NULL]. *)
Definition file_fat file : FM D Z :=
  let! f := get_file file in
  match fl_fat f with Some fat => ok fat | None => fail FAT_ERR_PARAM end.

(** Follows [n] links of the cluster chain, stretching it at its end. *)
Fixpoint seek_clusters (n : nat) file fat : FM D unit :=
  match n with
  | O => ok tt
  | S n =>
    let! f := get_file file in
    let! (next, flags) := get_fat fat (fl_clust f) in
    do! fail_if (has flags (Z.lor CLUST_BAD CLUST_FREE)) FAT_ERR_BROKEN in
    let! next := if has flags CLUST_LAST then stretch_chain fat (fl_clust f) else ok next in
    do! upd_file file (set_fl_clust next) in
    seek_clusters n file fat
  end.

(** The sector buffer of the file moves from sector [ssect]. *)
Definition move_file_buf file fat (ssect : Z) : FM D unit :=
  let! f := get_file file in
  if fl_sect f =? ssect then ok tt else
  let! fs := get_fs fat in
  do! (if has (fl_flags f) FAT_FILE_DIRTY then
         let! b := ops_write (f_ops fs) (fl_buf f) ssect in
         do! fail_if (negb b) FAT_ERR_IO in
         upd_file file (fun f => set_fl_flags (clear (fl_flags f) FAT_FILE_DIRTY) f)
       else ok tt) in
  let! f := get_file file in
  let! (b, buf) := ops_read (f_ops fs) (fl_buf f) (fl_sect f) in
  do! upd_file file (set_fl_buf buf) in
  fail_if (negb b) FAT_ERR_IO.

Definition fat_file_seek file (offset seek : Z) : FM D unit :=
  let! f := get_file file in
  let ssect := fl_sect f in
  let! fat := file_fat file in
  let! fs := get_fs fat in
  let base := if seek =? FAT_SEEK_CURR then fl_offset f
              else if seek =? FAT_SEEK_END then fl_size f else 0 in
  let off := base + offset in
  do! fail_if ((off <? 0) || (0xffffffff <? off)) FAT_ERR_EOF in
  let clust_size := u32 (Z.shiftl 512 (clust_shift fs)) in
  do! (if clust_size =? 0 then undefined else ok tt) in
  let dst_clust := off / clust_size in
  let src_clust := fl_offset f / clust_size in
  let! src_clust :=
    if dst_clust <? src_clust then
      do! upd_file file (fun f =>
        set_fl_offset 0 (set_fl_sect (clust_to_sect fs (fl_sclust f)) (set_fl_clust (fl_sclust f) f))) in
      ok 0
    else ok src_clust in
  do! seek_clusters (Z.to_nat (dst_clust - src_clust)) file fat in
  let! fs := get_fs fat in
  do! upd_file file (fun f =>
    set_fl_offset off (set_fl_sect (u32 (clust_to_sect fs (fl_clust f) + Z.land (off / 512) (clust_msk fs))) f)) in
  move_file_buf file fat ssect.

(** ** Reading and writing *)

(** The loop of [fat_file_read].  [len] is a C [int] compared with unsigned
    values.  The result is the error and the bytes stored in the buffer of the
    caller, whose number is [*bytes]. *)
Fixpoint read_loop (n : nat) file (len : Z) : FM D (Z * list Z) :=
  let! f := get_file file in
  if (len =? 0) || (fl_size f <=? fl_offset f) then ok (FAT_ERR_NONE, []) else
  match n with
  | O => exhausted
  | S n =>
    let idx := fl_offset f mod 512 in
    let avail := Z.min (512 - idx) (u32 (fl_size f - fl_offset f)) in
    let cnt := if u32 len <? avail then u32 len else avail in
    let! data := access (get_bytes (fl_buf f) idx cnt) in
    let! r := attempt (fat_file_seek file cnt FAT_SEEK_CURR) in
    match r with
    | Err e => ok (e, data)
    | Ok _ =>
      let! (err, rest) := read_loop n file (s32 (len - cnt)) in
      ok (err, data ++ rest)
    end
  end.

Definition fat_file_read file (len : Z) : FM D (Z * list Z) :=
  let! f := get_file file in
  match fl_fat f with
  | None => ok (FAT_ERR_PARAM, [])
  | Some _ =>
    if negb (has (fl_flags f) FAT_READ) then ok (FAT_ERR_DENIED, []) else
    do! upd_file file (fun f => set_fl_flags (raise (fl_flags f) FAT_ACCESSED) f) in
    read_loop (Z.to_nat (fl_size f - fl_offset f)) file len
  end.

(** The loop of [fat_file_write]: stores [src] and returns the number of bytes
    taken from it.  An error of the seek ends the loop and is dropped. *)
Fixpoint write_loop (n : nat) file (src : list Z) : FM D Z :=
  match src with
  | [] => ok 0
  | _ =>
    match n with
    | O => exhausted
    | S n =>
      let! f := get_file file in
      let idx := fl_offset f mod 512 in
      let cnt := Z.min (Z.of_nat (length src)) (512 - idx) in
      let! buf := access (put_bytes (fl_buf f) idx (take (Z.to_nat cnt) src)) in
      do! upd_file file (fun f => set_fl_flags (raise (fl_flags f) FAT_FILE_DIRTY) (set_fl_buf buf f)) in
      let! r := attempt (fat_file_seek file cnt FAT_SEEK_CURR) in
      match r with
      | Err _ => ok cnt
      | Ok _ => let! more := write_loop n file (drop (Z.to_nat cnt) src) in ok (cnt + more)
      end
    end
  end.

(** [fat_file_write] of the bytes [src]: the error and [*bytes]. *)
Definition fat_file_write file (src : list Z) : FM D (Z * Z) :=
  let! f := get_file file in
  match fl_fat f with
  | None => ok (FAT_ERR_PARAM, 0)
  | Some _ =>
    if negb (has (fl_flags f) FAT_WRITE) then ok (FAT_ERR_DENIED, 0) else
    do! upd_file file (fun f => set_fl_flags (raise (fl_flags f) (Z.lor FAT_MODIFIED FAT_ACCESSED)) f) in
    let! bytes := write_loop (length src) file src in
    do! upd_file file (fun f => if fl_size f <? fl_offset f then set_fl_size (fl_offset f) f else f) in
    ok (FAT_ERR_NONE, bytes)
  end.

(** The fields of its directory entry that [fat_file_sync] rewrites. *)
Definition touch_entry (f : File) (date time : Z) (buf : list Z) : option (list Z) :=
  let k := dir_idx f in
  buf ← (if has (fl_flags f) FAT_ACCESSED then put16 buf (k + Sfn_acc_date) date else Some buf);
  if has (fl_flags f) FAT_MODIFIED then
    a ← get8 buf (k + Sfn_attr);
    buf ← put8 buf (k + Sfn_attr) (Z.lor a FAT_ATTR_ARCHIVE);
    buf ← put32 buf (k + Sfn_size) (fl_size f);
    buf ← put16 buf (k + Sfn_mod_date) date;
    put16 buf (k + Sfn_mod_time) time
  else Some buf.

Definition fat_file_sync file : FM D unit :=
  let! fat := file_fat file in
  let! f := get_file file in
  let! fs := get_fs fat in
  let! b := ops_write (f_ops fs) (fl_buf f) (fl_sect f) in
  do! fail_if (negb b) FAT_ERR_IO in
  do! (if has (fl_flags f) (Z.lor FAT_ACCESSED FAT_MODIFIED) then
         do! update_buf fat (dir_sect f) in
         do! raise_flag fat FAT_BUF_DIRTY in
         let (date, time) := encode_timestamp fat_get_timestamp in
         edit_buf fat (touch_entry f date time)
       else ok tt) in
  do! sync_fs fat in
  upd_file file (fun f => set_fl_flags (clear (fl_flags f) (Z.lor FAT_ACCESSED FAT_MODIFIED)) f).

Definition fat_file_close file : FM D unit := do! file_fat file in fat_file_sync file.

(** ** Opening *)

(** The state of a [File] after [fat_file_open] has found its entry. *)
Definition opened (f : File) (fat : Z) (d : Dir) (clust attr size flags : Z) : File :=
  let trunc := negb (size =? 0) && has flags FAT_TRUNC in
  mkFile (Some fat) (d_sect d) clust clust 0xffffffff (if trunc then 0 else size) 0 (d_idx d) attr
    (if trunc then raise flags FAT_MODIFIED else flags) (fl_buf f).

Definition fat_file_open file path (flags : Z) : FM D unit :=
  do! put_dir local_dir zero_Dir in
  let! (err, path, _) := follow_path fuel local_dir path in
  do! fail_if (negb (err =? 0) && negb (err =? FAT_ERR_EOF)) err in
  do! (if err =? FAT_ERR_EOF then
         do! fail_if (negb (has flags FAT_CREATE)) FAT_ERR_DENIED in
         let len := last_subpath_len path in
         do! fail_if (len =? 0)%nat FAT_ERR_PATH in
         let! fat := dir_fat local_dir in
         let! clust := create_chain fat in
         dir_add fuel local_dir (take len path) FAT_ATTR_ARCHIVE clust
       else ok tt) in
  let! fat := dir_fat local_dir in
  let! d := get_dir local_dir in
  let! clust := sfn_cluster local_dir in
  let! attr := entry_field local_dir get8 Sfn_attr in
  let! size := entry_field local_dir get32 Sfn_size in
  do! upd_file file (fun f => opened f fat d clust attr size flags) in
  fat_file_seek file 0 (if has flags FAT_APPEND then FAT_SEEK_END else FAT_SEEK_START).

(** ** Directories *)

(** The entries [.] and [..] of a new directory. *)
Definition put_dot_entries (clust parent date time : Z) (buf : list Z) : option (list Z) :=
  buf ← put_bytes buf 0 (replicate 11 32);
  buf ← put8 buf 0 dot;
  buf ← put8 buf Sfn_attr FAT_ATTR_DIR;
  buf ← put16 buf Sfn_clust_hi (Z.shiftr clust 16);
  buf ← put16 buf Sfn_clust_lo (Z.land clust 0xffff);
  buf ← put16 buf Sfn_cre_date date;
  buf ← put16 buf Sfn_cre_time time;
  buf ← put16 buf Sfn_mod_date date;
  buf ← put16 buf Sfn_mod_time time;
  buf ← put16 buf Sfn_acc_date date;
  first ← get_bytes buf 0 sizeof_Sfn;
  buf ← put_bytes buf sizeof_Sfn first;
  buf ← put8 buf (sizeof_Sfn + 1) dot;
  buf ← put16 buf (sizeof_Sfn + Sfn_clust_hi) (Z.shiftr parent 16);
  put16 buf (sizeof_Sfn + Sfn_clust_lo) (Z.land parent 0xffff).

(** An existing path is reported as a success. *)
Definition fat_dir_create dir path : FM D unit :=
  let! (err, path, _) := follow_path fuel dir path in
  if err =? FAT_ERR_NONE then ok tt else
  do! fail_if (negb (err =? FAT_ERR_EOF)) err in
  let len := last_subpath_len path in
  do! fail_if (len =? 0)%nat FAT_ERR_PATH in
  let! fat := dir_fat dir in
  let! clust := create_chain fat in
  do! clust_clear fat clust in
  let (date, time) := encode_timestamp fat_get_timestamp in
  let! fs := get_fs fat in
  do! update_buf fat (clust_to_sect fs clust) in
  do! raise_flag fat FAT_BUF_DIRTY in
  let! d := get_dir dir in
  let parent := if d_sclust d =? root_clust fs then 0 else d_sclust d in
  do! edit_buf fat (put_dot_entries clust parent date time) in
  do! dir_add fuel dir (take len path) FAT_ATTR_DIR clust in
  do! dir_enter dir clust in
  sync_fs fat.

Definition fat_dir_open dir path : FM D unit :=
  do! follow_or_fail fuel dir path in
  let! root := dir_at_root dir in
  if root then ok tt else
  do! load_entry dir in
  let! attr := entry_field dir get8 Sfn_attr in
  do! fail_if (negb (has attr FAT_ATTR_DIR)) FAT_ERR_PATH in
  let! clust := sfn_cluster dir in
  dir_enter dir clust.

(** The name of an entry goes through the global buffer. *)
Definition store_sfn_name dir : FM D unit :=
  let! short := sfn_name dir in
  let name := parse_sfn_name short in
  let! buf := read_state g_buf in
  let! buf := access (put_bytes buf 0 name) in
  do! write_state (set_g_buf buf) in
  write_state (set_g_len (Z.of_nat (length name))).

Fixpoint dir_read_loop (n : nat) dir : FM D DirInfo :=
  match n with
  | O => exhausted
  | S n =>
    do! load_entry dir in
    let! last := sfn_is_last dir in
    do! fail_if last FAT_ERR_EOF in
    let! free := sfn_is_free dir in
    if free then do! dir_next dir in dir_read_loop n dir else
    let! lfn := sfn_is_lfn dir in
    do! (if lfn then
           do! parse_lfn_name dir in
           do! load_entry dir in
           let! free := sfn_is_free dir in
           let! short := sfn_name dir in
           let! crc := read_state g_crc in
           fail_if (free || negb (crc =? get_crc short)) FAT_ERR_BROKEN
         else store_sfn_name dir) in
    let! name := parsed_name in
    let! cre_date := entry_field dir get16 Sfn_cre_date in
    let! cre_time := entry_field dir get16 Sfn_cre_time in
    let! mod_date := entry_field dir get16 Sfn_mod_date in
    let! mod_time := entry_field dir get16 Sfn_mod_time in
    let! size := entry_field dir get32 Sfn_size in
    let! attr := entry_field dir get8 Sfn_attr in
    ok (mkDirInfo (decode_timestamp cre_date cre_time) (decode_timestamp mod_date mod_time) size attr name)
  end.

Definition fat_dir_read dir : FM D DirInfo :=
  let! d := get_dir dir in
  match d_fat d with None => fail FAT_ERR_PARAM | Some _ => dir_read_loop fuel dir end.

Definition fat_dir_next dir : FM D unit :=
  let! d := get_dir dir in
  match d_fat d with None => fail FAT_ERR_PARAM | Some _ => dir_next dir end.

Definition fat_dir_rewind dir : FM D unit :=
  let! d := get_dir dir in
  match d_fat d with None => fail FAT_ERR_PARAM | Some _ => dir_at_clust dir (d_sclust d) end.

(** ** Entries by path *)

(** [loc] is uninitialised when the path is that of the volume. *)
Definition fat_stat path : FM D DirInfo :=
  do! put_dir local_dir zero_Dir in
  let! (path, loc) := follow_or_fail fuel local_dir path in
  do! fail_if (negb (subpath_len path =? 0)%nat) FAT_ERR_PATH in
  let! loc := access loc in
  do! dir_at_loc local_dir loc in
  fat_dir_read local_dir.

(** The check that the directory [dir] holds no entry. *)
Fixpoint check_empty (n : nat) dir : FM D unit :=
  match n with
  | O => exhausted
  | S n =>
    do! load_entry dir in
    let! last := sfn_is_last dir in
    if last then ok tt else
    let! free := sfn_is_free dir in
    do! fail_if (negb free) FAT_ERR_DENIED in
    do! dir_next dir in
    check_empty n dir
  end.

Definition fat_unlink path : FM D unit :=
  do! put_dir local_dir zero_Dir in
  let! (_, loc) := follow_or_fail fuel local_dir path in
  let! root := dir_at_root local_dir in
  do! fail_if root FAT_ERR_DENIED in
  let! clust := sfn_cluster local_dir in
  let! attr := entry_field local_dir get8 Sfn_attr in
  do! fail_if (has attr (Z.lor FAT_ATTR_RO (Z.lor FAT_ATTR_SYS FAT_ATTR_LABEL))) FAT_ERR_DENIED in
  do! (if has attr FAT_ATTR_DIR then
         let! d := get_dir local_dir in
         do! put_dir local_tmp d in
         do! dir_enter local_tmp clust in
         do! dir_advance 2 local_tmp in
         check_empty fuel local_tmp
       else ok tt) in
  let! fat := dir_fat local_dir in
  do! remove_chain fat clust in
  let! loc := access loc in
  do! remove_entries fuel local_dir loc in
  sync_fs fat.
End Files.

(** ** Volumes *)

Section Volumes.
Context {D : Type} (fuel : nat).
Implicit Types (ops : DiskOps D) (buf : list Z).

Definition get_part_lba buf (partition : Z) : option (option Z) :=
  sig ← get16 buf Mbr_sig;
  type ← get8 buf (Mbr_part + sizeof_part * partition + part_type);
  lba ← get32 buf (Mbr_part + sizeof_part * partition + part_lba);
  Some (if negb (sig =? 0xaa55) then None else if negb (type =? 0x0c) then None else Some lba).

(** "FAT32   " *)
Definition fs_type_FAT32 : list Z := [70; 65; 84; 51; 50; 32; 32; 32].

(** [None] when a field is outside the buffer or the cluster size is zero,
    which the last division does not expect. *)
Definition check_fat buf : option bool :=
  jump ← get8 buf 0;
  fat_cnt ← get8 buf Bpb_fat_cnt;
  root_ent_cnt ← get16 buf Bpb_root_ent_cnt;
  sect_cnt_16 ← get16 buf Bpb_sect_cnt_16;
  sect_per_fat_16 ← get16 buf Bpb_sect_per_fat_16;
  info_sect ← get16 buf Bpb_info_sect;
  fs_type ← get_bytes buf Bpb_fs_type 8;
  bytes_per_sect ← get16 buf Bpb_bytes_per_sect;
  ext_flags ← get16 buf Bpb_ext_flags;
  sect_cnt_32 ← get32 buf Bpb_sect_cnt_32;
  res_sect_cnt ← get16 buf Bpb_res_sect_cnt;
  sect_per_fat_32 ← get32 buf Bpb_sect_per_fat_32;
  sect_per_clust ← get8 buf Bpb_sect_per_clust;
  if negb (jump =? 0xeb) && negb (jump =? 0xe9) then Some false
  else if negb (fat_cnt =? 2) then Some false
  else if negb (root_ent_cnt =? 0) || negb (sect_cnt_16 =? 0) || negb (sect_per_fat_16 =? 0) then Some false
  else if negb (info_sect =? 1) then Some false
  else if negb (bool_decide (fs_type = fs_type_FAT32)) then Some false
  else if negb (bytes_per_sect =? 512) then Some false
  else if negb (has ext_flags EXT_FLAG_MIRROR) && (1 <? Z.land ext_flags EXT_FLAG_ACT) then Some false
  else if sect_per_clust =? 0 then None
  else
    let sect_cnt := u32 (sect_cnt_32 - u32 (res_sect_cnt + u32 (fat_cnt * sect_per_fat_32))) in
    Some (65525 <=? sect_cnt / sect_per_clust).

(** [ops->read(g_buf, sect)] *)
Definition read_g_buf ops (sect : Z) : FM D unit :=
  let! buf := read_state g_buf in
  let! (b, buf) := ops_read ops buf sect in
  do! write_state (set_g_buf buf) in
  fail_if (negb b) FAT_ERR_IO.

(** Returns [*lba]; the boot sector of the partition is left in [g_buf]. *)
Definition probe ops (partition : Z) : FM D Z :=
  do! read_g_buf ops 0 in
  let! buf := read_state g_buf in
  let! whole := access (check_fat buf) in
  if whole then (if partition =? 0 then ok 0 else fail FAT_ERR_NOFAT) else
  let! lba := access (get_part_lba buf partition) in
  match lba with
  | None => fail FAT_ERR_NOFAT
  | Some lba =>
    do! read_g_buf ops lba in
    let! buf := read_state g_buf in
    let! good := access (check_fat buf) in
    if good then ok lba else fail FAT_ERR_NOFAT
  end.

Definition fat_probe ops (partition : Z) : FM D unit := do! probe ops partition in ok tt.

(** [__builtin_ctz] *)
Definition ctz (v : Z) : Z := Z.log2 (Z.land v (- v)).

(** The geometry a boot sector at [lba] describes. *)
Definition geometry (fs : Fat D) (buf : list Z) (lba : Z) : option (Fat D) :=
  ext_flags ← get16 buf Bpb_ext_flags;
  res_sect_cnt ← get16 buf Bpb_res_sect_cnt;
  sect_per_fat_32 ← get32 buf Bpb_sect_per_fat_32;
  sect_per_clust ← get8 buf Bpb_sect_per_clust;
  root_cluster ← get32 buf Bpb_root_cluster;
  bpb_info_sect ← get16 buf Bpb_info_sect;
  fat_cnt ← get8 buf Bpb_fat_cnt;
  let mirror := has ext_flags EXT_FLAG_MIRROR in
  let use_first := negb (has ext_flags EXT_FLAG_SECOND) in
  let fat_0 := u32 (lba + res_sect_cnt) in
  let fat_1 := u32 (lba + res_sect_cnt + sect_per_fat_32) in
  Some (mkFat (f_next fs) (f_ops fs)
    (u32 (sect_per_clust - 1))
    (u32 (sect_per_fat_32 * 128))
    (u32 (lba + bpb_info_sect))
    (if use_first then fat_0 else fat_1)
    (if mirror then (if use_first then fat_1 else fat_0) else 0)
    (u32 (lba + res_sect_cnt + u32 (fat_cnt * sect_per_fat_32)))
    root_cluster (last_used fs) (free_cnt fs) (f_sect fs) (f_buf fs) (f_flags fs)
    (ctz sect_per_clust) (f_name fs)).

(** The signatures and counters of the [FsInfo] sector: the next free cluster
    and the number of free ones, if the sector is valid. *)
Definition read_info buf : option (option (Z * Z)) :=
  tail_sig ← get32 buf FsInfo_tail_sig;
  head_sig ← get32 buf FsInfo_head_sig;
  struct_sig ← get32 buf FsInfo_struct_sig;
  next_free ← get32 buf FsInfo_next_free;
  free_cnt ← get32 buf FsInfo_free_cnt;
  Some (if negb (tail_sig =? FSINFO_TAIL_SIG) || negb (head_sig =? FSINFO_HEAD_SIG) ||
           negb (struct_sig =? FSINFO_STRUCT_SIG) || (next_free =? 0xffffffff) || (free_cnt =? 0xffffffff)
        then None else Some (next_free, free_cnt)).

Definition fat_mount ops (partition fat : Z) (name : list Z) : FM D unit :=
  let! lba := probe ops partition in
  let! buf := read_state g_buf in
  let! fs := get_fs fat in
  let! fs := access (geometry fs buf lba) in
  do! upd_fs fat (fun _ => fs) in
  do! read_g_buf ops (info_sect fs) in
  let! buf := read_state g_buf in
  let! info := access (read_info buf) in
  match info with
  | None => fail FAT_ERR_NOFAT
  | Some (next_free, free) =>
    do! upd_fs fat (fun fs => set_free_cnt free (set_last_used next_free fs)) in
    do! fail_if (32 <? length name)%nat FAT_ERR_PARAM in
    let! first := read_state g_fat_list in
    do! upd_fs fat (fun fs =>
      mkFat first ops (clust_msk fs) (clust_cnt fs) (info_sect fs) (fat_sect0 fs) (fat_sect1 fs)
        (data_sect fs) (root_clust fs) (last_used fs) (free_cnt fs) 0 (f_buf fs) (f_flags fs)
        (clust_shift fs) name) in
    write_state (set_g_fat_list (Some fat))
  end.

(** The volume whose [next] is [fat], searched from [it]. *)
Fixpoint find_previous (n : nat) (it fat : Z) : FM D (option Z) :=
  match n with
  | O => exhausted
  | S n =>
    let! fs := get_fs it in
    match f_next fs with
    | None => ok None
    | Some next => if next =? fat then ok (Some it) else find_previous n next fat
    end
  end.

Definition fat_umount (fat : Z) : FM D unit :=
  let! first := read_state g_fat_list in
  match first with
  | None => fail FAT_ERR_PARAM
  | Some first =>
    do! (if first =? fat then
           let! fs := get_fs fat in
           write_state (set_g_fat_list (f_next fs))
         else
           let! previous := find_previous fuel first fat in
           match previous with
           | None => fail FAT_ERR_PARAM
           | Some it =>
             let! fs := get_fs fat in
             upd_fs it (set_f_next (f_next fs))
           end) in
    sync_fs fat
  end.

Definition fat_sync (fat : Z) : FM D unit := sync_fs fat.
End Volumes.
