(* ===== verification/FatLogic.v ===== *)
(** * The FAT32 library: the buffer refines the device

    What the library reads of a volume is the [view]: the buffered sector, and
    the device elsewhere.  The buffer operations do not change the view, and
    [sync_buf] makes the device equal to it. *)

From S2P Require Import Prelude Exec FatTypes FatBytes FatTable.

(** A device whose transfers succeed as long as it is [working]: [sectors d x]
    is the contents of sector [x]. *)
Class Reliable {D : Type} (ops : DiskOps D) (sectors : D -> Z -> list Z) : Type := mkReliable {
  working : D -> Prop;
  reliable_read buf sect d : working d -> block buf -> 0 <= sect < 2 ^ 32 -> exists d',
    op_read ops buf sect d = Done (true, sectors d sect) d' /\ working d' /\ forall x, sectors d' x = sectors d x;
  reliable_write buf sect d : working d -> block buf -> 0 <= sect < 2 ^ 32 -> exists d',
    op_write ops buf sect d = Done true d' /\ working d' /\
    forall x, sectors d' x = if decide (x = sect) then buf else sectors d x;
  reliable_block d x : working d -> block (sectors d x);
}.

(** ** Rules of the monad *)

Section Rules.
Context {D : Type}.
Implicit Types (s : fstate D).

Lemma wp_ok {A} (a : A) (Q : result A -> fstate D -> Prop) s : Q (Ok a) s -> wp (ok a) Q s.
Proof. done. Qed.

Lemma wp_fail {A} e (Q : result A -> fstate D -> Prop) s : Q (Err e) s -> wp (fail e) Q s.
Proof. done. Qed.

Lemma wp_ebind {A B} (m : FM D A) (f : A -> FM D B) Q s :
  wp m (fun r s' => match r with Ok a => wp (f a) Q s' | Err e => Q (Err e) s' end) s ->
  wp (ebind m f) Q s.
Proof. unfold wp, ebind. destruct (m s) as [[a|e] s'| |]; done. Qed.

Lemma wp_attempt {A} (m : FM D A) Q s : wp m (fun r s' => Q (Ok r) s') s -> wp (attempt m) Q s.
Proof. unfold wp, attempt. by destruct (m s). Qed.

Lemma wp_read_state {A} (f : fstate D -> A) Q s : Q (Ok (f s)) s -> wp (read_state f) Q s.
Proof. done. Qed.

Lemma wp_write_state f Q s : Q (Ok tt) (f s) -> wp (write_state f) Q s.
Proof. done. Qed.

Lemma wp_access {A} (o : option A) a Q s : o = Some a -> Q (Ok a) s -> wp (access o) Q s.
Proof. by intros ->. Qed.

Lemma wp_fail_if (b : bool) e Q s :
  (b = true -> Q (Err e) s) -> (b = false -> Q (Ok tt) s) -> wp (fail_if b e) Q s.
Proof. intros Ht Hf. destruct b; [by apply Ht|by apply Hf]. Qed.

Lemma wp_unless (b : bool) m Q s :
  (b = true -> Q (Ok tt) s) -> (b = false -> wp m Q s) -> wp (unless b m) Q s.
Proof. intros Ht Hf. destruct b; [by apply Ht|by apply Hf]. Qed.
End Rules.

(** One step of symbolic execution in [FM]. *)
Ltac fstep :=
  lazymatch goal with
  | |- wp (ebind _ _) _ _ => apply wp_ebind
  | |- wp (ok _) _ _ => apply wp_ok
  | |- wp (fail _) _ _ => apply wp_fail
  | |- wp (attempt _) _ _ => apply wp_attempt
  | |- wp (read_state _) _ _ => apply wp_read_state
  | |- wp (write_state _) _ _ => apply wp_write_state
  end; cbv beta iota.
Ltac fsteps := repeat fstep.

(** ** Flags *)

Section Flags.
Implicit Types (flags : Z).

Lemma has_bit flags k : 0 <= k -> has flags (Z.shiftl 1 k) = Z.testbit flags k.
Proof. intros Hk. unfold has. rewrite land_pow2_testbit by done. apply negb_involutive. Qed.

Lemma has_dirty flags : has flags FAT_BUF_DIRTY = Z.testbit flags 0.
Proof. by apply (has_bit flags 0). Qed.

Lemma has_info flags : has flags FAT_INFO_DIRTY = Z.testbit flags 1.
Proof. by apply (has_bit flags 1). Qed.

Lemma raise_spec flags mask k : Z.testbit (raise flags mask) k = Z.testbit flags k || Z.testbit mask k.
Proof. apply Z.lor_spec. Qed.

Lemma clear_spec flags mask k : 0 <= k -> Z.testbit (clear flags mask) k = Z.testbit flags k && negb (Z.testbit mask k).
Proof. intros Hk. unfold clear. by rewrite Z.land_spec, Z.lnot_spec. Qed.
End Flags.

(** Reads the flag tests of the buffer as bits. *)
Ltac flag_bits :=
  rewrite ?has_dirty, ?has_info, ?raise_spec, ?clear_spec in * by done;
  cbn [Z.testbit FAT_BUF_DIRTY FAT_INFO_DIRTY Pos.testbit negb Pos.pred_double Z.pred] in *;
  rewrite ?orb_true_r, ?orb_false_r, ?andb_true_r, ?andb_false_r in *.

(** ** The view of a volume *)

Section View.
Context {D : Type} (ops : DiskOps D) (sectors : D -> Z -> list Z) `{!Reliable ops sectors}.
Implicit Types (s : fstate D) (fs : Fat D) (d : D) (fat sect x : Z).

(** The state in which the volume [fat] is [fs] and the device [d]. *)
Definition vol s fat fs d : fstate D := set_fats (<[fat := fs]> (fats s)) (set_disk d s).

(** The contents of sector [x] as the library sees it. *)
Definition view fs d x : list Z := if decide (x = f_sect fs) then f_buf fs else sectors d x.

Definition dirty fs : bool := has (f_flags fs) FAT_BUF_DIRTY.

(** A clean buffer holds its sector.  Sector 0 stands for an empty buffer: it
    is the boot sector of the device, which the library never buffers. *)
Record coherent fs d : Prop := {
  coherent_ops : f_ops fs = ops;
  coherent_block : block (f_buf fs);
  coherent_empty : f_sect fs = 0 -> dirty fs = false;
  coherent_clean : f_sect fs <> 0 -> dirty fs = false -> f_buf fs = sectors d (f_sect fs);
  coherent_sect : 0 <= f_sect fs < 2 ^ 32;
  coherent_working : working d;
}.

Lemma coherent_length fs d : coherent fs d -> length (f_buf fs) = 512%nat.
Proof. intros Hc. by apply block_length, Hc. Qed.

(** [fs'] differs from [fs] by its buffer only. *)
Definition rebuffered fs fs' : Prop :=
  exists sect buf flags, fs' = set_f_sect sect (set_f_buf buf (set_f_flags flags fs)) /\
    has flags FAT_INFO_DIRTY = has (f_flags fs) FAT_INFO_DIRTY.

Definition same_view fs d fs' d' : Prop := forall x, x <> 0 -> view fs' d' x = view fs d x.

Lemma same_view_refl fs d : same_view fs d fs d.
Proof. done. Qed.

Lemma rebuffered_refl fs : rebuffered fs fs.
Proof. exists (f_sect fs), (f_buf fs), (f_flags fs). by destruct fs. Qed.

Lemma rebuffered_trans fs1 fs2 fs3 : rebuffered fs1 fs2 -> rebuffered fs2 fs3 -> rebuffered fs1 fs3.
Proof.
  intros (a & b & c & -> & H) (a' & b' & c' & -> & H'). exists a', b', c'. simpl in *. split; [done|congruence].
Qed.

Lemma vol_here s fat fs : fats s !! fat = Some fs -> vol s fat fs (disk s) = s.
Proof. intros H. unfold vol. destruct s; simpl in *. by rewrite insert_id. Qed.

Lemma vol_lookup s fat fs d : fats (vol s fat fs d) !! fat = Some fs.
Proof. apply lookup_insert_eq. Qed.

Lemma vol_vol s fat fs d fs' d' : vol (vol s fat fs d) fat fs' d' = vol s fat fs' d'.
Proof. unfold vol. destruct s; simpl. unfold set_fats, set_disk; simpl. by rewrite insert_insert_eq. Qed.

(** *** Rules on volumes *)

Lemma wp_get_fs s fat fs d Q : Q (Ok fs) (vol s fat fs d) -> wp (get_fs fat) Q (vol s fat fs d).
Proof. intros HQ. unfold get_fs. fsteps. eapply wp_access; [apply vol_lookup|done]. Qed.

Lemma wp_upd_fs s fat fs d f Q : Q (Ok tt) (vol s fat (f fs) d) -> wp (upd_fs fat f) Q (vol s fat fs d).
Proof.
  intros HQ. unfold upd_fs. fstep. apply wp_get_fs. fstep. unfold vol in *. simpl.
  rewrite alter_insert_eq. by destruct s.
Qed.

Lemma wp_edit_buf s fat fs d f buf Q :
  f (f_buf fs) = Some buf -> Q (Ok tt) (vol s fat (set_f_buf buf fs) d) -> wp (edit_buf fat f) Q (vol s fat fs d).
Proof.
  intros Hf HQ. unfold edit_buf. fstep. apply wp_get_fs. fstep. eapply wp_access; [exact Hf|]. by apply wp_upd_fs.
Qed.

Lemma wp_raise_flag s fat fs d mask Q :
  Q (Ok tt) (vol s fat (set_f_flags (raise (f_flags fs) mask) fs) d) -> wp (raise_flag fat mask) Q (vol s fat fs d).
Proof. intros HQ. unfold raise_flag. by apply wp_upd_fs. Qed.

Lemma wp_ops_write s fat fs d buf sect Q :
  working d -> block buf -> 0 <= sect < 2 ^ 32 ->
  (forall d', working d' -> (forall x, sectors d' x = if decide (x = sect) then buf else sectors d x) ->
     Q (Ok true) (vol s fat fs d')) ->
  wp (ops_write ops buf sect) Q (vol s fat fs d).
Proof.
  intros Hw Hb Hs HQ. destruct (reliable_write buf sect d Hw Hb Hs) as (d' & E & Hw' & Hd). specialize (HQ d' Hw' Hd).
  unfold ops_write, transfer, wp. simpl. rewrite E. by destruct s.
Qed.

Lemma wp_ops_read s fat fs d buf sect Q :
  working d -> block buf -> 0 <= sect < 2 ^ 32 ->
  (forall d', working d' -> (forall x, sectors d' x = sectors d x) -> Q (Ok (true, sectors d sect)) (vol s fat fs d')) ->
  wp (ops_read ops buf sect) Q (vol s fat fs d).
Proof.
  intros Hw Hb Hs HQ. destruct (reliable_read buf sect d Hw Hb Hs) as (d' & E & Hw' & Hd). specialize (HQ d' Hw' Hd).
  unfold ops_read, transfer, wp. simpl. rewrite E. by destruct s.
Qed.

(** *** Flushing and loading the buffer *)

Lemma wp_sync_buf s fat fs d Q :
  coherent fs d ->
  (forall fs' d', rebuffered fs fs' -> coherent fs' d' -> same_view fs d fs' d' -> dirty fs' = false ->
     f_sect fs' = f_sect fs -> f_buf fs' = f_buf fs -> Q (Ok tt) (vol s fat fs' d')) ->
  wp (sync_buf fat) Q (vol s fat fs d).
Proof.
  intros Hc HQ. pose proof Hc as [Ho Hl He Hcl Hse Hw]. unfold sync_buf. fstep. apply wp_get_fs.
  fold (dirty fs). destruct (dirty fs) eqn:Ed.
  - fstep. rewrite Ho. apply wp_ops_write; [done..|]. intros d' Hw' Hd'. fstep. cbn [negb fail_if]. fstep.
    apply wp_upd_fs. set (fs' := set_f_flags _ fs).
    assert (Hn : f_sect fs <> 0) by (intros H0; specialize (He H0); done).
    assert (Ed' : dirty fs' = false) by (unfold dirty, fs'; simpl; by flag_bits).
    apply HQ; try done.
    + exists (f_sect fs), (f_buf fs), (f_flags fs'). split; [by destruct fs|]. unfold fs'. simpl. by flag_bits.
    + constructor; try done. intros _ _. simpl. by rewrite Hd', decide_True.
    + intros x _. unfold view. simpl. case_decide; [done|]. by rewrite Hd', decide_False.
  - fstep. apply HQ; auto using rebuffered_refl, same_view_refl.
Qed.

Lemma wp_update_buf s fat fs d sect Q :
  coherent fs d -> 0 < sect < 2 ^ 32 ->
  (forall fs' d', rebuffered fs fs' -> coherent fs' d' -> same_view fs d fs' d' -> f_sect fs' = sect ->
     Q (Ok tt) (vol s fat fs' d')) ->
  wp (update_buf fat sect) Q (vol s fat fs d).
Proof.
  intros Hc H0 HQ. unfold update_buf. fstep. apply wp_get_fs. destruct (Z.eqb_spec (f_sect fs) sect) as [E|E].
  { fstep. apply HQ; auto using rebuffered_refl, same_view_refl. }
  fstep. apply wp_sync_buf; [done|]. intros fs1 d1 Hr1 Hc1 Hv1 Hd1 Es1 Eb1.
  fstep. apply wp_get_fs. fstep. rewrite (coherent_ops _ _ Hc1). apply wp_ops_read; [apply Hc1|apply Hc1|lia|]. intros d2 Hw2 Hd2.
  fstep. apply wp_upd_fs. fstep. cbn [negb fail_if]. fstep. apply wp_upd_fs.
  set (fs' := set_f_sect _ _).
  assert (Hview : forall x, x <> 0 -> view fs' d2 x = view fs1 d1 x).
  { intros x Hx. unfold view, fs'. simpl. case_decide as E1.
    - subst x. rewrite decide_False by congruence. done.
    - rewrite Hd2. case_decide as E2; [|done]. rewrite E2. symmetry. apply Hc1; [congruence|done]. }
  apply HQ; try done.
  - eapply rebuffered_trans; [done|]. exists sect, (sectors d1 sect), (f_flags fs1). by destruct fs1.
  - constructor; unfold fs'; simpl; [apply Hc1|apply reliable_block, Hc1|lia| |lia|done].
    intros _ _. by rewrite Hd2.
  - intros x Hx. rewrite Hview by done. by apply Hv1.
Qed.
End View.
