(* ===== verification/FatChain.v ===== *)
(** * The FAT32 library: the allocation table as a map of links

    The table of a volume, through its buffer and its mirror, is a function
    from clusters to links.  The operations of the table are described by the
    finite map of the links they change; a file is a [chain] of links. *)

From S2P Require Import Prelude Exec FatTypes FatBytes FatTable FatLogic.

(** ** Geometry *)

Section Geometry.
Context {D : Type}.
Implicit Types (fs : Fat D) (base c x v : Z).

Definition entry_sect base c : Z := u32 (base + c / 128).

(** [put_fat2] keeps the upper nibble. *)
Definition merge (old v : Z) : Z := Z.lor (Z.land old 0xf0000000) (Z.land v 0x0fffffff).

(** The number of sectors of a table. *)
Definition table_size fs : Z := (clust_cnt fs + 127) / 128.

(** The tables of the volume: the active one, and its mirror if there is one. *)
Definition is_table fs base : Prop := base = fat_sect0 fs \/ (base = fat_sect1 fs /\ base <> 0).

Record layout fs : Prop := {
  layout_cnt : 2 < clust_cnt fs <= 0x0ffffff7;
  layout_fits base : is_table fs base -> 0 < base /\ base + table_size fs <= 2 ^ 32;
  layout_mirror : fat_sect1 fs <> 0 ->
    fat_sect0 fs + table_size fs <= fat_sect1 fs \/ fat_sect1 fs + table_size fs <= fat_sect0 fs;
  layout_info : 0 < info_sect fs < 2 ^ 32;
  layout_info_out base : is_table fs base -> info_sect fs < base \/ base + table_size fs <= info_sect fs;
}.

(** The sectors the table operations leave alone. *)
Definition outside fs x : Prop :=
  0 < x /\ x <> info_sect fs /\ forall base, is_table fs base -> x < base \/ base + table_size fs <= x.

(** A sector outside the tables, the one of the counters included. *)
Definition off_tables fs x : Prop :=
  0 < x /\ forall base, is_table fs base -> x < base \/ base + table_size fs <= x.

Lemma outside_off_tables fs x : outside fs x -> off_tables fs x.
Proof. by intros (? & _ & ?). Qed.

(** [fs'] is the same volume as [fs]: only its buffer and its counters may
    differ. *)
Definition like fs fs' : Prop :=
  exists last free sect buf flags,
    fs' = set_last_used last (set_free_cnt free (set_f_sect sect (set_f_buf buf (set_f_flags flags fs)))).

Lemma like_refl fs : like fs fs.
Proof. exists (last_used fs), (free_cnt fs), (f_sect fs), (f_buf fs), (f_flags fs). by destruct fs. Qed.

Lemma like_trans fs1 fs2 fs3 : like fs1 fs2 -> like fs2 fs3 -> like fs1 fs3.
Proof.
  intros (la & fr & se & bu & fl & ->) (a&b&c&e&f&->). by exists a, b, c, e, f.
Qed.

Lemma like_layout fs fs' : like fs fs' -> layout fs -> layout fs'.
Proof. intros (la & fr & se & bu & fl & ->) []. by constructor. Qed.

Lemma rebuffered_like fs fs' : rebuffered fs fs' -> like fs fs'.
Proof.
  intros (a & b & c & -> & _). exists (last_used fs), (free_cnt fs), a, b, c. by destruct fs.
Qed.

(** *** Entries of a laid-out table *)

Lemma entry_sect_in fs base c :
  layout fs -> is_table fs base -> 0 <= c < clust_cnt fs ->
  entry_sect base c = base + c / 128 /\ base <= entry_sect base c < base + table_size fs.
Proof.
  intros [Hn Hfit _ _ _] Ht Hc. destruct (Hfit _ Ht) as [Hb Hs]. unfold table_size in *.
  assert (0 <= c / 128 < (clust_cnt fs + 127) / 128) by (Z.to_euclidean_division_equations; lia).
  unfold entry_sect. autorewrite with machine. lia.
Qed.

Lemma entry_pos fs base c :
  layout fs -> is_table fs base -> 0 <= c < clust_cnt fs -> entry_sect base c <> 0 /\ entry_sect base c <> info_sect fs.
Proof.
  intros Hl Ht Hc. destruct (entry_sect_in _ _ _ Hl Ht Hc) as [_ Hin].
  pose proof (layout_fits _ Hl _ Ht). pose proof (layout_info_out _ Hl _ Ht). lia.
Qed.

Lemma entry_range fs base c :
  layout fs -> is_table fs base -> 0 <= c < clust_cnt fs -> 0 < entry_sect base c < 2 ^ 32.
Proof.
  intros Hl Ht Hc. destruct (entry_sect_in _ _ _ Hl Ht Hc) as [_ Hin]. pose proof (layout_fits _ Hl _ Ht). lia.
Qed.

Lemma entry_idx c : 0 <= 4 * (c mod 128) /\ 4 * (c mod 128) + 4 <= 512.
Proof. pose proof (Z.mod_pos_bound c 128). lia. Qed.

Lemma merge_link old v : Z.land (merge old v) 0x0fffffff = Z.land v 0x0fffffff.
Proof.
  unfold merge. rewrite Z.land_lor_distr_l, <- !Z.land_assoc. change (Z.land 0xf0000000 0x0fffffff) with 0.
  rewrite Z.land_0_r, Z.land_diag. apply Z.lor_0_l.
Qed.

Lemma merge_high old v : Z.land (merge old v) 0xf0000000 = Z.land old 0xf0000000.
Proof.
  unfold merge. rewrite Z.land_lor_distr_l, <- !Z.land_assoc. change (Z.land 0x0fffffff 0xf0000000) with 0.
  rewrite Z.land_0_r, Z.land_diag. apply Z.lor_0_r.
Qed.

Lemma merge_merge old v w : merge (merge old v) w = merge old w.
Proof. unfold merge at 1. by rewrite merge_high. Qed.

Lemma merge_range old v : 0 <= merge old v < 2 ^ 32.
Proof.
  assert (E : merge old v = Z.land (merge old v) (Z.ones 32)).
  { unfold merge. rewrite Z.land_lor_distr_l, <- !Z.land_assoc. done. }
  rewrite E, Z.land_ones by lia. apply Z.mod_pos_bound. lia.
Qed.

End Geometry.

(** ** Entries *)

Section Entries.
Context {D : Type} (sectors : D -> Z -> list Z).
Implicit Types (fs : Fat D) (d : D) (base c x v : Z) (m : gmap Z Z).

(** The 32 bits of entry [c] of the table at sector [base]. *)
Definition entry fs d base c : Z :=
  default 0 (get32 (view sectors fs d (entry_sect base c)) (4 * (c mod 128))).

(** What the active table says follows cluster [c]. *)
Definition link fs d c : Z := Z.land (entry fs d (fat_sect0 fs) c) 0x0fffffff.

(** The links of [m] have been stored, in the active table and in its mirror,
    and nothing else has changed but the information sector. *)
Record updates fs d fs' d' m : Prop := {
  updates_entry base c : is_table fs base -> 0 <= c < clust_cnt fs ->
    entry fs' d' base c = match m !! c with Some v => merge (entry fs d base c) v | None => entry fs d base c end;
  updates_outside x : outside fs x -> view sectors fs' d' x = view sectors fs d x;
}.

(** *** Composing updates *)

Lemma updates_refl fs d : updates fs d fs d ∅.
Proof. constructor; [intros; by rewrite lookup_empty|done]. Qed.

Lemma updates_same_view fs d fs' d' : layout fs -> same_view sectors fs d fs' d' -> updates fs d fs' d' ∅.
Proof.
  intros Hl Hv. constructor.
  - intros base c Ht Hc. rewrite lookup_empty. unfold entry. rewrite Hv; [done|]. by eapply entry_pos.
  - intros x (Hx & _). apply Hv. lia.
Qed.

(** Only the buffer of the volume matters. *)
Lemma updates_recount fs d fs' fs2 d' m :
  f_sect fs2 = f_sect fs' -> f_buf fs2 = f_buf fs' -> updates fs d fs' d' m -> updates fs d fs2 d' m.
Proof.
  intros Es Eb [He Ho].
  assert (Hv : forall x, view sectors fs2 d' x = view sectors fs' d' x) by (intros; unfold view; by rewrite Es, Eb).
  constructor; [|intros; rewrite Hv; auto]. intros base c Ht Hc. unfold entry at 1. rewrite Hv. by apply He.
Qed.

Lemma updates_trans fs d fs1 d1 fs2 d2 m1 m2 :
  like fs fs1 -> updates fs d fs1 d1 m1 -> updates fs1 d1 fs2 d2 m2 -> updates fs d fs2 d2 (m2 ∪ m1).
Proof.
  intros (la & fr & se & bu & fl & ->) [He Ho] [He' Ho']. constructor.
  - intros base c Ht Hc. rewrite He' by done. rewrite (He base c Ht Hc). rewrite lookup_union.
    destruct (m2 !! c), (m1 !! c); simpl; [apply merge_merge|done..].
  - intros x Hx. rewrite Ho' by done. by apply Ho.
Qed.

Lemma updates_link fs d fs' d' m c :
  like fs fs' -> updates fs d fs' d' m -> 0 <= c < clust_cnt fs ->
  link fs' d' c = match m !! c with Some v => Z.land v 0x0fffffff | None => link fs d c end.
Proof.
  intros (la & fr & se & bu & fl & ->) [He _] Hc. unfold link. cbn [fat_sect0 set_last_used set_free_cnt set_f_sect set_f_buf set_f_flags].
  rewrite He; [|by left|done]. destruct (m !! c); [apply merge_link|done].
Qed.
End Entries.

(** ** The operations on entries *)

Section EntryOps.
Context {D : Type} (ops : DiskOps D) (sectors : D -> Z -> list Z) `{!Reliable ops sectors}.
Implicit Types (s : fstate D) (fs : Fat D) (d : D) (fat base c v x : Z).

Abbreviation coherent := (coherent ops sectors).
Abbreviation same_view := (same_view sectors).
Abbreviation updates := (updates sectors).
Abbreviation link := (link sectors).
Abbreviation view := (view sectors).
Abbreviation entry := (entry sectors).

Lemma view_length fs d x : coherent fs d -> length (view fs d x) = 512%nat.
Proof. intros Hc. apply block_length. unfold FatLogic.view. case_decide; [apply Hc|apply reliable_block, Hc]. Qed.

Lemma entry_get32 fs d base c :
  coherent fs d -> get32 (view fs d (entry_sect base c)) (4 * (c mod 128)) = Some (entry fs d base c).
Proof.
  intros Hc. unfold FatChain.entry. pose proof (entry_idx c).
  destruct (get32_lt (view fs d (entry_sect base c)) (4 * (c mod 128))) as [v ->]; [lia| |done].
  rewrite view_length by done. lia.
Qed.

Lemma wp_get_fat s fat fs d c Q :
  layout fs -> coherent fs d -> 0 <= c < clust_cnt fs ->
  (forall fs' d', rebuffered fs fs' -> coherent fs' d' -> same_view fs d fs' d' ->
     f_sect fs' = entry_sect (fat_sect0 fs) c ->
     Q (match classify (clust_cnt fs) (link fs d c) with
        | Some flags => Ok (link fs d c, flags)
        | None => Err FAT_ERR_BROKEN
        end) (vol s fat fs' d')) ->
  wp (get_fat fat c) Q (vol s fat fs d).
Proof.
  intros Hl Hc Hr HQ. unfold get_fat. fstep. apply wp_get_fs. fstep.
  assert (Ht : is_table fs (fat_sect0 fs)) by (by left). destruct (entry_pos _ _ _ Hl Ht Hr) as [Hp _].
  eapply (wp_update_buf ops sectors); [done|by eapply entry_range|].
  intros fs' d' Hrb Hc' Hv Hs. fstep. apply wp_get_fs. fstep.
  assert (Hb : f_buf fs' = view fs d (entry_sect (fat_sect0 fs) c)).
  { rewrite <- Hv by done. unfold FatLogic.view. by rewrite decide_True. }
  eapply wp_access; [rewrite Hb; by apply entry_get32|].
  specialize (HQ fs' d' Hrb Hc' Hv Hs). fold (link fs d c).
  destruct Hrb as (a & b & e & -> & _). cbn [clust_cnt set_f_sect set_f_buf set_f_flags].
  destruct (classify _ _); fstep; done.
Qed.

(** The effect on the view of storing one entry. *)
Definition stores fs d fs' d' base c v : Prop :=
  forall x, x <> 0 -> view fs' d' x =
    if decide (x = entry_sect base c)
    then default [] (put32 (view fs d x) (4 * (c mod 128)) (merge (entry fs d base c) v)) else view fs d x.

Lemma wp_put_fat2 s fat fs d base c v Q :
  layout fs -> is_table fs base -> coherent fs d -> 0 <= c < clust_cnt fs ->
  (forall fs' d', rebuffered fs fs' -> coherent fs' d' -> stores fs d fs' d' base c v ->
     Q (Ok tt) (vol s fat fs' d')) ->
  wp (put_fat2 fat base c v) Q (vol s fat fs d).
Proof.
  intros Hl Ht Hc Hr HQ. unfold put_fat2. fstep. destruct (entry_pos _ _ _ Hl Ht Hr) as [Hp _].
  eapply (wp_update_buf ops sectors); [done|by eapply entry_range|].
  intros fs' d' Hrb Hc' Hv Hs. fstep.
  assert (Hb : f_buf fs' = view fs d (entry_sect base c)).
  { rewrite <- Hv by done. unfold FatLogic.view. by rewrite decide_True. }
  pose proof (entry_idx c) as Hi. pose proof (coherent_length _ _ _ _ Hc') as Hlen.
  destruct (put32_lt (f_buf fs') (4 * (c mod 128)) (merge (entry fs d base c) v)) as [buf Hbuf]; [lia..|].
  apply wp_edit_buf with (buf := buf).
  { rewrite Hb, entry_get32 by done. simpl. fold (merge (entry fs d base c) v). by rewrite <- Hb. }
  apply wp_raise_flag. set (fs2 := set_f_flags _ _).
  assert (Hd : dirty fs2 = true) by (unfold dirty, fs2; simpl; by flag_bits).
  apply HQ.
  - eapply rebuffered_trans; [done|]. exists (f_sect fs'), buf, (f_flags fs2). split; [by destruct fs'|].
    unfold fs2. simpl. by flag_bits.
  - constructor; [apply Hc'| | |by rewrite Hd|apply Hc'..].
    + eapply put32_block; [done|apply Hc'].
    + intros E0. destruct Hp. by rewrite <- E0.
  - intros x Hx. unfold FatLogic.view at 1. cbn [f_sect fs2 set_f_flags set_f_buf f_buf].
    rewrite Hs. fold (entry_sect base c). case_decide as Ex; [by rewrite Ex, <- Hb, Hbuf|].
    rewrite <- Hv by done. unfold FatLogic.view. rewrite decide_False; [done|]. by rewrite Hs.
Qed.

(** An entry after a store, in the same table or in another one. *)
Lemma stores_entry fs d fs' d' base c v base' c' :
  layout fs -> is_table fs base -> is_table fs base' -> coherent fs d -> 0 <= c < clust_cnt fs ->
  0 <= c' < clust_cnt fs -> stores fs d fs' d' base c v ->
  entry fs' d' base' c' = if decide (base' = base /\ c' = c) then merge (entry fs d base c) v else entry fs d base' c'.
Proof.
  intros Hl Ht Ht' Hc Hr Hr' Hst.
  destruct (entry_sect_in _ _ _ Hl Ht Hr) as [E Hin], (entry_sect_in _ _ _ Hl Ht' Hr') as [E' Hin'].
  destruct (entry_pos _ _ _ Hl Ht' Hr') as [Hp' _].
  pose proof (entry_idx c) as Hi. pose proof (entry_idx c') as Hi'.
  unfold FatChain.entry at 1. rewrite Hst by done.
  destruct (decide (entry_sect base' c' = entry_sect base c)) as [Es|Es].
  2: { rewrite decide_False; [done|]. by intros [-> ->]. }
  rewrite Es. destruct (put32_lt (view fs d (entry_sect base c)) (4 * (c mod 128)) (merge (entry fs d base c) v))
    as [buf Hbuf]; [lia|rewrite view_length by done; lia|]. rewrite Hbuf. simpl.
  assert (base' = base) as ->.
  { destruct (decide (base' = base)) as [|Hne]; [done|exfalso].
    assert (fat_sect1 fs <> 0) by (destruct Ht as [|[]], Ht' as [|[]]; congruence).
    pose proof (layout_mirror _ Hl) as Hm. destruct Ht as [->|[-> ?]], Ht' as [->|[-> ?]]; try done; lia. }
  assert (Eq : c' / 128 = c / 128) by lia.
  case_decide as Ed.
  - destruct Ed as [_ ->]. rewrite (get_put32 _ _ _ _ Hbuf). simpl. apply u32_id, merge_range.
  - assert (c' mod 128 <> c mod 128).
    { intros Em. apply Ed. split; [done|]. rewrite (Z.div_mod c' 128), (Z.div_mod c 128) by lia. congruence. }
    rewrite (get_put32_ne _ _ _ _ _ Hbuf); [|lia..]. by rewrite <- Es.
Qed.

Lemma stores_off fs d fs' d' base c v x :
  layout fs -> is_table fs base -> 0 <= c < clust_cnt fs -> stores fs d fs' d' base c v ->
  off_tables fs x -> view fs' d' x = view fs d x.
Proof.
  intros Hl Ht Hr Hst (Hx & Ho). rewrite Hst by lia. rewrite decide_False; [done|].
  destruct (entry_sect_in _ _ _ Hl Ht Hr). specialize (Ho _ Ht). lia.
Qed.

Lemma wp_put_fat s fat fs d c v Q :
  layout fs -> coherent fs d -> 0 <= c < clust_cnt fs ->
  (forall fs' d', rebuffered fs fs' -> coherent fs' d' -> updates fs d fs' d' {[c := v]} ->
     (forall x, off_tables fs x -> view fs' d' x = view fs d x) -> Q (Ok tt) (vol s fat fs' d')) ->
  wp (put_fat fat c v) Q (vol s fat fs d).
Proof.
  intros Hl Hc Hr HQ. unfold put_fat. fstep. apply wp_get_fs. fstep.
  assert (Hone : forall fs' d' base c', is_table fs base -> 0 <= c' < clust_cnt fs ->
    (forall base, is_table fs base -> entry fs' d' base c' =
      if decide (c' = c) then merge (entry fs d base c) v else entry fs d base c') ->
    entry fs' d' base c' = match ({[c := v]} : gmap Z Z) !! c' with
      | Some v => merge (entry fs d base c') v | None => entry fs d base c' end).
  { intros fs' d' base c' Ht Hc' He. rewrite He by done. case_decide as E; [subst c'; by rewrite lookup_singleton_eq|].
    by rewrite lookup_singleton_ne. }
  assert (Ht0 : is_table fs (fat_sect0 fs)) by (by left).
  apply wp_unless; intros H1.
  - fstep. apply Z.eqb_eq in H1. apply wp_get_fs. apply wp_put_fat2; [done..|]. intros fs' d' Hrb Hc' Hst.
    assert (Hoff : forall x, off_tables fs x -> view fs' d' x = view fs d x)
      by (intros x Hx; by eapply (stores_off fs d fs' d' _ c v)).
    apply HQ; [done..| |done]. constructor.
    + intros base c' Ht Hc''. apply Hone; [done..|]. intros base' Ht'.
      rewrite (stores_entry _ _ _ _ _ _ _ base' c' Hl Ht0 Ht' Hc Hr Hc'' Hst).
      destruct Ht' as [->|[-> ?]]; [|done]. repeat case_decide; naive_solver.
    + intros x Hx. by apply Hoff, outside_off_tables.
  - apply Z.eqb_neq in H1. assert (Ht1 : is_table fs (fat_sect1 fs)) by (by right).
    apply wp_put_fat2; [done..|]. intros fs1 d1 Hrb1 Hc1 Hst1. fstep. apply wp_get_fs.
    pose proof (rebuffered_like _ _ Hrb1) as Hlk. pose proof (like_layout _ _ Hlk Hl) as Hl1.
    assert (Hg : fat_sect0 fs1 = fat_sect0 fs /\ fat_sect1 fs1 = fat_sect1 fs /\ clust_cnt fs1 = clust_cnt fs /\
      info_sect fs1 = info_sect fs) by (destruct Hrb1 as (? & ? & ? & -> & _); done).
    destruct Hg as (G0 & G1 & Gn & Gi).
    assert (Ht : forall base, is_table fs1 base <-> is_table fs base) by (intros base; unfold is_table; by rewrite G0, G1).
    rewrite G0. apply wp_put_fat2; [done|by apply Ht|done|by rewrite Gn|]. intros fs2 d2 Hrb2 Hc2 Hst2.
    assert (S1 : forall base c', is_table fs base -> 0 <= c' < clust_cnt fs -> entry fs1 d1 base c' =
      if decide (base = fat_sect1 fs /\ c' = c) then merge (entry fs d (fat_sect1 fs) c) v else entry fs d base c')
      by (intros; by eapply stores_entry).
    assert (S2 : forall base c', is_table fs base -> 0 <= c' < clust_cnt fs -> entry fs2 d2 base c' =
      if decide (base = fat_sect0 fs /\ c' = c) then merge (entry fs1 d1 (fat_sect0 fs) c) v else entry fs1 d1 base c').
    { intros b0 c0 Hb0 Hc0. rewrite <- Gn in Hc0. eapply stores_entry; try done; [by apply Ht..|by rewrite Gn]. }
    assert (Hoff : forall x, off_tables fs x -> view fs2 d2 x = view fs d x).
    { intros x Hx. rewrite (stores_off fs1 d1 fs2 d2 (fat_sect0 fs) c v x Hl1); [|by apply Ht|by rewrite Gn|done|].
      - by eapply (stores_off fs d fs1 d1 _ c v).
      - destruct Hx as (? & Ho). split; [done|]. intros base Hb%Ht.
        specialize (Ho _ Hb). unfold table_size in *. by rewrite Gn. }
    apply HQ; [by eapply rebuffered_trans|done| |done]. constructor.
    + intros base c' Htb Hc''. apply Hone; [done..|]. intros base' Ht'.
      rewrite (S2 base' c'), !S1 by done.
      pose proof (layout_mirror _ Hl H1). pose proof (layout_fits _ Hl _ Ht0).
      assert (Hne : fat_sect0 fs <> fat_sect1 fs).
      { pose proof (layout_cnt _ Hl). unfold table_size in *. Z.to_euclidean_division_equations; lia. }
      destruct Ht' as [->|[-> ?]]; repeat case_decide; naive_solver.
    + intros x Hx. by apply Hoff, outside_off_tables.
Qed.
End EntryOps.
