(* ===== verification/FatAlloc.v ===== *)
(** * The FAT32 library: allocation of clusters

    [sync_fs], [remove_chain] and [stretch_chain] against the table of links:
    a chain is freed or extended by one cluster, the counters of the volume
    follow, and the device holds the result. *)

From S2P Require Import Prelude Exec FatTypes FatBytes FatTable FatLogic FatChain.

(** ** Chains *)

Section Chains.
Implicit Types (t : Z -> Z) (n c : Z) (l : list Z).

Definition LAST : Z := Z.lor CLUST_USED CLUST_LAST.

(** [chain t n c l]: the clusters from [c] to the end of the chain are [l]. *)
Inductive chain t n : Z -> list Z -> Prop :=
  | chain_last c : 0 <= c < n -> classify n (t c) = Some LAST -> chain t n c [c]
  | chain_link c l :
      0 <= c < n -> classify n (t c) = Some CLUST_USED -> chain t n (t c) l -> chain t n c (c :: l).

Lemma classify_spec n v :
  match classify n v with
  | Some f => (f = CLUST_FREE /\ v = 0) \/ (f = CLUST_BAD /\ v = 0x0ffffff7) \/
      (f = LAST /\ 0x0ffffff8 <= v) \/ (f = CLUST_USED /\ 2 <= v < n)
  | None => v <> 0
  end.
Proof.
  unfold classify, LAST.
  destruct (Z.eqb_spec v 0); [naive_solver|]. destruct (Z.eqb_spec v 0x0ffffff7); [naive_solver|].
  destruct (Z.leb_spec 0x0ffffff8 v); [naive_solver|]. destruct (Z.leb_spec 2 v); [|done].
  destruct (Z.ltb_spec v n); [|done]. cbn [andb]. naive_solver.
Qed.

Lemma chain_used t n c l : chain t n c l -> 0 <= c < n /\ exists k, l = c :: k /\
  ((k = [] /\ classify n (t c) = Some LAST) \/ (classify n (t c) = Some CLUST_USED /\ chain t n (t c) k)).
Proof. destruct 1; naive_solver. Qed.

Lemma chain_det t n c l l' : chain t n c l -> chain t n c l' -> l = l'.
Proof.
  intros H. revert l'. induction H as [c Hc Hl|c l Hc Hu H IH]; intros l' H'.
  - apply chain_used in H' as (_ & k & -> & [[-> _]|[E _]]); [done|]. rewrite E in Hl. done.
  - apply chain_used in H' as (_ & k & -> & [[-> E]|[_ Hk]]); [rewrite E in Hu; done|]. by rewrite (IH k).
Qed.

Lemma chain_member t n c l x : chain t n c l -> x ∈ l -> exists l', chain t n x l' /\ (length l' <= length l)%nat.
Proof.
  induction 1 as [c Hc Hl|c l Hc Hu H IH]; intros Hx.
  - apply list_elem_of_singleton in Hx as ->. exists [c]. split; [by constructor|done].
  - apply elem_of_cons in Hx as [->|Hx]; [exists (c :: l); split; [by constructor|done]|].
    destruct (IH Hx) as (l' & Hl' & Hlen). exists l'. split; [done|]. simpl. lia.
Qed.

(** A chain that ends does not meet itself. *)
Lemma chain_NoDup t n c l : chain t n c l -> NoDup l.
Proof.
  induction 1 as [c Hc Hl|c l Hc Hu H IH]; [apply NoDup_singleton|].
  constructor; [|done]. intros Hx. destruct (chain_member _ _ _ _ _ H Hx) as (l' & Hl' & Hlen).
  rewrite (chain_det _ _ _ l' (c :: l) Hl') in Hlen; [simpl in Hlen; lia|by constructor].
Qed.

Lemma chain_range t n c l : chain t n c l -> forall x, x ∈ l -> 0 <= x < n.
Proof. intros H x Hx. destruct (chain_member _ _ _ _ _ H Hx) as (l' & Hl' & _). by apply chain_used in Hl' as [? _]. Qed.

(** A chain depends on the links of its clusters only. *)
Lemma chain_ext t t' n c l : chain t n c l -> (forall x, x ∈ l -> t' x = t x) -> chain t' n c l.
Proof.
  induction 1 as [c Hc Hl|c l Hc Hu H IH]; intros Ht.
  - apply chain_last; [done|]. rewrite Ht; [done|apply elem_of_cons; auto].
  - assert (E : t' c = t c) by (apply Ht, elem_of_cons; auto).
    apply chain_link; rewrite ?E; [done..|]. apply IH. intros x Hx. apply Ht, elem_of_cons. auto.
Qed.

(** Linking the end of a chain to a new last cluster extends it. *)
Lemma chain_snoc t t' n c l p v :
  chain t n c (l ++ [p]) -> 2 <= v < n -> v ∉ l ++ [p] -> 0x0ffffff8 <= t' v -> n <= 0x0ffffff7 -> t' p = v ->
  (forall x, x ∈ l -> t' x = t x) -> chain t' n c (l ++ [p; v]).
Proof.
  intros H Hv Hin Hlast Hn Hp. revert c H. induction l as [|a l IH]; intros c H Ht; simpl in *.
  - apply chain_used in H as (Hc & k & E & _). injection E as <- <-.
    assert (Cv : classify n (t' v) = Some LAST).
    { unfold classify. repeat case_match; reflect_bool; try lia; done. }
    assert (Cp : classify n (t' p) = Some CLUST_USED).
    { unfold classify. repeat case_match; reflect_bool; try lia; try done. all: rewrite ?andb_false_iff in *; lia. }
    apply chain_link; [done|congruence|]. rewrite Hp. by apply chain_last; [lia|].
  - apply chain_used in H as (Hc & k & Ea & Hk). injection Ea as <- <-.
    assert (E : t' a = t a) by (apply Ht, elem_of_cons; auto).
    destruct Hk as [[Hk _]|[Hu Hk]]; [by destruct l|].
    apply chain_link; rewrite ?E; [done..|]. apply IH; [set_solver|done|]. intros x Hx. apply Ht. set_solver.
Qed.
End Chains.

(** ** Allocation *)

Section Allocation.
Context {D : Type} (ops : DiskOps D) (sectors : D -> Z -> list Z) `{!Reliable ops sectors}.
Implicit Types (s : fstate D) (fs : Fat D) (d : D) (fat c v x : Z) (m : gmap Z Z).

Abbreviation coherent := (coherent ops sectors).
Abbreviation updates := (updates sectors).
Abbreviation link := (link sectors).
Abbreviation view := (view sectors).

(** *** Synchronisation *)

(** A field of the information sector on the device. *)
Definition info_field fs d off : option Z := get32 (sectors d (info_sect fs)) off.

(** Nothing is left to write, and the counters have reached the device if they
    had changed. *)
Record synced fs fs' d' : Prop := {
  synced_buf : dirty fs' = false;
  synced_flag : has (f_flags fs') FAT_INFO_DIRTY = false;
  synced_last : last_used fs' = last_used fs;
  synced_free : free_cnt fs' = free_cnt fs;
  synced_info : has (f_flags fs) FAT_INFO_DIRTY = true ->
    f_sect fs' = info_sect fs /\
    info_field fs d' FsInfo_next_free = Some (u32 (last_used fs)) /\
    info_field fs d' FsInfo_free_cnt = Some (u32 (free_cnt fs));
}.

(** With a clean buffer the device holds what the library sees. *)
Lemma coherent_device fs d x : coherent fs d -> dirty fs = false -> x <> 0 -> sectors d x = view fs d x.
Proof.
  intros Hc Hd Hx. unfold FatLogic.view. case_decide as E; [|done]. rewrite E. symmetry.
  apply Hc; [congruence|done].
Qed.

(** The two counters in the information sector. *)
Lemma put_counters b last free : block b -> exists b1 b2,
  put32 b FsInfo_next_free last = Some b1 /\ put32 b1 FsInfo_free_cnt free = Some b2 /\ block b2 /\
  get32 b2 FsInfo_next_free = Some (u32 last) /\ get32 b2 FsInfo_free_cnt = Some (u32 free).
Proof.
  intros Hb. destruct (put32_lt b FsInfo_next_free last) as [b1 Hb1]; [done|by rewrite (proj1 Hb)|].
  pose proof (put32_block _ _ _ _ Hb1 Hb) as Hblk.
  destruct (put32_lt b1 FsInfo_free_cnt free) as [b2 Hb2]; [done|by rewrite (proj1 Hblk)|].
  exists b1, b2. split; [done|]. split; [done|]. split; [by eapply put32_block|].
  split; [|by apply (get_put32 _ _ _ _ Hb2)].
  rewrite (get_put32_ne _ _ _ _ _ Hb2) by (unfold FsInfo_next_free, FsInfo_free_cnt; lia). by apply (get_put32 _ _ _ _ Hb1).
Qed.

Lemma wp_sync_fs s fat fs d Q :
  layout fs -> coherent fs d ->
  (forall fs' d', like fs fs' -> coherent fs' d' -> updates fs d fs' d' ∅ -> synced fs fs' d' ->
     Q (Ok tt) (vol s fat fs' d')) ->
  wp (sync_fs fat) Q (vol s fat fs d).
Proof.
  intros Hl Hc HQ. unfold sync_fs. fstep.
  eapply (wp_sync_buf ops sectors); [done..|]. intros fs1 d1 Hr1 Hc1 Hv1 Hd1 _ _.
  fstep. apply wp_get_fs.
  pose proof (rebuffered_like _ _ Hr1) as Hk1. pose proof (like_layout _ _ Hk1 Hl) as Hl1.
  assert (G : has (f_flags fs1) FAT_INFO_DIRTY = has (f_flags fs) FAT_INFO_DIRTY /\ last_used fs1 = last_used fs /\
    free_cnt fs1 = free_cnt fs /\ info_sect fs1 = info_sect fs) by (destruct Hr1 as (? & ? & ? & -> & ?); done).
  destruct G as (Gf & Gl & Gc & Gi).
  destruct (has (f_flags fs1) FAT_INFO_DIRTY) eqn:Ef.
  2: { fstep. apply HQ; [done..|by apply updates_same_view|]. constructor; try done. congruence. }
  pose proof (layout_info _ Hl1) as Hi.
  fstep. eapply (wp_update_buf ops sectors); [done..|]. intros fs2 d2 Hr2 Hc2 Hv2 Hs2.
  fstep. apply wp_raise_flag. fstep. apply wp_get_fs. fstep.
  destruct Hr2 as (a & b & e & -> & Hf2). simpl in Hs2. subst a.
  destruct (put_counters b (last_used fs1) (free_cnt fs1)) as (b1 & b2 & Hb1 & Hb2 & Hblk & Hlast & Hfree); [apply Hc2|].
  eapply wp_edit_buf; [exact Hb1|]. fstep. eapply wp_edit_buf; [exact Hb2|]. fstep.
  set (fs3 := set_f_buf b2 _). simpl in Hf2.
  assert (Hv3 : forall x, x <> 0 -> x <> info_sect fs -> view fs3 d2 x = view fs d x).
  { intros x Hx Hxi. rewrite <- Hv1, <- Hv2 by done. unfold FatLogic.view, fs3. simpl.
    by rewrite !decide_False by congruence. }
  assert (Hd3 : dirty fs3 = true) by (unfold dirty, fs3; simpl; by flag_bits).
  assert (Hc3 : coherent fs3 d2).
  { constructor; [apply Hc2|exact Hblk|simpl; lia|by rewrite Hd3|simpl; lia|apply Hc2]. }
  eapply (wp_sync_buf ops sectors); [done..|]. intros fs4 d4 Hr4 Hc4 Hv4 Hd4 Hs4 Hb4.
  apply wp_upd_fs. set (fs5 := set_f_flags _ fs4).
  assert (Hd5 : dirty fs5 = false) by (unfold dirty, fs5; simpl; rewrite <- Hd4; unfold dirty; by flag_bits).
  assert (Hc5 : coherent fs5 d4) by (destruct Hc4; constructor; try done; auto).
  assert (Hinfo : sectors d4 (info_sect fs) = b2).
  { rewrite <- Gi. rewrite (coherent_device fs4) by (done || lia). unfold FatLogic.view.
    rewrite decide_True by (by rewrite Hs4). by rewrite Hb4. }
  destruct Hr4 as (a4 & b4 & e4 & -> & _).
  assert (Hv5 : forall x, x <> 0 -> x <> info_sect fs -> view fs5 d4 x = view fs d x).
  { intros x Hx Hxi. rewrite <- Hv3 by done. by apply Hv4. }
  apply HQ; [|done| |].
  - destruct Hk1 as (la & fr & se & bu & fl & ->). by exists la, fr, a4, b4, (f_flags fs5).
  - constructor.
    + intros base x Ht Hx. rewrite lookup_empty. unfold entry.
      destruct (entry_pos _ _ _ Hl Ht Hx). by rewrite Hv5.
    + intros x (Hx & Hxi & _). apply Hv5; [lia|done].
  - constructor; [done| |done|done|].
    { unfold fs5. simpl. by flag_bits. }
    intros _. unfold info_field. rewrite Hinfo, <- Gl, <- Gc. split; [by rewrite <- Gi|done].
Qed.

(** *** Removing a chain *)

(** The links that freeing the clusters [l] stores. *)
Definition freed (l : list Z) : gmap Z Z := gset_to_gmap 0 (list_to_set l).

Lemma freed_lookup l c : freed l !! c = if decide (c ∈ l) then Some 0 else None.
Proof.
  unfold freed. case_decide as H.
  - apply lookup_gset_to_gmap_Some. set_solver.
  - apply lookup_gset_to_gmap_None. set_solver.
Qed.

Lemma freed_cons c l : freed l ∪ {[c := 0]} = freed (c :: l).
Proof.
  apply map_eq. intros x. rewrite lookup_union, !freed_lookup.
  destruct (decide (x = c)) as [->|Hne].
  - rewrite lookup_singleton_eq, (decide_True (P := c ∈ c :: l)) by set_solver. by case_decide.
  - rewrite lookup_singleton_ne by done. repeat case_decide; set_solver.
Qed.

Lemma range_NoDup_length n (l : list Z) :
  NoDup l -> (forall x, x ∈ l -> 0 <= x < n) -> (length l <= Z.to_nat n)%nat.
Proof.
  intros Hnd Hr. rewrite <- (length_seqZ 0 n). apply submseteq_length, NoDup_submseteq; [done|].
  intros x Hx%Hr. apply elem_of_seqZ. lia.
Qed.

(** What a removal has done, [t] being the table before it: the clusters [l]
    were in use and are free, and they are the chain, if there is one. *)
Record removed t n c (r : result unit) (l : list Z) : Prop := {
  removed_NoDup : NoDup l;
  removed_used x : x ∈ l -> 0 <= x < n /\ t x <> 0;
  removed_result : (r = Ok tt /\ chain t n c l) \/ (r = Err FAT_ERR_BROKEN /\ forall l', ~ chain t n c l');
}.

Lemma removed_link t t' n c r l :
  0 <= c < n -> classify n (t c) = Some CLUST_USED -> (forall x, 0 <= x < n -> t' x = if decide (x = c) then 0 else t x) ->
  removed t' n (t c) r l -> removed t n c r (c :: l).
Proof.
  intros Hc Hu Ht [Hnd Hused Hr].
  assert (Hin : c ∉ l) by (intros Hin; destruct (Hused _ Hin) as [_ H]; by rewrite Ht, decide_True in H).
  assert (Hne : forall x, 0 <= x < n -> x <> c -> t' x = t x) by (intros x Hx ?; by rewrite Ht, decide_False).
  constructor; [by constructor| |].
  - intros x [->|Hx]%elem_of_cons.
    + split; [done|]. intros E. by rewrite E in Hu.
    + destruct (Hused _ Hx) as [? ?]. split; [done|]. rewrite <- Hne; [done..|]. by intros ->.
  - destruct Hr as [[-> H]|[-> H]]; [left|right]; (split; [done|]).
    + apply chain_link; [done..|]. apply chain_ext with (t := t'); [done|].
      intros x Hx. symmetry. apply Hne; [by apply Hused|]. by intros ->.
    + intros l' H'. pose proof (chain_NoDup _ _ _ _ H') as Hd'.
      apply chain_used in H' as (_ & k & -> & [[-> E]|[_ Hk]]); [rewrite E in Hu; done|].
      apply (H k). apply chain_ext with (t := t); [done|]. intros x Hx.
      apply Hne; [by eapply chain_range|]. intros ->. by inversion Hd'.
Qed.

Lemma removed_last t n c : 0 <= c < n -> classify n (t c) = Some LAST -> removed t n c (Ok tt) [c].
Proof.
  intros Hc Hl. constructor; [apply NoDup_singleton| |left; split; [done|by apply chain_last]].
  intros x ->%list_elem_of_singleton. split; [done|]. intros E. by rewrite E in Hl.
Qed.

Lemma removed_broken t n c :
  classify n (t c) <> Some LAST -> classify n (t c) <> Some CLUST_USED -> removed t n c (Err FAT_ERR_BROKEN) [].
Proof.
  intros Hl Hu. constructor; [constructor|by intros x ?%elem_of_nil|right; split; [done|]].
  intros l' (_ & k & _ & [[_ E]|[E _]])%chain_used; congruence.
Qed.

(** One turn of the loop frees one cluster. *)
Lemma wp_free_cluster s fat fs d c (k : FM D unit) Q :
  layout fs -> coherent fs d -> 0 <= c < clust_cnt fs ->
  (forall fs' d', like fs fs' -> coherent fs' d' -> updates fs d fs' d' {[c := 0]} ->
     has (f_flags fs') FAT_INFO_DIRTY = has (f_flags fs) FAT_INFO_DIRTY -> last_used fs' = last_used fs ->
     free_cnt fs' = u32 (free_cnt fs + 1) -> wp k Q (vol s fat fs' d')) ->
  wp (ebind (put_fat fat c 0) (fun _ =>
      ebind (upd_fs fat (fun fs => set_free_cnt (u32 (free_cnt fs + 1)) fs)) (fun _ => k))) Q (vol s fat fs d).
Proof.
  intros Hl Hc Hr HQ. fstep. eapply (wp_put_fat ops sectors); [done..|].
  intros fs' d' Hrb Hc' Hu _. fstep. apply wp_upd_fs. destruct Hrb as (a & b & e & -> & Hf). simpl in Hf.
  apply HQ; try done.
  - by exists (last_used fs), (u32 (free_cnt fs + 1)), a, b, e.
  - destruct Hc'. by constructor.
  - by eapply updates_recount, Hu.
Qed.

(** The loop ends: a visited cluster is free, and a free cluster stops it. *)
Lemma wp_remove_loop fuel s fat fs d c acc Q :
  layout fs -> coherent fs d -> 0 <= c < clust_cnt fs -> NoDup acc ->
  (forall x, x ∈ acc -> 0 <= x < clust_cnt fs /\ link fs d x = 0) ->
  (Z.to_nat (clust_cnt fs) < fuel + length acc)%nat ->
  (forall r l fs' d', like fs fs' -> coherent fs' d' -> updates fs d fs' d' (freed l) ->
     has (f_flags fs') FAT_INFO_DIRTY = has (f_flags fs) FAT_INFO_DIRTY -> last_used fs' = last_used fs ->
     u32 (free_cnt fs') = u32 (free_cnt fs + Z.of_nat (length l)) ->
     removed (link fs d) (clust_cnt fs) c r l -> Q r (vol s fat fs' d')) ->
  wp (remove_chain_loop fuel fat c) Q (vol s fat fs d).
Proof.
  revert fs d c acc. induction fuel as [|fuel IH]; intros fs d c acc Hl Hc Hr Hnd Hacc Hfuel HQ.
  { pose proof (range_NoDup_length (clust_cnt fs) acc Hnd ltac:(naive_solver)). simpl in Hfuel. lia. }
  simpl. fstep. eapply (wp_get_fat ops sectors); [done..|]. intros fs1 d1 Hr1 Hc1 Hv1 _.
  pose proof (rebuffered_like _ _ Hr1) as Hk1. pose proof (like_layout _ _ Hk1 Hl) as Hl1.
  pose proof (updates_same_view _ _ _ _ _ Hl Hv1) as Hu1.
  assert (G : has (f_flags fs1) FAT_INFO_DIRTY = has (f_flags fs) FAT_INFO_DIRTY /\ last_used fs1 = last_used fs /\
    free_cnt fs1 = free_cnt fs /\ clust_cnt fs1 = clust_cnt fs) by (destruct Hr1 as (? & ? & ? & -> & ?); done).
  destruct G as (Gf & Gu & Gc & Gn).
  assert (Hstop : classify (clust_cnt fs) (link fs d c) <> Some LAST ->
    classify (clust_cnt fs) (link fs d c) <> Some CLUST_USED -> Q (Err FAT_ERR_BROKEN) (vol s fat fs1 d1)).
  { intros H1 H2. apply (HQ _ []); [done..| |by apply removed_broken]. by rewrite Gc, Z.add_0_r. }
  pose proof (classify_spec (clust_cnt fs) (link fs d c)) as Hcl.
  destruct (classify (clust_cnt fs) (link fs d c)) as [flags|] eqn:Ecl; [|by apply Hstop].
  fstep. apply wp_fail_if; intros Hbad.
  { apply Hstop; intros [= ->]; done. }
  assert (Hused : (flags = LAST \/ flags = CLUST_USED) /\ link fs d c <> 0).
  { destruct Hcl as [[-> ?]|[[-> ?]|[[-> ?]|[-> ?]]]]; [done..| |]; (split; [auto|lia]). }
  destruct Hused as [Hflags Hnz].
  apply wp_free_cluster; [done..|by rewrite Gn|]. intros fs3 d3 Hk3 Hc3 Hu3 Gf3 Gu3 Gc3.
  apply (updates_trans _ _ _ _ _ _ _ _ _ Hk1 Hu1), (updates_recount _ _ _ _ fs3) in Hu3; [|done..].
  rewrite right_id_L in Hu3 by apply _. pose proof (like_trans _ _ _ Hk1 Hk3) as Hk.
  assert (Hlink : forall x, 0 <= x < clust_cnt fs -> link fs3 d3 x = if decide (x = c) then 0 else link fs d x).
  { intros x Hx. rewrite (updates_link _ _ _ _ _ _ x Hk Hu3 Hx). case_decide as E.
    - subst x. by rewrite lookup_singleton_eq.
    - by rewrite lookup_singleton_ne. }
  rewrite Gf in Gf3. rewrite Gu in Gu3. rewrite Gc in Gc3.
  destruct Hflags as [->| ->]; cbn [has].
  - change (has LAST CLUST_LAST) with true. cbv iota. fstep. apply (HQ _ [c]); [done|done| |done|done| |by apply removed_last].
    + rewrite <- freed_cons. change (freed []) with (∅ : gmap Z Z). by rewrite (left_id_L ∅ (∪)).
    + rewrite Gc3. unfold u32. by rewrite Zmod_mod.
  - change (has CLUST_USED CLUST_LAST) with false. cbv iota.
    assert (G3n : clust_cnt fs3 = clust_cnt fs) by (by destruct Hk as (? & ? & ? & ? & ? & ->)).
    assert (Hcl' : 2 <= link fs d c < clust_cnt fs) by naive_solver.
    apply (IH _ _ _ (c :: acc)); rewrite ?G3n; [by eapply like_layout|done|lia| | |simpl; lia|].
    + constructor; [|done]. intros Hin. by apply Hnz, Hacc.
    + intros x [->|Hx]%elem_of_cons; [rewrite Hlink, decide_True; done|].
      destruct (Hacc _ Hx) as [? E]. split; [done|]. rewrite Hlink by done. by case_decide.
    + intros r l fs' d' Hk' Hc' Hu' Gf' Gu' Gc' Hrm. apply (HQ r (c :: l)); [by eapply like_trans|done| |congruence..| |].
      * rewrite <- freed_cons. by eapply updates_trans.
      * rewrite Gc', Gc3. unfold u32. rewrite Zplus_mod_idemp_l. f_equal. simpl. lia.
      * by eapply removed_link.
Qed.
(** The volume has no pending change, and its counters on the device are the
    ones given. *)
Definition settled fs d last free : Prop :=
  dirty fs = false /\ has (f_flags fs) FAT_INFO_DIRTY = false /\ f_sect fs = info_sect fs /\
  info_field fs d FsInfo_next_free = Some (u32 last) /\ info_field fs d FsInfo_free_cnt = Some (u32 free).

Lemma synced_settled fs fs' d' :
  like fs fs' -> has (f_flags fs) FAT_INFO_DIRTY = true -> synced fs fs' d' ->
  settled fs' d' (last_used fs) (free_cnt fs).
Proof.
  intros Hk Hf [Hb Hi _ _ Hs]. destruct (Hs Hf). unfold settled, info_field in *.
  replace (info_sect fs') with (info_sect fs) by (by destruct Hk as (? & ? & ? & ? & ? & ->)). done.
Qed.

(** The volume once its counters are to be written. *)
Definition counting fs : Fat D := set_f_flags (raise (f_flags fs) FAT_INFO_DIRTY) fs.

Lemma counting_like fs : like fs (counting fs).
Proof.
  exists (last_used fs), (free_cnt fs), (f_sect fs), (f_buf fs), (raise (f_flags fs) FAT_INFO_DIRTY). by destruct fs.
Qed.

Lemma counting_flag fs : has (f_flags (counting fs)) FAT_INFO_DIRTY = true.
Proof. unfold counting. simpl. by flag_bits. Qed.

Lemma counting_coherent fs d : coherent fs d -> coherent (counting fs) d.
Proof.
  intros [Ho Hlen He Hcl Hse Hw]. unfold dirty in *.
  constructor; unfold dirty, counting; cbn [f_ops f_flags set_f_flags f_sect f_buf]; [done|done|..|done|done]; flag_bits; auto.
Qed.

Lemma counting_updates fs d : updates fs d (counting fs) d ∅.
Proof. eapply updates_recount, updates_refl; done. Qed.

Lemma wp_remove_chain s fat fs d c Q :
  layout fs -> coherent fs d -> 0 <= c < clust_cnt fs ->
  (forall r l fs' d', like fs fs' -> coherent fs' d' -> updates fs d fs' d' (freed l) ->
     removed (link fs d) (clust_cnt fs) c r l ->
     (r = Ok tt -> settled fs' d' (last_used fs) (free_cnt fs + Z.of_nat (length l))) -> Q r (vol s fat fs' d')) ->
  wp (remove_chain fat c) Q (vol s fat fs d).
Proof.
  intros Hl Hc Hr HQ. unfold remove_chain. fstep. apply wp_raise_flag. fold (counting fs).
  pose proof (counting_like fs) as Hk1. pose proof (like_layout _ _ Hk1 Hl) as Hl1.
  fstep. apply wp_get_fs. fstep.
  apply wp_remove_loop with (acc := []);
    [done|by apply counting_coherent|done|constructor|by intros x ?%elem_of_nil|simpl; lia|].
  intros r l fs2 d2 Hk2 Hc2 Hu2 Hf2 El2 Ef2 Hrm. rewrite counting_flag in Hf2.
  apply (updates_trans _ _ _ _ _ _ _ _ _ Hk1 (counting_updates fs d)) in Hu2. rewrite right_id_L in Hu2 by apply _.
  apply (like_trans _ _ _ Hk1) in Hk2.
  destruct (removed_result _ _ _ _ _ Hrm) as [[-> Hch]|[-> Hch]]; [|by apply (HQ _ l)].
  apply wp_sync_fs; [by eapply like_layout|done|]. intros fs3 d3 Hk3 Hc3 Hu3 Hs3.
  apply (HQ _ l); [by eapply like_trans|done| |done|].
  - rewrite <- (left_id_L ∅ (∪) (freed l)). by eapply updates_trans.
  - intros _. pose proof (synced_settled _ _ _ Hk3 Hf2 Hs3) as (? & ? & ? & ? & Hi). unfold settled.
    rewrite El2 in *. rewrite Ef2 in Hi. done.
Qed.
(** *** Allocating a cluster *)

(** The clusters a volume hands out. *)
Definition usable fs c : Prop := 2 <= c < clust_cnt fs.

(** Every entry has a meaning. *)
Definition sound_table fs d : Prop :=
  forall c, 0 <= c < clust_cnt fs -> classify (clust_cnt fs) (link fs d c) <> None.

(** No cluster is free, except perhaps the last one allocated, which the scan
    does not look at. *)
Definition full fs d : Prop := forall c, usable fs c -> c <> last_used fs -> link fs d c <> 0.

Lemma next_candidate_spec n c :
  2 < n <= 0x0ffffff7 -> 0 <= c < n ->
  0 <= next_candidate n c < n /\ (c + 1 < n -> next_candidate n c = c + 1) /\ (n <= c + 1 -> next_candidate n c = 2).
Proof. intros Hn Hc. unfold next_candidate. autorewrite with machine. destruct (Z.leb_spec n (c + 1)); lia. Qed.

(** A sector outside the tables that is not buffered is still not buffered. *)
Definition keeps_out fs fs' : Prop := forall x, outside fs x -> f_sect fs <> x -> f_sect fs' <> x.

Lemma keeps_out_refl fs : keeps_out fs fs.
Proof. by intros x _. Qed.

Lemma keeps_out_trans fs1 fs2 fs3 : like fs1 fs2 -> keeps_out fs1 fs2 -> keeps_out fs2 fs3 -> keeps_out fs1 fs3.
Proof. intros (la & fr & se & bu & fl & ->) H1 H2 x Hx Hne. by apply H2, H1. Qed.

Lemma keeps_out_entry fs fs' c :
  layout fs -> 0 <= c < clust_cnt fs -> f_sect fs' = entry_sect (fat_sect0 fs) c -> keeps_out fs fs'.
Proof.
  intros Hl Hc Es x (_ & _ & Ho) _. rewrite Es. assert (Ht : is_table fs (fat_sect0 fs)) by (by left).
  destruct (entry_sect_in _ _ _ Hl Ht Hc). specialize (Ho _ Ht). lia.
Qed.

(** [r] steps of the scan lead from cluster [c] back to the last one. *)
Definition steps_left fs c r : Prop := c + r = last_used fs \/ c + r = last_used fs + clust_cnt fs - 2.

Lemma rebuffered_last fs fs' : rebuffered fs fs' -> last_used fs' = last_used fs /\ clust_cnt fs' = clust_cnt fs.
Proof. by intros (? & ? & ? & -> & _). Qed.

Lemma same_view_link fs d fs' d' c :
  layout fs -> rebuffered fs fs' -> same_view sectors fs d fs' d' -> 0 <= c < clust_cnt fs -> link fs' d' c = link fs d c.
Proof.
  intros Hl Hr Hv Hc. rewrite (updates_link _ fs d _ _ ∅ c (rebuffered_like _ _ Hr)); [done| |done].
  by apply updates_same_view.
Qed.

Lemma same_view_trans fs1 d1 fs2 d2 fs3 d3 :
  same_view sectors fs1 d1 fs2 d2 -> same_view sectors fs2 d2 fs3 d3 -> same_view sectors fs1 d1 fs3 d3.
Proof. intros H1 H2 x Hx. rewrite H2 by done. by apply H1. Qed.

Lemma wp_scan_free fuel s fat fs d p r flags Q :
  layout fs -> coherent fs d -> usable fs (last_used fs) -> sound_table fs d -> usable fs p ->
  1 <= r <= clust_cnt fs - 2 -> steps_left fs p r -> (Z.to_nat r <= fuel)%nat ->
  (forall c r', usable fs c -> r <= r' < clust_cnt fs - 2 -> steps_left fs c r' -> link fs d c <> 0) ->
  (forall res fs' d', rebuffered fs fs' -> coherent fs' d' -> same_view sectors fs d fs' d' -> keeps_out fs fs' ->
     (exists c, res = Ok c /\ usable fs c /\ link fs d c = 0) \/ (res = Err FAT_ERR_FULL /\ full fs d) ->
     Q res (vol s fat fs' d')) ->
  wp (scan_free fuel fat p flags) Q (vol s fat fs d).
Proof.
  revert fs d p r flags. induction fuel as [|fuel IH]; intros fs d p r flags Hl Hc Hlu Hsound Hp Hr Hleft Hfuel Hseen HQ;
    [lia|].
  pose proof (layout_cnt _ Hl) as Hn. unfold usable, steps_left in *.
  destruct (next_candidate_spec (clust_cnt fs) p) as (Hq & Hq1 & Hq2); [done|lia|].
  simpl. fstep. apply wp_get_fs. cbv zeta. set (q := next_candidate (clust_cnt fs) p) in *.
  assert (Hq' : 2 <= q < clust_cnt fs /\ (q + (r - 1) = last_used fs \/ q + (r - 1) = last_used fs + clust_cnt fs - 2)) by lia.
  destruct (Z.eqb_spec q (last_used fs)) as [E|E].
  { fstep. apply HQ; [apply rebuffered_refl|done|apply same_view_refl|apply keeps_out_refl|]. right. split; [done|].
    intros c Hcu Hne. unfold usable in Hcu.
    destruct (decide (c < last_used fs)); [apply (Hseen c (last_used fs - c))|
      apply (Hseen c (last_used fs + clust_cnt fs - 2 - c))]; lia. }
  fstep. fstep. eapply (wp_get_fat ops sectors); [done..|lia|].
  intros fs1 d1 Hr1 Hc1 Hv1 Es1.
  assert (Hko : keeps_out fs fs1) by (eapply keeps_out_entry; [done| |exact Es1]; lia).
  pose proof (like_layout _ _ (rebuffered_like _ _ Hr1) Hl) as Hl1.
  destruct (rebuffered_last _ _ Hr1) as [El En].
  pose proof (classify_spec (clust_cnt fs) (link fs d q)) as Hcl. specialize (Hsound q ltac:(lia)) as Hq0.
  destruct (classify (clust_cnt fs) (link fs d q)) as [f|]; [|done]. fsteps.
  destruct (has f CLUST_FREE) eqn:Ef.
  { fstep. apply HQ; [done..|]. left. exists q. split; [done|]. split; [lia|].
    destruct Hcl as [[-> ?]|[[-> ?]|[[-> ?]|[-> ?]]]]; done. }
  assert (Hlink : forall x, 0 <= x < clust_cnt fs -> link fs1 d1 x = link fs d x) by (intros; by apply same_view_link).
  apply (IH _ _ _ (r - 1)); unfold usable, steps_left; rewrite ?El, ?En; [exact Hl1|exact Hc1|lia| |lia|lia|lia|lia| |].
  - intros c Hcr. rewrite En in *. rewrite Hlink by done. by apply Hsound.
  - intros c r' Hcu Hr' Hs. rewrite Hlink by lia. destruct (decide (r' = r - 1)) as [->|].
    + replace c with q by lia. intros E0. rewrite E0 in Hcl. destruct Hcl as [[-> ?]|[[-> ?]|[[-> ?]|[-> ?]]]]; first [done|lia].
    + apply (Hseen c r'); lia.
  - intros res fs2 d2 Hr2 Hc2 Hv2 Hko2 Hres.
    apply HQ; [by eapply rebuffered_trans|done|by eapply same_view_trans| |].
    { eapply keeps_out_trans; [by apply rebuffered_like|done..]. }
    unfold full, usable in *. rewrite En, El in *. destruct Hres as [(c & -> & Hcu & Hl0)|[-> Hfull]]; [left|right].
    + exists c. rewrite Hlink in Hl0 by lia. done.
    + split; [done|]. intros c Hcu Hne. rewrite <- Hlink by lia. by apply Hfull.
Qed.
(** The links that attach cluster [c] after [prev]; [prev] is zero for the first
    cluster of a chain. *)
Definition attached prev c : gmap Z Z :=
  if prev =? 0 then {[c := 0x0fffffff]} else {[prev := c]} ∪ {[c := 0x0fffffff]}.

Lemma wp_attach s fat fs d prev c Q :
  layout fs -> coherent fs d -> has (f_flags fs) FAT_INFO_DIRTY = true ->
  0 <= c < clust_cnt fs -> 0 <= prev < clust_cnt fs ->
  (forall fs' d', like fs fs' -> coherent fs' d' -> updates fs d fs' d' (attached prev c) ->
     last_used fs' = c -> settled fs' d' c (free_cnt fs - 1) -> Q (Ok c) (vol s fat fs' d')) ->
  wp (attach fat prev c) Q (vol s fat fs d).
Proof.
  intros Hl Hc Hf Hr Hp HQ. unfold attach. fstep. eapply (wp_put_fat ops sectors); [done..|].
  intros fs1 d1 Hr1 Hc1 Hu1 _. pose proof (rebuffered_like _ _ Hr1) as Hk1. pose proof (like_layout _ _ Hk1 Hl) as Hl1.
  assert (Hsync : forall fs2 d2, rebuffered fs fs2 -> coherent fs2 d2 -> updates fs d fs2 d2 (attached prev c) ->
    wp (ebind (upd_fs fat (fun fs => set_free_cnt (u32 (free_cnt fs - 1)) (set_last_used c fs))) (fun _ =>
      ebind (sync_fs fat) (fun _ => ok c))) Q (vol s fat fs2 d2)).
  { intros fs2 d2 Hr2 Hc2 Hu2. fstep. apply wp_upd_fs. fstep. set (fs3 := set_free_cnt _ _).
    assert (Hk3 : like fs fs3) by (destruct Hr2 as (a & b & e & -> & _); by exists c, (free_cnt fs3), a, b, e).
    assert (Hf3 : has (f_flags fs3) FAT_INFO_DIRTY = true) by (destruct Hr2 as (a & b & e & -> & H2); simpl in *; congruence).
    assert (Ef3 : free_cnt fs3 = u32 (free_cnt fs - 1)) by (by destruct Hr2 as (a & b & e & -> & _)).
    apply wp_sync_fs; [by eapply like_layout|destruct Hc2; by constructor|]. intros fs4 d4 Hk4 Hc4 Hu4 Hs4. fstep.
    apply HQ; [by eapply like_trans|done| |by rewrite (synced_last _ _ _ Hs4)|].
    - rewrite <- (left_id_L ∅ (∪) (attached prev c)). eapply updates_trans; [exact Hk3| |exact Hu4].
      by eapply updates_recount, Hu2.
    - destruct (synced_settled _ _ _ Hk4 Hf3 Hs4) as (? & ? & ? & ? & Hi). rewrite Ef3 in Hi.
      unfold settled. rewrite Hi. unfold u32. by rewrite Zmod_mod. }
  fstep. unfold attached in Hsync. destruct (Z.eqb_spec prev 0) as [->|Hne]; simpl.
  - fstep. by apply Hsync.
  - assert (En : clust_cnt fs1 = clust_cnt fs) by (by apply rebuffered_last).
    eapply (wp_put_fat ops sectors); [done..|by rewrite En|]. intros fs2 d2 Hr2 Hc2 Hu2 _.
    apply Hsync; [by eapply rebuffered_trans|done|]. by eapply updates_trans.
Qed.

(** What stretching the chain that ends in [prev] does to the volume [fs]: a
    free cluster is attached, or the volume is full and nothing changes. *)
Definition stretched fs d prev (r : result Z) fs' d' : Prop :=
  (exists c, r = Ok c /\ usable fs c /\ link fs d c = 0 /\ updates fs d fs' d' (attached prev c) /\
     last_used fs' = c /\ settled fs' d' c (free_cnt fs - 1)) \/
  (r = Err FAT_ERR_FULL /\ full fs d /\ updates fs d fs' d' ∅ /\ keeps_out fs fs' /\ last_used fs' = last_used fs).

Lemma counting_view fs d fs1 d1 :
  layout fs -> same_view sectors (counting fs) d fs1 d1 -> updates fs d fs1 d1 ∅.
Proof.
  intros Hl Hv. pose proof (like_layout _ _ (counting_like fs) Hl) as Hl1.
  rewrite <- (right_id_L ∅ (∪) ∅). eapply updates_trans; [apply counting_like|apply counting_updates|].
  by apply updates_same_view.
Qed.

Lemma wp_stretch_attach s fat fs d prev fs1 d1 c Q :
  layout fs -> 0 <= prev < clust_cnt fs ->
  rebuffered (counting fs) fs1 -> coherent fs1 d1 -> same_view sectors (counting fs) d fs1 d1 ->
  usable fs c -> link fs d c = 0 ->
  (forall r fs' d', like fs fs' -> coherent fs' d' -> stretched fs d prev r fs' d' -> Q r (vol s fat fs' d')) ->
  wp (attach fat prev c) Q (vol s fat fs1 d1).
Proof.
  intros Hl Hp Hr1 Hc1 Hv1 Hcu H0 HQ. pose proof (layout_cnt _ Hl) as Hn.
  assert (G : has (f_flags fs1) FAT_INFO_DIRTY = true /\ clust_cnt fs1 = clust_cnt fs /\ free_cnt fs1 = free_cnt fs)
    by (destruct Hr1 as (? & ? & ? & -> & G); rewrite counting_flag in G; done).
  destruct G as (Gf & Gn & Gc).
  pose proof (like_trans _ _ _ (counting_like fs) (rebuffered_like _ _ Hr1)) as Hk.
  pose proof Hcu as Hcu'. unfold usable in Hcu'.
  apply wp_attach; [by eapply like_layout|done|done|rewrite Gn; lia|by rewrite Gn|].
  intros fs' d' Hk' Hc' Hu' El' Hs'. rewrite Gc in Hs'. apply HQ; [by eapply like_trans|done|]. left. exists c.
  do 3 (split; [done|]). split; [|done].
  rewrite <- (right_id_L ∅ (∪) (attached prev c)). eapply updates_trans; [exact Hk| |exact Hu'].
  by apply counting_view.
Qed.

Lemma wp_stretch_scan s fat fs d prev fs1 d1 flags Q :
  layout fs -> 0 <= prev < clust_cnt fs -> sound_table fs d -> usable fs (last_used fs) ->
  rebuffered (counting fs) fs1 -> coherent fs1 d1 -> same_view sectors (counting fs) d fs1 d1 -> keeps_out fs fs1 ->
  (forall r fs' d', like fs fs' -> coherent fs' d' -> stretched fs d prev r fs' d' -> Q r (vol s fat fs' d')) ->
  wp (ebind (scan_free (S (Z.to_nat (clust_cnt fs))) fat (last_used fs) flags) (attach fat prev)) Q (vol s fat fs1 d1).
Proof.
  intros Hl Hp Hs Hu Hr1 Hc1 Hv1 Hko1 HQ. pose proof (layout_cnt _ Hl) as Hn.
  pose proof (like_layout _ _ (counting_like fs) Hl) as Hl1.
  destruct (rebuffered_last _ _ Hr1) as [El En]. cbn [last_used clust_cnt counting set_f_flags] in El, En.
  assert (Hlk : forall x, 0 <= x < clust_cnt fs -> link fs1 d1 x = link fs d x)
    by (intros; by apply (same_view_link (counting fs) d)).
  unfold usable in Hu. fstep. apply wp_scan_free with (r := clust_cnt fs - 2);
    unfold usable, steps_left; rewrite ?El, ?En; [|done|lia| |lia|lia|lia|lia|lia|].
  - by eapply like_layout, Hl1; apply rebuffered_like.
  - intros x Hx. rewrite En in *. rewrite Hlk by done. by apply Hs.
  - intros r fs2 d2 Hr2 Hc2 Hv2 Hko2 Hres.
    pose proof (rebuffered_trans _ _ _ Hr1 Hr2) as Hr3. pose proof (same_view_trans _ _ _ _ _ _ Hv1 Hv2) as Hv3.
    destruct Hres as [(c & -> & Hcu & H0)|[-> Hfull]].
    + eapply (wp_stretch_attach s fat fs d); [done..| |done]. rewrite <- Hlk by lia. done.
    + apply HQ; [eapply like_trans; [apply counting_like|by apply rebuffered_like]|done|]. right.
      destruct (rebuffered_last _ _ Hr3) as [El3 _].
      split; [done|]. split; [|split; [by apply counting_view|split; [|done]]].
      2: { eapply keeps_out_trans; [|done..]. eapply like_trans; [apply counting_like|by apply rebuffered_like]. }
      intros x Hx Hne. rewrite <- Hlk by (unfold usable in Hx; lia). apply Hfull; unfold usable in *; congruence.
Qed.

Lemma wp_stretch_chain s fat fs d prev Q :
  layout fs -> coherent fs d -> sound_table fs d -> usable fs (last_used fs) -> 0 <= prev < clust_cnt fs ->
  (forall r fs' d', like fs fs' -> coherent fs' d' -> stretched fs d prev r fs' d' -> Q r (vol s fat fs' d')) ->
  wp (stretch_chain fat prev) Q (vol s fat fs d).
Proof.
  intros Hl Hc Hs Hu Hp HQ. unfold stretch_chain. cbv zeta. fstep. apply wp_raise_flag. fold (counting fs).
  pose proof (like_layout _ _ (counting_like fs) Hl) as Hl1. pose proof (counting_coherent _ _ Hc) as Hcc.
  fstep. apply wp_get_fs. fstep. destruct (Z.eqb_spec prev 0) as [E|E].
  { fstep. by eapply (wp_stretch_scan s fat fs d); [..|apply rebuffered_refl| |apply same_view_refl|by intros x _|]. }
  destruct (next_candidate_spec (clust_cnt fs) prev) as (Hq & Hq1 & Hq2); [by apply layout_cnt|done|].
  fsteps. eapply (wp_get_fat ops sectors); [done..|]. intros fs1 d1 Hr1 Hc1 Hv1 Es1.
  pose proof (keeps_out_entry _ _ _ Hl Hq Es1) as Hko1.
  pose proof (classify_spec (clust_cnt fs) (link fs d (next_candidate (clust_cnt fs) prev))) as Hcl.
  pose proof (Hs _ Hq) as Hq0.
  change (link (counting fs) d) with (link fs d). cbn [clust_cnt counting set_f_flags].
  destruct (classify _ _) as [f|]; [|done]. fstep. destruct (has f CLUST_FREE) eqn:Ef; cbn [negb].
  - do 2 fstep. eapply (wp_stretch_attach s fat fs d); [done..| | |done].
    + unfold usable. pose proof (layout_cnt _ Hl). lia.
    + destruct Hcl as [[-> ?]|[[-> ?]|[[-> ?]|[-> ?]]]]; done.
  - by eapply (wp_stretch_scan s fat fs d).
Qed.

(** A chain that is stretched at its end gains the cluster. *)
Lemma stretched_chain fs d l prev c fs' d' v :
  layout fs -> like fs fs' -> updates fs d fs' d' (attached prev v) -> 0 < prev -> usable fs v ->
  link fs d v = 0 -> chain (link fs d) (clust_cnt fs) c (l ++ [prev]) ->
  chain (link fs' d') (clust_cnt fs) c (l ++ [prev; v]).
Proof.
  intros Hl Hk Hu Hp Hv H0 Hch. pose proof (layout_cnt _ Hl). pose proof (chain_range _ _ _ _ Hch) as Hr.
  pose proof (chain_NoDup _ _ _ _ Hch) as Hnd.
  assert (Hin : v ∉ l ++ [prev]).
  { intros Hin. destruct (chain_member _ _ _ _ _ Hch Hin) as (k & (_ & j & _ & Hk')%chain_used & _).
    rewrite H0 in Hk'. destruct Hk' as [[_ E]|[E _]]; done. }
  unfold usable in Hv. assert (Hpr : 0 <= prev < clust_cnt fs) by (apply Hr; set_solver).
  assert (Hlink : forall x, 0 <= x < clust_cnt fs -> link fs' d' x =
    if decide (x = prev) then Z.land v 0x0fffffff else if decide (x = v) then 0x0fffffff else link fs d x).
  { intros x Hx. rewrite (updates_link _ fs d _ _ _ x Hk Hu Hx). unfold attached.
    destruct (Z.eqb_spec prev 0); [lia|]. rewrite <- insert_union_singleton_l.
    case_decide as E1; [subst; by rewrite lookup_insert_eq|]. rewrite lookup_insert_ne by done.
    case_decide as E2; [subst; by rewrite lookup_singleton_eq|]. by rewrite lookup_singleton_ne. }
  apply chain_snoc with (t := link fs d); [done|done|done| |lia| |].
  - rewrite Hlink by lia. rewrite decide_False by set_solver. by rewrite decide_True.
  - rewrite Hlink, decide_True by done. change 0x0fffffff with (Z.ones 28). rewrite Z.land_ones, Z.mod_small; lia.
  - intros x Hx. rewrite Hlink by (apply Hr; set_solver). apply NoDup_app in Hnd as (_ & Hnd & _).
    rewrite !decide_False; [done|set_solver|]. intros ->. apply (Hnd prev); set_solver.
Qed.
End Allocation.
