(* ===== verification/FatIO.v ===== *)
(** * The FAT32 library: a file is an array of bytes

    The chain of clusters of an open file, the sector its cursor is in and the
    buffer of that sector give each position of the file a byte.  Moving the
    cursor keeps the bytes; reading returns them; writing replaces them. *)

From S2P Require Import Prelude Exec FatTypes FatBytes FatTable FatFile FatLogic FatChain FatAlloc.

(** ** Where the bytes are *)

Section DataArea.
Context {D : Type}.
Implicit Types (fs : Fat D) (c k p q x : Z) (l more : list Z).

Definition cluster_bytes fs : Z := 512 * 2 ^ clust_shift fs.

(** The data area follows the tables and fits in the device. *)
Record data_area fs : Prop := {
  data_shift : 0 <= clust_shift fs <= 7;
  data_msk : clust_msk fs = 2 ^ clust_shift fs - 1;
  data_tables base : is_table fs base -> base + table_size fs <= data_sect fs;
  data_info : info_sect fs < data_sect fs;
  data_end : data_sect fs + (clust_cnt fs - 2) * 2 ^ clust_shift fs <= 2 ^ 32;
}.

(** Sector [k] of cluster [c]. *)
Definition cluster_sect fs c k : Z := data_sect fs + (c - 2) * 2 ^ clust_shift fs + k.

(** The sector of position [p] of a file with the clusters [l]. *)
Definition file_sect fs l p : Z :=
  u32 (clust_to_sect fs (l !!! Z.to_nat (p / cluster_bytes fs)) + Z.land (p / 512) (clust_msk fs)).

(** The positions a file with the clusters [l] has room for. *)
Definition room fs l : Z := Z.of_nat (length l) * cluster_bytes fs.

Lemma per_cluster_pos fs : data_area fs -> 0 < 2 ^ clust_shift fs <= 128.
Proof.
  intros [Hs _ _ _ _]. split; [apply Z.pow_pos_nonneg; lia|].
  change 128 with (2 ^ 7). apply Z.pow_le_mono_r; lia.
Qed.

Lemma like_data_area fs fs' : like fs fs' -> data_area fs -> data_area fs'.
Proof. intros (la & fr & se & bu & fl & ->) []. by constructor. Qed.

Lemma clust_to_sect_eq fs c :
  layout fs -> data_area fs -> usable fs c -> clust_to_sect fs c = cluster_sect fs c 0.
Proof.
  intros Hl Hd Hc. pose proof (per_cluster_pos _ Hd) as Hp. destruct Hd as [Hs _ _ Hi He].
  pose proof (layout_info _ Hl). pose proof (layout_cnt _ Hl). unfold usable in Hc. unfold clust_to_sect, cluster_sect.
  assert ((c - 2) * 2 ^ clust_shift fs <= (clust_cnt fs - 2) * 2 ^ clust_shift fs) by nia.
  rewrite (u32_id (c - 2)) by lia. rewrite Z.shiftl_mul_pow2 by lia.
  rewrite (u32_id (_ * _)) by nia. rewrite u32_id by nia. lia.
Qed.

Lemma cluster_sect_bounds fs c k :
  layout fs -> data_area fs -> usable fs c -> 0 <= k < 2 ^ clust_shift fs ->
  data_sect fs <= cluster_sect fs c k < 2 ^ 32.
Proof.
  intros Hl Hd Hc Hk. pose proof (per_cluster_pos _ Hd) as Hp. destruct Hd as [Hs _ _ Hi He].
  unfold usable in Hc. unfold cluster_sect.
  assert ((c - 2) * 2 ^ clust_shift fs + 2 ^ clust_shift fs <= (clust_cnt fs - 2) * 2 ^ clust_shift fs) by nia.
  nia.
Qed.

Lemma data_outside fs x : layout fs -> data_area fs -> data_sect fs <= x -> outside fs x.
Proof.
  intros Hl [_ _ Ht Hi _] Hx. pose proof (layout_info _ Hl). split; [lia|]. split; [lia|].
  intros base Hb. specialize (Ht _ Hb). lia.
Qed.

Lemma cluster_index fs l p :
  data_area fs -> 0 <= p < room fs l -> (Z.to_nat (p / cluster_bytes fs) < length l)%nat.
Proof.
  intros Hd Hp. pose proof (per_cluster_pos _ Hd). unfold room, cluster_bytes in *.
  assert (0 <= p / (512 * 2 ^ clust_shift fs) < Z.of_nat (length l)); [|lia].
  split; [apply Z.div_pos; lia|apply Z.div_lt_upper_bound; lia].
Qed.

Lemma file_sect_eq fs l p :
  layout fs -> data_area fs -> Forall (usable fs) l -> 0 <= p < room fs l ->
  let c := l !!! Z.to_nat (p / cluster_bytes fs) in
  usable fs c /\ file_sect fs l p = cluster_sect fs c ((p / 512) mod 2 ^ clust_shift fs).
Proof.
  intros Hl Hd Hu Hp c. pose proof (cluster_index _ _ _ Hd Hp) as Hi. pose proof (per_cluster_pos _ Hd) as Hpc.
  assert (Hc : usable fs c).
  { rewrite Forall_forall in Hu. apply Hu. by apply list_elem_of_lookup_total_2. }
  split; [done|]. unfold file_sect. fold c. rewrite clust_to_sect_eq by done.
  rewrite (data_msk _ Hd), Z.sub_1_r, <- Z.ones_equiv, Z.land_ones by apply Hd.
  pose proof (Z.mod_pos_bound (p / 512) (2 ^ clust_shift fs) ltac:(lia)) as Hk.
  pose proof (cluster_sect_bounds fs c _ Hl Hd Hc Hk) as Hb. unfold cluster_sect in *.
  pose proof (layout_info _ Hl). pose proof (data_info _ Hd). rewrite u32_id by lia. lia.
Qed.

Lemma file_sect_range fs l p : 0 <= file_sect fs l p < 2 ^ 32.
Proof. apply u32_range. Qed.

Lemma file_sect_bounds fs l p :
  layout fs -> data_area fs -> Forall (usable fs) l -> 0 <= p < room fs l -> data_sect fs <= file_sect fs l p.
Proof.
  intros Hl Hd Hu Hp. destruct (file_sect_eq fs l p Hl Hd Hu Hp) as [Hc ->].
  apply cluster_sect_bounds; [done..|]. apply Z.mod_pos_bound. by apply per_cluster_pos.
Qed.

Lemma cluster_sect_inj fs c k c' k' :
  0 <= k < 2 ^ clust_shift fs -> 0 <= k' < 2 ^ clust_shift fs ->
  cluster_sect fs c k = cluster_sect fs c' k' -> c = c' /\ k = k'.
Proof. intros Hk Hk' E. unfold cluster_sect in E. assert (c = c') by nia. subst. lia. Qed.

Lemma cluster_of_position fs p : data_area fs -> p / cluster_bytes fs = p / 512 / 2 ^ clust_shift fs.
Proof. intros Hd. pose proof (per_cluster_pos _ Hd). unfold cluster_bytes. rewrite Z.div_div; lia. Qed.

(** Positions in the same sector of a file. *)
Lemma file_sect_inj fs l p q :
  layout fs -> data_area fs -> Forall (usable fs) l -> NoDup l -> 0 <= p < room fs l -> 0 <= q < room fs l ->
  file_sect fs l p = file_sect fs l q -> p / 512 = q / 512.
Proof.
  intros Hl Hd Hu Hnd Hp Hq E. pose proof (per_cluster_pos _ Hd) as Hpc.
  destruct (file_sect_eq fs l p Hl Hd Hu Hp) as [_ Ep], (file_sect_eq fs l q Hl Hd Hu Hq) as [_ Eq].
  rewrite Ep, Eq in E. apply cluster_sect_inj in E as [Ec Ek]; [|apply Z.mod_pos_bound; lia..].
  pose proof (cluster_index _ _ _ Hd Hp) as Ip. pose proof (cluster_index _ _ _ Hd Hq) as Iq.
  assert (Ei : p / cluster_bytes fs = q / cluster_bytes fs).
  { pose proof (NoDup_lookup l (Z.to_nat (p / cluster_bytes fs)) (Z.to_nat (q / cluster_bytes fs)) _ Hnd
      (list_lookup_lookup_total_lt _ _ Ip)) as Hi.
    rewrite Ec in Hi. specialize (Hi (list_lookup_lookup_total_lt _ _ Iq)).
    pose proof (Z.div_pos p (cluster_bytes fs)). pose proof (Z.div_pos q (cluster_bytes fs)).
    unfold cluster_bytes in *. lia. }
  rewrite !cluster_of_position in Ei by done.
  rewrite (Z.div_mod (p / 512) (2 ^ clust_shift fs)), (Z.div_mod (q / 512) (2 ^ clust_shift fs)) by lia. congruence.
Qed.

Lemma file_sect_same fs l p q : data_area fs -> p / 512 = q / 512 -> file_sect fs l p = file_sect fs l q.
Proof. intros Hd E. unfold file_sect. by rewrite !cluster_of_position, E. Qed.

(** More clusters do not move the positions there were. *)
Lemma file_sect_app fs l more p : data_area fs -> 0 <= p < room fs l -> file_sect fs (l ++ more) p = file_sect fs l p.
Proof.
  intros Hd Hp. unfold file_sect. rewrite lookup_total_app_l; [done|]. by apply cluster_index.
Qed.

Lemma like_file_sect fs fs' l p : like fs fs' -> file_sect fs' l p = file_sect fs l p.
Proof. by intros (la & fr & se & bu & fl & ->). Qed.
End DataArea.

(** ** Volumes that are ready for files *)

Section IO.
Context {D : Type} (ops : DiskOps D) (sectors : D -> Z -> list Z) `{!Reliable ops sectors}.
Implicit Types (s : fstate D) (fs : Fat D) (d : D) (f : File) (fat file c p x : Z) (l more : list Z).

Abbreviation coherent := (coherent ops sectors).
Abbreviation link := (link sectors).
Abbreviation view := (view sectors).
Abbreviation updates := (updates sectors).
Abbreviation same_view := (same_view sectors).

Record ready fs d : Prop := {
  ready_layout : layout fs;
  ready_coherent : coherent fs d;
  ready_sound : sound_table sectors fs d;
  ready_last : usable fs (last_used fs);
  ready_data : data_area fs;
}.

(** The volume has moved on: its table may have grown, its data have not
    changed. *)
Record advances fs d fs' d' : Prop := {
  adv_like : like fs fs';
  adv_ready : ready fs' d';
  adv_out : keeps_out fs fs';
  adv_view x : outside fs x -> view fs' d' x = view fs d x;
}.

Lemma advances_refl fs d : ready fs d -> advances fs d fs d.
Proof. intros H. constructor; [apply like_refl|done|apply keeps_out_refl|done]. Qed.

Lemma advances_trans fs1 d1 fs2 d2 fs3 d3 : advances fs1 d1 fs2 d2 -> advances fs2 d2 fs3 d3 -> advances fs1 d1 fs3 d3.
Proof.
  intros [Hk Hr Ho Hv] [Hk' Hr' Ho' Hv']. constructor; [by eapply like_trans|done|by eapply keeps_out_trans|].
  intros x Hx. rewrite Hv'; [by apply Hv|]. by destruct Hk as (la & fr & se & bu & fl & ->).
Qed.

(** A sector that is not buffered is read from the device. *)
Lemma advances_sectors fs d fs' d' x :
  advances fs d fs' d' -> outside fs x -> f_sect fs <> x -> sectors d' x = sectors d x.
Proof.
  intros [Hk Hr Ho Hv] Hx Hne. specialize (Hv x Hx). specialize (Ho x Hx Hne). unfold FatLogic.view in Hv.
  by rewrite !decide_False in Hv by done.
Qed.

Lemma like_sym fs fs' : like fs fs' -> like fs' fs.
Proof.
  intros (la & fr & se & bu & fl & ->).
  exists (last_used fs), (free_cnt fs), (f_sect fs), (f_buf fs), (f_flags fs). by destruct fs.
Qed.

Lemma like_usable fs fs' c : like fs fs' -> usable fs c -> usable fs' c.
Proof. by intros (la & fr & se & bu & fl & ->). Qed.

Lemma classify_link n v : 2 <= v < n -> n <= 0x0ffffff7 -> classify n v = Some CLUST_USED.
Proof. intros Hv Hn. unfold classify. repeat case_match; reflect_bool; try lia; try done. all: rewrite ?andb_false_iff in *; lia. Qed.

Lemma same_view_advances fs d fs' d' c :
  ready fs d -> 0 <= c < clust_cnt fs -> rebuffered fs fs' -> coherent fs' d' -> same_view fs d fs' d' ->
  f_sect fs' = entry_sect (fat_sect0 fs) c -> advances fs d fs' d'.
Proof.
  intros [Hl Hc Hs Hu Hd] Hr Hrb Hc' Hv Es. pose proof (rebuffered_like _ _ Hrb) as Hk.
  constructor; [done| |by eapply keeps_out_entry|intros x (Hx & _); apply Hv; lia].
  destruct (rebuffered_last _ _ Hrb) as [El En].
  constructor; [by eapply like_layout|done| |rewrite El; by eapply like_usable|by eapply like_data_area].
  intros x Hx. rewrite En in *. rewrite (same_view_link sectors fs d) by done. by apply Hs.
Qed.

Lemma updates_sound fs d fs' d' m :
  layout fs -> like fs fs' -> updates fs d fs' d' m -> sound_table sectors fs d ->
  (forall c v, m !! c = Some v -> classify (clust_cnt fs) (Z.land v 0x0fffffff) <> None) ->
  sound_table sectors fs' d'.
Proof.
  intros Hl Hk Hu Hs Hm c Hc. assert (En : clust_cnt fs' = clust_cnt fs) by (by destruct Hk as (la & fr & se & bu & fl & ->)).
  rewrite En in *. rewrite (updates_link _ fs d _ _ _ c Hk Hu Hc). destruct (m !! c) as [v|] eqn:E; [by eapply Hm|by apply Hs].
Qed.

Lemma stretched_advances fs d prev r fs' d' :
  ready fs d -> like fs fs' -> coherent fs' d' -> stretched sectors fs d prev r fs' d' -> advances fs d fs' d'.
Proof.
  intros [Hl Hc Hs Hu Hd] Hk Hc' Hst. pose proof (layout_cnt _ Hl) as Hn.
  assert (Hl' : layout fs') by (by eapply like_layout). assert (Hd' : data_area fs') by (by eapply like_data_area).
  destruct Hst as [(c & -> & Hcu & H0 & Hup & Elast & _ & _ & Es & _)|(-> & _ & Hup & Hko & Elast)].
  - constructor; [done| | |apply Hup].
    + constructor; [done..| |rewrite Elast; by eapply like_usable|done].
      eapply updates_sound with (fs := fs) (d := d); [exact Hl|exact Hk|exact Hup|exact Hs|]. intros x v Hx. unfold usable in Hcu.
      assert (v = c \/ v = 0x0fffffff) as [->| ->].
      { unfold attached in Hx. destruct (prev =? 0); [rewrite lookup_singleton_Some in Hx; naive_solver|].
        rewrite lookup_union_Some_raw, !lookup_singleton_Some in Hx. naive_solver. }
      * change 0x0fffffff with (Z.ones 28). rewrite Z.land_ones, Z.mod_small by lia. by rewrite classify_link by lia.
      * done.
    + intros x (_ & Hx & _) _. rewrite Es. destruct Hk as (la & fr & se & bu & fl & ->). simpl. congruence.
  - constructor; [done| |done|apply Hup].
    constructor; [done..| |rewrite Elast; by eapply like_usable|done].
    eapply updates_sound with (fs := fs) (d := d); [exact Hl|exact Hk|exact Hup|exact Hs|]. intros x v. by rewrite lookup_empty.
Qed.
(** *** Chains that advance *)

Lemma chain_lookup t n c l i x :
  chain t n c l -> l !! i = Some x ->
  (S i = length l /\ classify n (t x) = Some LAST) \/ (l !! S i = Some (t x) /\ classify n (t x) = Some CLUST_USED).
Proof.
  intros H. revert i. induction H as [c Hc Hl|c l Hc Hu H IH]; intros i Hi.
  - apply list_lookup_singleton_Some in Hi as [-> ->]. by left.
  - destruct i as [|i]; simpl in Hi.
    + injection Hi as ->. right. split; [|done]. by apply chain_used in H as (_ & k & -> & _).
    + destruct (IH i Hi) as [[E ?]|?]; [left; simpl; split; [lia|done]|by right].
Qed.

Lemma same_view_chain fs d fs' d' c l :
  layout fs -> rebuffered fs fs' -> same_view fs d fs' d' ->
  chain (link fs d) (clust_cnt fs) c l -> chain (link fs' d') (clust_cnt fs) c l.
Proof.
  intros Hl Hr Hv Hch. eapply chain_ext; [exact Hch|]. intros x Hx.
  apply (same_view_link sectors fs d); [done..|]. by eapply chain_range.
Qed.

Lemma updates_chain fs d fs' d' c l :
  like fs fs' -> updates fs d fs' d' ∅ ->
  chain (link fs d) (clust_cnt fs) c l -> chain (link fs' d') (clust_cnt fs) c l.
Proof.
  intros Hk Hu Hch. eapply chain_ext; [exact Hch|]. intros x Hx.
  rewrite (updates_link sectors fs d _ _ _ x Hk Hu); [by rewrite lookup_empty|]. by eapply chain_range.
Qed.

(** *** Open files *)

(** The state in which the file [file] is [f]. *)
Definition filed s file f : fstate D := set_fat_files (<[file := f]> (fat_files s)) s.

Lemma filed_here s file f : fat_files s !! file = Some f -> filed s file f = s.
Proof. intros H. unfold filed. destruct s; simpl in *. by rewrite insert_id. Qed.

Lemma wp_get_file s file f fat fs d Q :
  Q (Ok f) (vol (filed s file f) fat fs d) -> wp (get_file file) Q (vol (filed s file f) fat fs d).
Proof. intros HQ. unfold get_file. fsteps. eapply wp_access; [apply lookup_insert_eq|done]. Qed.

Lemma wp_upd_file s file f fat fs d g Q :
  Q (Ok tt) (vol (filed s file (g f)) fat fs d) -> wp (upd_file file g) Q (vol (filed s file f) fat fs d).
Proof.
  intros HQ. unfold upd_file. fstep. apply wp_get_file. fstep. unfold vol, filed in *. simpl.
  rewrite alter_insert_eq. by destruct s.
Qed.

(** A full volume stays full while no link changes. *)
Lemma full_stays fs d fs' d' :
  like fs fs' -> updates fs d fs' d' ∅ -> last_used fs' = last_used fs -> full sectors fs d -> full sectors fs' d'.
Proof.
  intros Hk Hu Elast Hf c Hc Hne. apply (like_usable fs' fs) in Hc; [|by apply like_sym].
  rewrite (updates_link sectors fs d _ _ _ c Hk Hu) by (unfold usable in Hc; lia).
  rewrite lookup_empty. apply Hf; congruence.
Qed.

(** Moving to the next cluster of a chain, which grows at its end. *)
Lemma wp_next_cluster s fat fs d file f l i Q :
  ready fs d -> chain (link fs d) (clust_cnt fs) (fl_sclust f) l -> Forall (usable fs) l -> l !! i = Some (fl_clust f) ->
  (forall fs' d' more c, advances fs d fs' d' -> chain (link fs' d') (clust_cnt fs) (fl_sclust f) (l ++ more) ->
     Forall (usable fs) (l ++ more) -> (l ++ more) !! S i = Some c -> (more = [] \/ f_sect fs' = info_sect fs) ->
     Q (Ok tt) (vol (filed s file (set_fl_clust c f)) fat fs' d')) ->
  (forall fs' d', advances fs d fs' d' -> chain (link fs' d') (clust_cnt fs) (fl_sclust f) l -> S i = length l ->
     full sectors fs' d' -> Q (Err FAT_ERR_FULL) (vol (filed s file f) fat fs' d')) ->
  wp (seek_clusters 1 file fat) Q (vol (filed s file f) fat fs d).
Proof.
  intros Hrd Hch Hus Hi HQ Hfull. pose proof Hrd as [Hl Hc Hs Hu Hd]. simpl.
  assert (Hx : fl_clust f ∈ l) by (by eapply list_elem_of_lookup_2).
  pose proof (chain_range _ _ _ _ Hch _ Hx) as Hr.
  fstep. apply wp_get_file. fstep. eapply (wp_get_fat ops sectors); [done..|].
  intros fs1 d1 Hr1 Hc1 Hv1 Es1.
  pose proof (same_view_advances _ _ _ _ _ Hrd Hr Hr1 Hc1 Hv1 Es1) as Ha1.
  pose proof (same_view_chain _ _ _ _ _ _ Hl Hr1 Hv1 Hch) as Hch1.
  assert (Hgo : forall fs' d' more c, advances fs d fs' d' ->
    chain (link fs' d') (clust_cnt fs) (fl_sclust f) (l ++ more) -> Forall (usable fs) (l ++ more) ->
    (l ++ more) !! S i = Some c -> (more = [] \/ f_sect fs' = info_sect fs) ->
    wp (ebind (upd_file file (set_fl_clust c)) (fun _ => ok tt)) Q (vol (filed s file f) fat fs' d')).
  { intros fs' d' more c Ha Hch' Hus' Hc' Hm. fstep. apply wp_upd_file. fstep. by eapply HQ. }
  destruct (chain_lookup _ _ _ _ _ _ Hch Hi) as [[Elen Ecl]|[Hnext Ecl]]; rewrite Ecl; fstep.
  - apply wp_fail_if; intros Hb; [done|clear Hb]. change (has LAST CLUST_LAST) with true. cbv iota. fstep.
    destruct Ha1 as [Hk1 Hrd1 Ho1 Hvw1]. pose proof Hrd1 as [Hl1 _ Hs1 Hu1 _].
    assert (En : clust_cnt fs1 = clust_cnt fs) by (by apply rebuffered_last).
    eapply wp_stretch_chain; [done..|by rewrite En|].
    intros r fs2 d2 Hk2 Hc2 Hst.
    pose proof (stretched_advances _ _ _ _ _ _ Hrd1 Hk2 Hc2 Hst) as Ha2.
    assert (Ha : advances fs d fs2 d2) by (eapply advances_trans; [by constructor|done]).
    rewrite <- En in Hch1.
    destruct Hst as [(c & -> & Hcu & H0 & Hup & _ & _ & _ & Es & _)|(-> & Hf & Hup & _ & Elast)].
    + assert (Esplit : exists l0, l = l0 ++ [fl_clust f]).
      { exists (take i l). rewrite <- (take_drop i l) at 1. f_equal. rewrite (drop_S _ _ _ Hi), drop_ge by lia. done. }
      destruct Esplit as [l0 El0].
      eapply (Hgo _ _ [c]); [done| | | |].
      * rewrite <- En, El0, <- app_assoc. rewrite El0 in Hch1.
        apply (stretched_chain sectors fs1 d1); try done.
        rewrite Forall_forall in Hus. specialize (Hus _ Hx). unfold usable in Hus. lia.
      * apply Forall_app. split; [done|]. constructor; [|done]. unfold usable in *. by rewrite <- En.
      * rewrite lookup_app_r by lia. by replace (S i - length l)%nat with 0%nat by lia.
      * right. rewrite Es. destruct Hk2 as (la & fr & se & bu & fl & ->), Hk1 as (la' & fr' & se' & bu' & fl' & ->). done.
    + apply Hfull; [done| |done|].
      * rewrite <- En. by apply (updates_chain fs1 d1).
      * by apply (full_stays fs1 d1).
  - apply wp_fail_if; intros Hb; [done|clear Hb]. change (has CLUST_USED CLUST_LAST) with false. cbv iota. fstep.
    eapply (Hgo _ _ []); rewrite ?app_nil_r; [done..|by left].
Qed.
(** The file [f] of the volume at [fat] has the clusters [l], and its buffer is
    that of the sector its cursor is in. *)
Record file_at fs d fat f l : Prop := {
  at_fat : fl_fat f = Some fat;
  at_chain : chain (link fs d) (clust_cnt fs) (fl_sclust f) l;
  at_usable : Forall (usable fs) l;
  at_offset : 0 <= fl_offset f < room fs l;
  at_clust : fl_clust f = l !!! Z.to_nat (fl_offset f / cluster_bytes fs);
  at_sect : fl_sect f = file_sect fs l (fl_offset f);
  at_block : block (fl_buf f);
  at_clean : has (fl_flags f) FAT_FILE_DIRTY = false -> fl_buf f = sectors d (fl_sect f);
  at_apart p : 0 <= p < room fs l -> f_sect fs <> file_sect fs l p;
}.

(** Byte [p] of the file. *)
Definition file_byte fs d f l p : Z :=
  (if decide (file_sect fs l p = fl_sect f) then fl_buf f else sectors d (file_sect fs l p)) !!! Z.to_nat (p mod 512).

(** The fields that moving the cursor leaves alone. *)
Definition same_file f f' : Prop :=
  fl_fat f' = fl_fat f /\ dir_sect f' = dir_sect f /\ dir_idx f' = dir_idx f /\ fl_sclust f' = fl_sclust f /\
  fl_size f' = fl_size f /\ fl_attr f' = fl_attr f /\
  forall mask, mask ∈ [FAT_READ; FAT_WRITE; FAT_ACCESSED; FAT_MODIFIED] -> has (fl_flags f') mask = has (fl_flags f) mask.

(** The cursor of [f] at offset [off], in cluster [c]. *)
Definition moved fs f c off : File :=
  set_fl_offset off (set_fl_sect (u32 (clust_to_sect fs c + Z.land (off / 512) (clust_msk fs))) (set_fl_clust c f)).

Lemma coherent_apart fs d d' x buf :
  coherent fs d -> working d' -> f_sect fs <> x ->
  (forall y, sectors d' y = if decide (y = x) then buf else sectors d y) -> coherent fs d'.
Proof.
  intros [Ho Hlen He Hcl] Hw Hne Hd. constructor; [done..| |done|done].
  intros H0 Hc. rewrite Hd, decide_False by done. by apply Hcl.
Qed.

Lemma coherent_same fs d d' :
  coherent fs d -> working d' -> (forall y, sectors d' y = sectors d y) -> coherent fs d'.
Proof.
  intros [Ho Hlen He Hcl] Hw Hd. constructor; [done..| |done|done]. intros H0 Hc. rewrite Hd. by apply Hcl.
Qed.

Lemma wp_move_file_buf s fat fs d file f ssect Q :
  coherent fs d -> f_sect fs <> ssect -> block (fl_buf f) -> 0 <= ssect < 2 ^ 32 -> 0 <= fl_sect f < 2 ^ 32 ->
  (fl_sect f = ssect -> Q (Ok tt) (vol (filed s file f) fat fs d)) ->
  (fl_sect f <> ssect -> has (fl_flags f) FAT_FILE_DIRTY = false -> forall d',
     (forall x, sectors d' x = sectors d x) -> coherent fs d' ->
     Q (Ok tt) (vol (filed s file (set_fl_buf (sectors d (fl_sect f)) f)) fat fs d')) ->
  (fl_sect f <> ssect -> has (fl_flags f) FAT_FILE_DIRTY = true -> forall d',
     (forall x, sectors d' x = if decide (x = ssect) then fl_buf f else sectors d x) -> coherent fs d' ->
     Q (Ok tt) (vol (filed s file (set_fl_buf (sectors d (fl_sect f))
       (set_fl_flags (clear (fl_flags f) FAT_FILE_DIRTY) f))) fat fs d')) ->
  wp (move_file_buf file fat ssect) Q (vol (filed s file f) fat fs d).
Proof.
  intros Hc Hne Hlen Hss Hfs Hsame Hclean Hdirty. pose proof (coherent_working _ _ _ _ Hc) as Hw. unfold move_file_buf. fstep. apply wp_get_file.
  destruct (Z.eqb_spec (fl_sect f) ssect) as [E|E]; [fstep; by apply Hsame|].
  fstep. apply wp_get_fs. destruct (has (fl_flags f) FAT_FILE_DIRTY) eqn:Ed; do 2 fstep.
  - rewrite (coherent_ops _ _ _ _ Hc). eapply (wp_ops_write ops sectors); [done..|].
    intros d1 Hw1 Hd1. fstep. cbn [negb fail_if]. fstep. apply wp_upd_file. fstep. apply wp_get_file.
    fstep. eapply (wp_ops_read ops sectors); [done..|]. intros d2 Hw2 Hd2. fstep.
    apply wp_upd_file. cbn [negb fail_if]. fstep. cbn [fl_sect set_fl_flags]. rewrite Hd1, decide_False by done.
    assert (Hd : forall x, sectors d2 x = if decide (x = ssect) then fl_buf f else sectors d x)
      by (intros x; by rewrite Hd2, Hd1).
    apply Hdirty; [done..|]. by eapply coherent_apart.
  - fstep. apply wp_get_file. fstep. rewrite (coherent_ops _ _ _ _ Hc).
    eapply (wp_ops_read ops sectors); [done..|]. intros d2 Hw2 Hd2. fstep.
    apply wp_upd_file. cbn [negb fail_if]. fstep. apply Hclean; [done..|]. by eapply coherent_same.
Qed.
(** A sector of the data area that holds no byte of a file with the clusters
    [l]. *)
Definition elsewhere fs l x : Prop := data_sect fs <= x /\ forall p, 0 <= p < room fs l -> x <> file_sect fs l p.

(** The file has moved on, and perhaps its chain has grown: the volume is
    still ready, and no other data sector has changed. *)
Record evolves fs d fat f l fs' d' f' l' : Prop := {
  ev_like : like fs fs';
  ev_ready : ready fs' d';
  ev_prefix : l `prefix_of` l';
  ev_file : file_at fs' d' fat f' l';
  ev_same : same_file f f';
  ev_else x : elsewhere fs l' x -> f_sect fs <> x -> f_sect fs' <> x /\ sectors d' x = sectors d x;
}.

Lemma like_room fs fs' l : like fs fs' -> room fs' l = room fs l.
Proof. by intros (la & fr & se & bu & fl & ->). Qed.

Lemma room_prefix fs l l' : data_area fs -> l `prefix_of` l' -> room fs l <= room fs l'.
Proof.
  intros Hd [k ->]. pose proof (per_cluster_pos _ Hd). unfold room, cluster_bytes. rewrite length_app. nia.
Qed.

Lemma file_sect_prefix fs l l' p :
  data_area fs -> l `prefix_of` l' -> 0 <= p < room fs l -> file_sect fs l' p = file_sect fs l p.
Proof. intros Hd [k ->]. by apply file_sect_app. Qed.

Lemma elsewhere_prefix fs l l' x : data_area fs -> l `prefix_of` l' -> elsewhere fs l' x -> elsewhere fs l x.
Proof.
  intros Hd Hp [Hx He]. split; [done|]. intros p Hr.
  pose proof (room_prefix _ _ _ Hd Hp). rewrite <- (file_sect_prefix fs l l' p Hd Hp Hr). apply He. lia.
Qed.

Lemma like_elsewhere fs fs' l x : like fs fs' -> elsewhere fs l x -> elsewhere fs' l x.
Proof. by intros (la & fr & se & bu & fl & ->). Qed.

Lemma same_file_trans f1 f2 f3 : same_file f1 f2 -> same_file f2 f3 -> same_file f1 f3.
Proof.
  intros (?&?&?&?&?&?&H) (?&?&?&?&?&?&H'). unfold same_file. repeat (split; [congruence|]).
  intros m Hm. by rewrite H', H.
Qed.

Lemma evolves_trans fs1 d1 f1 l1 fs2 d2 f2 l2 fs3 d3 f3 l3 fat :
  evolves fs1 d1 fat f1 l1 fs2 d2 f2 l2 -> evolves fs2 d2 fat f2 l2 fs3 d3 f3 l3 -> evolves fs1 d1 fat f1 l1 fs3 d3 f3 l3.
Proof.
  intros [Hk Hr Hp Hf Hs He] [Hk' Hr' Hp' Hf' Hs' He'].
  constructor; [by eapply like_trans|done|by etransitivity|done|by eapply same_file_trans|].
  intros x Hx Hne.
  assert (Hd1 : data_area fs1) by (apply (like_data_area fs2); [by apply like_sym|apply Hr]).
  destruct (He x) as [Hne2 E2]; [by eapply elsewhere_prefix|done|].
  destruct (He' x) as [Hne3 E3]; [by eapply like_elsewhere|done|]. split; [done|congruence].
Qed.

Lemma has_clear_dirty flags mask :
  mask ∈ [FAT_READ; FAT_WRITE; FAT_ACCESSED; FAT_MODIFIED] -> has (clear flags FAT_FILE_DIRTY) mask = has flags mask.
Proof.
  intros Hm. unfold has, clear. rewrite <- Z.land_assoc. do 3 f_equal.
  rewrite !elem_of_cons, elem_of_nil in Hm. by destruct Hm as [->|[->|[->|[->|[]]]]].
Qed.
(** The cluster of the new position has been reached: [fs1], [d1] and [l'] are
    the volume and the chain then. *)
Record arrived fs d fat f l fs1 d1 l' off : Prop := {
  arr_ready : ready fs d;
  arr_file : file_at fs d fat f l;
  arr_advances : advances fs d fs1 d1;
  arr_chain : chain (link fs1 d1) (clust_cnt fs) (fl_sclust f) l';
  arr_usable : Forall (usable fs) l';
  arr_prefix : l `prefix_of` l';
  arr_off : 0 <= off < room fs l';
  arr_grown : l' = l \/ f_sect fs1 = info_sect fs;
}.

(** The cursor of [f] once it is there. *)
Definition arrival fs f l' off : File := moved fs f (l' !!! Z.to_nat (off / cluster_bytes fs)) off.

Lemma arrival_sect fs fs1 f l' off : like fs fs1 -> fl_sect (arrival fs1 f l' off) = file_sect fs l' off.
Proof. by intros (la & fr & se & bu & fl & ->). Qed.

Lemma arrived_apart fs d fat f l fs1 d1 l' off p :
  arrived fs d fat f l fs1 d1 l' off -> 0 <= p < room fs l' ->
  outside fs (file_sect fs l' p) /\ f_sect fs1 <> file_sect fs l' p.
Proof.
  intros [[Hl _ _ _ Hd] Hat [_ _ Ho _] _ Hus Hpre _ Hl'] Hp.
  assert (Hout : outside fs (file_sect fs l' p)) by (apply data_outside; [done..|]; by apply file_sect_bounds).
  split; [done|]. destruct Hl' as [->|Es]; [apply Ho; [done|by apply Hat]|].
  rewrite Es. destruct Hout as (_ & Hne & _). congruence.
Qed.

Lemma arrived_old fs d fat f l fs1 d1 l' off :
  arrived fs d fat f l fs1 d1 l' off -> f_sect fs1 <> fl_sect f /\
  forall p, 0 <= p < room fs l -> sectors d1 (file_sect fs l p) = sectors d (file_sect fs l p).
Proof.
  intros Ha. pose proof Ha as [[Hl _ _ _ Hd] Hat Hadv _ _ Hpre _ _]. pose proof (room_prefix _ _ _ Hd Hpre) as Hroom.
  split.
  - rewrite (at_sect _ _ _ _ _ Hat), <- (file_sect_prefix fs l l') by (done || apply Hat).
    eapply arrived_apart; [done|]. pose proof (at_offset _ _ _ _ _ Hat). lia.
  - intros p Hp. eapply advances_sectors; [exact Hadv| |by apply Hat].
    apply data_outside; [done..|]. apply file_sect_bounds; try done. apply Hat.
Qed.

(** Writing a data sector leaves the table alone. *)
Lemma data_write_link fs d d' y c :
  layout fs -> data_area fs -> data_sect fs <= y -> (forall x, x <> y -> sectors d' x = sectors d x) ->
  0 <= c < clust_cnt fs -> link fs d' c = link fs d c.
Proof.
  intros Hl Hd Hy He Hc. assert (Ht : is_table fs (fat_sect0 fs)) by (by left).
  destruct (entry_sect_in _ _ _ Hl Ht Hc) as [_ Hin]. pose proof (data_tables _ Hd _ Ht).
  unfold FatChain.link, entry, FatLogic.view. rewrite He; [done|]. lia.
Qed.

(** Any way of bringing the new sector into the buffer, and of writing the old
    one back, that keeps the bytes of the file. *)
Lemma arrived_evolves fs d fat f l fs1 d1 l' off d' buf flags :
  arrived fs d fat f l fs1 d1 l' off ->
  let f' := set_fl_buf buf (set_fl_flags flags (arrival fs1 f l' off)) in
  coherent fs1 d' -> block buf ->
  (has flags FAT_FILE_DIRTY = false -> buf = sectors d' (fl_sect f')) ->
  (forall mask, mask ∈ [FAT_READ; FAT_WRITE; FAT_ACCESSED; FAT_MODIFIED] -> has flags mask = has (fl_flags f) mask) ->
  (forall x, (if decide (x = fl_sect f') then buf else sectors d' x) =
     (if decide (x = fl_sect f) then fl_buf f else sectors d1 x)) ->
  (forall x, x <> fl_sect f -> sectors d' x = sectors d1 x) ->
  evolves fs d fat f l fs1 d' f' l' /\ fl_offset f' = off /\
  forall p, 0 <= p < room fs l -> file_byte fs1 d' f' l' p = file_byte fs d f l p.
Proof.
  intros Ha f' Hc' Hlen Hcln Hflags Hbytes Helse.
  pose proof Ha as [[Hl Hc Hs Hu Hd] Hat Hadv Hch Hus Hpre Hoff Hgrown]. pose proof Hadv as [Hk [Hl1 Hc1 Hs1 Hu1 Hd1] Ho Hv].
  assert (En : clust_cnt fs1 = clust_cnt fs) by (by destruct Hk as (la & fr & se & bu & fl & ->)).
  assert (Ecb : cluster_bytes fs1 = cluster_bytes fs) by (by destruct Hk as (la & fr & se & bu & fl & ->)).
  assert (Hold : fl_sect f = file_sect fs l' (fl_offset f)).
  { rewrite (file_sect_prefix fs l l') by (done || apply Hat). apply Hat. }
  assert (Hdata : data_sect fs1 <= fl_sect f).
  { replace (data_sect fs1) with (data_sect fs) by (by destruct Hk as (la & fr & se & bu & fl & ->)).
    rewrite (at_sect _ _ _ _ _ Hat). apply file_sect_bounds; try done; apply Hat. }
  assert (Hlink : forall c, 0 <= c < clust_cnt fs1 -> link fs1 d' c = link fs1 d1 c).
  { intros c Hcr. by apply (data_write_link fs1 d1 d' (fl_sect f)). }
  assert (Hbyte : forall p, 0 <= p < room fs l -> file_byte fs1 d' f' l' p = file_byte fs d f l p).
  { intros p Hp. unfold file_byte. rewrite (like_file_sect fs fs1) by done.
    rewrite (file_sect_prefix fs l l') by done. f_equal. rewrite Hbytes. case_decide; [done|].
    by apply (arrived_old _ _ _ _ _ _ _ _ _ Ha). }
  split; [|by split]. constructor; [done| |done| | |].
  - constructor; [done..| |done|done]. intros c Hcr. rewrite Hlink by done. by apply Hs1.
  - constructor.
    + apply Hat.
    + rewrite En. eapply chain_ext; [exact Hch|]. intros x Hx. apply Hlink. rewrite En. by eapply chain_range.
    + eapply Forall_impl; [exact Hus|]. intros c. by apply like_usable.
    + by rewrite (like_room fs fs1).
    + simpl. by rewrite Ecb.
    + change (fl_sect f') with (fl_sect (arrival fs1 f l' off)).
      by rewrite (arrival_sect fs fs1), (like_file_sect fs fs1).
    + done.
    + done.
    + intros p. rewrite (like_room fs fs1), (like_file_sect fs fs1) by done. intros Hp.
      by eapply arrived_apart.
  - unfold same_file. repeat (split; [done|]). done.
  - intros x [Hx Hne] Hb. pose proof (data_outside _ _ Hl Hd Hx) as Hout. split; [by apply Ho|].
    rewrite Helse; [by eapply advances_sectors|]. rewrite Hold. apply Hne.
    pose proof (room_prefix _ _ _ Hd Hpre). pose proof (at_offset _ _ _ _ _ Hat). lia.
Qed.
Lemma wp_finish_seek s fat fs d file f l fs1 d1 l' off Q :
  arrived fs d fat f l fs1 d1 l' off ->
  (forall d' f', evolves fs d fat f l fs1 d' f' l' -> fl_offset f' = off ->
     (forall p, 0 <= p < room fs l -> file_byte fs1 d' f' l' p = file_byte fs d f l p) ->
     Q (Ok tt) (vol (filed s file f') fat fs1 d')) ->
  wp (move_file_buf file fat (fl_sect f)) Q (vol (filed s file (arrival fs1 f l' off)) fat fs1 d1).
Proof.
  intros Ha HQ. pose proof Ha as [_ Hat [_ [_ Hc1 _ _ _] _ _] _ _ _ _ _].
  destruct (arrived_old _ _ _ _ _ _ _ _ _ Ha) as [Hne _]. set (f1 := arrival fs1 f l' off).
  assert (Hgo : forall d' buf flags, coherent fs1 d' -> block buf ->
    (has flags FAT_FILE_DIRTY = false -> buf = sectors d' (fl_sect f1)) ->
    (forall mask, mask ∈ [FAT_READ; FAT_WRITE; FAT_ACCESSED; FAT_MODIFIED] -> has flags mask = has (fl_flags f) mask) ->
    (forall x, (if decide (x = fl_sect f1) then buf else sectors d' x) =
       (if decide (x = fl_sect f) then fl_buf f else sectors d1 x)) ->
    (forall x, x <> fl_sect f -> sectors d' x = sectors d1 x) ->
    Q (Ok tt) (vol (filed s file (set_fl_buf buf (set_fl_flags flags f1))) fat fs1 d')).
  { intros d' buf flags H1 H2 H3 H4 H5 H6.
    destruct (arrived_evolves _ _ _ _ _ _ _ _ _ d' buf flags Ha H1 H2 H3 H4 H5 H6) as (He & Eo & Hb). by apply HQ. }
  pose proof (at_block _ _ _ _ _ Hat) as Hlen.
  pose proof (reliable_block d1 (fl_sect f1) (coherent_working _ _ _ _ Hc1)) as Hlen1.
  assert (Hcln : has (fl_flags f) FAT_FILE_DIRTY = false -> fl_buf f = sectors d1 (fl_sect f)).
  { intros Hf. rewrite (at_clean _ _ _ _ _ Hat Hf), (at_sect _ _ _ _ _ Hat). symmetry.
    apply (arrived_old _ _ _ _ _ _ _ _ _ Ha), Hat. }
  assert (Hr : 0 <= fl_sect f1 < 2 ^ 32) by apply u32_range.
  assert (Hrf : 0 <= fl_sect f < 2 ^ 32) by (rewrite (at_sect _ _ _ _ _ Hat); apply file_sect_range).
  apply wp_move_file_buf; [done..|intros E|intros E Hf d' Hd' Hc'|intros E Hf d' Hd' Hc'].
  - specialize (Hgo d1 (fl_buf f) (fl_flags f)). replace (set_fl_buf _ _) with f1 in Hgo by (by destruct f).
    apply Hgo; try done.
    + intros Hf. rewrite E. by apply Hcln.
    + intros x. by rewrite E.
  - specialize (Hgo d' (sectors d1 (fl_sect f1)) (fl_flags f)).
    replace (set_fl_flags _ _) with f1 in Hgo by (by destruct f). apply Hgo; try done.
    intros x. rewrite Hd'. repeat case_decide; try congruence. rewrite Hcln by done. congruence.
  - change (fl_buf f1) with (fl_buf f) in Hd'. apply Hgo; try done.
    + intros _. by rewrite Hd', decide_False.
    + intros m Hm. by apply has_clear_dirty.
    + intros x. rewrite Hd'. repeat case_decide; congruence.
    + intros x Hx. by rewrite Hd', decide_False.
Qed.
(** The file has not moved, but the volume has. *)
Lemma stayed_evolves fs d fat f l fs1 d1 :
  ready fs d -> file_at fs d fat f l -> advances fs d fs1 d1 ->
  chain (link fs1 d1) (clust_cnt fs) (fl_sclust f) l ->
  evolves fs d fat f l fs1 d1 f l /\
  forall p, 0 <= p < room fs l -> file_byte fs1 d1 f l p = file_byte fs d f l p.
Proof.
  intros Hrd Hat Hadv Hch.
  assert (Ha : arrived fs d fat f l fs1 d1 l (fl_offset f)).
  { constructor; [done..|apply Hat|done|apply Hat|by left]. }
  assert (Ef : set_fl_buf (fl_buf f) (set_fl_flags (fl_flags f) (arrival fs1 f l (fl_offset f))) = f).
  { pose proof (arrival_sect fs fs1 f l (fl_offset f) (adv_like _ _ _ _ Hadv)) as Es.
    rewrite <- (at_sect _ _ _ _ _ Hat) in Es. pose proof (at_clust _ _ _ _ _ Hat) as Ec.
    assert (Ecb : cluster_bytes fs1 = cluster_bytes fs)
      by (by destruct (adv_like _ _ _ _ Hadv) as (la & fr & se & bu & fl & ->)).
    unfold arrival, moved in *. rewrite Ecb in *. destruct f.
    unfold set_fl_buf, set_fl_flags, set_fl_offset, set_fl_sect, set_fl_clust in *. simpl in *. congruence. }
  destruct (arrived_old _ _ _ _ _ _ _ _ _ Ha) as [_ Hold].
  pose proof (arrived_evolves fs d fat f l fs1 d1 l (fl_offset f) d1 (fl_buf f) (fl_flags f) Ha) as H.
  cbv zeta in H. rewrite Ef in H. destruct H as (He & _ & Hb); [apply Hadv|apply Hat| |done..|by split].
  intros Hf. rewrite (at_clean _ _ _ _ _ Hat Hf), (at_sect _ _ _ _ _ Hat). symmetry. apply Hold, Hat.
Qed.

(** The cursor enters the cluster it goes to: the end of [fat_file_seek]. *)
Lemma wp_enter_cluster s fat fs d file f l fs1 d1 l' off c Q :
  file_at fs d fat f l -> arrived fs d fat f l fs1 d1 l' off -> l' !! Z.to_nat (off / cluster_bytes fs) = Some c ->
  (forall d' f', evolves fs d fat f l fs1 d' f' l' -> fl_offset f' = off ->
     (forall p, 0 <= p < room fs l -> file_byte fs1 d' f' l' p = file_byte fs d f l p) ->
     Q (Ok tt) (vol (filed s file f') fat fs1 d')) ->
  wp (ebind (get_fs fat) (fun fs => ebind (upd_file file (fun f0 => set_fl_offset off
    (set_fl_sect (u32 (clust_to_sect fs (fl_clust f0) + Z.land (off / 512) (clust_msk fs))) f0)))
    (fun _ => move_file_buf file fat (fl_sect f)))) Q (vol (filed s file (set_fl_clust c f)) fat fs1 d1).
Proof.
  intros Hat Ha Hcl HQ. fstep. apply wp_get_fs. fstep. apply wp_upd_file.
  assert (Ecb1 : cluster_bytes fs1 = cluster_bytes fs)
    by (by destruct Ha as [_ _ [(la & fr & se & bu & fl & ->) _ _ _] _ _ _ _ _]).
  replace (set_fl_offset _ _) with (arrival fs1 f l' off).
  - eapply wp_finish_seek; [exact Ha|exact HQ].
  - unfold arrival, moved. rewrite Ecb1. by rewrite (list_lookup_total_correct _ _ _ Hcl).
Qed.

(** Moving the cursor forward by at most a sector. *)
Lemma wp_seek_forward s fat fs d file f l cnt Q :
  ready fs d -> file_at fs d fat f l -> 0 <= cnt <= 512 -> fl_offset f + cnt < 2 ^ 32 ->
  (forall fs' d' f' l', evolves fs d fat f l fs' d' f' l' -> fl_offset f' = fl_offset f + cnt ->
     (forall p, 0 <= p < room fs l -> file_byte fs' d' f' l' p = file_byte fs d f l p) ->
     Q (Ok tt) (vol (filed s file f') fat fs' d')) ->
  (forall fs' d', evolves fs d fat f l fs' d' f l -> full sectors fs' d' -> room fs l <= fl_offset f + cnt ->
     (forall p, 0 <= p < room fs l -> file_byte fs' d' f l p = file_byte fs d f l p) ->
     Q (Err FAT_ERR_FULL) (vol (filed s file f) fat fs' d')) ->
  wp (fat_file_seek file cnt FAT_SEEK_CURR) Q (vol (filed s file f) fat fs d).
Proof.
  intros Hrd Hat Hcnt Hoff HQ Hfull. pose proof Hrd as [Hl Hc Hs Hu Hd]. pose proof (per_cluster_pos _ Hd) as Hpc.
  pose proof (at_offset _ _ _ _ _ Hat) as Ho. pose proof (cluster_index fs l _ Hd Ho) as Hi.
  unfold fat_file_seek. fstep. apply wp_get_file. fstep. unfold file_fat. fstep. apply wp_get_file.
  rewrite (at_fat _ _ _ _ _ Hat). fstep. fstep. apply wp_get_fs. cbv zeta.
  change (FAT_SEEK_CURR =? FAT_SEEK_CURR) with true. cbv iota. fstep. apply wp_fail_if; [intros Hb|intros _].
  { rewrite orb_true_iff, Z.ltb_lt, Z.ltb_lt in Hb. lia. }
  assert (Ecb : u32 (Z.shiftl 512 (clust_shift fs)) = cluster_bytes fs).
  { unfold cluster_bytes. rewrite Z.shiftl_mul_pow2 by apply Hd. apply u32_id. lia. }
  rewrite Ecb. set (cb := cluster_bytes fs) in *. assert (Hcb : 512 <= cb) by (unfold cb, cluster_bytes; lia).
  fstep. destruct (Z.eqb_spec cb 0); [lia|]. fstep. fstep.
  set (i := fl_offset f / cb) in *. set (j := (fl_offset f + cnt) / cb) in *.
  assert (Hi0 : 0 <= i) by (apply Z.div_pos; lia).
  assert (Hj : i <= j <= i + 1) by 
    by (unfold i, j; rewrite <- (Z.div_add (fl_offset f) 1 cb) by lia; split; apply Z.div_le_mono; lia).
  destruct (Z.ltb_spec j i); [lia|]. fstep. fstep.
  assert (Hin : forall l', (Z.to_nat j < length l')%nat -> 0 <= fl_offset f + cnt < room fs l').
  { intros l' Hj'. unfold room. fold cb. assert (Hlt : j < Z.of_nat (length l')) by lia. unfold j in Hlt.
    pose proof (Z.mul_succ_div_gt (fl_offset f + cnt) cb). split; [lia|nia]. }
  assert (Hgo : forall fs1 d1 l' c, arrived fs d fat f l fs1 d1 l' (fl_offset f + cnt) -> l' !! Z.to_nat j = Some c -> _)
    by (intros fs1 d1 l' c Ha Hcl; exact (wp_enter_cluster s fat fs d file f l fs1 d1 l' _ c Q Hat Ha Hcl
      (fun d' f' He Eo Hb => HQ fs1 d' f' l' He Eo Hb))).
  destruct (decide (j = i)) as [E|E].
  - replace (Z.to_nat (j - i)) with 0%nat by lia. simpl. fstep.
    assert (Hlt : (Z.to_nat j < length l)%nat) by (rewrite E; done).
    specialize (Hgo fs d l (fl_clust f)). replace (set_fl_clust (fl_clust f) f) with f in Hgo by (by destruct f).
    apply Hgo.
    + constructor; [done|done|by apply advances_refl|apply Hat|apply Hat|done|by apply Hin|by left].
    + rewrite (at_clust _ _ _ _ _ Hat). fold cb i. rewrite E. by apply list_lookup_lookup_total_lt.
  - replace (Z.to_nat (j - i)) with 1%nat by lia.
    apply wp_next_cluster with (l := l) (i := Z.to_nat i); [done|apply Hat|apply Hat| | |].
    + rewrite (at_clust _ _ _ _ _ Hat). fold cb i. by apply list_lookup_lookup_total_lt.
    + intros fs1 d1 more c Ha Hch Hus Hc1 Hmore. replace (S (Z.to_nat i)) with (Z.to_nat j) in Hc1 by lia.
      apply (Hgo _ _ (l ++ more)); [|done]. constructor; [done..|by exists more| |].
      * apply Hin. by eapply lookup_lt_Some.
      * destruct Hmore as [->|?]; [left; apply app_nil_r|by right].
    + intros fs1 d1 Ha Hch Hlen Hf. destruct (stayed_evolves _ _ _ _ _ _ _ Hrd Hat Ha Hch) as [He Hb].
      apply Hfull; [done..| |done]. unfold room. fold cb.
      pose proof (Z.mul_div_le (fl_offset f + cnt) cb) as Hm. fold j in Hm. nia.
Qed.
End IO.
