(* ===== verification/FatStream.v ===== *)
(** * The FAT32 library: reading and writing the bytes of a file

    The loops of [fat_file_read] and [fat_file_write] against the bytes of a
    file: a read returns them, a write replaces them, both advance the cursor,
    and a full volume stops them at the end of the room of the file. *)

From S2P Require Import Prelude Exec FatTypes FatBytes FatNames FatTable FatFile FatLogic FatChain FatAlloc FatIO.

Section Streams.
Context {D : Type} (ops : DiskOps D) (sectors : D -> Z -> list Z) `{!Reliable ops sectors}.
Implicit Types (s : fstate D) (fs : Fat D) (d : D) (f : File) (fat file p : Z) (l src : list Z) (n : nat).

Abbreviation ready := (ready ops sectors).
Abbreviation file_at := (file_at sectors).
Abbreviation file_byte := (file_byte sectors).
Abbreviation evolves := (evolves ops sectors).

(** ** The bytes in the buffer *)

Lemma file_at_sect fs d fat f l p :
  ready fs d -> file_at fs d fat f l -> 0 <= p < room fs l ->
  file_sect fs l p = fl_sect f <-> p / 512 = fl_offset f / 512.
Proof.
  intros [Hl _ _ _ Hd] Hat Hp. rewrite (at_sect _ _ _ _ _ _ Hat). split.
  - apply file_sect_inj; try done; [apply Hat| |apply Hat]. eapply chain_NoDup, Hat.
  - by apply file_sect_same.
Qed.

(** Positions of the sector of the cursor. *)
Lemma same_sector p q : p / 512 = q / 512 <-> q - q mod 512 <= p < q - q mod 512 + 512.
Proof. pose proof (Z.div_mod p 512). pose proof (Z.div_mod q 512). pose proof (Z.mod_pos_bound p 512). pose proof (Z.mod_pos_bound q 512). lia. Qed.

Lemma same_sector_index p q : p / 512 = q / 512 -> p mod 512 = p - q + q mod 512.
Proof. intros E. rewrite (Z.mod_eq p), (Z.mod_eq q), E by lia. lia. Qed.

Lemma buffer_byte fs d fat f l p :
  ready fs d -> file_at fs d fat f l -> 0 <= p < room fs l -> p / 512 = fl_offset f / 512 ->
  fl_buf f !! Z.to_nat (p mod 512) = Some (file_byte fs d f l p).
Proof.
  intros Hrd Hat Hp E. unfold FatIO.file_byte. rewrite decide_True by (by eapply file_at_sect).
  apply list_lookup_lookup_total_lt. rewrite (block_length _ (at_block _ _ _ _ _ _ Hat)). pose proof (Z.mod_pos_bound p 512). lia.
Qed.

(** A chunk of the buffer is a run of bytes of the file. *)
Lemma chunk_bytes fs d fat f l cnt :
  ready fs d -> file_at fs d fat f l -> 0 <= cnt <= 512 - fl_offset f mod 512 -> fl_offset f + cnt <= room fs l ->
  get_bytes (fl_buf f) (fl_offset f mod 512) cnt = Some (file_byte fs d f l <$> seqZ (fl_offset f) cnt).
Proof.
  intros Hrd Hat Hcnt Hroom. pose proof (Z.mod_pos_bound (fl_offset f) 512) as Hm.
  pose proof (at_offset _ _ _ _ _ _ Hat) as Ho. pose proof (block_length _ (at_block _ _ _ _ _ _ Hat)) as Hlen.
  rewrite get_bytes_lt by lia. f_equal. apply list_eq. intros k. rewrite list_lookup_fmap.
  destruct (decide (Z.of_nat k < cnt)) as [Hk|Hk].
  - rewrite lookup_take_lt, lookup_drop, lookup_seqZ_lt by lia. simpl.
    assert (E : (fl_offset f + Z.of_nat k) / 512 = fl_offset f / 512) by (apply same_sector; lia).
    rewrite <- (buffer_byte fs d fat f l) by (done || lia). f_equal.
    rewrite (same_sector_index _ _ E). lia.
  - rewrite lookup_take_ge, lookup_seqZ_ge by lia. done.
Qed.

Lemma evolves_refl fs d fat f l : ready fs d -> file_at fs d fat f l -> evolves fs d fat f l fs d f l.
Proof.
  intros Hrd Hat. constructor; [apply like_refl|done|done|done| |done]. unfold same_file. by repeat (split; [done|]).
Qed.

(** ** Reading *)

(** A read that asked for [m] bytes the file has: they have been returned, and
    the cursor follows them unless the volume is full. *)
Definition read_outcome fs d f l m (r : Z * list Z) fs' d' f' l' : Prop :=
  r.2 = file_byte fs d f l <$> seqZ (fl_offset f) m /\
  (forall p, 0 <= p < room fs l -> file_byte fs' d' f' l' p = file_byte fs d f l p) /\
  (r.1 = FAT_ERR_NONE /\ fl_offset f' = fl_offset f + m \/
   r.1 = FAT_ERR_FULL /\ full sectors fs' d' /\ 0 < m /\ fl_offset f + m = fl_size f /\ fl_size f = room fs l).

Lemma wp_read_loop n s fat fs d file f l len Q :
  ready fs d -> file_at fs d fat f l -> 0 <= len < 2 ^ 31 -> fl_offset f <= fl_size f <= room fs l ->
  fl_size f < 2 ^ 32 -> fl_size f - fl_offset f <= Z.of_nat n ->
  (forall r fs' d' f' l', evolves fs d fat f l fs' d' f' l' ->
     read_outcome fs d f l (Z.min len (fl_size f - fl_offset f)) r fs' d' f' l' ->
     Q (Ok r) (vol (filed s file f') fat fs' d')) ->
  wp (read_loop n file len) Q (vol (filed s file f) fat fs d).
Proof.
  revert fs d f l len Q. induction n as [|n IH]; intros fs d f l len Q Hrd Hat Hlen Hsize Hs32 Hn HQ;
    cbn [read_loop]; fstep; apply wp_get_file;
    (destruct ((len =? 0) || (fl_size f <=? fl_offset f)) eqn:Eend;
     [fstep; apply (HQ (FAT_ERR_NONE, []) fs d f l); [by apply evolves_refl|];
      assert (Hm : Z.min len (fl_size f - fl_offset f) = 0) by (rewrite orb_true_iff, Z.eqb_eq, Z.leb_le in Eend; lia);
      rewrite Hm; split; [done|]; split; [done|]; left; split; [done|lia]|]); reflect_bool; [lia|].
  pose proof (Z.mod_pos_bound (fl_offset f) 512) as Hmod. pose proof (at_offset _ _ _ _ _ _ Hat) as Ho.
  cbv zeta. rewrite (u32_id len), (u32_id (_ - _)) by lia. set (idx := fl_offset f mod 512) in *.
  set (cnt := if len <? Z.min (512 - idx) (fl_size f - fl_offset f) then len else Z.min (512 - idx) (fl_size f - fl_offset f)).
  assert (Hcnt : cnt = Z.min len (Z.min (512 - idx) (fl_size f - fl_offset f))).
  { unfold cnt. destruct (Z.ltb_spec len (Z.min (512 - idx) (fl_size f - fl_offset f))); lia. }
  fstep. eapply wp_access; [apply (chunk_bytes fs d fat f l cnt Hrd Hat); fold idx; lia|]. fstep. fstep.
  eapply (wp_seek_forward ops sectors _ _ _ _ _ _ l); [done..|lia|lia| |].
  - intros fs1 d1 f1 l1 Hev Eo Hb. fstep.
    pose proof Hev as [Hk Hrd1 Hpre Hat1 Hsame _].
    assert (Es : fl_size f1 = fl_size f) by apply Hsame.
    pose proof (room_prefix _ _ _ (ready_data _ _ _ _ Hrd) Hpre) as Hroom.
    rewrite s32_id by lia.
    apply (IH fs1 d1 f1 l1); [done|done|lia|rewrite Es, Eo, (like_room fs fs1) by done; lia|lia|lia|].
    intros [e rest] fs2 d2 f2 l2 Hev2 (Er & Hb2 & Hend). simpl in Er. fsteps.
    rewrite Es, Eo in *. rewrite (like_room fs fs1) in * by done.
    apply (HQ (e, _) fs2 d2 f2 l2); [by eapply evolves_trans|].
    assert (Em : Z.min len (fl_size f - fl_offset f) = cnt + Z.min (len - cnt) (fl_size f - (fl_offset f + cnt))) by lia.
    split; [|split].
    + simpl. rewrite Er, Em, seqZ_app, fmap_app by lia. f_equal. apply list_fmap_ext.
      intros k x Hx. apply lookup_seqZ in Hx. apply Hb. lia.
    + intros p Hp. rewrite Hb2 by lia. by apply Hb.
    + simpl in *. destruct Hend as [[-> Ef]|(-> & Hfull & Hpos & Ef & Er2)]; [left|right]; [split; [done|lia]|].
      split; [done|]. split; [done|]. split; [lia|]. split; [lia|]. lia.
  - intros fs1 d1 Hev Hfull Hroom Hb. fstep. apply (HQ (FAT_ERR_FULL, _) fs1 d1 f l); [done|].
    assert (Em : Z.min len (fl_size f - fl_offset f) = cnt) by lia. rewrite Em.
    split; [done|]. split; [done|]. right. split; [done|]. split; [done|]. lia.
Qed.
(** ** Writing *)

(** The bytes of the file after [src] has been put at [off]. *)
Definition overwritten (off : Z) src (byte : Z -> Z) p : Z :=
  if decide (off <= p < off + Z.of_nat (length src)) then src !!! Z.to_nat (p - off) else byte p.

Lemma overwritten_app off a b byte p :
  overwritten off (a ++ b) byte p = overwritten (off + Z.of_nat (length a)) b (overwritten off a byte) p.
Proof.
  unfold overwritten. rewrite length_app. repeat case_decide; try lia; try done.
  - rewrite lookup_total_app_r by lia. f_equal. lia.
  - rewrite lookup_total_app_l by lia. done.
Qed.

(** The file with a chunk in its buffer. *)
Definition filled f buf : File := set_fl_flags (raise (fl_flags f) FAT_FILE_DIRTY) (set_fl_buf buf f).

Lemma has_raise_dirty flags mask :
  mask ∈ [FAT_READ; FAT_WRITE; FAT_ACCESSED; FAT_MODIFIED] -> has (raise flags FAT_FILE_DIRTY) mask = has flags mask.
Proof.
  intros Hm. unfold has, raise. rewrite Z.land_lor_distr_l. do 2 f_equal.
  rewrite !elem_of_cons, elem_of_nil in Hm.
  destruct Hm as [->|[->|[->|[->|[]]]]]; apply Z.lor_0_r.
Qed.

Lemma raise_is_dirty flags : has (raise flags FAT_FILE_DIRTY) FAT_FILE_DIRTY = true.
Proof. rewrite (has_bit _ 7), raise_spec by done. apply orb_true_r. Qed.

Lemma filled_evolves fs d fat f l buf :
  ready fs d -> file_at fs d fat f l -> block buf -> evolves fs d fat f l fs d (filled f buf) l.
Proof.
  intros Hrd Hat Hlen. destruct Hat as [Hfat Hch0 Hus0 Hoff0 Hcl Hse _ Hcln Hap].
  constructor; [apply like_refl|done|done| | |done].
  - constructor; try done. simpl. by rewrite raise_is_dirty.
  - unfold same_file. repeat (split; [done|]). intros m Hm. by apply has_raise_dirty.
Qed.

Lemma filled_bytes fs d fat f l chunk buf p :
  ready fs d -> file_at fs d fat f l -> put_bytes (fl_buf f) (fl_offset f mod 512) chunk = Some buf ->
  Z.of_nat (length chunk) <= 512 - fl_offset f mod 512 -> 0 <= p < room fs l ->
  file_byte fs d (filled f buf) l p = overwritten (fl_offset f) chunk (file_byte fs d f l) p.
Proof.
  intros Hrd Hat Hput Hlen Hp. pose proof (Z.mod_pos_bound (fl_offset f) 512) as Hm.
  pose proof (file_at_sect _ _ _ _ _ _ Hrd Hat Hp) as Hsec. unfold overwritten, FatIO.file_byte.
  change (fl_sect (filled f buf)) with (fl_sect f). change (fl_buf (filled f buf)) with buf.
  destruct (decide (file_sect fs l p = fl_sect f)) as [E|E].
  - apply Hsec in E. pose proof (same_sector_index _ _ E) as Ei. apply same_sector in E.
    rewrite !list_lookup_total_alt, (put_bytes_lookup _ _ _ _ _ Hput).
    replace (Z.of_nat (Z.to_nat (p mod 512))) with (p mod 512) by (pose proof (Z.mod_pos_bound p 512); lia).
    repeat case_decide; try lia; try done. do 2 f_equal. lia.
  - rewrite decide_False; [done|]. intros Hin. apply E, Hsec, same_sector. lia.
Qed.

(** A write of [src]: [k] bytes have been counted and stored at the cursor,
    which follows them; or the volume is full, and the cursor stays before the
    last chunk, which ends with the room of the file. *)
Definition write_outcome fs d f l src (k : Z) fs' d' f' l' : Prop :=
  0 <= k <= Z.of_nat (length src) /\
  (forall p, 0 <= p < room fs l ->
     file_byte fs' d' f' l' p = overwritten (fl_offset f) (take (Z.to_nat k) src) (file_byte fs d f l) p) /\
  (forall p, fl_offset f <= p < fl_offset f + k ->
     p < room fs l' /\ file_byte fs' d' f' l' p = src !!! Z.to_nat (p - fl_offset f)) /\
  (k = Z.of_nat (length src) /\ fl_offset f' = fl_offset f + k \/
   full sectors fs' d' /\ fl_offset f + k = room fs l' /\ fl_offset f' = Z.max (fl_offset f) (room fs l' - 512) /\
   fl_offset f' < fl_offset f + k).

Lemma overwritten_nil off byte p : overwritten off [] byte p = byte p.
Proof. unfold overwritten. simpl. rewrite decide_False by lia. done. Qed.

Lemma write_nothing fs d f l : write_outcome fs d f l [] 0 fs d f l.
Proof. split; [done|]. split; [intros p Hp; by rewrite overwritten_nil|]. split; [lia|]. left. split; [done|lia]. Qed.

Lemma sector_room fs d fat f l :
  ready fs d -> file_at fs d fat f l -> fl_offset f - fl_offset f mod 512 + 512 <= room fs l.
Proof.
  intros Hrd Hat. pose proof (at_offset _ _ _ _ _ _ Hat) as Ho. pose proof (per_cluster_pos _ (ready_data _ _ _ _ Hrd)).
  unfold room, cluster_bytes in *. rewrite (Z.mod_eq (fl_offset f) 512) by lia.
  assert (fl_offset f / 512 < Z.of_nat (length l) * 2 ^ clust_shift fs) by (apply Z.div_lt_upper_bound; lia). lia.
Qed.

(** The bytes a chunk replaces. *)
Lemma overwritten_prefix off src k byte p :
  0 <= k <= Z.of_nat (length src) -> off <= p < off + k ->
  overwritten off (take (Z.to_nat k) src) byte p = src !!! Z.to_nat (p - off).
Proof.
  intros Hk Hp. unfold overwritten. rewrite length_take, decide_True by lia. apply lookup_total_take_lt. lia.
Qed.

(** The first chunk has been written, and then the rest. *)
Lemma write_more fs d fat f l src cnt k fs1 d1 f1 l1 fs2 d2 f2 l2 :
  ready fs d -> file_at fs d fat f l -> evolves fs d fat f l fs1 d1 f1 l1 -> evolves fs1 d1 fat f1 l1 fs2 d2 f2 l2 ->
  cnt = Z.min (Z.of_nat (length src)) (512 - fl_offset f mod 512) -> fl_offset f1 = fl_offset f + cnt ->
  (forall p, 0 <= p < room fs l ->
     file_byte fs1 d1 f1 l1 p = overwritten (fl_offset f) (take (Z.to_nat cnt) src) (file_byte fs d f l) p) ->
  write_outcome fs1 d1 f1 l1 (drop (Z.to_nat cnt) src) k fs2 d2 f2 l2 ->
  write_outcome fs d f l src (cnt + k) fs2 d2 f2 l2.
Proof.
  intros Hrd Hat Hev1 Hev2 Ecnt Eo Hb1 (Hk & Hb2 & Hw & Hend).
  pose proof (Z.mod_pos_bound (fl_offset f) 512) as Hmod. assert (Hcnt : 0 <= cnt <= Z.of_nat (length src)) by lia. rewrite length_drop in *.
  pose proof (room_prefix _ _ _ (ready_data _ _ _ _ Hrd) (ev_prefix _ _ _ _ _ _ _ _ _ _ _ Hev1)) as Hroom.
  pose proof (sector_room _ _ _ _ _ Hrd Hat) as Hsr. pose proof (at_offset _ _ _ _ _ _ Hat) as Ho.
  rewrite (like_room fs fs1) in * by apply Hev1. rewrite Eo in *.
  assert (Hbytes : forall p, 0 <= p < room fs l -> file_byte fs2 d2 f2 l2 p =
    overwritten (fl_offset f) (take (Z.to_nat (cnt + k)) src) (file_byte fs d f l) p).
  { intros p Hp. replace (take (Z.to_nat (cnt + k)) src)
      with (take (Z.to_nat cnt) src ++ take (Z.to_nat k) (drop (Z.to_nat cnt) src)).
    - rewrite overwritten_app, Hb2 by lia. rewrite length_take.
      replace (fl_offset f + Z.of_nat (Z.to_nat cnt `min` length src)) with (fl_offset f + cnt) by lia.
      unfold overwritten at 1 2. case_decide; [done|]. by apply Hb1.
    - rewrite Z2Nat.inj_add by lia. by rewrite take_take_drop. }
  split; [lia|]. split; [exact Hbytes|]. split.
  - intros p Hp. destruct (decide (p < fl_offset f + cnt)) as [Hlt|Hge].
    + pose proof (room_prefix _ _ _ (ready_data _ _ _ _ (ev_ready _ _ _ _ _ _ _ _ _ _ _ Hev1))
        (ev_prefix _ _ _ _ _ _ _ _ _ _ _ Hev2)) as Hroom2.
      rewrite !(like_room fs fs1) in Hroom2 by apply Hev1. split; [lia|].
      rewrite Hbytes by lia. apply overwritten_prefix; lia.
    + destruct (Hw p ltac:(lia)) as [Hr ->]. split; [done|]. rewrite lookup_total_drop. f_equal. lia.
  - destruct Hend as [?|(Hfull & Er & Ef & Hlt)]; [left; lia|right]. split; [done|].
    rewrite (Z.mod_eq (fl_offset f) 512) in * by lia. unfold room, cluster_bytes in *. lia.
Qed.

Lemma wp_write_loop n s fat fs d file f l src Q :
  ready fs d -> file_at fs d fat f l -> fl_offset f + Z.of_nat (length src) < 2 ^ 32 -> Forall is_byte src -> (length src <= n)%nat ->
  (forall k fs' d' f' l', evolves fs d fat f l fs' d' f' l' -> write_outcome fs d f l src k fs' d' f' l' ->
     Q (Ok k) (vol (filed s file f') fat fs' d')) ->
  wp (write_loop n file src) Q (vol (filed s file f) fat fs d).
Proof.
  revert fs d f l src Q. induction n as [|n IH]; intros fs d f l [|b src0] Q Hrd Hat H32 Hsrc Hn HQ; cbn [write_loop];
    try (fstep; apply (HQ 0 fs d f l); [by apply evolves_refl|by apply write_nothing]); [simpl in Hn; lia|].
  set (src := b :: src0) in *. assert (Hpos : (0 < length src)%nat) by (simpl; lia). clearbody src.
  pose proof (Z.mod_pos_bound (fl_offset f) 512) as Hmod. pose proof (at_offset _ _ _ _ _ _ Hat) as Ho.
  fstep. apply wp_get_file. cbv zeta. set (idx := fl_offset f mod 512) in *.
  set (cnt := Z.min (Z.of_nat (length src)) (512 - idx)). assert (Hcnt : 0 < cnt <= 512 - idx) by lia.
  assert (Hck : length (take (Z.to_nat cnt) src) = Z.to_nat cnt) by (rewrite length_take; lia).
  pose proof (block_length _ (at_block _ _ _ _ _ _ Hat)) as Hlen.
  destruct (put_bytes (fl_buf f) idx (take (Z.to_nat cnt) src)) as [buf|] eqn:Hput.
  2: { rewrite put_bytes_lt in Hput by lia. done. }
  pose proof (put_bytes_block _ _ _ _ Hput (Forall_take _ _ _ Hsrc) (at_block _ _ _ _ _ _ Hat)) as Hbl.
  fstep. eapply wp_access; [done|]. fstep. apply wp_upd_file. fold (filled f buf).
  pose proof (filled_evolves fs d fat f l buf Hrd Hat Hbl) as Hev0.
  assert (Hb0 : forall p, 0 <= p < room fs l -> file_byte fs d (filled f buf) l p =
    overwritten (fl_offset f) (take (Z.to_nat cnt) src) (file_byte fs d f l) p).
  { intros p Hp. apply (filled_bytes fs d fat); try done. rewrite Hck. fold idx. lia. }
  fstep. fstep. eapply (wp_seek_forward ops sectors _ _ _ _ _ _ l);
    [done..|apply Hev0|lia|simpl; lia| |].
  - intros fs1 d1 f1 l1 Hev1 Eo1 Hb1. simpl in Eo1. fstep.
    pose proof (evolves_trans _ _ _ _ _ _ _ _ _ _ _ _ _ _ _ Hev0 Hev1) as Hev.
    apply (IH fs1 d1 f1 l1); [apply Hev|apply Hev|rewrite Eo1, length_drop; lia|by apply Forall_drop|rewrite length_drop; lia|].
    intros k fs2 d2 f2 l2 Hev2 Hout. fsteps. apply (HQ _ fs2 d2 f2 l2); [by eapply evolves_trans|].
    eapply (write_more fs d fat f l src cnt k fs1 d1 f1 l1); try done.
    intros p Hp. rewrite Hb1 by done. by apply Hb0.
  - intros fs1 d1 Hev1 Hfull Hroom Hb1. simpl in Hroom. fstep.
    pose proof (evolves_trans _ _ _ _ _ _ _ _ _ _ _ _ _ _ _ Hev0 Hev1) as Hev.
    pose proof (sector_room _ _ _ _ _ Hrd Hat) as Hsr. fold idx in Hsr.
    apply (HQ _ fs1 d1 (filled f buf) l); [done|].
    assert (Hb : forall p, 0 <= p < room fs l -> file_byte fs1 d1 (filled f buf) l p =
      overwritten (fl_offset f) (take (Z.to_nat cnt) src) (file_byte fs d f l) p).
    { intros p Hp. rewrite Hb1 by done. by apply Hb0. }
    split; [lia|]. split; [done|]. split; [|right; split; [done|]; simpl; lia].
    intros p Hp. split; [lia|]. rewrite Hb by lia. apply overwritten_prefix; lia.
Qed.
(** ** The operations *)

(** The file with more flags. *)
Definition flagged f mask : File := set_fl_flags (raise (fl_flags f) mask) f.

Lemma flagged_file_at fs d fat f l mask :
  Z.land mask FAT_FILE_DIRTY = 0 -> file_at fs d fat f l -> file_at fs d fat (flagged f mask) l.
Proof.
  intros Hm [Hfat Hch0 Hus0 Hoff0 Hcl Hse Hlen Hcln Hap]. constructor; try done. intros H. apply Hcln. rewrite <- H.
  unfold has, flagged, raise. simpl. by rewrite Z.land_lor_distr_l, Hm, Z.lor_0_r.
Qed.

Lemma wp_fat_file_read s fat fs d file f l len Q :
  ready fs d -> file_at fs d fat f l -> has (fl_flags f) FAT_READ = true ->
  0 <= len < 2 ^ 31 -> fl_offset f <= fl_size f <= room fs l -> fl_size f < 2 ^ 32 ->
  (forall r fs' d' f' l', evolves fs d fat (flagged f FAT_ACCESSED) l fs' d' f' l' ->
     read_outcome fs d f l (Z.min len (fl_size f - fl_offset f)) r fs' d' f' l' ->
     Q (Ok r) (vol (filed s file f') fat fs' d')) ->
  wp (fat_file_read file len) Q (vol (filed s file f) fat fs d).
Proof.
  intros Hrd Hat Hf Hlen Hsize Hs32 HQ. unfold fat_file_read. fstep. apply wp_get_file.
  rewrite (at_fat _ _ _ _ _ _ Hat), Hf. cbn [negb]. fstep. apply wp_upd_file. fold (flagged f FAT_ACCESSED).
  apply (wp_read_loop _ _ _ _ _ _ (flagged f FAT_ACCESSED) l);
    [done|by apply flagged_file_at|done|done|done|simpl; lia|].
  intros r fs' d' f' l' Hev Hout. by eapply HQ.
Qed.

(** The size of the file follows the cursor. *)
Definition extended f : File := if fl_size f <? fl_offset f then set_fl_size (fl_offset f) f else f.

Lemma extended_file_at fs d fat f l : file_at fs d fat f l -> file_at fs d fat (extended f) l.
Proof. intros Hat. unfold extended. case_match; [|done]. by destruct Hat; constructor. Qed.

Lemma extended_size f : fl_size (extended f) = Z.max (fl_size f) (fl_offset f).
Proof. unfold extended. destruct (Z.ltb_spec (fl_size f) (fl_offset f)); simpl; lia. Qed.

Lemma extended_byte fs d f l p : file_byte fs d (extended f) l p = file_byte fs d f l p.
Proof. unfold extended. by case_match. Qed.

Lemma wp_fat_file_write s fat fs d file f l src Q :
  ready fs d -> file_at fs d fat f l -> has (fl_flags f) FAT_WRITE = true ->
  fl_offset f + Z.of_nat (length src) < 2 ^ 32 -> Forall is_byte src ->
  (forall k fs' d' f' l', evolves fs d fat (flagged f (Z.lor FAT_MODIFIED FAT_ACCESSED)) l fs' d' f' l' ->
     write_outcome fs d f l src k fs' d' f' l' ->
     Q (Ok (FAT_ERR_NONE, k)) (vol (filed s file (extended f')) fat fs' d')) ->
  wp (fat_file_write file src) Q (vol (filed s file f) fat fs d).
Proof.
  intros Hrd Hat Hf H32 Hsrc HQ. unfold fat_file_write. fstep. apply wp_get_file.
  rewrite (at_fat _ _ _ _ _ _ Hat), Hf. cbn [negb]. fstep. apply wp_upd_file.
  fold (flagged f (Z.lor FAT_MODIFIED FAT_ACCESSED)). fstep.
  apply (wp_write_loop _ _ _ _ _ _ (flagged f (Z.lor FAT_MODIFIED FAT_ACCESSED)) l);
    [done|by apply flagged_file_at|done..|].
  intros k fs' d' f' l' Hev Hout. fstep. apply wp_upd_file. fold (extended f'). fstep. by eapply HQ.
Qed.

(** *** Synchronising a file *)

Lemma touch_entry_edits f date time buf :
  0 <= dir_idx f <= 480 -> block buf -> edits (touch_entry f date time buf).
Proof.
  intros Hi Hl. unfold touch_entry. cbv zeta.
  unfold Sfn_acc_date, Sfn_attr, Sfn_size, Sfn_mod_date, Sfn_mod_time.
  apply edits_bind; [by apply edits_if; [apply edits_put16; (done || lia)|apply edits_some]|]. intros l1 H1.
  apply edits_if; [|by apply edits_some]. apply edits_get8; [done|lia|]. intros v.
  apply edits_bind; [apply edits_put8; (done || lia)|]. intros l2 H2. apply edits_bind; [apply edits_put32; (done || lia)|]. intros l3 H3.
  apply edits_bind; [apply edits_put16; (done || lia)|]. intros l4 H4. apply edits_put16; (done || lia).
Qed.

(** What a [fat_file_sync] leaves in the sector [b] of the directory entry of
    the file, by the offsets of the FAT directory entry: the date of access at
    18, the attributes at 11 (0x20 is the archive attribute), the time and the
    date of the last change at 22 and 24, the size at 28.  The date is always
    the first of January 1980, which is coded 33, and the time midnight. *)
Record entry_written f (b b' : list Z) : Prop := {
  ew_accessed : has (fl_flags f) FAT_ACCESSED = true -> get16 b' (dir_idx f + 18) = Some 33;
  ew_modified : has (fl_flags f) FAT_MODIFIED = true ->
    get32 b' (dir_idx f + 28) = Some (fl_size f mod 2 ^ 32) /\
    get16 b' (dir_idx f + 24) = Some 33 /\ get16 b' (dir_idx f + 22) = Some 0 /\
    exists a, get8 b (dir_idx f + 11) = Some a /\ get8 b' (dir_idx f + 11) = Some (Z.lor a 0x20);
  ew_rest j : 0 <= j ->
    (has (fl_flags f) FAT_ACCESSED = true -> ~ 18 <= j - dir_idx f < 20) ->
    (has (fl_flags f) FAT_MODIFIED = true -> ~ (j - dir_idx f = 11 \/ 22 <= j - dir_idx f < 26 \/ 28 <= j - dir_idx f < 32)) ->
    b' !! Z.to_nat j = b !! Z.to_nat j;
}.

(** An entry that was neither read nor written is left alone. *)
Lemma entry_untouched f b : has (fl_flags f) (Z.lor FAT_ACCESSED FAT_MODIFIED) = false -> entry_written f b b.
Proof.
  intros H. assert (Ha : has (fl_flags f) FAT_ACCESSED = false /\ has (fl_flags f) FAT_MODIFIED = false).
  { unfold has in *. rewrite Z.land_lor_distr_r in H. apply negb_false_iff, Z.eqb_eq, Z.lor_eq_0_iff in H.
    destruct H as [-> ->]. done. }
  destruct Ha as [Ha Hm]. constructor; rewrite ?Ha, ?Hm; done.
Qed.

Lemma touch_accessed f b b1 :
  (if has (fl_flags f) FAT_ACCESSED then put16 b (dir_idx f + 18) 33 else Some b) = Some b1 ->
  (has (fl_flags f) FAT_ACCESSED = true -> field 2 b1 (dir_idx f + 18) = Some 33) /\
  forall j, 0 <= j -> (has (fl_flags f) FAT_ACCESSED = true -> ~ 18 <= j - dir_idx f < 20) ->
    b1 !! Z.to_nat j = b !! Z.to_nat j.
Proof.
  destruct (has (fl_flags f) FAT_ACCESSED); [intros H%put16_wrote|intros [= ->]; by split].
  split; [intros _; by apply (wrote_field _ _ _ _ _ H)|].
  intros j Hj Hout. apply (wrote_lookup _ _ _ _ _ j H); [done|]. specialize (Hout eq_refl). lia.
Qed.

Lemma byte_lor a m : is_byte a -> is_byte m -> Z.lor a m mod 2 ^ 8 = Z.lor a m.
Proof.
  intros Ha Hm. rewrite <- Z.land_ones, Z.land_lor_distr_l, !Z.land_ones by done.
  by rewrite !Z.mod_small.
Qed.

Lemma get8_byte b i a : Forall is_byte b -> get8 b i = Some a -> is_byte a.
Proof.
  intros Hb H. unfold get8 in H. destruct (i <? 0); [done|]. simpl in H. destruct (b !! Z.to_nat i) eqn:E; simpl in H; [|done].
  injection H as <-. rewrite Z.add_0_r. by eapply Forall_lookup_1.
Qed.

Lemma touch_entry_writes f b b' :
  0 <= dir_idx f -> Forall is_byte b -> touch_entry f 33 0 b = Some b' -> entry_written f b b'.
Proof.
  intros Hi Hb H. unfold touch_entry in H. cbv zeta in H.
  unfold Sfn_acc_date, Sfn_attr, Sfn_size, Sfn_mod_date, Sfn_mod_time in H.
  apply bind_Some in H as (b1 & H1 & H). apply touch_accessed in H1 as [Ha Hr].
  destruct (has (fl_flags f) FAT_MODIFIED) eqn:Em.
  2: { injection H as <-. constructor; [exact Ha|by rewrite Em|]. intros j Hj Hout _. by apply Hr. }
  apply bind_Some in H as (a & Ea & H). apply bind_Some in H as (b2 & H2%put8_wrote & H).
  apply bind_Some in H as (b3 & H3%put32_wrote & H). apply bind_Some in H as (b4 & H4%put16_wrote & H%put16_wrote).
  assert (Ea0 : get8 b (dir_idx f + 11) = Some a).
  { rewrite <- Ea. unfold get8. case_match; [done|]. symmetry. apply get_le_ext. intros k Hk.
    rewrite <- (Nat2Z.id k). apply Hr; [lia|]. intros _. lia. }
  constructor.
  - intros Hacc. rewrite <- (Ha Hacc). change (get16 b' ?i) with (field 2 b' i).
    rewrite (wrote_field_ne _ _ _ _ _ 2 _ H), (wrote_field_ne _ _ _ _ _ 2 _ H4), (wrote_field_ne _ _ _ _ _ 2 _ H3),
      (wrote_field_ne _ _ _ _ _ 2 _ H2) by lia. done.
  - intros _. change (get16 b' ?i) with (field 2 b' i). change (get32 b' ?i) with (field 4 b' i).
    change (get8 b' ?i) with (field 1 b' i). split; [|split; [|split]].
    + rewrite (wrote_field_ne _ _ _ _ _ 4 _ H), (wrote_field_ne _ _ _ _ _ 4 _ H4) by lia. apply (wrote_field _ _ _ _ _ H3).
    + rewrite (wrote_field_ne _ _ _ _ _ 2 _ H) by lia. apply (wrote_field _ _ _ _ _ H4).
    + apply (wrote_field _ _ _ _ _ H).
    + exists a. split; [done|].
      rewrite (wrote_field_ne _ _ _ _ _ 1 _ H), (wrote_field_ne _ _ _ _ _ 1 _ H4), (wrote_field_ne _ _ _ _ _ 1 _ H3) by lia.
      rewrite (wrote_field _ _ _ _ _ H2). f_equal. apply byte_lor; [by eapply get8_byte|done].
  - intros j Hj Hout Hout'. specialize (Hout' Em).
    rewrite (wrote_lookup _ _ _ _ _ j H), (wrote_lookup _ _ _ _ _ j H4), (wrote_lookup _ _ _ _ _ j H3),
      (wrote_lookup _ _ _ _ _ j H2) by lia. by apply Hr.
Qed.

(** The directory entry of the file is in a data sector of its own. *)
Record entry_at fs f l : Prop := {
  entry_elsewhere : elsewhere fs l (dir_sect f);
  entry_inside : 0 <= dir_idx f <= 480;
  entry_range : dir_sect f < 2 ^ 32;
}.

(** Byte [p] of the file on the device. *)
Definition device_byte fs d l p : Z := sectors d (file_sect fs l p) !!! Z.to_nat (p mod 512).

(** The volume sees the bytes of the file. *)
Record stored fs d f l fs' d' : Prop := {
  st_like : like fs fs';
  st_coherent : coherent ops sectors fs' d';
  st_link c : 0 <= c < clust_cnt fs -> link sectors fs' d' c = link sectors fs d c;
  st_last : last_used fs' = last_used fs;
  st_free : free_cnt fs' = free_cnt fs;
  st_info : has (f_flags fs') FAT_INFO_DIRTY = has (f_flags fs) FAT_INFO_DIRTY;
  st_byte p : 0 <= p < room fs l ->
    view sectors fs' d' (file_sect fs l p) !!! Z.to_nat (p mod 512) = file_byte fs d f l p;
}.

Lemma link_below fs d fs' d' c :
  layout fs -> data_area fs -> like fs fs' ->
  (forall x, 0 < x < data_sect fs -> view sectors fs' d' x = view sectors fs d x) ->
  0 <= c < clust_cnt fs -> link sectors fs' d' c = link sectors fs d c.
Proof.
  intros Hl Hd Hk Hv Hc. assert (Ht : is_table fs (fat_sect0 fs)) by (by left).
  destruct (entry_sect_in _ _ _ Hl Ht Hc) as [_ Hin]. pose proof (data_tables _ Hd _ Ht). pose proof (layout_fits _ Hl _ Ht).
  unfold link, entry. replace (fat_sect0 fs') with (fat_sect0 fs) by (by destruct Hk as (la & fr & se & bu & fl & ->)).
  rewrite Hv; [done|lia].
Qed.

Lemma stored_written fs d fat f l d1 :
  ready fs d -> file_at fs d fat f l -> working d1 ->
  (forall x, sectors d1 x = if decide (x = fl_sect f) then fl_buf f else sectors d x) -> stored fs d f l fs d1.
Proof.
  intros [Hl Hc Hs Hu Hd] Hat Hw1 Hd1. pose proof (at_offset _ _ _ _ _ _ Hat) as Ho.
  assert (Hne : f_sect fs <> fl_sect f) by (rewrite (at_sect _ _ _ _ _ _ Hat); by apply Hat).
  pose proof (file_sect_bounds fs l (fl_offset f) Hl Hd (at_usable _ _ _ _ _ _ Hat) Ho) as Hb.
  rewrite <- (at_sect _ _ _ _ _ _ Hat) in Hb.
  constructor; [apply like_refl|by eapply coherent_apart| |done..|].
  - intros c Hcr. apply link_below; [done..|apply like_refl| |done]. intros x Hx. unfold view. case_decide; [done|].
    rewrite Hd1, decide_False by lia. done.
  - intros p Hp. pose proof (at_apart _ _ _ _ _ _ Hat p Hp). unfold view, FatIO.file_byte.
    rewrite decide_False by done. by rewrite Hd1.
Qed.

(** Changing the buffered sector of the directory. *)
Lemma stored_edited fs d f l fs1 d1 buf :
  layout fs -> data_area fs -> entry_at fs f l -> stored fs d f l fs1 d1 -> f_sect fs1 = dir_sect f ->
  block buf ->
  stored fs d f l (set_f_buf buf (set_f_flags (raise (f_flags fs1) FAT_BUF_DIRTY) fs1)) d1.
Proof.
  intros Hl Hd [[Hdir Hne] _ _] [Hk Hc Hln Hla Hfr Hin Hb] Es Hlen. set (fs2 := set_f_buf _ _).
  pose proof (layout_info _ Hl). pose proof (data_info _ Hd).
  assert (Hv : forall x, x <> dir_sect f -> view sectors fs2 d1 x = view sectors fs1 d1 x).
  { intros x Hx. unfold view. simpl. by rewrite !decide_False by congruence. }
  assert (Hdy : dirty fs2 = true) by (unfold dirty, fs2; simpl; by flag_bits).
  assert (Hk12 : like fs1 fs2).
  { exists (last_used fs1), (free_cnt fs1), (f_sect fs1), buf, (f_flags fs2). by destruct fs1. }
  pose proof (like_layout _ _ Hk Hl) as Hl1. pose proof (like_data_area _ _ Hk Hd) as Hd1.
  assert (G : clust_cnt fs1 = clust_cnt fs /\ data_sect fs1 = data_sect fs) by (by destruct Hk as (la & fr & se & bu & fl & ->)).
  destruct G as [Gn Gd].
  constructor; [by eapply like_trans| | |done|done| |].
  - constructor; [apply Hc|done| |by rewrite Hdy|apply Hc..]. simpl. rewrite Es. lia.
  - intros c Hcr. rewrite (link_below fs1 d1 fs2 d1); [by apply Hln|done..| |by rewrite Gn].
    intros x Hx. apply Hv. lia.
  - rewrite <- Hin. simpl. by flag_bits.
  - intros p Hp. rewrite Hv; [by apply Hb|]. intros E. by apply (Hne p Hp).
Qed.

Lemma stored_same_view fs d f l fs1 d1 fs2 d2 :
  layout fs -> data_area fs -> Forall (usable fs) l -> stored fs d f l fs1 d1 -> rebuffered fs1 fs2 ->
  coherent ops sectors fs2 d2 -> same_view sectors fs1 d1 fs2 d2 -> stored fs d f l fs2 d2.
Proof.
  intros Hl Hd Hus [Hk Hc Hln Hla Hfr Hin Hb] Hr Hc2 Hv. pose proof (rebuffered_like _ _ Hr) as Hk2.
  assert (Gn : clust_cnt fs1 = clust_cnt fs) by (by destruct Hk as (la & fr & se & bu & fl & ->)).
  assert (Gc : free_cnt fs2 = free_cnt fs1 /\ has (f_flags fs2) FAT_INFO_DIRTY = has (f_flags fs1) FAT_INFO_DIRTY)
    by (by destruct Hr as (? & ? & ? & -> & ?)). destruct Gc as [Gc Gi].
  constructor; [by eapply like_trans|done| |by rewrite (proj1 (rebuffered_last _ _ Hr))|congruence|congruence|].
  - intros c Hcr. rewrite (same_view_link sectors fs1 d1); [by apply Hln|by eapply like_layout|done..|by rewrite Gn].
  - intros p Hp. rewrite Hv; [by apply Hb|]. pose proof (file_sect_bounds fs l p Hl Hd Hus Hp).
    pose proof (layout_info _ Hl). pose proof (data_info _ Hd). lia.
Qed.

(** The file is on the device, with its directory entry and the counters. *)
Record file_synced fs d f l fs' d' : Prop := {
  fy_like : like fs fs';
  fy_ready : ready fs' d';
  fy_synced : synced sectors fs fs' d';
  fy_chain : chain (link sectors fs' d') (clust_cnt fs) (fl_sclust f) l;
  fy_byte p : 0 <= p < room fs l -> device_byte fs d' l p = file_byte fs d f l p;
  fy_entry : entry_written f (view sectors fs d (dir_sect f)) (sectors d' (dir_sect f));
}.

(** Its entry no longer has to be written. *)
Definition unmarked f : File := set_fl_flags (clear (fl_flags f) (Z.lor FAT_ACCESSED FAT_MODIFIED)) f.

Lemma unmarked_flag f mask :
  mask ∈ [FAT_ACCESSED; FAT_MODIFIED] -> has (fl_flags (unmarked f)) mask = false.
Proof.
  intros Hm. unfold has, unmarked, clear. simpl. rewrite <- Z.land_assoc.
  assert (E : Z.land (Z.lnot (Z.lor FAT_ACCESSED FAT_MODIFIED)) mask = 0).
  { rewrite !elem_of_cons, elem_of_nil in Hm. by destruct Hm as [->|[->|[]]]. }
  by rewrite E, Z.land_0_r.
Qed.

Lemma stored_synced fs d f l fs2 d2 fs3 d3 :
  stored fs d f l fs2 d2 -> synced sectors fs2 fs3 d3 -> synced sectors fs fs3 d3.
Proof.
  intros [Hk _ _ Hla Hfr Hin _] [Hb Hi Hl Hf Hc].
  constructor; [done|done|congruence|congruence|]. rewrite <- Hin, <- Hla, <- Hfr. intros H. specialize (Hc H).
  unfold info_field in *. by destruct Hk as (la & fr & se & bu & fl & ->).
Qed.

Lemma wp_sync_stored s fat fs d file f l fs2 d2 Q :
  ready fs d -> file_at fs d fat f l -> entry_at fs f l -> stored fs d f l fs2 d2 ->
  entry_written f (view sectors fs d (dir_sect f)) (view sectors fs2 d2 (dir_sect f)) ->
  (forall fs' d', file_synced fs d f l fs' d' -> Q (Ok tt) (vol (filed s file (unmarked f)) fat fs' d')) ->
  wp (ebind (sync_fs fat) (fun _ => upd_file file (fun f =>
    set_fl_flags (clear (fl_flags f) (Z.lor FAT_ACCESSED FAT_MODIFIED)) f))) Q (vol (filed s file f) fat fs2 d2).
Proof.
  intros Hrd Hat Hent Hst Hew HQ. pose proof Hst as [Hk2 Hc2 Hln2 Hla2 Hfr2 Hin2 Hb2]. pose proof Hrd as [Hl Hc Hs Hu Hd]. pose proof (at_usable _ _ _ _ _ _ Hat) as Hus.
  pose proof (like_layout _ _ Hk2 Hl) as Hl2. fstep.
  eapply (wp_sync_fs ops sectors); [done..|]. intros fs3 d3 Hk3 Hc3 Hu3 Hs3.
  apply wp_upd_file. pose proof (like_trans _ _ _ Hk2 Hk3) as Hk.
  assert (Gn : clust_cnt fs3 = clust_cnt fs /\ clust_cnt fs2 = clust_cnt fs)
    by (destruct Hk as (la & fr & se & bu & fl & ->), Hk2 as (la' & fr' & se' & bu' & fl' & ->); done).
  assert (Hlink : forall c, 0 <= c < clust_cnt fs -> link sectors fs3 d3 c = link sectors fs d c).
  { intros c Hcr. rewrite (updates_link sectors fs2 d2 _ _ _ c Hk3 Hu3); [|by rewrite (proj2 Gn)].
    rewrite lookup_empty. by apply Hln2. }
  assert (Hdev : forall x, data_sect fs <= x -> sectors d3 x = view sectors fs2 d2 x).
  { intros x Hx. pose proof (data_outside _ _ Hl Hd Hx) as Hout.
    rewrite (coherent_device ops sectors fs3) by (apply Hs3 || done || destruct Hout; lia).
    destruct Hu3 as [_ Ho3]. apply Ho3. by destruct Hk2 as (la & fr & se & bu & fl & ->). }
  apply HQ. constructor; [done| |by eapply stored_synced| | |].
  - constructor; [by eapply like_layout|done| | |by eapply like_data_area].
    + intros c Hcr. rewrite (proj1 Gn) in *. rewrite Hlink by done. by apply Hs.
    + rewrite (synced_last _ _ _ _ Hs3), Hla2. by eapply like_usable.
  - eapply chain_ext; [apply Hat|]. intros x Hx. apply Hlink. eapply chain_range; [apply Hat|done].
  - intros p Hp. pose proof (file_sect_bounds fs l p Hl Hd Hus Hp) as Hfb.
    unfold device_byte. rewrite Hdev by done. by apply Hb2.
  - rewrite Hdev; [done|]. apply (entry_elsewhere _ _ _ Hent).
Qed.

Lemma wp_fat_file_sync s fat fs d file f l Q :
  ready fs d -> file_at fs d fat f l -> entry_at fs f l ->
  (forall fs' d', file_synced fs d f l fs' d' -> Q (Ok tt) (vol (filed s file (unmarked f)) fat fs' d')) ->
  wp (fat_file_sync file) Q (vol (filed s file f) fat fs d).
Proof.
  intros Hrd Hat Hent HQ. pose proof Hrd as [Hl Hc Hs Hu Hd]. pose proof (at_usable _ _ _ _ _ _ Hat) as Hus.
  unfold fat_file_sync. fstep. unfold file_fat. fstep. apply wp_get_file. rewrite (at_fat _ _ _ _ _ _ Hat). fstep.
  fstep. apply wp_get_file. fstep. apply wp_get_fs. fstep. rewrite (coherent_ops _ _ _ _ Hc).
  assert (Hfs : 0 <= fl_sect f < 2 ^ 32) by (rewrite (at_sect _ _ _ _ _ _ Hat); apply file_sect_range).
  eapply (wp_ops_write ops sectors); [apply Hc|apply Hat|done|]. intros d1 Hw1 Hd1.
  fstep. cbn [negb fail_if]. fstep. pose proof (stored_written _ _ _ _ _ _ Hrd Hat Hw1 Hd1) as Hst1.
  assert (Hv1 : view sectors fs d1 (dir_sect f) = view sectors fs d (dir_sect f)).
  { unfold view. case_decide; [done|]. rewrite Hd1, decide_False; [done|]. rewrite (at_sect _ _ _ _ _ _ Hat).
    apply (entry_elsewhere _ _ _ Hent). apply Hat. }
  assert (Hdone : forall fs2 d2, stored fs d f l fs2 d2 ->
    entry_written f (view sectors fs d (dir_sect f)) (view sectors fs2 d2 (dir_sect f)) ->
    wp (ebind (sync_fs fat) (fun _ => upd_file file (fun f =>
      set_fl_flags (clear (fl_flags f) (Z.lor FAT_ACCESSED FAT_MODIFIED)) f))) Q (vol (filed s file f) fat fs2 d2))
    by (intros fs2 d2 Hst Hew; by eapply wp_sync_stored).
  destruct (has (fl_flags f) (Z.lor FAT_ACCESSED FAT_MODIFIED)) eqn:Eacc.
  2: { fstep. apply Hdone; [done|]. rewrite Hv1. by apply entry_untouched. }
  assert (Hdir : 0 < dir_sect f < 2 ^ 32).
  { pose proof (entry_range _ _ _ Hent). pose proof (proj1 (entry_elsewhere _ _ _ Hent)). pose proof (layout_info _ Hl). pose proof (data_info _ Hd). lia. }
  do 2 fstep. eapply (wp_update_buf ops sectors); [apply Hst1|done|].
  intros fs2 d2 Hr2 Hc2 Hv2 Es2. pose proof (stored_same_view _ _ _ _ _ _ _ _ Hl Hd Hus Hst1 Hr2 Hc2 Hv2) as Hst2.
  fstep. apply wp_raise_flag. change (encode_timestamp fat_get_timestamp) with (33, 0). cbv iota beta.
  destruct (touch_entry_edits f 33 0 (f_buf fs2) (entry_inside _ _ _ Hent) (coherent_block _ _ _ _ Hc2))
    as (buf & Hbuf & Hlen).
  eapply wp_edit_buf; [exact Hbuf|]. apply Hdone; [by apply stored_edited|].
  replace (view sectors _ d2 (dir_sect f)) with buf by (unfold view; simpl; by rewrite decide_True).
  rewrite <- Hv1, <- Hv2 by lia. unfold view. rewrite decide_True by done.
  apply touch_entry_writes; [apply Hent|apply Hc2|done].
Qed.
End Streams.
