(* ===== verification/FatCodec.v ===== *)
(** * The FAT32 library: encodings and their inverses

    Lemmas on the pure helpers: packed dates, short names, fragments of long
    names, and the numbering of sectors and clusters. *)

From Stdlib Require Import String Ascii.
From S2P Require Import Prelude Exec FatTypes FatBytes FatNames FatTable.
Local Open Scope list_scope.

(** ** Packed fields *)

Section Packing.
Implicit Types (a b n : Z).

Lemma shiftl_lor a b n : 0 <= n -> 0 <= b < 2 ^ n -> Z.lor (Z.shiftl a n) b = a * 2 ^ n + b.
Proof.
  intros Hn Hb.
  assert (E : Z.land (Z.shiftl a n) b = 0).
  { apply Z.bits_inj'. intros k Hk. rewrite Z.land_spec, Z.bits_0. destruct (decide (k < n)).
    - by rewrite Z.shiftl_spec_low.
    - by rewrite <- (Z.mod_small b (2 ^ n)), Z.mod_pow2_bits_high, andb_false_r by lia. }
  rewrite <- Z.shiftl_mul_pow2 by done. symmetry. rewrite <- Z.lxor_lor by done. by apply Z.add_nocarry_lxor.
Qed.

End Packing.

(** Reads masks and shifts of packed fields as arithmetic. *)
Ltac unpack_fields :=
  change 0x1f with (Z.ones 5); change 0xf with (Z.ones 4); change 0x3f with (Z.ones 6);
  rewrite ?Z.land_ones, ?Z.shiftr_div_pow2 by done.

(** ** Timestamps *)

(** The dates and times the format can hold. *)
Definition representable (ts : Timestamp) : Prop :=
  0 <= day ts < 32 /\ 0 <= month ts < 16 /\ 1980 <= year ts < 2044 /\
  0 <= hour ts < 32 /\ 0 <= min ts < 64 /\ 0 <= sec ts < 64 /\ sec ts mod 2 = 0.

Lemma encode_timestamp_eq ts : representable ts ->
  encode_timestamp ts =
    ((year ts - 1980) * 512 + month ts * 32 + day ts, hour ts * 2048 + min ts * 32 + sec ts / 2).
Proof.
  intros (Hd & Hm & Hy & Hh & Hi & Hs & He). unfold encode_timestamp. unpack_fields.
  assert (0 <= sec ts / 2 < 32) by (pose proof (Z_div_mod_eq_full (sec ts) 2); lia).
  rewrite !Z.mod_small by lia.
  rewrite <- Z.lor_assoc, (Z.lor_comm (Z.lor (sec ts / 2) _)), (Z.lor_comm (sec ts / 2)).
  rewrite (shiftl_lor (month ts)), (shiftl_lor (min ts)) by lia. rewrite !shiftl_lor by lia. rewrite !u16_id by lia. f_equal; lia.
Qed.

Lemma decode_encode_timestamp ts : representable ts ->
  let '(date, time) := encode_timestamp ts in decode_timestamp date time = ts.
Proof.
  intros Hr. rewrite encode_timestamp_eq by done. destruct Hr as (Hd & Hm & Hy & Hh & Hi & Hs & He).
  unfold decode_timestamp. unpack_fields. destruct ts as [h mi se da mo ye]. simpl in *.
  f_equal; Z.to_euclidean_division_equations; lia.
Qed.

(** The other way round: bit 15 of the date is dropped. *)
Lemma encode_decode_timestamp date time :
  0 <= date < 2 ^ 15 -> 0 <= time < 2 ^ 16 -> encode_timestamp (decode_timestamp date time) = (date, time).
Proof.
  intros Hd Ht. rewrite encode_timestamp_eq.
  - unfold decode_timestamp. unpack_fields. simpl.
    f_equal; Z.to_euclidean_division_equations; lia.
  - unfold representable, decode_timestamp. unpack_fields. simpl. Z.to_euclidean_division_equations; lia.
Qed.

(** ** Clusters and sectors *)

Lemma sect_clust_inverse {D} (fs : Fat D) clust :
  0 <= clust_shift fs -> 0 <= data_sect fs -> 2 <= clust ->
  data_sect fs + Z.shiftl (clust - 2) (clust_shift fs) < 2 ^ 32 -> clust < 2 ^ 32 ->
  forall k, 0 <= k < Z.shiftl 1 (clust_shift fs) ->
  data_sect fs + Z.shiftl (clust - 2) (clust_shift fs) + k < 2 ^ 32 ->
  sect_to_clust fs (clust_to_sect fs clust + k) = clust.
Proof.
  intros Hs Hd Hc Hfit Hc32 k Hk Hfit'. unfold sect_to_clust, clust_to_sect.
  rewrite Z.shiftl_mul_pow2, Z.mul_1_l in Hk by done. rewrite Z.shiftl_mul_pow2 in Hfit, Hfit' by done.
  assert (Hp : 0 < 2 ^ clust_shift fs) by (apply Z.pow_pos_nonneg; lia).
  rewrite (u32_id (clust - 2)) by lia. rewrite Z.shiftl_mul_pow2 by done.
  rewrite (u32_id ((clust - 2) * 2 ^ clust_shift fs)) by nia.
  rewrite (u32_id (_ + data_sect fs)) by nia.
  replace ((clust - 2) * 2 ^ clust_shift fs + data_sect fs + k - data_sect fs)
    with (k + (clust - 2) * 2 ^ clust_shift fs) by lia.
  rewrite (u32_id (k + _)) by nia. rewrite Z.shiftr_div_pow2 by done.
  rewrite Z.div_add, Z.div_small by lia. autorewrite with machine. lia.
Qed.

(** ** Fragments of long names *)

Section LongNames.
Implicit Types (name buf : list Z) (idx k : Z) (i : nat) (ks : list Z).

(** A character a name may hold: neither the end nor the padding. *)
Definition name_char (c : Z) : Prop := 0 < c < 255.

(** The positions of the code units are two bytes apart. *)
Inductive spaced : list Z -> Prop :=
  | spaced_nil : spaced []
  | spaced_cons k ks : Forall (fun k' => k + 2 <= k') ks -> spaced ks -> spaced (k :: ks).

Lemma g_lfn_indices_spaced : spaced g_lfn_indices.
Proof. repeat (constructor; [repeat (constructor; [lia|]); constructor|]). constructor. Qed.

Lemma put_units_lt buf idx name i ks :
  Forall (fun k => 0 <= idx + k /\ idx + k + 2 <= Z.of_nat (length buf)) ks -> is_Some (put_units buf idx name i ks).
Proof.
  revert buf i. induction ks as [|k ks IH]; intros buf i Hk; [by eexists|]. inversion_clear Hk. simpl.
  destruct (put8_lt buf (idx + k) (lfn_unit name i).1) as [b1 H1]; [lia|]. rewrite H1. simpl.
  pose proof (put8_length _ _ _ _ H1) as L1.
  destruct (put8_lt b1 (idx + k + 1) (lfn_unit name i).2) as [b2 H2]; [lia|]. rewrite H2. simpl.
  pose proof (put8_length _ _ _ _ H2) as L2. apply IH. by rewrite L2, L1.
Qed.

Lemma put_units_get buf idx name i ks buf' j :
  put_units buf idx name i ks = Some buf' -> Forall (fun k => j < idx + k \/ idx + k + 2 <= j) ks ->
  get8 buf' j = get8 buf j.
Proof.
  revert buf i. induction ks as [|k ks IH]; intros buf i Hp Hk; [by injection Hp as ->|].
  inversion_clear Hk. simpl in Hp.
  destruct (put8 buf (idx + k) _) as [b1|] eqn:H1; simpl in Hp; [|done].
  destruct (put8 b1 (idx + k + 1) _) as [b2|] eqn:H2; simpl in Hp; [|done].
  rewrite (IH _ _ Hp) by done. rewrite (get_put8_ne _ _ _ _ j H2), (get_put8_ne _ _ _ _ j H1) by lia. done.
Qed.

(** Reading a fragment gives the characters that were put there. *)
Lemma read_put_units buf idx name i ks buf' :
  Forall name_char name -> spaced ks -> (i <= length name)%nat ->
  put_units buf idx name i ks = Some buf' ->
  read_units buf' idx ks = Some (take (length ks) (drop i name), false).
Proof.
  intros Hn Hs. revert buf i. induction Hs as [|k ks Hk Hs IH]; intros buf i Hi Hp; [done|]. simpl in Hp |- *.
  destruct (put8 buf (idx + k) _) as [b1|] eqn:H1; simpl in Hp; [|done].
  destruct (put8 b1 (idx + k + 1) _) as [b2|] eqn:H2; simpl in Hp; [|done].
  assert (Hg : get8 buf' (idx + k) = Some (u8 (lfn_unit name i).1)).
  { rewrite (put_units_get _ _ _ _ _ _ (idx + k) Hp).
    - rewrite (get_put8_ne _ _ _ _ _ H2) by lia. by eapply get_put8.
    - eapply Forall_impl; [exact Hk|]. simpl. intros; lia. }
  rewrite Hg. simpl. unfold lfn_unit. destruct (name !! i) as [c|] eqn:Hc.
  - pose proof (proj1 (Forall_lookup _ _) Hn _ _ Hc) as Hcc. unfold name_char in Hcc. simpl.
    rewrite u8_id by lia. destruct (Z.eqb_spec c 0xff); [lia|]. destruct (Z.eqb_spec c 0); [lia|].
    apply lookup_lt_Some in Hc as Hlt. rewrite (IH b2 (S i)) by (done || lia). simpl.
    by rewrite (drop_S _ _ _ Hc).
  - apply lookup_ge_None in Hc. rewrite (proj2 (Nat.eqb_eq i (length name))) by lia. simpl.
    by rewrite drop_ge, take_nil by lia.
Qed.

Lemma lfn_frag_roundtrip buf idx name :
  Forall name_char name -> 0 <= idx -> idx + 32 <= Z.of_nat (length buf) ->
  exists buf', put_lfn_name_frag buf idx name = Some buf' /\
    read_units buf' idx g_lfn_indices = Some (take 13 name, false) /\
    forall j, 0 <= j -> j < idx + 1 \/ idx + 32 <= j \/ j - idx = 11 \/ j - idx = 12 \/ j - idx = 13 \/
      j - idx = 26 \/ j - idx = 27 -> get8 buf' j = get8 buf j.
Proof.
  intros Hn Hi Hl. destruct (put_units_lt buf idx name 0 g_lfn_indices) as [buf' Hp].
  { repeat (constructor; [lia|]). constructor. }
  exists buf'. split; [done|]. split.
  - by apply (read_put_units buf idx name 0 g_lfn_indices buf' Hn g_lfn_indices_spaced ltac:(lia)).
  - intros j Hj Hout. apply (put_units_get _ _ _ _ _ _ j Hp). repeat (constructor; [lia|]). constructor.
Qed.
End LongNames.

(** ** Short names *)

Section ShortNames.
Implicit Types (name base ext : list Z) (c : Z).

(** The codes of the characters of a string. *)
Definition str (s : string) : list Z := (fun a => Z.of_nat (nat_of_ascii a)) <$> list_ascii_of_string s.

(** The characters the FAT file system allows in a short name, as its
    specification lists them: the capital letters, the digits, these symbols,
    and the space that pads a field. *)
Definition capitals : list Z := str "ABCDEFGHIJKLMNOPQRSTUVWXYZ".
Definition small_letters : list Z := str "abcdefghijklmnopqrstuvwxyz".
Definition numerals : list Z := str "0123456789".
Definition symbols : list Z := str "$%'-_@~`!(){}^#& ".
Definition fat_characters : list Z := capitals ++ numerals ++ symbols.

(** What a character of a name becomes: a small letter its capital; a capital
    or a symbol is kept; everything else, a digit too, becomes an underscore. *)
Definition short_char c : Z :=
  match list_find (eq c) small_letters with
  | Some (i, _) => capitals !!! i
  | None => if bool_decide (c ∈ capitals ++ symbols) then c else 95
  end.

(** A field of [n] characters: the first [n] of [l], filled with spaces. *)
Definition short_field n l : list Z := take n ((short_char <$> l) ++ replicate n 32).

(** What can be decided for every character by computation. *)
Lemma ascii_forall (p : Z -> bool) c : forallb p (seqZ 0 128) = true -> 0 <= c < 128 -> p c = true.
Proof. intros H Hc. apply (proj1 (forallb_forall _ _) H), list_elem_of_In, elem_of_seqZ. lia. Qed.

Lemma not_ascii c l : Forall (fun x => 0 <= x < 128) l -> ~ (0 <= c < 128) -> c ∉ l.
Proof. intros Hl Hc Hin. by apply (proj1 (Forall_forall _ _) Hl c) in Hin. Qed.

Lemma all_ascii l : forallb (fun x => (0 <=? x) && (x <? 128)) l = true -> Forall (fun x => 0 <= x < 128) l.
Proof. intros H. apply Forall_forall. intros x Hx%list_elem_of_In. apply (proj1 (forallb_forall _ _) H) in Hx. lia. Qed.

Lemma sfn_char_short c : sfn_char c = short_char c.
Proof.
  destruct (decide (0 <= c < 128)) as [Hc|Hc].
  { apply Z.eqb_eq, (ascii_forall (fun c => sfn_char c =? short_char c)); [by vm_compute|done]. }
  unfold sfn_char, short_char, to_upper.
  rewrite (proj2 (andb_false_iff (97 <=? c) (c <=? 122))) by lia.
  rewrite (proj2 (andb_false_iff (65 <=? c) (c <=? 90))) by lia.
  rewrite (proj2 (list_find_None (eq c) small_letters)).
  - rewrite !bool_decide_eq_false_2; [done|by apply not_ascii; [apply all_ascii|]..].
  - apply Forall_forall. intros x Hx <-. revert Hx. by apply not_ascii; [apply all_ascii|].
Qed.

Lemma short_char_legal c : short_char c ∈ fat_characters.
Proof.
  unfold short_char. destruct (list_find (eq c) small_letters) as [[i x]|] eqn:E.
  - apply list_find_Some in E as (Hi & _ & _). apply lookup_lt_Some in Hi.
    apply elem_of_app. left. by apply list_elem_of_lookup_total_2.
  - case_bool_decide as H; [|by apply (bool_decide_unpack _); vm_compute].
    apply elem_of_app in H as [H|H]; apply elem_of_app; [by left|right; apply elem_of_app; by right].
Qed.

Lemma pad_length n l : (length l <= n)%nat -> length (pad n l) = n.
Proof. intros H. unfold pad. rewrite length_app, length_replicate. lia. Qed.

Lemma before_dot_length name : (length (before_dot name) <= length name)%nat.
Proof. induction name as [|c name IH]; simpl; [lia|]. destruct (c =? dot); simpl; lia. Qed.

Lemma put_sfn_name_length name : length (put_sfn_name name) = 11%nat.
Proof.
  unfold put_sfn_name. pose proof (before_dot_length (take 8 name)).
  rewrite length_app, !pad_length; rewrite ?length_fmap, ?length_take in *; lia.
Qed.

Lemma pad_Forall P n l : Forall P l -> P SFN_PAD -> Forall P (pad n l).
Proof. intros Hl Hp. apply Forall_app. split; [done|]. by apply Forall_replicate. Qed.

Lemma pad_field n l : pad n (sfn_char <$> take n l) = short_field n l.
Proof.
  unfold pad, short_field. rewrite take_app, length_fmap, fmap_take, length_take, length_fmap, take_replicate.
  f_equal; [|f_equal; lia]. f_equal. apply list_fmap_ext. intros i c _. apply sfn_char_short.
Qed.

Lemma put_sfn_name_Forall name (P : Z -> Prop) :
  (forall c, P (sfn_char c)) -> P SFN_PAD -> Forall P (put_sfn_name name).
Proof.
  intros Hc Hp. apply Forall_app. split; apply pad_Forall; try done; apply Forall_fmap, Forall_true; done.
Qed.

Lemma put_sfn_name_legal_characters name : Forall (fun c => c ∈ fat_characters) (put_sfn_name name).
Proof.
  apply put_sfn_name_Forall; [intros c; rewrite sfn_char_short; apply short_char_legal|].
  by apply (bool_decide_unpack _); vm_compute.
Qed.

(** *** Names of the form BASE.EXT *)

(** A character that is stored unchanged, and is neither padding nor a dot. *)
Definition sfn_plain c : Prop := sfn_char c = c /\ c <> SFN_PAD /\ c <> dot.

Lemma before_dot_app base rest : Forall (fun c => c <> dot) base -> before_dot (base ++ dot :: rest) = base.
Proof. induction 1 as [|c base Hc _ IH]; simpl; [done|]. destruct (Z.eqb_spec c dot); [done|]. by rewrite IH. Qed.

Lemma before_dot_id base : Forall (fun c => c <> dot) base -> before_dot base = base.
Proof. induction 1 as [|c base Hc _ IH]; simpl; [done|]. destruct (Z.eqb_spec c dot); [done|]. by rewrite IH. Qed.

(** The base of a name ends at its first dot, or at eight characters. *)
Lemma before_dot_take base ext :
  Forall (fun c => c <> dot) base -> before_dot (take 8 (base ++ dot :: ext)) = take 8 base.
Proof.
  intros Hd. rewrite take_app. destruct (decide (8 <= length base)%nat) as [E|E].
  - replace (8 - length base)%nat with 0%nat by lia. rewrite take_0, app_nil_r.
    apply before_dot_id. by apply Forall_take.
  - rewrite (take_ge base) by lia. replace (8 - length base)%nat with (S (7 - length base)) by lia.
    rewrite firstn_cons. by apply before_dot_app.
Qed.

Lemma after_dot_app base ext : Forall (fun c => c <> dot) base -> after_dot (base ++ dot :: ext) = ext.
Proof. induction 1 as [|c base Hc _ IH]; simpl; [done|]. by destruct (Z.eqb_spec c dot). Qed.

Lemma after_dot_nil base : Forall (fun c => c <> dot) base -> after_dot base = [].
Proof. induction 1 as [|c base Hc _ IH]; simpl; [done|]. by destruct (Z.eqb_spec c dot). Qed.

Lemma not_dot l : dot ∉ l -> Forall (fun c => c <> dot) l.
Proof. intros H. apply Forall_forall. by intros x Hx ->. Qed.

(** A name is cut at its first dot: the fields hold what comes before it and
    what comes after it. *)
Lemma put_sfn_name_dot base ext :
  dot ∉ base -> put_sfn_name (base ++ dot :: ext) = short_field 8 base ++ short_field 3 ext.
Proof.
  intros Hb%not_dot. unfold put_sfn_name. cbv zeta. rewrite before_dot_take, <-!pad_field by done.
  do 3 f_equal. rewrite length_take, drop_app_le, after_dot_app by (try apply Forall_drop; try lia; done). done.
Qed.

Lemma put_sfn_name_no_dot name : dot ∉ name -> put_sfn_name name = short_field 8 name ++ short_field 3 [].
Proof.
  intros Hb%not_dot. unfold put_sfn_name. cbv zeta.
  rewrite (before_dot_id (take 8 name)), (after_dot_nil (drop _ name)), <-!pad_field
    by (first [by apply Forall_take | by apply Forall_drop]). done.
Qed.

Lemma before_pad_app base n : Forall (fun c => c <> SFN_PAD) base -> before_pad (base ++ replicate n SFN_PAD) = base.
Proof.
  induction 1 as [|c base Hc _ IH]; simpl; [by destruct n|]. destruct (Z.eqb_spec c SFN_PAD); [done|]. by rewrite IH.
Qed.

Lemma sfn_char_plain l : Forall sfn_plain l -> sfn_char <$> l = l.
Proof. induction 1 as [|c l [H _] _ IH]; [done|]. by rewrite fmap_cons, H, IH. Qed.

Lemma parse_put_sfn base ext :
  Forall sfn_plain base -> Forall sfn_plain ext -> (1 <= length base <= 8)%nat -> (1 <= length ext <= 3)%nat ->
  parse_sfn_name (put_sfn_name (base ++ dot :: ext)) = base ++ dot :: ext.
Proof.
  intros Hb He Lb Le. unfold put_sfn_name. cbv zeta.
  assert (Et : before_dot (take 8 (base ++ dot :: ext)) = base).
  { assert (Hd : Forall (fun c => c <> dot) base) by (eapply Forall_impl; [exact Hb|]; by intros c (_ & _ & ?)).
    destruct (decide (length base = 8%nat)) as [E|E].
    - rewrite take_app_length' by done. by apply before_dot_id.
    - rewrite take_app, (take_ge base) by lia. replace (8 - length base)%nat with (S (7 - length base)) by lia.
      rewrite firstn_cons. by apply before_dot_app. }
  rewrite Et, drop_app_length. change (after_dot (dot :: ext)) with ext.
  rewrite (take_ge ext), !sfn_char_plain by (done || lia).
  unfold parse_sfn_name. cbv zeta. pose proof (pad_length 8 base ltac:(lia)) as L8.
  rewrite take_app_length', drop_app_length' by done.
  unfold pad. rewrite before_pad_app by (eapply Forall_impl; [exact Hb|]; by intros c (_ & ? & _)).
  f_equal. destruct ext as [|c ext]; [simpl in Le; lia|]. cbn [app].
  inversion_clear He as [|? ? (_ & Hc & _) He']. destruct (Z.eqb_spec c SFN_PAD); [done|]. f_equal.
  change (c :: ext ++ ?r) with ((c :: ext) ++ r). apply before_pad_app. constructor; [done|].
  eapply Forall_impl; [exact He'|]. by intros x (_ & ? & _).
Qed.
End ShortNames.

(** ** Paths *)

Section Paths.
Implicit Types (path name : list Z).

Lemma subpath_len_spec path name rest :
  Forall (fun c => c <> slash) name -> (rest = [] \/ exists r, rest = slash :: r) ->
  path = name ++ rest -> subpath_len path = length name.
Proof.
  intros Hn Hr ->. induction Hn as [|c name Hc _ IH]; simpl.
  - by destruct Hr as [->|[r ->]].
  - destruct (Z.eqb_spec c slash); [done|]. by rewrite IH.
Qed.

Lemma subpath_split path : exists rest, path = take (subpath_len path) path ++ rest /\
  Forall (fun c => c <> slash) (take (subpath_len path) path) /\ (rest = [] \/ exists r, rest = slash :: r).
Proof.
  induction path as [|c path (rest & E & Hf & Hr)]; simpl; [exists []; auto|].
  destruct (Z.eqb_spec c slash) as [->|Hne]; [exists (slash :: path); naive_solver|].
  exists rest. simpl. rewrite <- E. auto.
Qed.

Lemma skip_slashes_nil path : skip_slashes path = [] <-> Forall (fun c => c = slash) path.
Proof.
  induction path as [|c path IH]; simpl; [done|]. rewrite Forall_cons. destruct (Z.eqb_spec c slash); naive_solver.
Qed.
End Paths.
