(* ===== verification/FatDemo.v ===== *)
(** * The FAT32 library: a volume in memory

    A device that keeps its sectors in a map, a formatted image on it, and a
    run of the library over them.  The device satisfies [Reliable], so the
    theorems on volumes apply to the states of this file. *)

From Stdlib Require Import String Ascii.
From S2P Require Import Prelude Exec FatTypes FatNames FatTable FatDir FatFile FatLogic FatCodec.
Local Open Scope list_scope.
Open Scope fat_scope.

(** ** The device *)

Abbreviation ram_disk := (gmap Z (list Z)).

Definition sector_of (d : ram_disk) (sect : Z) : list Z := resize 512 0 (default [] (d !! sect)).

Definition ram_ops : DiskOps ram_disk :=
  mkOps (fun _ sect => d ← gets id; mret (true, sector_of d sect))
    (fun buf sect => modify <[sect := buf]>;; mret true).

(** Every cell of the map is a byte. *)
Definition ram_working (d : ram_disk) : Prop := map_Forall (fun _ => Forall is_byte) d.

#[export] Instance ram_reliable : Reliable ram_ops sector_of.
Proof.
  refine {| working := ram_working |}.
  - intros buf sect d Hd Hb Hs. by exists d.
  - intros buf sect d Hd [Hl Hb] Hs. exists (<[sect := buf]> d). split; [done|].
    split; [by apply map_Forall_insert_2|]. intros x. unfold sector_of. case_decide as E.
    + subst x. rewrite lookup_insert_eq. simpl. by apply resize_all_alt.
    + by rewrite lookup_insert_ne.
  - intros d x Hd. unfold sector_of. split; [apply length_resize|]. apply Forall_resize; [done|].
    destruct (d !! x) eqn:E; [by eapply Hd|constructor].
Defined.

(** ** A formatted image *)

(** Stores the fields [(offset, width, value)] in a sector. *)
Definition fields (l : list (Z * nat * Z)) (b : list Z) : list Z :=
  foldl (fun b '(off, n, v) => default b (put_le n b (Z.to_nat off) v)) b l.

Definition empty_sector : list Z := replicate 512 0.

(** One sector per cluster, 32 reserved sectors, two tables of 512 sectors, and
    the mirroring flag set. *)
Definition boot_sector : list Z :=
  fields [(0, 1%nat, 0xeb); (Bpb_bytes_per_sect, 2%nat, 512); (Bpb_sect_per_clust, 1%nat, 1);
    (Bpb_res_sect_cnt, 2%nat, 32); (Bpb_fat_cnt, 1%nat, 2); (Bpb_sect_cnt_32, 4%nat, 70000);
    (Bpb_sect_per_fat_32, 4%nat, 512); (Bpb_ext_flags, 2%nat, 0x80); (Bpb_root_cluster, 4%nat, 2);
    (Bpb_info_sect, 2%nat, 1); (Bpb_fs_type, 4%nat, 0x33544146); (Bpb_fs_type + 4, 4%nat, 0x20202032)] empty_sector.

Definition info_sector : list Z :=
  fields [(FsInfo_head_sig, 4%nat, FSINFO_HEAD_SIG); (FsInfo_struct_sig, 4%nat, FSINFO_STRUCT_SIG);
    (FsInfo_free_cnt, 4%nat, 65000); (FsInfo_next_free, 4%nat, 2); (FsInfo_tail_sig, 4%nat, FSINFO_TAIL_SIG)] empty_sector.

(** The root directory is cluster 2. *)
Definition table_sector : list Z :=
  fields [(0, 4%nat, 0x0ffffff8); (4, 4%nat, 0x0fffffff); (8, 4%nat, 0x0fffffff)] empty_sector.

Definition image : ram_disk := {[0 := boot_sector; 1 := info_sector; 32 := table_sector; 544 := table_sector]}.

(** The volume at address 100, a directory at 1 and files at 7 and 8. *)
Definition unmounted : Fat ram_disk := mkFat None ram_ops 0 0 0 0 0 0 0 0 0 0 empty_sector 0 0 [].

Definition start : fstate ram_disk :=
  mkFs image {[100 := unmounted]} None {[user_dir 1 := zero_Dir]} {[7 := zero_File; 8 := zero_File]} empty_sector 0 0.

(** ** A run *)

(** Enough for every directory walk of the run. *)
Definition demo_fuel : nat := 100.

Definition session : FM ram_disk (Z * (Z * list Z) * Z * list Z * result unit) :=
  do! fat_mount ram_ops 0 100 (str "mnt") in
  do! fat_dir_create demo_fuel (user_dir 1) (str "/mnt/docs") in
  do! fat_file_open demo_fuel 7 (str "/mnt/docs/hello world.txt") (Z.lor FAT_WRITE FAT_CREATE) in
  let! w := fat_file_write 7 (str "The quick brown fox") in
  do! fat_file_close 7 in
  do! fat_file_open demo_fuel 8 (str "/mnt//docs/hello world.txt") FAT_READ in
  let! r := fat_file_read 8 100 in
  let! i := fat_stat demo_fuel (str "/mnt/docs/hello world.txt") in
  do! fat_unlink demo_fuel (str "/mnt/docs/hello world.txt") in
  let! again := attempt (fat_file_open demo_fuel 8 (str "/mnt//docs/hello world.txt") FAT_READ) in
  ok (w.2, r, i_size i, i_name i, again).

(** What was written is read back, the file is found by its long name, and it
    is gone once unlinked. *)
Example session_result :
  match session start with Done r _ => Some r | _ => None end =
    Some (Ok (19, (FAT_ERR_NONE, str "The quick brown fox"), 19, str "hello world.txt", Err FAT_ERR_DENIED)).
Proof. vm_compute. reflexivity. Qed.
