(* ===== verification/FatVolume.v ===== *)
(** * The FAT32 library: an example volume

    A small volume with one open file, on any device that holds its sectors;
    the properties of volumes and files apply to it. *)

From S2P Require Import Prelude Exec FatTypes FatBytes FatTable FatFile FatLogic FatChain FatAlloc FatIO FatStream FatDemo.

(** Eight clusters of one sector: the root directory in cluster 2, and a file
    in clusters 3, 5 and 4. *)
Definition small_table : list Z :=
  fields [(0, 4%nat, 0x0ffffff8); (4, 4%nat, 0x0fffffff); (8, 4%nat, 0x0fffffff); (12, 4%nat, 5);
    (16, 4%nat, 0xafffffff); (20, 4%nat, 4)] empty_sector.

Definition small_disk : ram_disk := {[1 := info_sector; 32 := small_table; 40 := small_table]}.

Definition small_volume {D} (ops : DiskOps D) : Fat D := mkFat None ops 0 8 1 32 40 64 2 3 2 0 empty_sector 0 0 [].

(** The file, open for reading and writing, two bytes before its second sector. *)
Definition small_file : File := mkFile (Some 100) 64 3 3 65 1000 510 32 0 3 empty_sector.

Definition small_fstate {D} (ops : DiskOps D) (d : D) : fstate D :=
  mkFs d {[100 := small_volume ops]} (Some 100) ∅ {[7 := small_file]} empty_sector 0 0.

(** Decides that the sectors of a disk are bytes. *)
Lemma bytes_decide l : bool_decide (Forall is_byte l) = true -> Forall is_byte l.
Proof. by intros ?%bool_decide_eq_true. Qed.

Lemma small_working : ram_working small_disk.
Proof.
  unfold small_disk. repeat apply map_Forall_insert_2; [..|apply map_Forall_empty];
    apply bytes_decide; vm_compute; reflexivity.
Qed.

Lemma empty_block : block empty_sector.
Proof. split; [done|]. apply bytes_decide. vm_compute. reflexivity. Qed.

Section Small.
Context {D : Type} (ops : DiskOps D) (sectors : D -> Z -> list Z) `{!Reliable ops sectors} (d : D).
Context (Hd : forall x, sectors d x = sector_of small_disk x) (Hw : working d).

Abbreviation small := (small_volume ops).

Lemma small_layout : layout small.
Proof.
  assert (Hs : table_size small = 1) by done.
  constructor; rewrite ?Hs; simpl; try lia; intros base [->|[-> ?]]; simpl; lia.
Qed.

Lemma small_coherent : coherent ops sectors small d.
Proof using Hw. clear Hd. by constructor; first [done|apply empty_block]. Qed.

Lemma small_link c : link sectors small d c = link sector_of (small_volume ram_ops) small_disk c.
Proof using Hd. unfold link, entry, view. simpl. by rewrite Hd. Qed.

Lemma small_sound : sound_table sectors small d.
Proof using Hd.
  assert (H : forallb (fun c => bool_decide (classify 8 (link sector_of (small_volume ram_ops) small_disk c) <> None))
    (seqZ 0 8) = true) by (vm_compute; reflexivity).
  intros c Hc. rewrite small_link. rewrite forallb_forall in H. specialize (H c). rewrite bool_decide_eq_true in H. apply H.
  apply list_elem_of_In, elem_of_seqZ. simpl in Hc. lia.
Qed.

Lemma small_chain : chain (link sectors small d) 8 3 ([3; 5] ++ [4]).
Proof using Hd.
  assert (E : link sector_of (small_volume ram_ops) small_disk 3 = 5 /\ link sector_of (small_volume ram_ops) small_disk 5 = 4 /\
    classify 8 (link sector_of (small_volume ram_ops) small_disk 4) = Some LAST) by (vm_compute; repeat split).
  rewrite <- !small_link in E. destruct E as (E3 & E5 & E4). apply chain_link; [by split|by rewrite E3|]. rewrite E3.
  apply chain_link; [by split|by rewrite E5|]. rewrite E5. by apply chain_last; [split|].
Qed.

Lemma small_data_area : data_area small.
Proof.
  assert (Hs : table_size small = 1) by done.
  constructor; rewrite ?Hs; simpl; try lia; intros base [->|[-> ?]]; simpl; lia.
Qed.

Lemma small_ready : ready ops sectors small d.
Proof using Hd Hw. constructor; [apply small_layout|apply small_coherent|apply small_sound|done|apply small_data_area]. Qed.

Lemma small_file_at : file_at sectors small d 100 small_file [3; 5; 4].
Proof using Hd.
  assert (Hus : Forall (usable small) [3; 5; 4]) by (repeat (constructor; [done|]); constructor).
  constructor; [done|exact small_chain|done|done|done|done|apply empty_block| |].
  - intros _. simpl. by rewrite Hd.
  - intros p Hp. pose proof (file_sect_bounds small _ p small_layout small_data_area Hus Hp). simpl in *. lia.
Qed.

Lemma small_entry_at : entry_at small small_file [3; 5; 4].
Proof.
  assert (Hus : Forall (usable small) [3; 5; 4]) by (repeat (constructor; [done|]); constructor).
  constructor; [|done|done]. split; [done|]. intros p Hp.
  destruct (file_sect_eq small _ p small_layout small_data_area Hus Hp) as [Hc ->].
  assert (H3 : Forall (fun c => 3 <= c) [3; 5; 4]) by (repeat (constructor; [lia|]); constructor).
  rewrite Forall_forall in H3. specialize (H3 _ (list_elem_of_lookup_total_2 _ _ (cluster_index small _ p small_data_area Hp))).
  pose proof (Z.mod_pos_bound (p / 512) (2 ^ clust_shift small) ltac:(done)). unfold cluster_sect. simpl in *. lia.
Qed.
End Small.

(** ** On the device in memory *)

Definition small : Fat ram_disk := small_volume ram_ops.

Definition small_state : fstate ram_disk := small_fstate ram_ops small_disk.

Definition ram_ready : ready ram_ops sector_of small small_disk :=
  small_ready ram_ops sector_of small_disk (fun _ => eq_refl) small_working.

Definition ram_file_at : file_at sector_of small small_disk 100 small_file [3; 5; 4] :=
  small_file_at ram_ops sector_of small_disk (fun _ => eq_refl).

Definition ram_coherent : coherent ram_ops sector_of small small_disk := ready_coherent _ _ _ _ ram_ready.
