(* ===== verification/FatTheorems.v ===== *)
(** * The FAT32 library: properties *)

From Stdlib Require Import String.
From S2P Require Import Prelude Exec FatTypes FatBytes FatNames FatTable FatDir FatFile FatLogic FatChain FatAlloc FatIO FatStream FatCodec FatDemo FatVolume.
Local Open Scope list_scope.
Open Scope fat_scope.

(** ** The allocation table *)

Section Properties.
Context {D : Type} {ops : DiskOps D} {sectors : D -> Z -> list Z} `{!Reliable ops sectors}.
Implicit Types (s : fstate D) (fs : Fat D) (fat c v : Z).

Lemma wp_at_volume {A} (m : FM D A) Q s fat fs :
  fats s !! fat = Some fs -> wp m Q (vol s fat fs (disk s)) -> wp m Q s.
Proof. intros H. by rewrite vol_here. Qed.

(** [get_fat] after [put_fat] sees the stored link at the
    changed cluster and the old link at every other, whatever is buffered; an
    entry that is no link makes it fail. *)
Theorem put_fat_get_fat s fat fs c v c' :
  fats s !! fat = Some fs -> layout fs -> coherent ops sectors fs (disk s) ->
  0 <= c < clust_cnt fs -> 0 <= c' < clust_cnt fs ->
  let val := if decide (c' = c) then Z.land v 0x0fffffff else link sectors fs (disk s) c' in
  wp (do! put_fat fat c v in get_fat fat c')
    (fun r _ => r = match classify (clust_cnt fs) val with
                    | Some flags => Ok (val, flags)
                    | None => Err FAT_ERR_BROKEN
                    end) s.
Proof.
  intros Hs Hl Hc Hr Hr'. apply (wp_at_volume _ _ _ _ _ Hs). fstep.
  eapply wp_put_fat; [done..|]. intros fs1 d1 Hrb Hc1 Hu _. pose proof (rebuffered_like _ _ Hrb) as Hk.
  assert (En : clust_cnt fs1 = clust_cnt fs) by (by destruct Hrb as (? & ? & ? & -> & _)).
  eapply wp_get_fat; [by eapply like_layout|done|by rewrite En|]. intros fs2 d2 _ _ _ _.
  rewrite En, (updates_link _ _ _ _ _ _ c' Hk Hu Hr'). case_decide as E.
  - subst c'. by rewrite lookup_singleton_eq.
  - by rewrite lookup_singleton_ne.
Qed.

(** C26: [put_fat] stores the link in the active table and in its
    mirror, keeps the upper four bits of both entries, and changes no other
    entry and no other sector: only sector 0, which the library never buffers,
    is not spoken of. *)
Theorem put_fat_stores s fat fs c v :
  fats s !! fat = Some fs -> layout fs -> coherent ops sectors fs (disk s) -> 0 <= c < clust_cnt fs ->
  wp (put_fat fat c v) (fun r s' => r = Ok tt /\ exists fs', s' = vol s fat fs' (disk s') /\
    rebuffered fs fs' /\ coherent ops sectors fs' (disk s') /\
    (forall base c', is_table fs base -> 0 <= c' < clust_cnt fs ->
       let old := entry sectors fs (disk s) base c' in
       let new := entry sectors fs' (disk s') base c' in
       Z.land new 0xf0000000 = Z.land old 0xf0000000 /\
       Z.land new 0x0fffffff = Z.land (if decide (c' = c) then v else old) 0x0fffffff) /\
    forall x, off_tables fs x -> view sectors fs' (disk s') x = view sectors fs (disk s) x) s.
Proof.
  intros Hs Hl Hc Hr. apply (wp_at_volume _ _ _ _ _ Hs).
  eapply wp_put_fat; [done..|]. intros fs1 d1 Hrb Hc1 [He _] Ho. split; [done|]. exists fs1.
  split; [done|]. split; [done|]. split; [done|]. split; [|exact Ho].
  intros base c' Ht Hr'. cbv zeta. simpl. rewrite He by done. case_decide as E.
  - subst c'. rewrite lookup_singleton_eq. split; [apply merge_high|apply merge_link].
  - by rewrite lookup_singleton_ne.
Qed.

(** C27: [remove_chain] returns on every table, one whose links
    run in circles included.  If the links from [c] form a chain it frees
    exactly that chain, counts the clusters and writes the counters to the
    device; otherwise it fails, having freed used clusters only. *)
Theorem remove_chain_frees s fat fs c :
  fats s !! fat = Some fs -> layout fs -> coherent ops sectors fs (disk s) -> 0 <= c < clust_cnt fs ->
  wp (remove_chain fat c) (fun r s' => exists l fs', s' = vol s fat fs' (disk s') /\
    like fs fs' /\ coherent ops sectors fs' (disk s') /\
    removed (link sectors fs (disk s)) (clust_cnt fs) c r l /\
    updates sectors fs (disk s) fs' (disk s') (freed l) /\
    (r = Ok tt -> settled sectors fs' (disk s') (last_used fs) (free_cnt fs + Z.of_nat (length l)))) s.
Proof.
  intros Hs Hl Hc Hr. apply (wp_at_volume _ _ _ _ _ Hs).
  eapply wp_remove_chain; [done..|]. intros r l fs' d' Hk Hc' Hu Hrm Hset. by exists l, fs'.
Qed.

(** C28: [stretch_chain] attaches a free cluster to the chain
    [l ++ [prev]], which then ends in that cluster, and settles the counters on
    the device; it fails with [FAT_ERR_FULL], changing no entry, only if no
    cluster is free but perhaps the last one allocated. *)
Theorem stretch_chain_extends s fat fs c l prev :
  fats s !! fat = Some fs -> layout fs -> coherent ops sectors fs (disk s) ->
  sound_table sectors fs (disk s) -> usable fs (last_used fs) -> 0 < prev ->
  chain (link sectors fs (disk s)) (clust_cnt fs) c (l ++ [prev]) ->
  wp (stretch_chain fat prev) (fun r s' => exists fs', s' = vol s fat fs' (disk s') /\
    like fs fs' /\ coherent ops sectors fs' (disk s') /\
    ((exists v, r = Ok v /\ usable fs v /\ link sectors fs (disk s) v = 0 /\
        chain (link sectors fs' (disk s')) (clust_cnt fs) c (l ++ [prev; v]) /\
        updates sectors fs (disk s) fs' (disk s') (attached prev v) /\
        settled sectors fs' (disk s') v (free_cnt fs - 1)) \/
     (r = Err FAT_ERR_FULL /\ full sectors fs (disk s) /\ updates sectors fs (disk s) fs' (disk s') ∅))) s.
Proof.
  intros Hs Hl Hc Hst Hu Hp Hch. apply (wp_at_volume _ _ _ _ _ Hs).
  assert (Hr : 0 <= prev < clust_cnt fs) by (eapply chain_range; [exact Hch|set_solver]).
  eapply wp_stretch_chain; [done..|]. intros r fs' d' Hk Hc' Hres. exists fs'.
  split; [done|]. split; [done|]. split; [done|].
  destruct Hres as [(v & -> & Hv & H0 & Hupd & Hlast & Hset)|(-> & Hfull & Hupd & _)]; [left|by right].
  exists v. do 3 (split; [done|]). split; [|done]. by eapply (stretched_chain sectors fs (disk s)).
Qed.

(** C29: [fat_sync] makes the device agree with what the library
    sees of the volume, leaves no change pending, and writes the counters if
    they have changed. *)
Theorem fat_sync_writes_back s fat fs :
  fats s !! fat = Some fs -> layout fs -> coherent ops sectors fs (disk s) ->
  wp (fat_sync fat) (fun r s' => r = Ok tt /\ exists fs', s' = vol s fat fs' (disk s') /\
    like fs fs' /\ coherent ops sectors fs' (disk s') /\ synced sectors fs fs' (disk s') /\
    (forall x, outside fs x -> sectors (disk s') x = view sectors fs (disk s) x) /\
    (forall base c, is_table fs base -> 0 <= c < clust_cnt fs ->
       get32 (sectors (disk s') (entry_sect base c)) (4 * (c mod 128)) = Some (entry sectors fs (disk s) base c))) s.
Proof.
  intros Hs Hl Hc. apply (wp_at_volume _ _ _ _ _ Hs).
  eapply wp_sync_fs; [done..|]. intros fs' d' Hk Hc' Hu Hsy. split; [done|]. exists fs'.
  split; [done|]. split; [done|]. split; [done|]. split; [done|]. simpl. pose proof (synced_buf _ _ _ _ Hsy) as Hd.
  destruct Hu as [He Ho]. split.
  - intros x Hx. rewrite (coherent_device ops sectors fs' d') by (done || destruct Hx; lia). by apply Ho.
  - intros base c Ht Hr. destruct (entry_pos _ _ _ Hl Ht Hr) as [Hp _].
    specialize (He _ _ Ht Hr). rewrite lookup_empty in He. rewrite <- He.
    rewrite (coherent_device ops sectors fs' d') by done. by apply (entry_get32 ops sectors).
Qed.
End Properties.

Lemma put_fat_get_fat_witness :
  wp (do! put_fat 100 5 7 in get_fat 100 5) (fun r _ => r = Ok (7, CLUST_USED)) small_state.
Proof. exact (put_fat_get_fat small_state 100 small 5 7 5 eq_refl (small_layout ram_ops) ram_coherent ltac:(by split) ltac:(by split)). Defined.

Lemma put_fat_stores_witness :
  wp (put_fat 100 4 0) (fun r s' => r = Ok tt) small_state.
Proof.
  eapply wp_mono; [exact (put_fat_stores small_state 100 small 4 0 eq_refl (small_layout ram_ops) ram_coherent ltac:(by split))|].
  intros r s' [H _]. exact H.
Defined.

Lemma remove_chain_frees_witness :
  wp (remove_chain 100 3) (fun r s' => exists l, removed (link sector_of small small_disk) 8 3 r l) small_state.
Proof.
  eapply wp_mono;
    [exact (remove_chain_frees small_state 100 small 3 eq_refl (small_layout ram_ops) ram_coherent ltac:(by split))|].
  intros r s' (l & fs' & _ & _ & _ & H & _). exists l. exact H.
Defined.

Lemma stretch_chain_extends_witness :
  wp (stretch_chain 100 4) (fun r s' => r = Err FAT_ERR_FULL \/ exists v, r = Ok v) small_state.
Proof.
  eapply wp_mono; [exact (stretch_chain_extends small_state 100 small 3 [3; 5] 4 eq_refl (small_layout ram_ops) ram_coherent
    (small_sound ram_ops sector_of small_disk (fun _ => eq_refl)) ltac:(by split) ltac:(done) (small_chain ram_ops sector_of small_disk (fun _ => eq_refl)))|].
  intros r s' (fs' & _ & _ & _ & [(v & H & _)|[H _]]); [right; exists v; exact H|left; exact H].
Defined.

Lemma fat_sync_writes_back_witness : wp (fat_sync 100) (fun r s' => r = Ok tt) small_state.
Proof.
  eapply wp_mono; [exact (fat_sync_writes_back small_state 100 small eq_refl (small_layout ram_ops) ram_coherent)|].
  intros r s' [H _]. exact H.
Defined.

(** ** Names, dates and positions *)

(** The fragment of a long name that [put_lfn_name_frag]
    stores in a directory entry is read back by [parse_lfn_name] up to 13
    characters, and no byte of the entry outside the name fields changes. *)
Theorem lfn_fragment_roundtrip buf idx name :
  Forall name_char name -> 0 <= idx -> idx + 32 <= Z.of_nat (length buf) ->
  exists buf', put_lfn_name_frag buf idx name = Some buf' /\
    read_units buf' idx g_lfn_indices = Some (take 13 name, false) /\
    forall j, 0 <= j -> j < idx + 1 \/ idx + 32 <= j \/ j - idx ∈ [Lfn_attr; Lfn_type; Lfn_crc; Lfn_clust; Lfn_clust + 1] ->
      get8 buf' j = get8 buf j.
Proof.
  intros Hn Hi Hl. destruct (lfn_frag_roundtrip buf idx name Hn Hi Hl) as (buf' & H1 & H2 & H3).
  exists buf'. split; [done|]. split; [done|]. intros j Hj Hout. apply H3; [done|].
  rewrite !elem_of_cons, elem_of_nil in Hout. unfold Lfn_attr, Lfn_type, Lfn_crc, Lfn_clust in Hout. lia.
Qed.

Lemma lfn_fragment_roundtrip_witness :
  exists buf', put_lfn_name_frag empty_sector 64 [97; 98; 99] = Some buf' /\
    read_units buf' 64 g_lfn_indices = Some ([97; 98; 99], false).
Proof.
  destruct (lfn_fragment_roundtrip empty_sector 64 [97; 98; 99]) as (buf' & H1 & H2 & _);
    [repeat (constructor; [split; reflexivity|]); constructor|done|done|].
  exists buf'. split; [exact H1|exact H2].
Defined.

(** A timestamp the format can represent survives
    [encode_timestamp] and [decode_timestamp], and so does a packed date and
    time up to 2043: the six-bit year mask drops bit 15 of the date. *)
Theorem timestamp_roundtrip ts date time :
  representable ts -> 0 <= date < 2 ^ 15 -> 0 <= time < 2 ^ 16 ->
  decode_timestamp (encode_timestamp ts).1 (encode_timestamp ts).2 = ts /\
  encode_timestamp (decode_timestamp date time) = (date, time).
Proof.
  intros Hr Hd Ht. split; [|by apply encode_decode_timestamp].
  pose proof (decode_encode_timestamp ts Hr) as H. by destruct (encode_timestamp ts).
Qed.

Lemma timestamp_roundtrip_witness :
  decode_timestamp 0x5b9c 0x7d1c = {| hour := 15; min := 40; sec := 56; day := 28; month := 12; year := 2025 |} /\
  encode_timestamp (decode_timestamp 0x5b9c 0x7d1c) = (0x5b9c, 0x7d1c).
Proof.
  split; [reflexivity|].
  apply (timestamp_roundtrip fat_get_timestamp 0x5b9c 0x7d1c);
    [unfold representable; simpl; repeat split; lia|lia|lia].
Defined.

(** C30: what the short name of a name is.  It has eleven characters, all of
    them characters the FAT specification allows in a short name.  A name with
    a dot gives a field of eight characters from what comes before its first
    dot and a field of three from what comes after it; a name without one
    gives the field of eight and three spaces.  A field is cut at its length
    and filled with spaces; in it small letters are capitals, capitals and the
    permitted symbols are kept, and every other character is an underscore:
    the digits too, which the specification allows. *)
Theorem put_sfn_name_legal base ext :
  dot ∉ base ->
  put_sfn_name (base ++ dot :: ext) = short_field 8 base ++ short_field 3 ext /\
  put_sfn_name base = short_field 8 base ++ short_field 3 [] /\
  (forall name, length (put_sfn_name name) = 11%nat /\ Forall (fun c => c ∈ fat_characters) (put_sfn_name name)).
Proof.
  intros Hb. split; [by apply put_sfn_name_dot|]. split; [by apply put_sfn_name_no_dot|].
  intros name. split; [apply put_sfn_name_length|apply put_sfn_name_legal_characters].
Qed.

Lemma put_sfn_name_legal_witness :
  put_sfn_name (str "my-notes.tar.gz") = str "MY-NOTESTAR" /\
  put_sfn_name (str "file1.c") = str "FILE_   C  " /\ put_sfn_name (str "Makefile") = str "MAKEFILE   ".
Proof.
  assert (no_dot : forall l, forallb (fun c => negb (c =? dot)) l = true -> dot ∉ l).
  { intros l H Hin%list_elem_of_In. by apply (proj1 (forallb_forall _ _) H) in Hin. }
  split; [|split].
  - change (str "my-notes.tar.gz") with (str "my-notes" ++ dot :: str "tar.gz").
    rewrite (proj1 (put_sfn_name_legal (str "my-notes") (str "tar.gz") (no_dot (str "my-notes") eq_refl))). reflexivity.
  - change (str "file1.c") with (str "file1" ++ dot :: str "c").
    rewrite (proj1 (put_sfn_name_legal (str "file1") (str "c") (no_dot (str "file1") eq_refl))). reflexivity.
  - rewrite (proj1 (proj2 (put_sfn_name_legal (str "Makefile") [] (no_dot (str "Makefile") eq_refl)))). reflexivity.
Defined.

(** A name of the form BASE.EXT whose characters a short
    entry can hold is read back unchanged from its short entry. *)
Theorem short_name_roundtrip base ext :
  Forall sfn_plain base -> Forall sfn_plain ext -> (1 <= length base <= 8)%nat -> (1 <= length ext <= 3)%nat ->
  parse_sfn_name (put_sfn_name (base ++ dot :: ext)) = base ++ dot :: ext.
Proof. apply parse_put_sfn. Qed.

Lemma short_name_roundtrip_witness : parse_sfn_name (put_sfn_name (str "README.TXT")) = str "README.TXT".
Proof.
  apply (short_name_roundtrip (str "README") (str "TXT")); try (vm_compute; lia);
    repeat (constructor; [split; [reflexivity|split; discriminate]|]); constructor.
Defined.

(** ** Files *)

Section Files.
Context {D : Type} {ops : DiskOps D} {sectors : D -> Z -> list Z} `{!Reliable ops sectors}.
Implicit Types (s : fstate D) (fs : Fat D) (f : File) (fat file : Z) (l src : list Z).

Lemma wp_at_file {A} (m : FM D A) Q s fat fs file f :
  fats s !! fat = Some fs -> fat_files s !! file = Some f -> wp m Q (vol (filed s file f) fat fs (disk s)) -> wp m Q s.
Proof. intros Hs Hf. rewrite (filed_here s file f Hf). by rewrite vol_here. Qed.

(** C31: a file is an array of bytes to [fat_file_read].  It
    returns the bytes from the cursor on, as many as were asked for and the
    file has, and moves the cursor past them; the bytes stay, the chain of the
    file is still good, and no other data sector changes.  When a read ends
    with the last sector of a file that fills its clusters the cursor needs a
    new cluster: when the volume is full, that is no cluster but perhaps the
    last one allocated is free, the bytes come with [FAT_ERR_FULL]. *)
Theorem fat_file_read_bytes s fat fs file f l len :
  fats s !! fat = Some fs -> fat_files s !! file = Some f ->
  ready ops sectors fs (disk s) -> file_at sectors fs (disk s) fat f l -> has (fl_flags f) FAT_READ = true ->
  0 <= len < 2 ^ 31 -> fl_offset f <= fl_size f <= room fs l -> fl_size f < 2 ^ 32 ->
  let m := Z.min len (fl_size f - fl_offset f) in
  wp (fat_file_read file len) (fun r s' => exists e fs' f' l',
    r = Ok (e, file_byte sectors fs (disk s) f l <$> seqZ (fl_offset f) m) /\
    s' = vol (filed s file f') fat fs' (disk s') /\
    evolves ops sectors fs (disk s) fat (flagged f FAT_ACCESSED) l fs' (disk s') f' l' /\
    (forall p, 0 <= p < room fs l -> file_byte sectors fs' (disk s') f' l' p = file_byte sectors fs (disk s) f l p) /\
    (e = FAT_ERR_NONE /\ fl_offset f' = fl_offset f + m \/
     e = FAT_ERR_FULL /\ full sectors fs' (disk s') /\ 0 < m /\ fl_offset f + m = fl_size f /\ fl_size f = room fs l)) s.
Proof.
  intros Hs Hf Hrd Hat Hr Hlen Hsize H32 m. apply (wp_at_file _ _ _ _ _ _ _ Hs Hf).
  eapply wp_fat_file_read; [done..|].
  intros [e bytes] fs' d' f' l' Hev (Hbytes & Hb & Hend). simpl in Hbytes, Hend. exists e, fs', f', l'.
  split; [by rewrite Hbytes|]. by repeat (split; [done|]).
Qed.

(** C32: [fat_file_write] replaces the bytes from the cursor on
    and reports how many; the other bytes stay, the chain grows as needed, and
    no other data sector changes.  Either all the bytes are stored and the
    cursor follows them, so that the chain has grown to hold them and the
    cursor; or the volume is full: no cluster but perhaps the last one
    allocated is free, the bytes that fit the clusters of the file are stored,
    and the cursor, and the size with it, stay before the last chunk.  Even
    then success is reported. *)
Theorem fat_file_write_bytes s fat fs file f l src :
  fats s !! fat = Some fs -> fat_files s !! file = Some f ->
  ready ops sectors fs (disk s) -> file_at sectors fs (disk s) fat f l -> has (fl_flags f) FAT_WRITE = true ->
  fl_offset f + Z.of_nat (length src) < 2 ^ 32 -> Forall is_byte src ->
  wp (fat_file_write file src) (fun r s' => exists k fs' f' l',
    r = Ok (FAT_ERR_NONE, k) /\ 0 <= k <= Z.of_nat (length src) /\
    s' = vol (filed s file (extended f')) fat fs' (disk s') /\
    evolves ops sectors fs (disk s) fat (flagged f (Z.lor FAT_MODIFIED FAT_ACCESSED)) l fs' (disk s') f' l' /\
    (forall p, fl_offset f <= p < fl_offset f + k -> p < room fs l' /\
       file_byte sectors fs' (disk s') (extended f') l' p = src !!! Z.to_nat (p - fl_offset f)) /\
    (forall p, 0 <= p < room fs l -> ~ fl_offset f <= p < fl_offset f + k ->
       file_byte sectors fs' (disk s') (extended f') l' p = file_byte sectors fs (disk s) f l p) /\
    (k = Z.of_nat (length src) /\ fl_offset f' = fl_offset f + k /\
       fl_size (extended f') = Z.max (fl_size f) (fl_offset f + k) /\ fl_offset f + k < room fs l' \/
     full sectors fs' (disk s') /\ fl_offset f + k = room fs l' /\
       fl_offset f' = Z.max (fl_offset f) (room fs l' - 512) /\
       fl_size (extended f') = Z.max (fl_size f) (fl_offset f') /\ fl_offset f' < fl_offset f + k)) s.
Proof.
  intros Hs Hf Hrd Hat Hw H32 Hsrc. apply (wp_at_file _ _ _ _ _ _ _ Hs Hf).
  eapply wp_fat_file_write; [done..|].
  intros k fs' d' f' l' Hev (Hk & Hb & Hnew & Hend). exists k, fs', f', l'. do 4 (split; [done|]). split; [|split].
  - intros p Hp. rewrite extended_byte. by apply Hnew.
  - intros p Hp Hout. rewrite extended_byte. simpl. rewrite Hb by done. unfold overwritten.
    rewrite length_take, decide_False; [done|lia].
  - assert (Es : fl_size (extended f') = Z.max (fl_size f) (fl_offset f')).
    { rewrite extended_size. f_equal. apply Hev. }
    rewrite Es. destruct Hend as [[E Eo]|(Hfull & Er & Eo & Hlt)]; [left|right].
    + rewrite <- Eo. do 3 (split; [done|]). pose proof (at_offset _ _ _ _ _ _ (ev_file _ _ _ _ _ _ _ _ _ _ _ Hev)) as Ho.
      rewrite (like_room fs fs') in Ho by apply Hev. lia.
    + by repeat (split; [done|]).
Qed.

(** C33: [fat_file_sync] puts the bytes of the file on the device, buffered
    ones included.  The directory entry of the file is there too: if the file
    has been written since, with its size, the archive attribute and the time
    of the change; if it has been read or written, with the date of access;
    and with every other byte of its sector as the library saw it.  The marks
    that the entry has to be written are gone from the file, the volume has no
    pending change, its counters are in the information sector if they had
    changed, and the volume is ready. *)
Theorem fat_file_sync_stores s fat fs file f l :
  fats s !! fat = Some fs -> fat_files s !! file = Some f ->
  ready ops sectors fs (disk s) -> file_at sectors fs (disk s) fat f l -> entry_at fs f l ->
  wp (fat_file_sync file) (fun r s' => r = Ok tt /\ exists fs',
    s' = vol (filed s file (unmarked f)) fat fs' (disk s') /\
    has (fl_flags (unmarked f)) FAT_ACCESSED = false /\ has (fl_flags (unmarked f)) FAT_MODIFIED = false /\
    like fs fs' /\ ready ops sectors fs' (disk s') /\ synced sectors fs fs' (disk s') /\
    chain (link sectors fs' (disk s')) (clust_cnt fs) (fl_sclust f) l /\
    entry_written f (view sectors fs (disk s) (dir_sect f)) (sectors (disk s') (dir_sect f)) /\
    forall p, 0 <= p < room fs l -> device_byte sectors fs (disk s') l p = file_byte sectors fs (disk s) f l p) s.
Proof.
  intros Hs Hf Hrd Hat Hent. apply (wp_at_file _ _ _ _ _ _ _ Hs Hf).
  eapply wp_fat_file_sync; [done..|].
  intros fs' d' [Hk Hrd' Hsy Hch Hb He]. split; [done|]. exists fs'. split; [done|].
  do 2 (split; [by apply unmarked_flag; set_solver|]). by repeat (split; [done|]).
Qed.
End Files.

Lemma fat_file_read_bytes_witness :
  wp (fat_file_read 7 4) (fun r s' => exists e,
    r = Ok (e, file_byte sector_of small small_disk small_file [3; 5; 4] <$> seqZ 510 4)) small_state.
Proof.
  pose proof (fat_file_read_bytes small_state 100 small 7 small_file [3; 5; 4] 4 eq_refl eq_refl ram_ready
    ram_file_at eq_refl ltac:(done) ltac:(done) ltac:(done)) as Hread.
  cbv zeta in Hread. eapply wp_mono; [exact Hread|]. clear Hread.
  intros r s' (e & fs' & f' & l' & H & _). exists e. exact H.
Defined.

Lemma fat_file_write_bytes_witness :
  wp (fat_file_write 7 [1; 2; 3]) (fun r s' => exists k, r = Ok (FAT_ERR_NONE, k)) small_state.
Proof.
  eapply wp_mono; [exact (fat_file_write_bytes small_state 100 small 7 small_file [3; 5; 4] [1; 2; 3] eq_refl eq_refl
    ram_ready ram_file_at eq_refl ltac:(done) ltac:(by apply bytes_decide))|].
  intros r s' (k & fs' & f' & l' & H & _). exists k. exact H.
Defined.

Lemma fat_file_sync_stores_witness : wp (fat_file_sync 7) (fun r s' => r = Ok tt) small_state.
Proof.
  eapply wp_mono; [exact (fat_file_sync_stores small_state 100 small 7 small_file [3; 5; 4] eq_refl eq_refl
    ram_ready ram_file_at (small_entry_at ram_ops))|].
  intros r s' [H _]. exact H.
Defined.
