(* ===== verification/Sd.v ===== *)
(** * The SD card driver

    [drivers/sd/sd.c]: commands to the EMMC controller, transfers of blocks and
    the start-up of the card, with the adapters of [libs/filesystem.c] that
    make the driver the block device of the FAT32 library.

    The registers of the controller, the GPIO, the system timer and the UART
    are those of [Registers]; [fuel] bounds the reads of the timer in a delay
    and the waits for the UART.  The loops that poll the controller count down
    and need no fuel, except the one of [sd_init] that reads the SCR register,
    whose counter is never decremented.

    A buffer is a list of bytes; a word outside it is undefined behaviour. *)

From Stdlib Require Import Strings.String.
From S2P Require Import Prelude Exec Kernel Devices FatTypes.

(** ** Registers, by their offset from [MMIO_BASE] *)

Definition SYS_TIMER_CLOCK : Z := 0x3004.

Definition GPFSEL4 : Z := 0x200010.
Definition GPFSEL5 : Z := 0x200014.
Definition GPHEN1 : Z := 0x200068.
Definition GPPUD : Z := 0x200094.
Definition GPPUDCLK1 : Z := 0x20009C.

Definition EMMC_BLKSIZECNT : Z := 0x300004.
Definition EMMC_ARG1 : Z := 0x300008.
Definition EMMC_CMDTM : Z := 0x30000C.
Definition EMMC_RESP0 : Z := 0x300010.
Definition EMMC_RESP1 : Z := 0x300014.
Definition EMMC_RESP2 : Z := 0x300018.
Definition EMMC_RESP3 : Z := 0x30001C.
Definition EMMC_DATA : Z := 0x300020.
Definition EMMC_STATUS : Z := 0x300024.
Definition EMMC_CONTROL0 : Z := 0x300028.
Definition EMMC_CONTROL1 : Z := 0x30002C.
Definition EMMC_INTERRUPT : Z := 0x300030.
Definition EMMC_INT_MASK : Z := 0x300034.
Definition EMMC_INT_EN : Z := 0x300038.
Definition EMMC_SLOTISR_VER : Z := 0x3000FC.

(** ** Commands and flags *)

Definition CMD_NEED_APP : Z := 0x80000000.
Definition CMD_RSPNS_48 : Z := 0x00020000.
Definition CMD_ERRORS_MASK : Z := 0xfff9c004.
Definition CMD_RCA_MASK : Z := 0xffff0000.

Definition CMD_GO_IDLE : Z := 0x00000000.
Definition CMD_ALL_SEND_CID : Z := 0x02010000.
Definition CMD_SEND_REL_ADDR : Z := 0x03020000.
Definition CMD_CARD_SELECT : Z := 0x07030000.
Definition CMD_SEND_IF_COND : Z := 0x08020000.
Definition CMD_STOP_TRANS : Z := 0x0C030000.
Definition CMD_READ_SINGLE : Z := 0x11220010.
Definition CMD_READ_MULTI : Z := 0x12220032.
Definition CMD_SET_BLOCKCNT : Z := 0x17020000.
Definition CMD_WRITE_SINGLE : Z := 0x18220000.
Definition CMD_WRITE_MULTI : Z := 0x19220022.
Definition CMD_APP_CMD : Z := 0x37000000.
Definition CMD_SET_BUS_WIDTH : Z := Z.lor 0x06020000 CMD_NEED_APP.
Definition CMD_SEND_OP_COND : Z := Z.lor 0x29020000 CMD_NEED_APP.
Definition CMD_SEND_SCR : Z := Z.lor 0x33220010 CMD_NEED_APP.

Definition SR_READ_AVAILABLE : Z := 0x800.
Definition SR_WRITE_AVAILABLE : Z := 0x400.
Definition SR_DAT_INHIBIT : Z := 2.
Definition SR_CMD_INHIBIT : Z := 1.
Definition SR_APP_CMD : Z := 0x20.

Definition INT_DATA_TIMEOUT : Z := 0x00100000.
Definition INT_CMD_TIMEOUT : Z := 0x00010000.
Definition INT_READ_RDY : Z := 0x20.
Definition INT_WRITE_RDY : Z := 0x10.
Definition INT_DATA_DONE : Z := 2.
Definition INT_CMD_DONE : Z := 1.
Definition INT_ERROR_MASK : Z := 0x017E8000.

Definition C0_HCTL_DWITDH : Z := 2.
Definition C1_SRST_HC : Z := 0x01000000.
Definition C1_TOUNIT_MAX : Z := 0x000e0000.
Definition C1_CLK_EN : Z := 4.
Definition C1_CLK_STABLE : Z := 2.
Definition C1_CLK_INTLEN : Z := 1.

Definition HOST_SPEC_NUM : Z := 0x00ff0000.
Definition HOST_SPEC_NUM_SHIFT : Z := 16.
Definition HOST_SPEC_V2 : Z := 1.

Definition SCR_SD_BUS_WIDTH_4 : Z := 0x400.
Definition SCR_SUPP_SET_BLKCNT : Z := 0x02000000.
Definition SCR_SUPP_CCS : Z := 1.

Definition ACMD41_VOLTAGE : Z := 0x00ff8000.
Definition ACMD41_CMD_COMPLETE : Z := 0x80000000.
Definition ACMD41_CMD_CCS : Z := 0x40000000.
Definition ACMD41_ARG_HC : Z := 0x51ff8000.

Definition SD_OK : Z := 0.
Definition SD_TIMEOUT : Z := -1.
Definition SD_ERROR : Z := -2.

(** ** State *)

(** The globals of the driver, of type [unsigned long], and the devices. *)
Record sd_state (U : Type) : Type := mkSd {
  sd_scr : list Z;  (* unsigned long sd_scr[2] *)
  sd_ocr : Z;
  sd_rca : Z;
  sd_err : Z;
  sd_hv : Z;
  sd_bus : U;
}.
Arguments mkSd {U}.
Arguments sd_scr {U}.
Arguments sd_ocr {U}.
Arguments sd_rca {U}.
Arguments sd_err {U}.
Arguments sd_hv {U}.
Arguments sd_bus {U}.

Section Updates.
Context {U : Type}.
Implicit Types (s : sd_state U).
Definition set_sd_scr v s := mkSd v (sd_ocr s) (sd_rca s) (sd_err s) (sd_hv s) (sd_bus s).
Definition set_sd_rca v s := mkSd (sd_scr s) (sd_ocr s) v (sd_err s) (sd_hv s) (sd_bus s).
Definition set_sd_err v s := mkSd (sd_scr s) (sd_ocr s) (sd_rca s) v (sd_hv s) (sd_bus s).
Definition set_sd_hv v s := mkSd (sd_scr s) (sd_ocr s) (sd_rca s) (sd_err s) v (sd_bus s).
Definition set_sd_bus (v : U) s := mkSd (sd_scr s) (sd_ocr s) (sd_rca s) (sd_err s) (sd_hv s) v.
End Updates.

#[export] Instance sd_bus_class U : Bus (sd_state U) U := mkBus _ _ sd_bus set_sd_bus.

#[export] Instance sd_bus_laws U : BusLaws (sd_state U) U.
Proof. constructor; try done. by intros []. Qed.

Section Driver.
Context {U : Type} (regs : Registers U) (fuel : nat).

Abbreviation SD := (Exec (sd_state U)).

(** [sd_err = v], converted to [unsigned long]. *)
Definition set_err (v : Z) : SD unit := modify (set_sd_err (u64 v)).
Definition scr (i : Z) : SD Z := l ← gets sd_scr; defined (array_get l i).
Definition set_scr (i v : Z) : SD unit :=
  l ← gets sd_scr;
  l ← defined (array_set l i v);
  modify (set_sd_scr l).

Definition failed : SD bool := e ← gets sd_err; mret (negb (e =? SD_OK)).

(** [uart_puts] of [m] and the end of the line. *)
Definition message (m : string) : SD unit := puts regs fuel (literal m ++ [10]).

(** ** Waiting *)

(** [while ((int32_t)( *SYS_TIMER_CLOCK - target) < 0)] *)
Fixpoint wait_until (n : nat) (target : Z) : SD unit :=
  match n with
  | O => out_of_fuel
  | S n =>
    clock ← mmio_read regs SYS_TIMER_CLOCK;
    if s32 (clock - target) <? 0 then wait_until n target else mret tt
  end.

Definition wait_msec (n : Z) : SD unit :=
  system_clock ← mmio_read regs SYS_TIMER_CLOCK;
  wait_until fuel (u32 (system_clock + u32 (n * 1000))).

(** [while (busy && cnt--) wait_msec(msec)]: the value of [cnt] at the end. *)
Fixpoint poll (busy : SD bool) (msec : Z) (cnt : nat) : SD Z :=
  b ← busy;
  if negb b then mret (Z.of_nat cnt) else
  match cnt with
  | O => mret (-1)
  | S cnt => wait_msec msec;; poll busy msec cnt
  end.

(** [*reg & mask] as a condition *)
Definition reg_has (reg mask : Z) : SD bool := v ← mmio_read regs reg; mret (has v mask).

Definition status_cnt : nat := Z.to_nat 500000.
Definition int_cnt : nat := Z.to_nat 1000000.

Definition status_busy (mask : Z) : SD bool :=
  b ← reg_has EMMC_STATUS mask;
  if negb b then mret false else
  e ← reg_has EMMC_INTERRUPT INT_ERROR_MASK;
  mret (negb e).

Definition sd_status (mask : Z) : SD Z :=
  cnt ← poll (status_busy mask) 1 status_cnt;
  if cnt <=? 0 then mret SD_ERROR else
  e ← reg_has EMMC_INTERRUPT INT_ERROR_MASK;
  mret (if (e : bool) then SD_ERROR else SD_OK).

Definition sd_int (mask : Z) : SD Z :=
  let m := Z.lor mask INT_ERROR_MASK in
  cnt ← poll (b ← reg_has EMMC_INTERRUPT m; mret (negb b)) 1 int_cnt;
  r ← mmio_read regs EMMC_INTERRUPT;
  if (cnt <=? 0) || has r INT_CMD_TIMEOUT || has r INT_DATA_TIMEOUT then
    mmio_write regs EMMC_INTERRUPT r;;
    mret SD_TIMEOUT
  else if has r INT_ERROR_MASK then
    mmio_write regs EMMC_INTERRUPT r;;
    mret SD_ERROR
  else
    mmio_write regs EMMC_INTERRUPT mask;;
    mret 0.

(** ** Commands *)

(** The part of [sd_execute_command] after the command that announces an
    application command, for a [code] without [CMD_NEED_APP]. *)
Definition send_command (code arg : Z) : SD Z :=
  busy ← sd_status SR_CMD_INHIBIT;
  if negb (busy =? 0) then
    message "ERROR: EMMC busy";;
    set_err SD_TIMEOUT;;
    mret 0
  else
    mmio_update regs EMMC_INTERRUPT id;;
    mmio_write regs EMMC_ARG1 arg;;
    mmio_write regs EMMC_CMDTM code;;
    (if code =? CMD_SEND_OP_COND then wait_msec 1000
     else if (code =? CMD_SEND_IF_COND) || (code =? CMD_APP_CMD) then wait_msec 100
     else mret tt);;
    r ← sd_int INT_CMD_DONE;
    if negb (r =? 0) then
      message "ERROR: failed to send EMMC command";;
      set_err r;;
      mret 0
    else
      r ← mmio_read regs EMMC_RESP0;
      let r := s32 r in
      if (code =? CMD_GO_IDLE) || (code =? CMD_APP_CMD) then mret 0
      else if code =? Z.lor CMD_APP_CMD CMD_RSPNS_48 then mret (Z.land r SR_APP_CMD)
      else if code =? CMD_SEND_OP_COND then mret r
      else if code =? CMD_SEND_IF_COND then mret (if u32 r =? arg then SD_OK else SD_ERROR)
      else if code =? CMD_ALL_SEND_CID then
        r3 ← mmio_read regs EMMC_RESP3;
        r2 ← mmio_read regs EMMC_RESP2;
        r1 ← mmio_read regs EMMC_RESP1;
        mret (s32 (Z.lor (Z.lor (Z.lor (u32 r) r3) r2) r1))
      else if code =? CMD_SEND_REL_ADDR then
        set_err (Z.land (Z.lor (Z.lor (Z.lor (Z.land r 0x1fff) (Z.shiftl (Z.land r 0x2000) 6))
          (Z.shiftl (Z.land r 0x4000) 8)) (Z.shiftl (Z.land r 0x8000) 8)) CMD_ERRORS_MASK);;
        mret (s32 (Z.land (u32 r) CMD_RCA_MASK))
      else mret (s32 (Z.land (u32 r) CMD_ERRORS_MASK)).

(** The recursive call is on a code without the flag. *)
Definition sd_execute_command (code arg : Z) : SD Z :=
  set_err SD_OK;;
  if has code CMD_NEED_APP then
    rca ← gets sd_rca;
    set_err SD_OK;;
    r ← send_command (Z.lor CMD_APP_CMD (if negb (rca =? 0) then CMD_RSPNS_48 else 0)) (u32 rca);
    rca ← gets sd_rca;
    if negb (rca =? 0) && (r =? 0) then
      message "ERROR: failed to send SD APP command";;
      set_err SD_ERROR;;
      mret 0
    else send_command (clear code CMD_NEED_APP) arg
  else send_command code arg.

(** ** Blocks *)

(** [for (d = 0; d < 128; d++) buf[d] = *EMMC_DATA], [n] words being left. *)
Fixpoint read_words (n : nat) (offset : Z) (buffer : list Z) : SD (list Z) :=
  match n with
  | O => mret buffer
  | S n =>
    v ← mmio_read regs EMMC_DATA;
    buffer ← defined (put32 buffer offset v);
    read_words n (offset + 4) buffer
  end.

(** [for (d = 0; d < 128; d++) *EMMC_DATA = buf[d]] *)
Fixpoint write_words (n : nat) (offset : Z) (buffer : list Z) : SD unit :=
  match n with
  | O => mret tt
  | S n =>
    v ← defined (get32 buffer offset);
    mmio_write regs EMMC_DATA v;;
    write_words n (offset + 4) buffer
  end.

(** The command of a block of a card addressed in bytes; whether it failed. *)
Definition address_block (code lba c : Z) : SD bool :=
  s ← scr 0;
  if has s SCR_SUPP_CCS then mret false else
  _ ← sd_execute_command code (u32 (u32 (lba + c) * 512));
  failed.

(** The blocks from number [c] on, [n] being left: the number of the last one,
    or [None] if the function has returned 0. *)
Fixpoint read_blocks (n : nat) (lba c : Z) (buffer : list Z) : SD (option Z * list Z) :=
  match n with
  | O => mret (Some c, buffer)
  | S n =>
    e ← address_block CMD_READ_SINGLE lba c;
    if (e : bool) then mret (None, buffer) else
    r ← sd_int INT_READ_RDY;
    if negb (r =? 0) then
      message (String (Ascii.ascii_of_nat 13) "ERROR: Timeout waiting for ready to read");;
      set_err r;;
      mret (None, buffer)
    else
      buffer ← read_words 128 (512 * c) buffer;
      read_blocks n lba (c + 1) buffer
  end.

Fixpoint write_blocks (n : nat) (lba c : Z) (buffer : list Z) : SD (option Z) :=
  match n with
  | O => mret (Some c)
  | S n =>
    e ← address_block CMD_WRITE_SINGLE lba c;
    if (e : bool) then mret None else
    r ← sd_int INT_WRITE_RDY;
    if negb (r =? 0) then
      message (String (Ascii.ascii_of_nat 13) "ERROR: Timeout waiting for ready to write");;
      set_err r;;
      mret None
    else
      write_words 128 (512 * c) buffer;;
      write_blocks n lba (c + 1) buffer
  end.

(** The commands before the blocks; whether the function has returned 0. *)
Definition start_transfer (single multi lba num : Z) : SD bool :=
  s ← scr 0;
  if has s SCR_SUPP_CCS then
    e ← (if (1 <? num) && has s SCR_SUPP_SET_BLKCNT then
           _ ← sd_execute_command CMD_SET_BLOCKCNT num;
           failed
         else mret false);
    if (e : bool) then mret true else
    mmio_write regs EMMC_BLKSIZECNT (Z.lor (Z.shiftl num 16) 512);;
    _ ← sd_execute_command (if num =? 1 then single else multi) lba;
    failed
  else
    mmio_write regs EMMC_BLKSIZECNT (Z.lor (Z.shiftl 1 16) 512);;
    mret false.

(** The command after the blocks, and the number of bytes. *)
Definition end_transfer (c num : Z) : SD Z :=
  s ← scr 0;
  (if (1 <? num) && negb (has s SCR_SUPP_SET_BLKCNT) && has s SCR_SUPP_CCS then
     _ ← sd_execute_command CMD_STOP_TRANS 0; mret tt
   else mret tt);;
  e ← failed;
  mret (if e || negb (u32 c =? num) then 0 else s32 (num * 512)).

(** The result, and the buffer. *)
Definition sd_readblock (lba : Z) (buffer : list Z) (num : Z) : SD (Z * list Z) :=
  let num := if num <? 1 then 1 else num in
  busy ← sd_status SR_DAT_INHIBIT;
  if negb (busy =? 0) then set_err SD_TIMEOUT;; mret (0, buffer) else
  e ← start_transfer CMD_READ_SINGLE CMD_READ_MULTI lba num;
  if (e : bool) then mret (0, buffer) else
  '(c, buffer) ← read_blocks (Z.to_nat num) lba 0 buffer;
  match c with
  | None => mret (0, buffer)
  | Some c => r ← end_transfer c num; mret (r, buffer)
  end.

Definition sd_writeblock (buffer : list Z) (lba num : Z) : SD Z :=
  let num := if num <? 1 then 1 else num in
  busy ← sd_status (Z.lor SR_DAT_INHIBIT SR_WRITE_AVAILABLE);
  if negb (busy =? 0) then set_err SD_TIMEOUT;; mret 0 else
  e ← start_transfer CMD_WRITE_SINGLE CMD_WRITE_MULTI lba num;
  if (e : bool) then mret 0 else
  c ← write_blocks (Z.to_nat num) lba 0 buffer;
  match c with
  | None => mret 0
  | Some c =>
    r ← sd_int INT_DATA_DONE;
    if negb (r =? 0) then
      message (String (Ascii.ascii_of_nat 13) "ERROR: Timeout waiting for data done");;
      set_err r;;
      mret 0
    else end_transfer c num
  end.

(** [libs/filesystem.c] *)
Definition sd_read_adapter (buffer : list Z) (sector : Z) : SD (bool * list Z) :=
  '(res, buffer) ← sd_readblock sector buffer 1;
  mret (negb (res =? 0), buffer).

Definition sd_write_adapter (buffer : list Z) (sector : Z) : SD bool :=
  res ← sd_writeblock buffer sector 1;
  mret (negb (res =? 0)).

(** ** The clock *)

(** One step of the search for the highest bit of [x]: [if (!(x & mask)) ...] *)
Definition normalise (mask bits : Z) '(x, s) : Z * Z :=
  if Z.land x mask =? 0 then (u32 (Z.shiftl x bits), s - bits) else (x, s).

(** The exponent of the divisor of a host of version 2, from [x = c - 1]. *)
Definition clock_shift (x : Z) : Z :=
  if x =? 0 then 0 else
  let s := snd (normalise 0x80000000 1 (normalise 0xc0000000 2 (normalise 0xf0000000 4
             (normalise 0xff000000 8 (normalise 0xffff0000 16 (x, 32)))))) in
  let s := if 0 <? s then s - 1 else s in
  if 7 <? s then 7 else s.

(** The bits of [EMMC_CONTROL1] that divide the clock of the controller by
    [c], for a host of version [hv]. *)
Definition clock_divisor (hv c : Z) : Z :=
  let d := if HOST_SPEC_V2 <? hv then c else u32 (Z.shiftl 1 (clock_shift (u32 (c - 1)))) in
  let d := if d <=? 2 then 2 else d in
  let h := if HOST_SPEC_V2 <? hv then Z.shiftr (Z.land d 0x300) 2 else 0 in
  Z.lor (Z.shiftl (Z.land d 0xff) 8) h.

Definition inhibit_cnt : nat := Z.to_nat 100000.
Definition stable_cnt : nat := Z.to_nat 10000.

(** A division by zero is undefined behaviour. *)
Definition sd_set_clock (f : Z) : SD Z :=
  c ← defined (if f =? 0 then None else Some (41666666 / f));
  cnt ← poll (reg_has EMMC_STATUS (Z.lor SR_CMD_INHIBIT SR_DAT_INHIBIT)) 1 inhibit_cnt;
  if cnt <=? 0 then
    message "ERROR: timeout waiting for inhibit flag";;
    mret SD_ERROR
  else
    mmio_update regs EMMC_CONTROL1 (fun v => clear v C1_CLK_EN);;
    wait_msec 10;;
    hv ← gets sd_hv;
    mmio_update regs EMMC_CONTROL1 (fun v => Z.lor (Z.land v 0xffff003f) (clock_divisor hv c));;
    wait_msec 10;;
    mmio_update regs EMMC_CONTROL1 (fun v => Z.lor v C1_CLK_EN);;
    wait_msec 10;;
    cnt ← poll (b ← reg_has EMMC_CONTROL1 C1_CLK_STABLE; mret (negb b)) 10 stable_cnt;
    if cnt <=? 0 then
      message "ERROR: failed to get stable clock";;
      mret SD_ERROR
    else mret SD_OK.

(** ** Start-up *)

Definition enable_card_detect : SD unit :=
  mmio_update regs GPFSEL4 (fun r => clear r (Z.shiftl 7 (7 * 3)));;
  mmio_write regs GPPUD 2;;
  delay 150;;
  mmio_write regs GPPUDCLK1 (Z.shiftl 1 15);;
  delay 150;;
  mmio_write regs GPPUD 0;;
  mmio_write regs GPPUDCLK1 0;;
  mmio_update regs GPHEN1 (fun r => Z.lor r (Z.shiftl 1 15)).

Definition enable_clock_and_command : SD unit :=
  mmio_update regs GPFSEL4 (fun r => Z.lor r (Z.lor (Z.shiftl 7 (8 * 3)) (Z.shiftl 7 (9 * 3))));;
  mmio_write regs GPPUD 2;;
  delay 150;;
  mmio_write regs GPPUDCLK1 (Z.lor (Z.shiftl 1 16) (Z.shiftl 1 17));;
  delay 150;;
  mmio_write regs GPPUD 0;;
  mmio_write regs GPPUDCLK1 0.

Definition enable_data_pins : SD unit :=
  mmio_update regs GPFSEL5 (fun r => Z.lor r (Z.lor (Z.lor (Z.lor (Z.shiftl 7 (0 * 3)) (Z.shiftl 7 (1 * 3)))
    (Z.shiftl 7 (2 * 3))) (Z.shiftl 7 (3 * 3))));;
  mmio_write regs GPPUD 2;;
  delay 150;;
  mmio_update regs GPPUDCLK1 (fun r => Z.lor r (Z.lor (Z.lor (Z.lor (Z.shiftl 1 18) (Z.shiftl 1 19))
    (Z.shiftl 1 20)) (Z.shiftl 1 21)));;
  delay 150;;
  mmio_write regs GPPUD 0;;
  mmio_write regs GPPUDCLK1 0.

Definition reset_cnt : nat := Z.to_nat 10000.

Definition reset_emmc : SD Z :=
  mmio_write regs EMMC_CONTROL0 0;;
  mmio_update regs EMMC_CONTROL1 (fun v => Z.lor v C1_SRST_HC);;
  wait_msec 10;;
  poll (reg_has EMMC_CONTROL1 C1_SRST_HC) 10 reset_cnt.

(** The loop of [enable_card]: its last [r] and [cnt], or the error the
    function has returned. *)
Fixpoint op_cond (cnt : nat) (r : Z) : SD (Z + Z * Z) :=
  if has r ACMD41_CMD_COMPLETE then mret (inr (r, Z.of_nat cnt)) else
  match cnt with
  | O => mret (inr (r, -1))
  | S cnt =>
    delay 400;;
    r ← sd_execute_command CMD_SEND_OP_COND ACMD41_ARG_HC;
    err ← gets sd_err;
    if negb (s32 err =? SD_TIMEOUT) && negb (s32 err =? SD_OK) then
      message "ERROR: EMMC ACMD41 returned error";;
      mret (inl (s32 err))
    else op_cond cnt r
  end.

(** The result, and what is stored in [*ccs], which is left alone otherwise. *)
Definition enable_card : SD (Z * option Z) :=
  res ← op_cond 6 0;
  mret (match res with
        | inl err => (err, None)
        | inr (r, cnt) =>
          if negb (has r ACMD41_CMD_COMPLETE) || (cnt =? 0) then (SD_TIMEOUT, None)
          else if negb (has r ACMD41_VOLTAGE) then (SD_ERROR, None)
          else (SD_OK, if has r ACMD41_CMD_CCS then Some SCR_SUPP_CCS else None)
        end).

(** [while (r < 2 && cnt)]: [cnt] is not decremented. *)
Fixpoint read_scr (n : nat) (r : Z) : SD Z :=
  if negb (r <? 2) then mret r else
  match n with
  | O => out_of_fuel
  | S n =>
    available ← reg_has EMMC_STATUS SR_READ_AVAILABLE;
    if (available : bool) then
      v ← mmio_read regs EMMC_DATA;
      set_scr r v;;
      read_scr n (r + 1)
    else
      wait_msec 1;;
      read_scr n r
  end.

(** [if (sd_err) return sd_err], the rest being [m]. *)
Definition or_err (m : SD Z) : SD Z :=
  err ← gets sd_err;
  if negb (err =? 0) then mret (s32 err) else m.

(** The end of [sd_init], from the SCR register. *)
Definition read_configuration (ccs : Z) : SD Z :=
  mmio_write regs EMMC_BLKSIZECNT (Z.lor (Z.shiftl 1 16) 8);;
  _ ← sd_execute_command CMD_SEND_SCR 0;
  or_err (
    e ← sd_int INT_READ_RDY;
    if negb (e =? 0) then mret SD_TIMEOUT else
    r ← read_scr fuel 0;
    if negb (r =? 2) then mret SD_TIMEOUT else
    s ← scr 0;
    let finish : SD Z :=
      s ← scr 0;
      set_scr 0 (Z.lor (clear s SCR_SUPP_CCS) ccs);;
      mret SD_OK in
    if has s SCR_SD_BUS_WIDTH_4 then
      rca ← gets sd_rca;
      _ ← sd_execute_command CMD_SET_BUS_WIDTH (u32 (Z.lor rca 2));
      or_err (
        mmio_update regs EMMC_CONTROL0 (fun v => Z.lor v C0_HCTL_DWITDH);;
        finish)
    else finish).

(** The middle of [sd_init], once the card has answered. *)
Definition select_card (ccs : Z) : SD Z :=
  _ ← sd_execute_command CMD_ALL_SEND_CID 0;
  rca ← sd_execute_command CMD_SEND_REL_ADDR 0;
  modify (set_sd_rca (u64 rca));;
  or_err (
    r ← sd_set_clock 25000000;
    if negb (r =? 0) then mret r else
    rca ← gets sd_rca;
    _ ← sd_execute_command CMD_CARD_SELECT (u32 rca);
    or_err (
      busy ← sd_status SR_DAT_INHIBIT;
      if negb (busy =? 0) then mret SD_TIMEOUT else read_configuration ccs)).

Definition sd_init : SD Z :=
  enable_card_detect;;
  enable_clock_and_command;;
  enable_data_pins;;
  v ← mmio_read regs EMMC_SLOTISR_VER;
  modify (set_sd_hv (Z.shiftr (Z.land v HOST_SPEC_NUM) HOST_SPEC_NUM_SHIFT));;
  cnt ← reset_emmc;
  if cnt <=? 0 then
    message "[ERROR] Failed to reset EMMC";;
    mret SD_ERROR
  else
    mmio_update regs EMMC_CONTROL1 (fun v => Z.lor v (Z.lor C1_CLK_INTLEN C1_TOUNIT_MAX));;
    wait_msec 10;;
    r ← sd_set_clock 400000;
    if negb (r =? 0) then mret r else
    mmio_write regs EMMC_INT_EN 0xffffffff;;
    mmio_write regs EMMC_INT_MASK 0xffffffff;;
    set_err 0;;
    modify (set_sd_rca 0);;
    set_scr 1 0;;
    set_scr 0 0;;
    _ ← sd_execute_command CMD_GO_IDLE 0;
    or_err (
      _ ← sd_execute_command CMD_SEND_IF_COND 0x000001AA;
      or_err (
        '(enable_card_ok, ccs) ← enable_card;
        if negb (enable_card_ok =? SD_OK) then mret enable_card_ok
        else select_card (default 0 ccs))).
End Driver.

(** The block device of the FAT32 library. *)
Definition sd_disk_operations {U} (regs : Registers U) (fuel : nat) : DiskOps (sd_state U) :=
  mkOps (sd_read_adapter regs fuel) (sd_write_adapter regs fuel).
