(* ===== verification/SdLogic.v ===== *)
(** * The SD card driver over a working controller

    [Sdhc] states what the driver relies on of the EMMC controller with a
    high-capacity card in it, as a machine with events: the controller raises
    the interrupts that are due within a bounded number of polls, data move
    word by word, and a block is in the card when the end of its transfer has
    been raised.  Over such a controller the driver is a reliable block
    device. *)

From S2P Require Import Prelude Exec Kernel Devices FatTypes FatBytes FatLogic Sd.

(** ** Words and bytes *)

Fixpoint le_bytes (n : nat) (v : Z) : list Z :=
  match n with
  | O => []
  | S n => v mod 256 :: le_bytes n (v / 256)
  end.

(** The bytes of a list of words. *)
Definition bytes_of (ws : list Z) : list Z := ws ≫= le_bytes 4.

Section Words.
Implicit Types (l ws : list Z) (n i : nat) (v w : Z).

Lemma le_bytes_length n v : length (le_bytes n v) = n.
Proof. revert v. induction n as [|n IH]; intros v; simpl; [done|]. by rewrite IH. Qed.

Lemma le_bytes_bytes n v : Forall is_byte (le_bytes n v).
Proof. revert v. induction n; intros v; simpl; constructor; [apply Z.mod_pos_bound; lia|done]. Qed.

Lemma bytes_of_length ws : length (bytes_of ws) = (4 * length ws)%nat.
Proof.
  induction ws as [|w ws IH]; [done|]. change (bytes_of (w :: ws)) with (le_bytes 4 w ++ bytes_of ws).
  rewrite length_app, le_bytes_length, IH. simpl. lia.
Qed.

Lemma bytes_of_bytes ws : Forall is_byte (bytes_of ws).
Proof. induction ws as [|w ws IH]; [constructor|]. apply Forall_app. split; [apply le_bytes_bytes|done]. Qed.

Lemma bytes_of_block ws : length ws = 128%nat -> block (bytes_of ws).
Proof. intros H. split; [rewrite bytes_of_length; lia|apply bytes_of_bytes]. Qed.

Lemma put_le_splice n l i v :
  (i + n <= length l)%nat -> put_le n l i v = Some (take i l ++ le_bytes n v ++ drop (i + n) l).
Proof.
  revert l i v. induction n as [|n IH]; intros l i v H; simpl.
  { by rewrite Nat.add_0_r, take_drop. }
  destruct (lookup_lt_is_Some_2 l i) as [b Hb]; [lia|]. rewrite Hb. simpl.
  rewrite IH by (rewrite length_insert; lia). f_equal.
  rewrite (take_S_r _ _ (v mod 256)) by (apply list_lookup_insert_eq; lia).
  rewrite take_insert_ge, drop_insert_lt by lia. rewrite <- app_assoc. by replace (i + S n)%nat with (S i + n)%nat by lia.
Qed.

Lemma get_le_bytes n l i v :
  get_le n l i = Some v -> Forall is_byte l -> le_bytes n v = take n (drop i l).
Proof.
  revert i v. induction n as [|n IH]; intros i v; simpl; [done|]. intros H Hl.
  destruct (l !! i) as [b|] eqn:Hb; simpl in H; [|done].
  destruct (get_le n l (S i)) as [w|] eqn:Hw; simpl in H; [|done]. injection H as <-.
  assert (Hr : is_byte b) by (by eapply Forall_lookup_1). unfold is_byte in Hr.
  rewrite (drop_S _ _ _ Hb). simpl.
  replace ((b + 256 * w) mod 256) with b by (Z.div_mod_to_equations; lia).
  replace ((b + 256 * w) / 256) with w by (Z.div_mod_to_equations; lia).
  by rewrite (IH _ _ Hw Hl).
Qed.

Lemma get_le_range n l i v : get_le n l i = Some v -> Forall is_byte l -> 0 <= v < 256 ^ Z.of_nat n.
Proof.
  revert i v. induction n as [|n IH]; intros i v; simpl; [intros [= <-] _; lia|]. intros H Hl.
  destruct (l !! i) as [b|] eqn:Hb; simpl in H; [|done].
  destruct (get_le n l (S i)) as [w|] eqn:Hw; simpl in H; [|done]. injection H as <-.
  assert (Hr : is_byte b) by (by eapply Forall_lookup_1). unfold is_byte in Hr. specialize (IH _ _ Hw Hl).
  rewrite Nat2Z.inj_succ, Z.pow_succ_r by lia. lia.
Qed.

Lemma le_bytes_mod n v : le_bytes n (v mod 256 ^ Z.of_nat n) = le_bytes n v.
Proof.
  revert v. induction n as [|n IH]; intros v; [done|]. cbn [le_bytes].
  rewrite Nat2Z.inj_succ, Z.pow_succ_r, Z.rem_mul_r by lia. f_equal.
  - rewrite Z.mul_comm, Z_mod_plus_full, Z.mod_mod by lia. done.
  - rewrite Z.mul_comm, Z_div_plus_full, (Z.div_small (v mod 256)), Z.add_0_l by (try apply Z.mod_pos_bound; lia). apply IH.
Qed.

Lemma le_bytes_u32 v : le_bytes 4 (u32 v) = le_bytes 4 v.
Proof. exact (le_bytes_mod 4 v). Qed.

Lemma put32_splice l i v :
  (i + 4 <= length l)%nat -> put32 l (Z.of_nat i) v = Some (take i l ++ le_bytes 4 v ++ drop (i + 4) l).
Proof. intros H. unfold put32. destruct (Z.ltb_spec (Z.of_nat i) 0); [lia|]. rewrite Nat2Z.id. by apply put_le_splice. Qed.
End Words.

(** ** The controller and its card *)

Inductive event : Type := CommandDone | ReadReady | WriteReady | DataDone.

#[export] Instance event_eq_dec : EqDecision event.
Proof. solve_decision. Defined.

(** Its bit in [EMMC_INTERRUPT]. *)
Definition event_bit (e : event) : Z :=
  match e with
  | CommandDone => INT_CMD_DONE
  | ReadReady => INT_READ_RDY
  | WriteReady => INT_WRITE_RDY
  | DataDone => INT_DATA_DONE
  end.

#[export] Instance event_countable : Countable event.
Proof.
  refine (inj_countable event_bit (fun z => if z =? 1 then Some CommandDone else if z =? 32 then Some ReadReady
    else if z =? 16 then Some WriteReady else Some DataDone) _). by intros [].
Defined.

(** The words a command still has to move. *)
Inductive data_phase : Type :=
  | Idle
  | Sending (ws : list Z)  (* to the host *)
  | Receiving (lba : Z) (ws : list Z)
  | Programming (lba : Z) (ws : list Z).

Record emmc : Type := mkEmmc {
  blocks : Z -> list Z;  (* the 128 words of each block of the card *)
  raised : gset event;
  due : gset event;
  size_count : Z;
  argument : Z;
  data : data_phase;
}.

(** One block of 512 bytes. *)
Definition one_block : Z := 0x10200.

(** The events [b] happen. *)
Definition happen (b : gset event) (v : emmc) : emmc :=
  let stored := match data v with Programming lba ws => if decide (DataDone ∈ b) then Some (lba, ws) else None | _ => None end in
  mkEmmc (match stored with Some (lba, ws) => fun x => if decide (x = lba) then ws else blocks v x | None => blocks v end)
    (raised v ∪ b) (due v ∖ b) (size_count v) (argument v)
    (match stored with Some _ => Idle | None => data v end).

Definition elapses (v v' : emmc) : Prop := exists b, b ⊆ due v /\ v' = happen b v.

(** The host writes [w] to [EMMC_INTERRUPT]. *)
Definition acknowledge (w : Z) (v : emmc) : emmc :=
  mkEmmc (blocks v) (filter (fun e => has w (event_bit e) = false) (raised v)) (due v) (size_count v) (argument v) (data v).

Definition set_size_count (w : Z) (v : emmc) : emmc :=
  mkEmmc (blocks v) (raised v) (due v) w (argument v) (data v).

Definition set_argument (w : Z) (v : emmc) : emmc :=
  mkEmmc (blocks v) (raised v) (due v) (size_count v) w (data v).

(** The commands that move a block. *)
Definition read_issued (v : emmc) : emmc :=
  mkEmmc (blocks v) (raised v) {[CommandDone; ReadReady]} (size_count v) (argument v) (Sending (blocks v (argument v))).

Definition write_issued (v : emmc) : emmc :=
  mkEmmc (blocks v) (raised v) {[CommandDone; WriteReady]} (size_count v) (argument v) (Receiving (argument v) []).

(** A word has been moved; the last one ends the transfer. *)
Definition word_sent (ws : list Z) (v : emmc) : emmc :=
  mkEmmc (blocks v) (raised v) (match ws with [] => due v ∪ {[DataDone]} | _ => due v end) (size_count v) (argument v)
    (match ws with [] => Idle | _ => Sending ws end).

Definition word_received (lba : Z) (ws : list Z) (v : emmc) : emmc :=
  let full := bool_decide (length ws = 128%nat) in
  mkEmmc (blocks v) (raised v) (if full then due v ∪ {[DataDone]} else due v) (size_count v) (argument v)
    (if full then Programming lba ws else Receiving lba ws).

(** The value [w] of [EMMC_INTERRUPT] shows the events [r], and no error. *)
Definition shows (w : Z) (r : gset event) : Prop :=
  (forall e, has w (event_bit e) = bool_decide (e ∈ r)) /\ has w INT_ERROR_MASK = false /\ has w INT_CMD_TIMEOUT = false.

Lemma has_lor w a b : has w (Z.lor a b) = has w a || has w b.
Proof.
  unfold has. rewrite Z.land_lor_distr_r. destruct (Z.eqb_spec (Z.land w a) 0) as [->|Ha]; simpl.
  - done.
  - destruct (Z.eqb_spec (Z.lor (Z.land w a) (Z.land w b)) 0) as [E|]; [|done]. by apply Z.lor_eq_0_iff in E as [].
Qed.

Lemma has_submask w a b : Z.land b a = a -> has w b = false -> has w a = false.
Proof.
  unfold has. rewrite !negb_false_iff, !Z.eqb_eq. intros <- H. by rewrite Z.land_assoc, H.
Qed.

(** The free-running timer counts microseconds.  [clock] is finer, by a factor
    [grain]: a read takes time, but reads that are close give the same value. *)
Class Timer {U : Type} (regs : Registers U) : Type := mkTimer {
  clock : U -> Z;
  grain : Z;
  grain_pos : 0 < grain;
  timer_read u : let r := reg_read regs SYS_TIMER_CLOCK u in
    u32 r.1 = u32 (clock u / grain) /\ clock u < clock r.2 <= clock u + grain * 2 ^ 31;
}.
#[global] Arguments grain {U} regs {Timer}.
#[global] Arguments grain_pos {U} regs {Timer}.

Class Sdhc {U : Type} (regs : Registers U) : Type := mkSdhc {
  sdhc_timer :: Timer regs;
  card : U -> emmc;
  delayed : U -> nat;  (* the polls until everything due has been raised *)
  latency : nat;
  sdhc_latency : Z.of_nat latency < 500000;
  sdhc_delay u : (delayed u <= latency)%nat;
  sdhc_clock u : let r := reg_read regs SYS_TIMER_CLOCK u in
    elapses (card u) (card r.2) /\ (delayed r.2 <= delayed u)%nat;
  sdhc_interrupt u : let r := reg_read regs EMMC_INTERRUPT u in
    elapses (card u) (card r.2) /\ (delayed r.2 <= pred (delayed u))%nat /\
    (delayed u = 0%nat -> due (card r.2) = ∅) /\ shows (u32 r.1) (raised (card r.2));
  sdhc_status u : let r := reg_read regs EMMC_STATUS u in
    elapses (card u) (card r.2) /\ (delayed r.2 <= pred (delayed u))%nat /\
    (delayed u = 0%nat -> due (card r.2) = ∅) /\
    (data (card r.2) = Idle -> due (card r.2) = ∅ -> Z.land (u32 r.1) 0x403 = 0) /\
    (has (u32 r.1) SR_DAT_INHIBIT = false -> data (card r.2) = Idle /\ due (card r.2) = ∅);
  sdhc_response u : let r := reg_read regs EMMC_RESP0 u in elapses (card u) (card r.2);
  sdhc_read u w ws : data (card u) = Sending (w :: ws) -> ReadReady ∉ due (card u) ->
    let r := reg_read regs EMMC_DATA u in u32 r.1 = u32 w /\ elapses (word_sent ws (card u)) (card r.2);
  sdhc_write u w lba ws : data (card u) = Receiving lba ws -> (length ws < 128)%nat -> WriteReady ∉ due (card u) ->
    card (reg_write regs EMMC_DATA w u) = word_received lba (ws ++ [w]) (card u);
  sdhc_acknowledge u w : card (reg_write regs EMMC_INTERRUPT w u) = acknowledge w (card u);
  sdhc_size u w : card (reg_write regs EMMC_BLKSIZECNT w u) = set_size_count w (card u);
  sdhc_argument u w : card (reg_write regs EMMC_ARG1 w u) = set_argument w (card u);
  sdhc_read_single u : data (card u) = Idle -> due (card u) = ∅ -> size_count (card u) = one_block ->
    card (reg_write regs EMMC_CMDTM CMD_READ_SINGLE u) = read_issued (card u);
  sdhc_write_single u : data (card u) = Idle -> due (card u) = ∅ -> size_count (card u) = one_block ->
    card (reg_write regs EMMC_CMDTM CMD_WRITE_SINGLE u) = write_issued (card u);
}.

(** ** Time *)

Section Elapse.
Implicit Types (v : emmc) (E : gset event) (p : data_phase).

Lemma elapses_refl v : elapses v v.
Proof.
  exists ∅. split; [set_solver|]. unfold happen. destruct v as [bl ra du sz ar ph]; simpl.
  rewrite union_empty_r_L, difference_empty_L. by destruct ph.
Qed.

Lemma elapses_trans v1 v2 v3 : elapses v1 v2 -> elapses v2 v3 -> elapses v1 v3.
Proof.
  intros (b & Hb & ->) (b' & Hb' & ->). exists (b ∪ b').
  destruct v1 as [bl ra du sz ar ph]. unfold happen in *. simpl in *. split; [set_solver|].
  assert (ra ∪ b ∪ b' = ra ∪ (b ∪ b') /\ du ∖ b ∖ b' = du ∖ (b ∪ b')) as [-> ->] by (split; set_solver).
  destruct ph; try done. destruct (decide (DataDone ∈ b)).
  - by rewrite decide_True by set_solver.
  - destruct (decide (DataDone ∈ b')); [rewrite decide_True by set_solver|rewrite decide_False by set_solver]; done.
Qed.

(** The card holds [B], data move as [p] says, and the events [E] have been
    raised or are due. *)
Record at_phase (B : Z -> list Z) p E v : Prop := mkPhase {
  ph_blocks : blocks v = B;
  ph_data : data v = p;
  ph_events : raised v ∪ due v = E;
  ph_disjoint : raised v ## due v;
}.

Definition programming p : bool := match p with Programming _ _ => true | _ => false end.

Lemma happen_events b v : b ⊆ due v -> raised v ∪ b ∪ due v ∖ b = raised v ∪ due v.
Proof. intros Hb. apply set_eq. intros e. destruct (decide (e ∈ b)); set_solver. Qed.

Lemma at_phase_elapses B p E v v' :
  programming p = false -> at_phase B p E v -> elapses v v' -> at_phase B p E v'.
Proof.
  intros Hp [<- <- <- Hd] (b & Hb & ->). unfold happen.
  pose proof (happen_events b v Hb).
  destruct (data v); simpl in *; try done; constructor; simpl; try done; set_solver.
Qed.

Lemma elapses_due v v' : elapses v v' -> due v' ⊆ due v.
Proof. intros (b & _ & ->). simpl. set_solver. Qed.

Lemma elapses_kept v v' : elapses v v' -> size_count v' = size_count v /\ argument v' = argument v.
Proof. by intros (b & _ & ->). Qed.

Lemma event_bit_bit e : exists k, 0 <= k /\ event_bit e = Z.shiftl 1 k.
Proof. destruct e; [exists 0|exists 5|exists 4|exists 1]; done. Qed.

Lemma event_bits e e' : has (event_bit e) (event_bit e') = bool_decide (e = e').
Proof. by destruct e, e'. Qed.

(** Acknowledging an event, and all that has been raised. *)
Lemma at_phase_acknowledge B p E v e :
  at_phase B p E v -> e ∈ raised v -> at_phase B p (E ∖ {[e]}) (acknowledge (event_bit e) v) /\
    e ∉ due (acknowledge (event_bit e) v).
Proof.
  intros [<- <- <- Hd] He. split; [|simpl; set_solver].
  assert (Hf : filter (fun e' => has (event_bit e) (event_bit e') = false) (raised v) = raised v ∖ {[e]}).
  { apply set_eq. intros x. rewrite elem_of_filter, event_bits, bool_decide_eq_false. set_solver. }
  constructor; simpl; rewrite ?Hf; try done; [|set_solver].
  apply set_eq. intros x. set_solver.
Qed.

Lemma at_phase_clear B p E v w :
  at_phase B p E v -> due v = ∅ -> shows w (raised v) -> at_phase B p ∅ (acknowledge w v) /\ due (acknowledge w v) = ∅.
Proof.
  intros [<- <- <- Hd] He [Hs _]. split; [|done].
  assert (Hf : filter (fun e => has w (event_bit e) = false) (raised v) = ∅).
  { apply set_eq. intros x. rewrite elem_of_filter, Hs, bool_decide_eq_false. set_solver. }
  constructor; simpl; rewrite ?Hf, ?He; try done; set_solver.
Qed.

(** The last block sent is being stored, or has been. *)
Definition storing (B : Z -> list Z) lba ws E v : Prop :=
  DataDone ∈ due v /\ at_phase B (Programming lba ws) E v \/
  DataDone ∈ raised v /\ at_phase (fun x => if decide (x = lba) then ws else B x) Idle E v.

Lemma storing_elapses B lba ws E v v' : storing B lba ws E v -> elapses v v' -> storing B lba ws E v'.
Proof.
  intros [[Hd Hp]|[Hd Hp]] He.
  - destruct He as (b & Hb & ->). destruct Hp as [HB Hph HE Hdis]. unfold happen. rewrite Hph.
    pose proof (happen_events b v Hb) as Hu. rewrite HE in Hu. subst B.
    destruct (decide (DataDone ∈ b)); [right|left]; (split; [simpl; set_solver|]);
      constructor; simpl; done || set_solver.
  - right. split; [|by eapply at_phase_elapses]. destruct He as (b & _ & ->). simpl. set_solver.
Qed.
End Elapse.

(** ** Delays *)

Lemma s32_diff a b : s32 (u32 a - u32 b) = s32 (a - b).
Proof. unfold s32, u32. f_equal. rewrite <- Zplus_mod_idemp_l, <- Zminus_mod, Zplus_mod_idemp_l. done. Qed.

(** A delay of [n] milliseconds reads the timer at most [1000 * n * grain + 1]
    times; [R] is what these reads do to the devices. *)
Section Delay.
Context {U : Type} (regs : Registers U) `{!Timer regs} (fuel : nat) (R : relation U) `{!PreOrder R}.
Context (HR : forall u, R u (reg_read regs SYS_TIMER_CLOCK u).2).
Implicit Types (s : sd_state U) (u : U) (n : Z).

(** The reading [q] of a clock, and how far it is at the next read. *)
Lemma clock_advances g c c' : 0 < g -> c < c' <= c + g * 2 ^ 31 ->
  g * (c / g) <= c < g * (c / g) + g /\ c / g <= c' / g /\ c' / g <= c / g + 2 ^ 31.
Proof.
  intros Hg Hc. split; [pose proof (Z.mul_div_le c g); pose proof (Z.mul_succ_div_gt c g); lia|].
  split; [apply Z.div_le_mono; lia|]. rewrite <- Z.div_add by lia. apply Z.div_le_mono; lia.
Qed.

Lemma wp_wait_until k (t : Z) s Q :
  grain regs * t - clock (sd_bus s) < Z.of_nat k -> (0 < k)%nat -> t - 2 ^ 31 <= clock (sd_bus s) / grain regs < t + 2 ^ 31 ->
  (forall u, R (sd_bus s) u -> Q tt (set_sd_bus u s)) -> wp (wait_until regs k (u32 t)) Q s.
Proof using HR PreOrder0 Timer0.
  revert s. induction k as [|k IH]; intros s Hk H0 Hr HQ; [lia|]. cbn [wait_until]. wp_step. apply wp_bus_read.
  change (bus s) with (sd_bus s). destruct (timer_read (sd_bus s)) as [-> Hc]. specialize (HR (sd_bus s)).
  set (u := (reg_read _ _ _).2) in *. pose proof (grain_pos regs) as Hg.
  destruct (clock_advances (grain regs) (clock (sd_bus s)) (clock u) Hg Hc) as (Hq & Hq1 & Hq2).
  set (c := clock (sd_bus s)) in *. set (q := c / grain regs) in *. rewrite s32_diff, s32_id by lia.
  destruct (Z.ltb_spec (q - t) 0).
  - apply IH; simpl; [nia|nia|lia|]. intros u' Hu'. apply (HQ u'). by transitivity u.
  - wp_step. by apply (HQ u).
Qed.

Lemma wp_wait_msec n s Q :
  1 <= n <= 2000000 -> 1000 * n * grain regs <= Z.of_nat fuel ->
  (forall u, R (sd_bus s) u -> Q tt (set_sd_bus u s)) -> wp (wait_msec regs fuel n) Q s.
Proof using HR PreOrder0 Timer0.
  intros Hn Hf HQ. unfold wait_msec. wp_step. apply wp_bus_read. change (bus s) with (sd_bus s).
  destruct (timer_read (sd_bus s)) as [-> Hc]. pose proof (HR (sd_bus s)) as Hu. set (u := (reg_read _ _ _).2) in *.
  pose proof (grain_pos regs) as Hg. destruct (clock_advances (grain regs) (clock (sd_bus s)) (clock u) Hg Hc) as (Hq & Hq1 & Hq2).
  replace (u32 (u32 (clock (sd_bus s) / grain regs) + u32 (n * 1000))) with (u32 (clock (sd_bus s) / grain regs + n * 1000))
    by (unfold u32; rewrite <- Zplus_mod; done).
  apply wp_wait_until; simpl; [nia|nia|lia|]. intros u' Hu'. apply (HQ u'). by transitivity u.
Qed.
End Delay.

(** ** Polls of the controller *)

Section Card.
Context {U : Type} (regs : Registers U) `{!Sdhc regs} (fuel : nat) (Hfuel : 1000 * grain regs <= Z.of_nat fuel).
Implicit Types (s : sd_state U) (u : U) (e : event) (Inv : emmc -> Prop).

Abbreviation controller s := (card (sd_bus s)).

(** A property of the controller that time does not change. *)
Definition stable Inv : Prop := forall v v', Inv v -> elapses v v' -> Inv v'.

(** Waiting. *)
Definition waits u u' : Prop := elapses (card u) (card u') /\ (delayed u' <= delayed u)%nat.

#[local] Instance waits_preorder : PreOrder waits.
Proof.
  split; [intros u; split; [apply elapses_refl|done]|].
  intros u1 u2 u3 [H1 L1] [H2 L2]. split; [by eapply elapses_trans|lia].
Qed.

Lemma wp_wait_one s Q :
  (forall u, waits (sd_bus s) u -> Q tt (set_sd_bus u s)) -> wp (wait_msec regs fuel 1) Q s.
Proof using Hfuel Sdhc0.
  intros HQ. apply (wp_wait_msec regs fuel waits); [exact sdhc_clock|lia..|done].
Qed.

(** A condition that, once nothing is delayed any more, fails. *)
Lemma wp_poll Inv (P : U -> Prop) (b : Exec (sd_state U) bool) cnt s Q :
  stable Inv -> Inv (controller s) -> (delayed (sd_bus s) < cnt)%nat ->
  (forall u, Inv (card u) -> wp b (fun x s' => exists u', s' = set_sd_bus u' s /\ elapses (card u) (card u') /\
     if (x : bool) then (delayed u' < delayed u)%nat else P u') (set_sd_bus u s)) ->
  (forall k u, Inv (card u) -> P u -> 0 < k -> Q k (set_sd_bus u s)) -> wp (poll regs fuel b 1 cnt) Q s.
Proof using Hfuel Sdhc0.
  intros HI Hs Hcnt Hb HQ. replace s with (set_sd_bus (sd_bus s) s) by (by destruct s).
  revert Hs Hcnt. generalize (sd_bus s). induction cnt as [|cnt IH]; intros u Hu Hd; [lia|]. cbn [poll]. wp_step.
  eapply wp_mono; [by apply Hb|]. intros x s' (u' & -> & He & Hx). destruct x; simpl negb; cbv iota.
  - wp_step. apply wp_wait_one. intros u2 [He2 Hl2]. simpl in He2, Hl2. apply IH; [|lia].
    by eapply HI; [eapply HI|].
  - wp_step. apply HQ; [by eapply HI|done|lia].
Qed.

Lemma wp_reg_has reg mask s (Q : bool -> sd_state U -> Prop) :
  Q (has (u32 (reg_read regs reg (sd_bus s)).1) mask) (set_sd_bus (reg_read regs reg (sd_bus s)).2 s) ->
  wp (reg_has regs reg mask) Q s.
Proof. intros HQ. unfold reg_has. wp_step. apply wp_bus_read. by wp_step. Qed.

Lemma raised_elapses v v' e : elapses v v' -> e ∈ raised v -> e ∈ raised v'.
Proof. intros (b & _ & ->) He. simpl. set_solver. Qed.

(** [sd_int] waits for an event that has been raised or is due, and
    acknowledges it. *)
Lemma wp_sd_int Inv e s Q :
  stable Inv -> Inv (controller s) -> (forall v, Inv v -> e ∈ raised v ∪ due v) ->
  (forall u v, Inv v -> e ∈ raised v -> card u = acknowledge (event_bit e) v -> Q 0 (set_sd_bus u s)) ->
  wp (sd_int regs fuel (event_bit e)) Q s.
Proof using Hfuel Sdhc0.
  intros HI Hs He HQ. unfold sd_int. cbv zeta. wp_step.
  apply (wp_poll Inv (fun u => e ∈ raised (card u))); [done..| | |].
  { pose proof (sdhc_delay (sd_bus s)). pose proof sdhc_latency. unfold int_cnt. lia. }
  - intros u Hu. wp_step. apply wp_reg_has. wp_step. simpl. eexists. split; [done|].
    destruct (sdhc_interrupt u) as (Hel & Hd & H0 & Hsh & Herr & _). split; [done|].
    rewrite has_lor, Hsh, Herr, orb_false_r. case_bool_decide as Hr; simpl; [done|].
    assert (delayed u <> 0%nat); [|lia]. intros E. specialize (H0 E).
    pose proof (He _ (HI _ _ Hu Hel)) as Hin. set_solver.
  - intros k u Hu Hr Hk. wp_step. apply wp_bus_read. simpl.
    destruct (sdhc_interrupt u) as (Hel & _ & _ & _ & Herr & Htim).
    set (u1 := (reg_read regs EMMC_INTERRUPT u).2) in *. set (w := u32 _) in *. destruct (Z.leb_spec k 0); [lia|].
    rewrite Htim, (has_submask w INT_DATA_TIMEOUT INT_ERROR_MASK), Herr by done. simpl. wp_step.
    apply wp_bus_write. wp_step. simpl. apply (HQ _ (card u1)); [by eapply HI|by eapply raised_elapses|].
    rewrite sdhc_acknowledge. by destruct e.
Qed.

(** [sd_status] waits for an idle controller. *)
Lemma wp_sd_status Inv mask s Q :
  stable Inv -> Inv (controller s) -> (forall v, Inv v -> data v = Idle) -> Z.land 0x403 mask = mask ->
  (forall u, Inv (card u) -> (Z.land mask SR_DAT_INHIBIT = SR_DAT_INHIBIT -> due (card u) = ∅) -> Q 0 (set_sd_bus u s)) ->
  wp (sd_status regs fuel mask) Q s.
Proof using Hfuel Sdhc0.
  intros HI Hs He Hm HQ. unfold sd_status. wp_step.
  apply (wp_poll Inv (fun u => Z.land mask SR_DAT_INHIBIT = SR_DAT_INHIBIT -> due (card u) = ∅)); [done..| | |].
  { pose proof (sdhc_delay (sd_bus s)). pose proof sdhc_latency. unfold status_cnt. lia. }
  - intros u Hu. unfold status_busy. wp_step. apply wp_reg_has. simpl.
    destruct (sdhc_status u) as (Hel & Hd & H0 & Hidle & Hdat). set (u1 := (reg_read regs EMMC_STATUS u).2) in *.
    set (w := u32 _) in *. destruct (has w mask) eqn:Ew; simpl negb; cbv iota.
    + wp_step. apply wp_reg_has. wp_step. simpl. destruct (sdhc_interrupt u1) as (Hel' & Hd' & _ & _ & Herr & _).
      eexists. split; [done|]. split; [by eapply elapses_trans|]. rewrite Herr. simpl.
      assert (delayed u <> 0%nat); [|lia]. intros E. specialize (Hidle (He _ (HI _ _ Hu Hel)) (H0 E)).
      rewrite (has_submask w mask 0x403) in Ew; [done|done|]. unfold has. by rewrite Hidle.
    + wp_step. eexists. split; [done|]. split; [done|]. intros Hdm. apply Hdat. by apply (has_submask w SR_DAT_INHIBIT mask).
  - intros k u Hu Hd Hk. destruct (Z.leb_spec k 0); [lia|]. wp_step. apply wp_reg_has. wp_step. simpl.
    destruct (sdhc_interrupt u) as (Hel & _ & _ & _ & -> & _). apply HQ; [by eapply HI|].
    intros E. pose proof (elapses_due _ _ Hel). specialize (Hd E). set_solver.
Qed.

(** *** Commands *)

(** The commands that [send_command] treats apart. *)
Definition special_commands : list Z :=
  [CMD_SEND_OP_COND; CMD_SEND_IF_COND; CMD_APP_CMD; CMD_GO_IDLE; Z.lor CMD_APP_CMD CMD_RSPNS_48; CMD_ALL_SEND_CID;
   CMD_SEND_REL_ADDR].

(** An idle controller that has been told the size of a block. *)
Definition commandable B E v : Prop := at_phase B Idle E v /\ due v = ∅ /\ size_count v = one_block.

Lemma stable_phase B p E : programming p = false -> stable (at_phase B p E).
Proof. intros Hp v v'. by apply at_phase_elapses. Qed.

Lemma stable_quiet B E : stable (fun v => at_phase B Idle E v /\ due v = ∅).
Proof.
  intros v v' [Hp Hd] He. split; [by eapply at_phase_elapses|]. pose proof (elapses_due _ _ He). set_solver.
Qed.

Lemma stable_commandable B E : stable (commandable B E).
Proof.
  intros v v' (Hp & Hd & Hs) He. destruct (stable_quiet B E v v' (conj Hp Hd) He).
  by rewrite <- (proj1 (elapses_kept _ _ He)) in Hs.
Qed.

(** A command [code] that makes of an idle controller what [issued] says, and
    that goes on in the phase [p] with the event [e]. *)
Lemma wp_send_command code issued B E p e arg s Q :
  commandable B E (controller s) -> Forall (fun c => (code =? c) = false) special_commands -> u32 code = code ->
  (forall u, data (card u) = Idle -> due (card u) = ∅ -> size_count (card u) = one_block ->
     card (reg_write regs EMMC_CMDTM code u) = issued (card u)) ->
  (forall v, at_phase B Idle ∅ v -> argument v = u32 arg -> at_phase B p {[CommandDone; e]} (issued v)) ->
  programming p = false -> e <> CommandDone ->
  (forall u r, at_phase B p {[e]} (card u) -> Q r (set_sd_bus u s)) ->
  wp (send_command regs fuel code arg) Q s.
Proof using Hfuel Sdhc0.
  intros Hc Hsp Hcode Hcard Hissued Hp He HQ. unfold send_command. wp_step.
  apply (wp_sd_status (commandable B E)); [apply stable_commandable|done|by intros v [[] _]|done|].
  intros u1 Hc1 _. cbn [negb Z.eqb]. wp_step. unfold mmio_update. wp_step. apply wp_bus_read. apply wp_bus_write.
  simpl. destruct (sdhc_interrupt u1) as (Hel & _ & _ & Hsh). set (u2 := (reg_read regs EMMC_INTERRUPT u1).2) in *.
  destruct (stable_commandable _ _ _ _ Hc1 Hel) as (Hp2 & Hd2 & Hs2).
  destruct (at_phase_clear _ _ _ _ _ Hp2 Hd2 Hsh) as [Hp3 Hd3].
  wp_step. apply wp_bus_write. wp_step. apply wp_bus_write. simpl. rewrite Hcode, (u32_id (u32 _)) by apply u32_range.
  set (u3 := reg_write regs EMMC_ARG1 _ _).
  assert (E3 : card u3 = set_argument (u32 arg) (acknowledge (u32 (reg_read regs EMMC_INTERRUPT u1).1) (card u2)))
    by (unfold u3; by rewrite sdhc_argument, sdhc_acknowledge).
  assert (Hp4 : at_phase B Idle ∅ (card u3)) by (rewrite E3; by destruct Hp3).
  assert (H4 : card (reg_write regs EMMC_CMDTM code u3) = issued (card u3)).
  { apply Hcard; [by apply Hp4|by rewrite E3|by rewrite E3]. }
  specialize (Hissued _ Hp4). rewrite E3 in Hissued at 1. specialize (Hissued eq_refl). rewrite <- H4 in Hissued.
  set (u4 := reg_write regs EMMC_CMDTM code u3) in *.
  repeat (apply Forall_cons in Hsp as [-> Hsp]). simpl orb. cbv iota. wp_step. wp_step. wp_step.
  apply (wp_sd_int (at_phase B p {[CommandDone; e]}) CommandDone); [by apply stable_phase|done| |].
  { intros v [_ _ -> _]. set_solver. }
  intros u5 v5 Hp5 Hr5 E5. destruct (at_phase_acknowledge _ _ _ _ _ Hp5 Hr5) as [Hp6 _]. rewrite <- E5 in Hp6.
  cbn [negb Z.eqb]. wp_step. apply wp_bus_read. wp_step. simpl. apply HQ.
  eapply at_phase_elapses; [done| |apply sdhc_response]. by replace {[e]} with ({[CommandDone; e]} ∖ {[CommandDone]} : gset event) by set_solver.
Qed.

(** *** Data *)

(** The words [ws] are still to come. *)
Definition sending B ws v : Prop :=
  match ws with [] => at_phase B Idle {[DataDone]} v | _ => at_phase B (Sending ws) ∅ v end.

Lemma sending_next B w ws u :
  sending B (w :: ws) (card u) ->
  u32 (reg_read regs EMMC_DATA u).1 = u32 w /\ sending B ws (card (reg_read regs EMMC_DATA u).2).
Proof.
  intros [HB Hd He Hdis]. apply empty_union_L in He as [Hr Hu].
  destruct (sdhc_read u w ws Hd) as [Hw Hel]; [by rewrite Hu|]. split; [done|].
  destruct ws as [|w' ws']; simpl; (eapply at_phase_elapses; [done| |exact Hel]);
    constructor; simpl; rewrite ?Hr, ?Hu; try done; set_solver.
Qed.

Lemma wp_read_words B ws pre mid post s Q :
  sending B ws (controller s) -> length mid = (4 * length ws)%nat ->
  (forall u, at_phase B Idle {[DataDone]} (card u) -> Q (pre ++ bytes_of ws ++ post) (set_sd_bus u s)) ->
  wp (read_words regs (length ws) (Z.of_nat (length pre)) (pre ++ mid ++ post)) Q s.
Proof.
  revert pre mid s. induction ws as [|w ws IH]; intros pre mid s Hs Hm HQ; cbn [length read_words].
  { destruct mid; [|done]. wp_step. specialize (HQ (sd_bus s) Hs). by destruct s. }
  destruct (sending_next _ _ _ _ Hs) as [Hw Hn]. cbn [length] in Hm.
  wp_step. apply wp_bus_read. change (bus s) with (sd_bus s). rewrite Hw. wp_step.
  eapply wp_defined; [apply put32_splice; rewrite !length_app; lia|].
  rewrite take_app_length, drop_app_add, drop_app_le by lia.
  rewrite le_bytes_u32. replace (Z.of_nat (length pre) + 4) with (Z.of_nat (length (pre ++ le_bytes 4 w)))
    by (rewrite length_app, le_bytes_length; lia).
  rewrite app_assoc. apply (IH _ (drop 4 mid)); [done|rewrite length_drop; lia|].
  intros u Hu. rewrite <- app_assoc. by apply (HQ u).
Qed.

(** The words [ws] have been received, of a block to be stored at [lba]. *)
Definition receiving B lba ws v : Prop :=
  if decide (length ws = 128%nat) then storing B lba ws {[DataDone]} v else at_phase B (Receiving lba ws) ∅ v.

Lemma receiving_next B lba ws w u :
  receiving B lba ws (card u) -> (length ws < 128)%nat ->
  receiving B lba (ws ++ [w]) (card (reg_write regs EMMC_DATA w u)).
Proof.
  intros H Hl. unfold receiving in H. rewrite decide_False in H by lia. destruct H as [HB Hd He Hdis].
  apply empty_union_L in He as [Hr Hu]. rewrite (sdhc_write u w lba ws) by (done || by rewrite Hu).
  unfold receiving, word_received. rewrite length_app. simpl. case_decide as E.
  - rewrite bool_decide_true by done. left. rewrite Hu. split; [simpl; set_solver|].
    constructor; simpl; rewrite ?Hr; try done; set_solver.
  - rewrite bool_decide_false by done. constructor; simpl; rewrite ?Hr, ?Hu; try done; set_solver.
Qed.

Lemma wp_write_words B lba buffer n ws s Q :
  block buffer -> receiving B lba ws (controller s) -> (n + length ws = 128)%nat ->
  bytes_of ws = take (4 * length ws) buffer ->
  (forall u ws', length ws' = 128%nat -> bytes_of ws' = buffer -> storing B lba ws' {[DataDone]} (card u) ->
     Q tt (set_sd_bus u s)) ->
  wp (write_words regs n (Z.of_nat (4 * length ws)) buffer) Q s.
Proof.
  intros [Hlen Hb]. revert ws s. induction n as [|n IH]; intros ws s Hs Hn Hws HQ; cbn [write_words].
  { wp_step. unfold receiving in Hs. rewrite decide_True in Hs by lia.
    rewrite take_ge in Hws by lia. specialize (HQ (sd_bus s) ws Hn Hws Hs). by destruct s. }
  destruct (get32_lt buffer (Z.of_nat (4 * length ws))) as [v Hv]; [lia..|].
  wp_step. eapply wp_defined; [exact Hv|]. wp_step. apply wp_bus_write. change (bus s) with (sd_bus s).
  unfold get32 in Hv. destruct (Z.ltb_spec (Z.of_nat (4 * length ws)) 0); [lia|]. rewrite Nat2Z.id in Hv.
  rewrite (u32_id v) by exact (get_le_range _ _ _ _ Hv Hb).
  replace (Z.of_nat (4 * length ws) + 4) with (Z.of_nat (4 * length (ws ++ [v]))) by (rewrite length_app; simpl; lia).
  apply IH; [apply receiving_next; [done|lia]|rewrite length_app; simpl; lia| |].
  - unfold bytes_of in *. rewrite bind_app, Hws. cbn [mbind list_bind]. rewrite app_nil_r, (get_le_bytes _ _ _ _ Hv Hb).
    rewrite take_take_drop. f_equal. rewrite length_app. simpl. lia.
  - intros u ws' H1 H2 H3. by apply (HQ u ws').
Qed.

(** *** Blocks *)

(** The driver has found a card of high capacity, and the controller is idle. *)
Record sd_working s : Prop := mkWorking {
  sw_phase : exists E, at_phase (blocks (controller s)) Idle E (controller s);
  sw_blocks x : length (blocks (controller s) x) = 128%nat;
  sw_capacity : exists c, array_get (sd_scr s) 0 = Some c /\ has c SCR_SUPP_CCS = true;
}.

Definition sd_sectors s x : list Z := bytes_of (blocks (controller s) x).

Lemma sd_working_same s err B E u :
  sd_working s -> at_phase B Idle E (card u) -> (forall x, length (B x) = 128%nat) ->
  sd_working (set_sd_bus u (set_sd_err err s)).
Proof. intros [_ _ Hc] Hp HB. constructor; [|simpl; by rewrite (ph_blocks _ _ _ _ Hp)|done]. exists E. by destruct Hp as [<- ]. Qed.

(** The commands of a transfer of one block. *)
Lemma wp_start_transfer single multi issued B E p e lba s Q :
  at_phase B Idle E (controller s) -> due (controller s) = ∅ ->
  (exists c, array_get (sd_scr s) 0 = Some c /\ has c SCR_SUPP_CCS = true) ->
  Forall (fun c => (single =? c) = false) special_commands -> u32 single = single -> has single CMD_NEED_APP = false ->
  (forall u, data (card u) = Idle -> due (card u) = ∅ -> size_count (card u) = one_block ->
     card (reg_write regs EMMC_CMDTM single u) = issued (card u)) ->
  (forall v, at_phase B Idle ∅ v -> argument v = u32 lba -> at_phase B p {[CommandDone; e]} (issued v)) ->
  programming p = false -> e <> CommandDone ->
  (forall u, at_phase B p {[e]} (card u) -> Q false (set_sd_bus u (set_sd_err 0 s))) ->
  wp (start_transfer regs fuel single multi lba 1) Q s.
Proof using Hfuel Sdhc0.
  intros Hp Hd (c & Hc & Hccs) Hsp Hcode Happ Hcard Hissued Hph He HQ. unfold start_transfer, scr.
  wp_step. wp_step. wp_step. eapply wp_defined; [exact Hc|]. rewrite Hccs. cbn [Z.ltb Z.compare Pos.compare Pos.compare_cont andb].
  wp_step. wp_step. wp_step. apply wp_bus_write. wp_step. cbn [Z.eqb Pos.eqb]. unfold sd_execute_command. wp_step.
  unfold set_err at 1. wp_step. rewrite Happ.
  apply (wp_send_command single issued B E p e); try done.
  { simpl. change (bus s) with (sd_bus s). rewrite sdhc_size. split; [by destruct Hp|]. by split. }
  intros u r Hu. unfold failed. wp_step. wp_step. wp_step. by apply HQ.
Qed.

Lemma wp_address_block code lba c s Q :
  (exists c, array_get (sd_scr s) 0 = Some c /\ has c SCR_SUPP_CCS = true) -> Q false s ->
  wp (address_block regs fuel code lba c) Q s.
Proof.
  intros (v & Hv & Hccs) HQ. unfold address_block, scr. wp_step. wp_step. wp_step. eapply wp_defined; [exact Hv|].
  by rewrite Hccs.
Qed.

(** The end of a transfer of one block. *)
Lemma wp_end_transfer s Q :
  (exists c, array_get (sd_scr s) 0 = Some c /\ has c SCR_SUPP_CCS = true) -> sd_err s = 0 -> Q 512 s -> wp (end_transfer regs fuel 1 1) Q s.
Proof.
  intros (c & Hc & _) He HQ. unfold end_transfer, scr. wp_step. wp_step. wp_step. eapply wp_defined; [exact Hc|].
  cbn [Z.ltb Z.compare Pos.compare Pos.compare_cont andb]. wp_step. wp_step. unfold failed. wp_step. wp_step. wp_step.
  rewrite He. by wp_step.
Qed.

Lemma wp_sd_readblock s lba buffer Q :
  sd_working s -> block buffer -> 0 <= lba < 2 ^ 32 ->
  (forall s', sd_working s' -> (forall x, sd_sectors s' x = sd_sectors s x) -> Q (512, sd_sectors s lba) s') ->
  wp (sd_readblock regs fuel lba buffer 1) Q s.
Proof using Hfuel Sdhc0.
  intros Hw [Hlen _] Hlba HQ. pose proof Hw as [[E Hp] HB Hc]. set (B := blocks (controller s)) in *.
  unfold sd_readblock. cbn [Z.ltb Z.compare Pos.compare Pos.compare_cont]. wp_step.
  apply (wp_sd_status (at_phase B Idle E)); [by apply stable_phase|done|by intros v []|done|].
  intros u1 Hp1 Hd1. cbn [negb Z.eqb]. wp_step.
  apply (wp_start_transfer _ _ read_issued B E (Sending (B lba)) ReadReady); try done.
  { by apply Hd1. }
  { repeat constructor. }
  { exact sdhc_read_single. }
  { intros v [HB' Hd He Hdis] Ha. apply empty_union_L in He as [Hr Hu]. rewrite u32_id in Ha by done.
    constructor; simpl; rewrite ?Hr, ?HB', ?Ha; try done; set_solver. }
  intros u2 Hp2. cbv iota. wp_step. change (Z.to_nat 1) with 1%nat. cbn [read_blocks]. wp_step.
  apply wp_address_block; [done|]. wp_step. apply (wp_sd_int (at_phase B (Sending (B lba)) {[ReadReady]}) ReadReady); [by apply stable_phase|done| |].
  { intros v [_ _ -> _]. set_solver. }
  intros u3 v3 Hp3 Hr3 E3. destruct (at_phase_acknowledge _ _ _ _ _ Hp3 Hr3) as [Hp4 _]. rewrite <- E3 in Hp4.
  rewrite difference_diag_L in Hp4. cbn [negb Z.eqb]. wp_step.
  pose proof (HB lba) as Hl. pose proof (wp_read_words B (B lba) [] buffer []) as Hread.
  rewrite Hl in Hread. cbn [app length Z.of_nat] in Hread. rewrite !app_nil_r in Hread. change (512 * 0) with 0.
  apply Hread; [|done|].
  { unfold sending. destruct (B lba); [done|exact Hp4]. }
  intros u5 Hp5. wp_step. cbv beta iota. wp_step. simpl Z.add. apply wp_end_transfer; [done|done|]. wp_step.
  apply HQ; [by apply (sd_working_same s 0 B _ u5 Hw Hp5)|].
  intros x. unfold sd_sectors. simpl. by rewrite (ph_blocks _ _ _ _ Hp5).
Qed.

Lemma wp_sd_writeblock s lba buffer Q :
  sd_working s -> block buffer -> 0 <= lba < 2 ^ 32 ->
  (forall s', sd_working s' -> (forall x, sd_sectors s' x = if decide (x = lba) then buffer else sd_sectors s x) -> Q 512 s') ->
  wp (sd_writeblock regs fuel buffer lba 1) Q s.
Proof using Hfuel Sdhc0.
  intros Hw Hbuf Hlba HQ. pose proof Hw as [[E Hp] HB Hc]. set (B := blocks (controller s)) in *.
  unfold sd_writeblock. cbn [Z.ltb Z.compare Pos.compare Pos.compare_cont]. wp_step.
  apply (wp_sd_status (at_phase B Idle E)); [by apply stable_phase|done|by intros v []|done|].
  intros u1 Hp1 Hd1. cbn [negb Z.eqb]. wp_step.
  apply (wp_start_transfer _ _ write_issued B E (Receiving lba []) WriteReady); try done.
  { by apply Hd1. }
  { repeat constructor. }
  { exact sdhc_write_single. }
  { intros v [HB' Hd He Hdis] Ha. apply empty_union_L in He as [Hr Hu]. rewrite u32_id in Ha by done.
    constructor; simpl; rewrite ?Hr, ?HB', ?Ha; try done; set_solver. }
  intros u2 Hp2. cbv iota. wp_step. change (Z.to_nat 1) with 1%nat. cbn [write_blocks]. wp_step.
  apply wp_address_block; [done|]. wp_step. apply (wp_sd_int (at_phase B (Receiving lba []) {[WriteReady]}) WriteReady); [by apply stable_phase|done| |].
  { intros v [_ _ -> _]. set_solver. }
  intros u3 v3 Hp3 Hr3 E3. destruct (at_phase_acknowledge _ _ _ _ _ Hp3 Hr3) as [Hp4 _]. rewrite <- E3 in Hp4.
  rewrite difference_diag_L in Hp4. cbn [negb Z.eqb]. wp_step. change (512 * 0) with (Z.of_nat (4 * length (@nil Z))).
  apply (wp_write_words B lba buffer 128 []); [done|exact Hp4|done|done|].
  intros u5 ws Hws Hbytes Hst. wp_step. cbv beta iota. wp_step.
  apply (wp_sd_int (storing B lba ws {[DataDone]}) DataDone); [by intros v v'; apply storing_elapses|done| |].
  { intros v [[Hd _]|[Hr _]]; set_solver. }
  intros u6 v6 Hst6 Hr6 E6. cbn [negb Z.eqb]. simpl Z.add. apply wp_end_transfer; [done|done|].
  assert (Hp6 : at_phase (fun x => if decide (x = lba) then ws else B x) Idle {[DataDone]} v6).
  { destruct Hst6 as [[Hd [_ _ _ Hdis]]|[_ H]]; [set_solver|done]. }
  destruct (at_phase_acknowledge _ _ _ _ _ Hp6 Hr6) as [Hp7 _]. rewrite <- E6 in Hp7.
  apply HQ.
  - eapply (sd_working_same s 0 _ _ u6 Hw Hp7). intros x. simpl. by case_decide.
  - intros x. unfold sd_sectors. simpl. rewrite (ph_blocks _ _ _ _ Hp7). by case_decide.
Qed.
End Card.

#[export] Instance sd_reliable {U} (regs : Registers U) `{!Sdhc regs} (fuel : nat) (Hfuel : Is_true (1000 * grain regs <=? Z.of_nat fuel)) :
  Reliable (sd_disk_operations regs fuel) (sd_sectors regs).
Proof.
  apply Is_true_true, Z.leb_le in Hfuel.
  refine {| working := sd_working regs |}.
  - intros buf sect s Hw Hb Hs. pose proof (wp_sd_readblock regs fuel Hfuel s sect buf
      (fun r s' => r = (512, sd_sectors regs s sect) /\ sd_working regs s' /\ forall x, sd_sectors regs s' x = sd_sectors regs s x) Hw Hb Hs) as H.
    apply wp_inv in H as (r & s' & E & -> & Hw' & Hx); [|by intros s' ? ?]. exists s'.
    unfold sd_disk_operations, sd_read_adapter, mbind, exec_bind. simpl. by rewrite E.
  - intros buf sect s Hw Hb Hs. pose proof (wp_sd_writeblock regs fuel Hfuel s sect buf
      (fun r s' => r = 512 /\ sd_working regs s' /\ forall x, sd_sectors regs s' x = if decide (x = sect) then buf else sd_sectors regs s x)
      Hw Hb Hs) as H.
    apply wp_inv in H as (r & s' & E & -> & Hw' & Hx); [|by intros s' ? ?]. exists s'.
    unfold sd_disk_operations, sd_write_adapter, mbind, exec_bind. simpl. by rewrite E.
  - intros s x Hw. apply bytes_of_block, Hw.
Defined.
