(* ===== verification/SdRuns.v ===== *)
(** * The SD card driver over any controller

    Whatever the controller answers, the loops of the driver end: they count
    down, and the timer makes the delays end.  [runs] is the logic of these
    executions; the only assumptions are on the timer and the UART that prints
    the errors.  The loop of [sd_init] that waits for the SCR register is the
    exception. *)

From S2P Require Import Prelude Exec Kernel Devices FatTypes FatBytes Sd SdLogic.

#[local] Set Default Proof Using "All".

Section Runs.
Context {U : Type} (regs : Registers U) `{!Timer regs, !Pl011 regs} (fuel : nat).
Context (Hfuel : 1000000 * grain regs <= Z.of_nat fuel) (Huart : (busy_limit < fuel)%nat).
Implicit Types (s : sd_state U).

Abbreviation SD := (Exec (sd_state U)).

(** The array [sd_scr] has two entries. *)
Definition sd_ok s : Prop := length (sd_scr s) = 2%nat.

(** The execution ends, and its result and its state satisfy [P]. *)
Definition runs {A} (m : SD A) (P : A -> sd_state U -> Prop) : Prop :=
  forall s, sd_ok s -> wp m (fun a s' => sd_ok s' /\ P a s') s.

Abbreviation ends m P := (runs m (fun a _ => P a)).

Definition any {A : Type} (a : A) : Prop := True.

Lemma runs_bind {A B} (m : SD A) (f : A -> SD B) P Q : ends m P -> (forall a, P a -> runs (f a) Q) -> runs (m ≫= f) Q.
Proof. intros Hm Hf s Hs. wp_step. eapply wp_mono; [by apply Hm|]. intros a s' [Hs' Ha]. by apply (Hf a). Qed.

Lemma runs_ret {A} (a : A) (P : A -> Prop) : P a -> ends (mret a) P.
Proof. intros Ha s Hs. by apply wp_ret. Qed.

Lemma runs_weaken {A} (m : SD A) (P Q : A -> Prop) : ends m P -> (forall a, P a -> Q a) -> ends m Q.
Proof. intros Hm HQ s Hs. eapply wp_mono; [by apply Hm|]. intros a s' [Hs' Ha]. auto. Qed.

Lemma runs_if {A} (b : bool) (m m' : SD A) P : runs m P -> runs m' P -> runs (if b then m else m') P.
Proof. by destruct b. Qed.

Lemma runs_read reg : ends (mmio_read regs reg) any.
Proof. intros s Hs. by apply wp_bus_read. Qed.

Lemma runs_write reg v : ends (mmio_write regs reg v) any.
Proof. intros s Hs. by apply wp_bus_write. Qed.

Lemma runs_update reg f : ends (mmio_update regs reg f) any.
Proof. intros s Hs. unfold mmio_update. wp_step. apply wp_bus_read. by apply wp_bus_write. Qed.

Lemma runs_gets {A} (f : sd_state U -> A) : ends (gets f) any.
Proof. intros s Hs. by wp_step. Qed.

Lemma runs_defined {A} (o : option A) a : o = Some a -> ends (defined o) (fun x => Some x = o).
Proof. intros -> s Hs. by eapply wp_defined. Qed.

Lemma runs_set_err v : ends (set_err v) any.
Proof. intros s Hs. unfold set_err. by wp_step. Qed.

Lemma runs_failed : ends (@failed U) any.
Proof. intros s Hs. unfold failed. by wp_steps. Qed.

Lemma runs_scr : ends (@scr U 0) any.
Proof.
  intros s Hs. unfold scr. wp_step. wp_step.
  destruct (lookup_lt_is_Some_2 (sd_scr s) 0) as [c Hc]; [rewrite Hs; lia|]. by eapply wp_defined.
Qed.

Lemma runs_message m : ends (message regs fuel m) any.
Proof. intros s Hs. unfold message. apply (wp_bus_puts regs fuel Huart). by intros u _. Qed.

Lemma runs_wait n : 1 <= n <= 1000 -> ends (wait_msec regs fuel n) any.
Proof.
  intros Hn s Hs. assert (PreOrder (fun _ _ : U => True)) by by split.
  apply (wp_wait_msec regs fuel (fun _ _ => True)); [done|lia|pose proof (grain_pos regs); nia|]. by intros u _.
Qed.

Lemma runs_reg_has reg mask : ends (reg_has regs reg mask) any.
Proof. unfold reg_has. eapply runs_bind; [apply runs_read|]. intros v _. by apply runs_ret. Qed.

(** A poll takes at most [cnt + 1] tests. *)
Lemma runs_poll b n cnt : ends b any -> 1 <= n <= 1000 -> ends (poll regs fuel b n cnt) (fun k => -1 <= k <= Z.of_nat cnt).
Proof.
  intros Hb Hn. induction cnt as [|cnt IH]; cbn [poll]; (eapply runs_bind; [done|]); intros x _; apply runs_if;
    try (apply runs_ret; lia).
  eapply runs_bind; [by apply runs_wait|]. intros [] _. eapply runs_weaken; [exact IH|]. intros k Hk. simpl in *. lia.
Qed.
Create HintDb runs.
#[local] Hint Resolve runs_ret runs_if runs_read runs_write runs_update runs_gets runs_set_err runs_failed runs_scr
  runs_message runs_wait runs_reg_has : runs.

#[local] Opaque status_cnt int_cnt inhibit_cnt stable_cnt.

#[local] Hint Extern 1 (any _) => exact I : runs.
#[local] Hint Extern 2 (1 <= _ <= 1000) => lia : runs.

(** Runs a sequence of steps that end. *)
Ltac run_steps :=
  first
    [ apply runs_if; run_steps
    | solve [eauto with runs]
    | eapply (runs_bind _ _ any); [run_steps|intros ? _; run_steps] ].

Lemma runs_sd_status mask : ends (sd_status regs fuel mask) any.
Proof.
  unfold sd_status. eapply runs_bind; [apply runs_poll; [unfold status_busy; run_steps|lia]|]. intros k _. run_steps.
Qed.

Lemma runs_sd_int mask : ends (sd_int regs fuel mask) any.
Proof. unfold sd_int. eapply runs_bind; [apply runs_poll; [run_steps|lia]|]. intros k _. run_steps. Qed.

#[local] Hint Resolve runs_sd_status runs_sd_int : runs.

Lemma runs_send_command code arg : ends (send_command regs fuel code arg) any.
Proof. unfold send_command. cbv zeta. run_steps. Qed.

#[local] Hint Resolve runs_send_command : runs.

Lemma runs_sd_execute_command code arg : ends (sd_execute_command regs fuel code arg) any.
Proof. unfold sd_execute_command. run_steps. Qed.

#[local] Hint Resolve runs_sd_execute_command : runs.

Lemma runs_address_block code lba c : ends (address_block regs fuel code lba c) any.
Proof. unfold address_block. run_steps. Qed.

Lemma runs_start_transfer single multi lba num : ends (start_transfer regs fuel single multi lba num) any.
Proof. unfold start_transfer. run_steps. Qed.

#[local] Hint Resolve runs_address_block runs_start_transfer : runs.

(** *** Buffers *)

(** [buffer'] has the bytes of [buffer], except perhaps the first [k] ones. *)
Definition filled_to (k : Z) (buffer buffer' : list Z) : Prop :=
  length buffer' = length buffer /\ (Forall is_byte buffer -> Forall is_byte buffer') /\
  drop (Z.to_nat k) buffer' = drop (Z.to_nat k) buffer.

Lemma filled_to_refl k b : filled_to k b b.
Proof. done. Qed.

Lemma filled_to_trans k b1 b2 b3 : filled_to k b1 b2 -> filled_to k b2 b3 -> filled_to k b1 b3.
Proof. intros (H1 & H2 & H3) (H4 & H5 & H6). split; [congruence|]. split; [auto|congruence]. Qed.

Lemma filled_to_put32 k b i v : 0 <= i -> i + 4 <= k <= Z.of_nat (length b) ->
  exists b', put32 b i v = Some b' /\ filled_to k b b'.
Proof.
  intros Hi Hk. destruct (put32_lt b i v) as [b' Hb]; [lia..|]. exists b'. split; [done|].
  split; [by eapply put32_length|]. unfold put32 in Hb. destruct (Z.ltb_spec i 0); [done|].
  split; [by eapply put_le_bytes|]. apply list_eq. intros j. rewrite !lookup_drop.
  eapply put_le_lookup; [done|]. lia.
Qed.

Lemma runs_read_words n i k b : 0 <= i -> i + 4 * Z.of_nat n <= k <= Z.of_nat (length b) ->
  ends (read_words regs n i b) (filled_to k b).
Proof.
  revert i b. induction n as [|n IH]; intros i b Hi Hk; cbn [read_words]; [by apply runs_ret, filled_to_refl|].
  eapply runs_bind; [apply runs_read|]. intros v _. destruct (filled_to_put32 k b i v) as (b' & Hb & Hf); [lia..|].
  eapply runs_bind; [by eapply runs_defined|]. intros b2 E. rewrite Hb in E. injection E as ->.
  eapply runs_weaken; [apply IH; [lia|destruct Hf as [-> _]; lia]|]. intros b3 H3. by eapply filled_to_trans.
Qed.

Lemma runs_write_words n i b : 0 <= i -> i + 4 * Z.of_nat n <= Z.of_nat (length b) -> ends (write_words regs n i b) any.
Proof.
  revert i. induction n as [|n IH]; intros i Hi Hk; cbn [write_words]; [by apply runs_ret|].
  destruct (get32_lt b i) as [v Hv]; [lia..|]. eapply runs_bind; [by eapply runs_defined|]. intros v' _.
  eapply runs_bind; [apply runs_write|]. intros [] _. apply IH; lia.
Qed.

Lemma runs_read_blocks n lba c k b : 0 <= c -> 512 * (c + Z.of_nat n) <= k <= Z.of_nat (length b) ->
  ends (read_blocks regs fuel n lba c b) (fun r => filled_to k b r.2).
Proof.
  revert c b. induction n as [|n IH]; intros c b Hc Hk; cbn [read_blocks]; [by apply runs_ret|].
  eapply runs_bind; [apply runs_address_block|]. intros e _. apply runs_if; [by apply runs_ret|].
  eapply runs_bind; [apply runs_sd_int|]. intros r _. apply runs_if.
  { eapply runs_bind; [apply runs_message|]. intros [] _. eapply runs_bind; [apply runs_set_err|]. intros [] _. by apply runs_ret. }
  eapply runs_bind; [apply (runs_read_words _ _ k); lia|]. intros b' Hf.
  eapply runs_weaken; [apply IH; [lia|destruct Hf as [-> _]; lia]|]. intros r3 H3. by eapply filled_to_trans.
Qed.

Lemma runs_write_blocks n lba c b : 0 <= c -> 512 * (c + Z.of_nat n) <= Z.of_nat (length b) ->
  ends (write_blocks regs fuel n lba c b) any.
Proof.
  revert c. induction n as [|n IH]; intros c Hc Hk; cbn [write_blocks]; [by apply runs_ret|].
  eapply runs_bind; [apply runs_address_block|]. intros e _. apply runs_if; [by apply runs_ret|].
  eapply runs_bind; [apply runs_sd_int|]. intros r _. apply runs_if; [run_steps|].
  eapply runs_bind; [apply runs_write_words; lia|]. intros [] _. apply IH; lia.
Qed.

(** *** Transfers *)

(** A transfer of [num] blocks returns their size, and no error is recorded, or
    it returns zero. *)
Definition reported (num r : Z) s : Prop := r = 0 \/ (r = s32 (num * 512) /\ sd_err s = 0).

Lemma runs_end_transfer c num : runs (end_transfer regs fuel c num) (reported num).
Proof.
  unfold end_transfer. eapply runs_bind; [apply runs_scr|]. intros v _.
  eapply (runs_bind _ _ any); [run_steps|]. intros [] _. intros s Hs. unfold failed. wp_steps. split; [done|].
  destruct (Z.eqb_spec (sd_err s) SD_OK), (u32 c =? num); simpl; [right|by left..]. done.
Qed.

(** A transfer of zero blocks is one of one block. *)
Definition count num : Z := if num <? 1 then 1 else num.

Lemma runs_sd_readblock lba b num : 512 * count num <= Z.of_nat (length b) ->
  runs (sd_readblock regs fuel lba b num) (fun r s => reported (count num) r.1 s /\ filled_to (512 * count num) b r.2).
Proof.
  intros Hb. unfold sd_readblock. cbv zeta. fold (count num). set (n := count num) in *.
  assert (Hzero : forall b', filled_to (512 * n) b b' ->
    runs (mret (0, b') : SD (Z * list Z)) (fun r s => reported n r.1 s /\ filled_to (512 * n) b r.2)).
  { intros b' Hf s Hs. wp_step. split; [done|]. split; [by left|done]. }
  assert (Hn : 1 <= n) by (unfold n, count; destruct (Z.ltb_spec num 1); lia).
  eapply runs_bind; [apply runs_sd_status|]. intros busy _. apply runs_if.
  { eapply runs_bind; [apply runs_set_err|]. intros [] _. by apply Hzero. }
  eapply runs_bind; [apply runs_start_transfer|]. intros e _. apply runs_if; [by apply Hzero|].
  eapply runs_bind; [apply (runs_read_blocks _ _ _ (512 * n)); lia|]. intros [[c|] b'] Hf; [|by apply Hzero].
  intros s Hs. wp_step. eapply wp_mono; [by apply runs_end_transfer|]. intros r s' [Hs' Hr]. by wp_step.
Qed.

Lemma runs_sd_writeblock lba b num : 512 * count num <= Z.of_nat (length b) ->
  runs (sd_writeblock regs fuel b lba num) (reported (count num)).
Proof.
  intros Hb. unfold sd_writeblock. cbv zeta. fold (count num). set (n := count num) in *.
  assert (Hzero : runs (mret 0 : SD Z) (reported n)) by (intros s Hs; wp_step; split; [done|by left]).
  assert (Hn : 1 <= n) by (unfold n, count; destruct (Z.ltb_spec num 1); lia).
  eapply runs_bind; [apply runs_sd_status|]. intros busy _. apply runs_if.
  { eapply runs_bind; [apply runs_set_err|]. by intros [] _. }
  eapply runs_bind; [apply runs_start_transfer|]. intros e _. apply runs_if; [done|].
  eapply runs_bind; [apply runs_write_blocks; lia|]. intros [c|] _; [|done].
  eapply runs_bind; [apply runs_sd_int|]. intros r _. apply runs_if; [|apply runs_end_transfer].
  eapply (runs_bind _ _ any); [run_steps|]. intros [] _. eapply runs_bind; [apply runs_set_err|]. by intros [] _.
Qed.

(** *** The clock and the SCR register *)

Lemma runs_sd_set_clock f : f <> 0 -> ends (sd_set_clock regs fuel f) any.
Proof.
  intros Hf. unfold sd_set_clock. destruct (Z.eqb_spec f 0); [done|].
  eapply runs_bind; [by eapply runs_defined|]. intros c _.
  eapply runs_bind; [apply runs_poll; [run_steps|lia]|]. intros k _. apply runs_if; [run_steps|].
  do 7 (eapply (runs_bind _ _ any); [solve [eauto with runs]|intros ? _]).
  eapply runs_bind; [apply runs_poll; [run_steps|lia]|]. intros k' _. run_steps.
Qed.

(** When the controller never has data, [sd_init] waits for ever. *)
Lemma read_scr_loops n r s :
  (forall u, has (u32 (reg_read regs EMMC_STATUS u).1) SR_READ_AVAILABLE = false) -> r < 2 ->
  sd_ok s -> read_scr regs fuel n r s = OutOfFuel.
Proof.
  intros Hno Hr. revert s. induction n as [|n IH]; intros s Hs; cbn [read_scr]; destruct (Z.ltb_spec r 2); try lia; [done|].
  cbn [negb]. assert (Hb : wp (reg_has regs EMMC_STATUS SR_READ_AVAILABLE) (fun b s' => b = false /\ sd_ok s') s).
  { unfold reg_has. wp_step. apply wp_bus_read. wp_step. by rewrite Hno. }
  apply wp_inv in Hb as (b & s1 & Eb & -> & H1). pose proof (runs_wait 1 ltac:(lia) s1 H1) as Hw.
  apply wp_inv in Hw as ([] & s2 & Ew & H2 & _). unfold mbind, exec_bind. rewrite Eb, Ew. by apply IH.
Qed.
End Runs.

(** ** The divisor of the clock *)

(** [x] is [a] shifted left, and [s] counts the shifts: the highest bit of [a]
    is bit [s - 1] less those still to shift. *)
Definition shifted (a low : Z) (p : Z * Z) : Prop :=
  low <= Z.log2 p.1 < 32 /\ 0 < p.1 /\ Z.log2 p.1 + p.2 = Z.log2 a + 32.

Lemma normalise_shifted a low bits p :
  0 < bits -> low <= 32 - bits -> 0 <= low -> shifted a low p -> 
  shifted a (Z.min (32 - bits) (low + bits)) (normalise (Z.shiftl (Z.ones bits) (32 - bits)) bits p).
Proof.
  intros Hb Hlow H0 (Hl & Hp & Hs). destruct p as [x s]. unfold normalise. simpl in *.
  assert (Hx : 2 ^ Z.log2 x <= x < 2 ^ Z.succ (Z.log2 x)) by (by apply Z.log2_spec).
  destruct (Z.eqb_spec (Z.land x (Z.shiftl (Z.ones bits) (32 - bits))) 0) as [E|E]; unfold shifted; simpl.
  - assert (Hlt : Z.log2 x < 32 - bits).
    { apply Z.nle_gt. intros Hge. apply (f_equal (fun z => Z.testbit z (Z.log2 x))) in E.
      rewrite Z.land_spec, Z.shiftl_spec, Z.testbit_ones_nonneg, Z.bit_log2, Z.bits_0 in E by lia.
      destruct (Z.ltb_spec (Z.log2 x - (32 - bits)) bits); [done|lia]. }
    assert (Z.shiftl x bits < 2 ^ 32).
    { rewrite Z.shiftl_mul_pow2 by lia. replace 32 with (Z.succ (Z.log2 x) + (32 - Z.succ (Z.log2 x))) by lia.
      rewrite Z.pow_add_r by lia. assert (2 ^ bits <= 2 ^ (32 - Z.succ (Z.log2 x))) by (apply Z.pow_le_mono_r; lia). nia. }
    rewrite u32_id by (split; [apply Z.shiftl_nonneg; lia|done]). rewrite Z.log2_shiftl by lia.
    split; [lia|]. split; [|lia]. rewrite Z.shiftl_mul_pow2 by lia. assert (0 < 2 ^ bits) by (apply Z.pow_pos_nonneg; lia). nia.
  - assert (32 - bits <= Z.log2 x); [|lia]. apply Z.nlt_ge. intros Hlt. apply E, Z.bits_inj'. intros n Hn.
    rewrite Z.land_spec, Z.shiftl_spec, Z.bits_0 by lia. destruct (Z.ltb_spec (Z.log2 x) n).
    + by rewrite Z.bits_above_log2 by lia.
    + rewrite (Z.testbit_neg_r _ (n - (32 - bits))) by lia. apply andb_false_r.
Qed.

(** The search finds the highest bit. *)
Lemma clock_shift_log2 x : 0 < x < 2 ^ 32 -> clock_shift x = Z.min 7 (Z.log2 x).
Proof.
  intros Hx. unfold clock_shift. destruct (Z.eqb_spec x 0); [lia|].
  assert (H0 : shifted x 0 (x, 32)).
  { split; [|simpl; lia]. simpl. split; [apply Z.log2_nonneg|]. apply Z.log2_lt_pow2; lia. }
  apply (normalise_shifted _ _ 16) in H0; [|lia..]. apply (normalise_shifted _ _ 8) in H0; [|lia..].
  apply (normalise_shifted _ _ 4) in H0; [|lia..]. apply (normalise_shifted _ _ 2) in H0; [|lia..].
  apply (normalise_shifted _ _ 1) in H0; [|lia..].
  change (Z.shiftl (Z.ones 16) (32 - 16)) with 0xffff0000 in H0. change (Z.shiftl (Z.ones 8) (32 - 8)) with 0xff000000 in H0.
  change (Z.shiftl (Z.ones 4) (32 - 4)) with 0xf0000000 in H0. change (Z.shiftl (Z.ones 2) (32 - 2)) with 0xc0000000 in H0.
  change (Z.shiftl (Z.ones 1) (32 - 1)) with 0x80000000 in H0. destruct H0 as (Hl & _ & Hs).
  set (p := normalise 0x80000000 1 _) in *. assert (Es : p.2 = Z.log2 x + 1) by (simpl in Hl; lia). rewrite Es. cbv zeta.
  pose proof (Z.log2_nonneg x). destruct (Z.ltb_spec 0 (Z.log2 x + 1)); [|lia]. destruct (Z.ltb_spec 7 (Z.log2 x + 1 - 1)); lia.
Qed.

(** A host of version 2 divides by twice a power of two. *)
Lemma clock_divisor_v2 hv c : hv <= HOST_SPEC_V2 -> 2 <= c <= 2 ^ 32 ->
  clock_divisor hv c = 2 ^ 8 * 2 ^ Z.max 1 (Z.min 7 (Z.log2 (c - 1))).
Proof.
  intros Hv Hc. unfold clock_divisor. destruct (Z.ltb_spec HOST_SPEC_V2 hv); [lia|].
  rewrite (u32_id (c - 1)) by lia. rewrite clock_shift_log2 by lia. rewrite Z.lor_0_r.
  set (k := Z.min 7 (Z.log2 (c - 1))). assert (Hk : 0 <= k <= 7) by (pose proof (Z.log2_nonneg (c - 1)); unfold k; lia).
  clearbody k. assert (k = 0 \/ k = 1 \/ k = 2 \/ k = 3 \/ k = 4 \/ k = 5 \/ k = 6 \/ k = 7) as H8 by lia.
  by destruct H8 as [->|[->|[->|[->|[->|[->|[->| ->]]]]]]].
Qed.
