(* ===== verification/SdDemo.v ===== *)
(** * A controller for the SD card driver

    A controller that satisfies [Sdhc]: every event takes three polls, each
    read of the timer takes ten microseconds.  The card holds the volume of
    [FatVolume].  A second one, without a card, never answers. *)

From S2P Require Import Prelude Exec Kernel Devices FatTypes FatBytes FatCodec FatDemo FatLogic FatChain FatAlloc FatIO FatStream FatVolume Sd SdLogic.

(** ** A working controller *)

Record demo_sd : Type := mkDemo { demo_card : emmc; demo_time : Z; demo_delay : nat }.

Definition event_word (r : gset event) : Z :=
  foldr (fun e w => Z.lor (if bool_decide (e ∈ r) then event_bit e else 0) w) 0 [CommandDone; ReadReady; WriteReady; DataDone].

(** One poll: what is due is raised when nothing delays it. *)
Definition demo_poll (u : demo_sd) : demo_sd :=
  match (demo_delay u `min` 3)%nat with
  | O => mkDemo (happen (due (demo_card u)) (demo_card u)) (demo_time u) 0
  | S n => mkDemo (demo_card u) (demo_time u) n
  end.

Definition demo_sd_read (reg : Z) (u : demo_sd) : Z * demo_sd :=
  if reg =? SYS_TIMER_CLOCK then (demo_time u, mkDemo (demo_card u) (demo_time u + 10) (demo_delay u))
  else if reg =? EMMC_INTERRUPT then let u := demo_poll u in (event_word (raised (demo_card u)), u)
  else if reg =? EMMC_STATUS then
    let u := demo_poll u in
    (match data (demo_card u) with Idle => if decide (due (demo_card u) = ∅) then 0 else 3 | _ => 3 end, u)
  else if reg =? EMMC_DATA then
    match data (demo_card u) with
    | Sending (w :: ws) => (w, mkDemo (word_sent ws (demo_card u)) (demo_time u) 3)
    | _ => (0, u)
    end
  else (0, u).

Definition demo_sd_write (reg w : Z) (u : demo_sd) : demo_sd :=
  let become v := mkDemo v (demo_time u) 3 in
  let v := demo_card u in
  if reg =? EMMC_INTERRUPT then become (acknowledge w v)
  else if reg =? EMMC_BLKSIZECNT then become (set_size_count w v)
  else if reg =? EMMC_ARG1 then become (set_argument w v)
  else if reg =? EMMC_CMDTM then
    if w =? CMD_READ_SINGLE then become (read_issued v)
    else if w =? CMD_WRITE_SINGLE then become (write_issued v) else u
  else if reg =? EMMC_DATA then
    match data v with Receiving lba ws => become (word_received lba (ws ++ [w]) v) | _ => u end
  else u.

Definition demo_sd_registers : Registers demo_sd := mkRegisters demo_sd_read demo_sd_write.

Lemma event_word_shows r : shows (u32 (event_word r)) r.
Proof.
  assert (H : forall a b c d : bool,
    let w := u32 (Z.lor (if a then 1 else 0) (Z.lor (if b then 32 else 0) (Z.lor (if c then 16 else 0)
      (Z.lor (if d then 2 else 0) 0)))) in
    has w 1 = a /\ has w 32 = b /\ has w 16 = c /\ has w 2 = d /\ has w INT_ERROR_MASK = false /\ has w INT_CMD_TIMEOUT = false)
    by by intros [] [] [] [].
  specialize (H (bool_decide (CommandDone ∈ r)) (bool_decide (ReadReady ∈ r)) (bool_decide (WriteReady ∈ r))
    (bool_decide (DataDone ∈ r))).
  assert (E : event_word r = Z.lor (if bool_decide (CommandDone ∈ r) then 1 else 0)
    (Z.lor (if bool_decide (ReadReady ∈ r) then 32 else 0) (Z.lor (if bool_decide (WriteReady ∈ r) then 16 else 0)
      (Z.lor (if bool_decide (DataDone ∈ r) then 2 else 0) 0)))) by done.
  rewrite <- E in H. destruct H as (H1 & H2 & H3 & H4 & H5 & H6). by split; [intros []|].
Qed.

Lemma demo_poll_elapses u :
  elapses (demo_card u) (demo_card (demo_poll u)) /\
  (demo_delay (demo_poll u) `min` 3 <= pred (demo_delay u `min` 3))%nat /\
  ((demo_delay u `min` 3 = 0)%nat -> due (demo_card (demo_poll u)) = ∅).
Proof.
  unfold demo_poll. destruct (demo_delay u `min` 3)%nat eqn:E; simpl.
  - split; [by exists (due (demo_card u))|]. split; [lia|]. intros _. set_solver.
  - split; [apply elapses_refl|]. split; [lia|done].
Qed.

#[export] Instance demo_timer : Timer demo_sd_registers.
Proof. refine {| clock := demo_time; grain := 1; grain_pos := eq_refl |}. intros u. simpl. rewrite Z.div_1_r. lia. Defined.

#[export] Instance demo_sdhc : Sdhc demo_sd_registers.
Proof.
  refine {| card := demo_card; delayed u := (demo_delay u `min` 3)%nat; latency := 3 |}.
  - lia.
  - intros u. lia.
  - intros u. split; [apply elapses_refl|done].
  - intros u. destruct (demo_poll_elapses u) as (H1 & H2 & H3). repeat (split; [done|]). apply event_word_shows.
  - intros u. destruct (demo_poll_elapses u) as (H1 & H2 & H3). simpl. repeat (split; [done|]).
    destruct (data (demo_card (demo_poll u))); [case_decide|..]; by split.
  - intros u. apply elapses_refl.
  - intros u w ws Hd _. simpl in *. cbv zeta. unfold demo_sd_read. simpl. rewrite Hd. split; [done|]. apply elapses_refl.
  - intros u w lba ws Hd Hl _. simpl in *. unfold demo_sd_write. simpl. by rewrite Hd.
  - done.
  - done.
  - done.
  - done.
  - done.
Defined.

(** ** The volume of [FatVolume] on the card *)

(** The words of a sector. *)
Definition words_of (l : list Z) : list Z := (fun i => default 0 (get32 l (4 * i))) <$> seqZ 0 128.

Lemma words_of_length l : length (words_of l) = 128%nat.
Proof. unfold words_of. by rewrite length_fmap, length_seqZ. Qed.

Definition card_blocks : Z -> list Z := fun x => words_of (sector_of small_disk x).

Definition card_state : emmc := mkEmmc card_blocks ∅ ∅ 0 0 Idle.

(** The driver after [sd_init]: the card is of high capacity. *)
Definition card_driver : sd_state demo_sd := mkSd [SCR_SUPP_CCS; 0] 0 0xaaaa0000 0 2 (mkDemo card_state 4294967290 3).

Lemma card_working : sd_working demo_sd_registers card_driver.
Proof. constructor; [exists ∅; constructor; set_solver|intros x; apply words_of_length|by exists SCR_SUPP_CCS]. Qed.

Lemma sector_words (x : Z) : bytes_of (card_blocks x) = sector_of small_disk x.
Proof.
  unfold card_blocks. assert (H : x ∈ [1; 32; 40] \/ sector_of small_disk x = empty_sector).
  { destruct (decide (x ∈ [1; 32; 40])) as [|Hx]; [by left|right]. rewrite !not_elem_of_cons in Hx.
    destruct Hx as (? & ? & ? & _). unfold sector_of, small_disk. by rewrite !lookup_insert_ne, lookup_singleton_ne by done. }
  destruct H as [H| ->]; [|vm_compute; reflexivity].
  rewrite !elem_of_cons, elem_of_nil in H. destruct H as [->|[->|[->|[]]]]; vm_compute; reflexivity.
Qed.

Definition sd_fuel : nat := Z.to_nat 1000000.
#[global] Arguments sd_fuel : simpl never.

Lemma sd_fuel_enough : Is_true (1000 * grain demo_sd_registers (Timer := sdhc_timer (Sdhc := demo_sdhc)) <=? Z.of_nat sd_fuel).
Proof. unfold sd_fuel. rewrite Z2Nat.id by lia. done. Qed.

#[export] Instance card_reliable : Reliable (sd_disk_operations demo_sd_registers sd_fuel) (sd_sectors demo_sd_registers) :=
  sd_reliable demo_sd_registers sd_fuel sd_fuel_enough.

Lemma card_sectors x : sd_sectors demo_sd_registers card_driver x = sector_of small_disk x.
Proof. apply sector_words. Qed.

Definition card_ops : DiskOps (sd_state demo_sd) := sd_disk_operations demo_sd_registers sd_fuel.

(** ** A controller that never answers, with a timer and a UART *)

Definition dead_registers : Registers Z := mkRegisters
  (fun reg t => if reg =? SYS_TIMER_CLOCK then (t, t + 1000) else if reg =? UART0_FR then (16, t) else (0, t))
  (fun _ _ t => t).

#[export] Instance dead_timer : Timer dead_registers.
Proof. refine {| clock := id; grain := 1; grain_pos := eq_refl |}. intros t. simpl. rewrite Z.div_1_r. unfold id. lia. Defined.

#[export] Instance dead_uart : Pl011 dead_registers.
Proof. by refine {| received _ := []; busy _ := 0%nat; busy_limit := 0%nat |}. Defined.
