(* ===== verification/DeviceTheorems.v ===== *)
(** * The devices: properties *)

From S2P Require Import Prelude Exec Kernel Devices FatTypes FatBytes FatTable FatFile FatLogic FatChain FatAlloc FatIO FatStream FatCodec FatDemo FatVolume FatTheorems Sd SdLogic SdRuns SdDemo.
Open Scope fat_scope.

(** ** The SD card *)

(** C34: over a controller with a high-capacity card in it, however
    long its events take, the driver is a block device.  A read returns the
    block and changes none; a write replaces the block and no other; neither
    reports an error, and the driver is ready for the next transfer. *)
Theorem sd_card_is_block_device {U : Type} (regs : Registers U) (controller : Sdhc regs) (fuel : nat) (s : sd_state U)
    (buffer : list Z) (sector : Z) :
  1000 * grain regs <= Z.of_nat fuel -> sd_working regs s -> block buffer -> 0 <= sector < 2 ^ 32 ->
  wp (sd_read_adapter regs fuel buffer sector) (fun r s' =>
    r = (true, sd_sectors regs s sector) /\ sd_working regs s' /\ forall x, sd_sectors regs s' x = sd_sectors regs s x) s /\
  wp (sd_write_adapter regs fuel buffer sector) (fun r s' =>
    r = true /\ sd_working regs s' /\
    forall x, sd_sectors regs s' x = if decide (x = sector) then buffer else sd_sectors regs s x) s.
Proof.
  intros Hf Hw Hb Hs. split.
  - unfold sd_read_adapter. wp_step. apply (wp_sd_readblock regs fuel Hf s sector buffer); [done..|].
    intros s' Hw' Hx. by wp_step.
  - unfold sd_write_adapter. wp_step. apply (wp_sd_writeblock regs fuel Hf s sector buffer); [done..|].
    intros s' Hw' Hx. by wp_step.
Qed.

Lemma sd_card_is_block_device_witness :
  wp (sd_read_adapter demo_sd_registers sd_fuel empty_sector 32) (fun r _ => r = (true, small_table)) card_driver.
Proof.
  destruct (sd_card_is_block_device demo_sd_registers demo_sdhc sd_fuel card_driver empty_sector 32) as [H _];
    [unfold sd_fuel; simpl; lia|exact card_working|exact empty_block|lia|].
  eapply wp_mono; [exact H|]. intros r s' [-> _]. unfold sd_sectors. simpl blocks. rewrite sector_words. reflexivity.
Defined.

(** C35: whatever the controller does, a transfer ends.  A read
    stores bytes in the buffer, none of them past the blocks asked for; both
    transfers return the number of bytes with no error recorded, or zero. *)
Theorem sd_transfers_end {U : Type} (regs : Registers U) (timer : Timer regs) (uart : Pl011 regs) (fuel : nat)
    (s : sd_state U) (lba num : Z) (buffer : list Z) :
  1000000 * grain regs <= Z.of_nat fuel -> (busy_limit < fuel)%nat -> length (sd_scr s) = 2%nat ->
  512 * count num <= Z.of_nat (length buffer) ->
  wp (sd_readblock regs fuel lba buffer num) (fun r s' =>
    (r.1 = 0 \/ r.1 = s32 (count num * 512) /\ sd_err s' = 0) /\ filled_to (512 * count num) buffer r.2) s /\
  wp (sd_writeblock regs fuel buffer lba num) (fun r s' => r = 0 \/ r = s32 (count num * 512) /\ sd_err s' = 0) s.
Proof.
  intros Hf Hu Hs Hb. split.
  - eapply wp_mono; [exact (runs_sd_readblock regs fuel Hf Hu lba buffer num Hb s Hs)|]. intros r s' [_ H]. exact H.
  - eapply wp_mono; [exact (runs_sd_writeblock regs fuel Hf Hu lba buffer num Hb s Hs)|]. intros r s' [_ H]. exact H.
Qed.

(** C36: the file system on the card.  When [fat_file_sync] has
    returned, every byte of the file is in a block of the card, and no change
    is left in the buffer of the volume. *)
Theorem file_reaches_card {U : Type} (regs : Registers U) (controller : Sdhc regs) (fuel : nat)
    (Hfuel : Is_true (1000 * grain regs <=? Z.of_nat fuel)) (s : fstate (sd_state U)) fat fs file f l :
  let ops := sd_disk_operations regs fuel in
  let sectors := sd_sectors regs in
  fats s !! fat = Some fs -> fat_files s !! file = Some f ->
  ready (Reliable0 := sd_reliable regs fuel Hfuel) ops sectors fs (disk s) ->
  file_at sectors fs (disk s) fat f l -> entry_at fs f l ->
  wp (fat_file_sync file) (fun r s' => r = Ok tt /\ exists fs',
    fats s' !! fat = Some fs' /\ dirty fs' = false /\ sd_working regs (disk s') /\
    forall p, 0 <= p < room fs l ->
      bytes_of (blocks (card (sd_bus (disk s'))) (file_sect fs l p)) !! Z.to_nat (p mod 512) =
      Some (file_byte sectors fs (disk s) f l p)) s.
Proof.
  intros ops sectors Hs Hf Hrd Hat Hent. apply (wp_at_file _ _ _ _ _ _ _ Hs Hf).
  eapply (wp_fat_file_sync ops sectors); [exact Hrd|done..|]. intros fs' d' [Hk Hrd' Hsy Hch Hb _].
  assert (Hw : sd_working regs d') by apply Hrd'. split; [done|]. exists fs'. split; [apply lookup_insert_eq|].
  split; [by apply (synced_buf _ _ _ _ Hsy)|]. split; [done|]. intros p Hp. rewrite <- Hb by done. apply list_lookup_lookup_total_lt.
  change (Z.to_nat (p mod 512) < length (bytes_of (blocks (card (sd_bus d')) (file_sect fs l p))))%nat.
  rewrite bytes_of_length, (sw_blocks _ _ Hw). pose proof (Z.mod_pos_bound p 512). lia.
Qed.

Lemma file_reaches_card_witness :
  wp (fat_file_sync 7) (fun r s' => r = Ok tt /\ exists fs', fats s' !! 100 = Some fs' /\ dirty fs' = false)
    (small_fstate card_ops card_driver).
Proof.
  eapply wp_mono.
  - exact (file_reaches_card demo_sd_registers demo_sdhc sd_fuel sd_fuel_enough (small_fstate card_ops card_driver) 100
      (small_volume card_ops) 7 small_file [3; 5; 4] eq_refl eq_refl
      (small_ready card_ops _ card_driver card_sectors card_working)
      (small_file_at card_ops _ card_driver card_sectors) (small_entry_at card_ops)).
  - intros r s' (-> & fs' & H1 & H2 & _). split; [reflexivity|]. exists fs'. split; [exact H1|exact H2].
Defined.

(** The driver when the card has not been initialised. *)
Definition unready : sd_state Z := mkSd [0; 0] 0 0 0 0 0.

Lemma sd_transfers_end_witness :
  wp (sd_readblock dead_registers sd_fuel 5 empty_sector 0) (fun r s' => r.1 = 0 \/ r.1 = 512 /\ sd_err s' = 0) unready.
Proof.
  destruct (sd_transfers_end dead_registers dead_timer dead_uart sd_fuel unready 5 0 empty_sector) as [H _];
    [unfold sd_fuel; simpl; lia|unfold sd_fuel, busy_limit; simpl; lia|reflexivity|vm_compute; discriminate|].
  eapply wp_mono; [exact H|]. intros r s' [Hr _]. exact Hr.
Defined.

(** [sd_init] waits for the SCR register in a loop whose counter
    is never decremented: when the controller does not offer the data, no
    number of iterations ends it. *)
Theorem sd_init_scr_never_ends {U : Type} (regs : Registers U) (timer : Timer regs) (uart : Pl011 regs) (fuel n : nat)
    (s : sd_state U) :
  1000000 * grain regs <= Z.of_nat fuel -> (busy_limit < fuel)%nat -> length (sd_scr s) = 2%nat ->
  (forall u, has (u32 (reg_read regs EMMC_STATUS u).1) SR_READ_AVAILABLE = false) ->
  read_scr regs fuel n 0 s = OutOfFuel.
Proof. intros Hf Hu Hs Hno. exact (read_scr_loops regs fuel Hf Hu n 0 s Hno eq_refl Hs). Qed.

Lemma sd_init_scr_never_ends_witness : read_scr dead_registers sd_fuel 1000 0 unready = OutOfFuel.
Proof.
  apply (sd_init_scr_never_ends dead_registers dead_timer dead_uart);
    [unfold sd_fuel; simpl; lia|unfold sd_fuel, busy_limit; simpl; lia|reflexivity|intros u; reflexivity].
Defined.

(** The clock of the card is the 41.67 MHz of the controller over
    twice the divisor.  For a host of version 2 the divisor is a power of two
    up to 128, found with a search for the highest bit; twice the divisor is at
    least [c], so the card is not clocked faster than asked, and the divisor
    alone is less than [c].  For a later host the ten bits of [c] are stored,
    the upper two below the lower eight. *)
Theorem clock_divisor_bounds (hv c : Z) :
  3 <= c ->
  (hv <= HOST_SPEC_V2 -> c <= 256 -> exists k, 1 <= k <= 7 /\ clock_divisor hv c = 2 ^ 8 * 2 ^ k /\ 2 ^ k < c <= 2 * 2 ^ k) /\
  (HOST_SPEC_V2 < hv -> c < 1024 -> clock_divisor hv c = 2 ^ 8 * (c mod 256) + 2 ^ 6 * (c / 256)).
Proof.
  intros Hc. split; intros Hv Hmax.
  - pose proof (Z.log2_spec (c - 1) ltac:(lia)) as Hl. set (k := Z.log2 (c - 1)) in *.
    assert (Hk : 1 <= k <= 7).
    { split; [apply (Z.log2_le_mono 2); lia|]. apply Z.lt_succ_r, Z.log2_lt_pow2; lia. }
    exists k. split; [done|]. rewrite clock_divisor_v2 by lia. fold k. rewrite Z.pow_succ_r in Hl by lia.
    replace (Z.max 1 (Z.min 7 k)) with k by lia. split; [done|lia].
  - unfold clock_divisor. destruct (Z.ltb_spec HOST_SPEC_V2 hv); [|lia]. destruct (Z.leb_spec c 2); [lia|].
    assert (Hall : forallb (fun c => Z.lor (Z.shiftl (Z.land c 255) 8) (Z.shiftr (Z.land c 768) 2) =? 2 ^ 8 * (c mod 256) + 2 ^ 6 * (c / 256))
      (seqZ 3 1021) = true) by (vm_compute; reflexivity).
    rewrite forallb_forall in Hall. apply Z.eqb_eq, Hall, list_elem_of_In, elem_of_seqZ. lia.
Qed.

Lemma clock_divisor_bounds_witness : clock_divisor 2 104 = 2 ^ 8 * 104.
Proof. rewrite (proj2 (clock_divisor_bounds 2 104 ltac:(lia)) ltac:(reflexivity) ltac:(reflexivity)). reflexivity. Defined.
