(* ===== verification/Mailbox.v ===== *)
(** * The mailbox, the start of the UART and the framebuffer

    [drivers/mbox/mbox.c], [uart_init] of [drivers/uart/uart.c] and
    [drivers/framebuffer/framebuffer.c]: messages to the GPU.

    The message is an array of volatile words that the GPU reads and writes:
    its words are registers as well, at the address [mbox] of the array.  The
    font and the framebuffer are memory. *)

From S2P Require Import Prelude Exec Kernel Devices Memory Mm.

Definition MMIO_BASE : Z := VA_START + 0x3F000000.

Definition MBOX_READ : Z := 0xB880.
Definition MBOX_STATUS : Z := 0xB898.
Definition MBOX_WRITE : Z := 0xB8A0.
Definition MBOX_REQUEST : Z := 0.
Definition MBOX_RESPONSE : Z := 0x80000000.
Definition MBOX_FULL : Z := 0x80000000.
Definition MBOX_EMPTY : Z := 0x40000000.
Definition MBOX_CH_PROP : Z := 8.

Definition MBOX_TAG_LAST : Z := 0.
Definition MBOX_TAG_SETCLKRATE : Z := 0x38002.
Definition MBOX_TAG_ALLOCFB : Z := 0x40001.
Definition MBOX_TAG_GETPITCH : Z := 0x40008.
Definition MBOX_TAG_SETPHYWH : Z := 0x48003.
Definition MBOX_TAG_SETVIRTWH : Z := 0x48004.
Definition MBOX_TAG_SETDEPTH : Z := 0x48005.
Definition MBOX_TAG_SETPIXLORDR : Z := 0x48006.
Definition MBOX_TAG_SETVIRTOFST : Z := 0x48009.

Section Mailbox.
Context {M U : Type} `{!Bus M U} (regs : Registers U) (fuel : nat) (mbox : Z).

(** The register of [mbox[i]]. *)
Definition mbox_word (i : Z) : Z := mbox + 4 * i - MMIO_BASE.

(** Stores [l] from word [i] on. *)
Fixpoint mbox_fill (i : Z) (l : list Z) : Exec M unit :=
  match l with
  | [] => mret tt
  | v :: l => mmio_write regs (mbox_word i) v;; mbox_fill (i + 1) l
  end.

(** [while ((mmio_read(MBOX_STATUS) & MBOX_EMPTY) || mmio_read(MBOX_READ) != r)] *)
Fixpoint mbox_wait (n : nat) (r : Z) : Exec M unit :=
  match n with
  | O => out_of_fuel
  | S n =>
    status ← mmio_read regs MBOX_STATUS;
    if has status MBOX_EMPTY then mbox_wait n r else
    v ← mmio_read regs MBOX_READ;
    if negb (v =? r) then mbox_wait n r else mret tt
  end.

(** What is sent: the physical address of the array, and the channel. *)
Definition mbox_request (channel : Z) : Z :=
  let physical_mbox := u64 (mbox - VA_START) in
  Z.lor (clear physical_mbox 0xF) (Z.land (u8 channel) 0xF).

Definition mbox_call (channel : Z) : Exec M bool :=
  let r := mbox_request channel in
  wait_clear regs fuel MBOX_STATUS MBOX_FULL;;
  mmio_write regs MBOX_WRITE r;;
  mbox_wait fuel r;;
  v ← mmio_read regs (mbox_word 1);
  mret (v =? MBOX_RESPONSE).

(** ** The UART *)

Definition GPPUDCLK0 : Z := 0x200098.
Definition GPPUD : Z := 0x200094.

(** [1 << n] for each [n] of [l]. *)
Definition bits (l : list Z) : Z := foldr (fun n v => Z.lor (Z.shiftl 1 n) v) 0 l.

(** [mmio_write( *GPPUD, v)]: the offset written to is the value of the
    register. *)
Definition write_through (reg v : Z) : Exec M unit :=
  offset ← mmio_read regs reg;
  mmio_write regs offset v.

Definition uart_init : Exec M unit :=
  mmio_write regs UART0_CR 0;;
  write_through GPPUD 0;;
  delay 150;;
  write_through GPPUDCLK0 (bits [14; 15]);;
  delay 150;;
  write_through GPPUDCLK0 0;;
  mmio_write regs UART0_ICR 0x7FF;;
  mbox_fill 0 [9 * 4; MBOX_REQUEST; MBOX_TAG_SETCLKRATE; 12; 8; 2; 30000000; 0; MBOX_TAG_LAST];;
  _ ← mbox_call MBOX_CH_PROP;
  mmio_write regs UART0_IBRD 1;;
  mmio_write regs UART0_FBRD 40;;
  mmio_write regs UART0_LCRH (bits [4; 5; 6]);;
  mmio_write regs UART0_IMSC (bits [1; 4; 5; 6; 7; 8; 9; 10]);;
  mmio_write regs UART0_CR (bits [0; 8; 9]).
End Mailbox.

(** ** The framebuffer *)

Definition WIDTH : Z := 1024.
Definition HEIGHT : Z := 768.
Definition DEPTH : Z := 32.

(** The globals of framebuffer.c, the memory of the font, of the strings and of
    the screen, and the devices. *)
Record screen (U : Type) : Type := mkScreen {
  framebuffer_address : Z;  (* void* *)
  width : Z;  (* uint32_t *)
  height : Z;
  pitch : Z;
  isrgb : Z;
  screen_ram : Z -> Z;
  screen_bus : U;
}.
Arguments mkScreen {U}.
Arguments framebuffer_address {U}.
Arguments width {U}.
Arguments height {U}.
Arguments pitch {U}.
Arguments isrgb {U}.
Arguments screen_ram {U}.
Arguments screen_bus {U}.

Section Screen.
Context {U : Type}.
Implicit Types (s : screen U).

Definition set_screen_ram v s :=
  mkScreen (framebuffer_address s) (width s) (height s) (pitch s) (isrgb s) v (screen_bus s).
Definition set_screen_bus (v : U) s :=
  mkScreen (framebuffer_address s) (width s) (height s) (pitch s) (isrgb s) (screen_ram s) v.
Definition set_mode address w h p rgb s : screen U := mkScreen address w h p rgb (screen_ram s) (screen_bus s).

#[export] Instance screen_bus_class : Bus (screen U) U := mkBus _ _ screen_bus set_screen_bus.

Context (regs : Registers U) (fuel : nat) (mbox font : Z).

Definition framebuffer_request : list Z :=
  [35 * 4; MBOX_REQUEST; MBOX_TAG_SETPHYWH; 8; 8; WIDTH; HEIGHT; MBOX_TAG_SETVIRTWH; 8; 8; WIDTH; HEIGHT;
   MBOX_TAG_SETVIRTOFST; 8; 8; 0; 0; MBOX_TAG_SETDEPTH; 4; 4; DEPTH; MBOX_TAG_SETPIXLORDR; 4; 4; 1;
   MBOX_TAG_ALLOCFB; 8; 8; 4096; 0; MBOX_TAG_GETPITCH; 4; 4; 0; MBOX_TAG_LAST].

Definition mbox_read (i : Z) : Exec (screen U) Z := mmio_read regs (mbox_word mbox i).

(** [a && b], which reads [b] only when [a] holds. *)
Definition and_then (a b : Exec (screen U) bool) : Exec (screen U) bool :=
  x ← a;
  if (x : bool) then b else mret false.

Definition framebuffer_init : Exec (screen U) bool :=
  mbox_fill regs mbox 0 framebuffer_request;;
  ok ← and_then (mbox_call regs fuel mbox MBOX_CH_PROP)
         (and_then (v ← mbox_read 20; mret (v =? DEPTH)) (v ← mbox_read 28; mret (negb (v =? 0))));
  if negb ok then mret ok else
  address ← mbox_read 28;
  w ← mbox_read 5;
  h ← mbox_read 6;
  p ← mbox_read 33;
  rgb ← mbox_read 24;
  modify (set_mode (Z.land address 0x3FFFFFFF) w h p rgb);;
  mret ok.

(** ** Text *)

(** The fields of the font. *)
Definition font_field (offset : Z) : Exec (screen U) Z := gets (fun s => read_le 4 (screen_ram s) (font + offset)).
Definition font_headersize := font_field 8.
Definition font_numglyph := font_field 16.
Definition font_bytesperglyph := font_field 20.
Definition font_height := font_field 24.
Definition font_width := font_field 28.

Definition load_byte (a : Z) : Exec (screen U) Z := gets (fun s => screen_ram s (u64 a)).

(** Stores a pixel. *)
Definition set_pixel (line v : Z) : Exec (screen U) unit :=
  modify (fun s => set_screen_ram (write_le 4 (u64 (framebuffer_address s + line)) v (screen_ram s)) s).

(** One row: [n] pixels from the one of [mask]. *)
Fixpoint draw_row (n : nat) (glyph mask line : Z) : Exec (screen U) unit :=
  match n with
  | O => mret tt
  | S n =>
    b ← load_byte glyph;
    set_pixel line (if has b mask then 0xFFFFFF else 0);;
    draw_row n glyph (Z.shiftr mask 1) (s32 (line + 4))
  end.

(** [n] rows of a character. *)
Fixpoint draw_rows (n : nat) (glyph bytesperline offs : Z) : Exec (screen U) unit :=
  match n with
  | O => mret tt
  | S n =>
    w ← font_width;
    draw_row (Z.to_nat w) glyph (s32 (Z.shiftl 1 (w - 1))) offs;;
    p ← gets pitch;
    draw_rows n (glyph + bytesperline) bytesperline (s32 (u32 offs + p))
  end.

Definition draw_character (x y c : Z) : Exec (screen U) unit :=
  headersize ← font_headersize;
  numglyph ← font_numglyph;
  bytesperglyph ← font_bytesperglyph;
  w ← font_width;
  h ← font_height;
  p ← gets pitch;
  let glyph := font + headersize + u32 ((if c <? numglyph then c else 0) * bytesperglyph) in
  let offs := s32 (u32 (u32 (y * p) + u32 (x * 4))) in
  draw_rows (Z.to_nat h) glyph (u32 (w + 7) / 8) offs.

Fixpoint framebuffer_print (n : nat) (x y str : Z) : Exec (screen U) unit :=
  match n with
  | O => out_of_fuel
  | S n =>
    c ← load_byte str;
    if c =? 0 then mret tt else
    if c =? 13 then framebuffer_print n 0 y (str + 1)
    else if c =? 10 then
      h ← font_height;
      framebuffer_print n 0 (s32 (y + h)) (str + 1)
    else
      draw_character x y c;;
      w ← font_width;
      framebuffer_print n (s32 (x + (w + 1))) y (str + 1)
  end.
End Screen.
