(* ===== verification/ScreenLogic.v ===== *)
(** * Drawing text

    The picture [framebuffer_print] makes, byte by byte: [picture] is the
    reference, and the loops of [drivers/framebuffer/framebuffer.c] compute it. *)

From S2P Require Import Prelude Exec Kernel Devices Memory Mm Cstring Mailbox.

(** ** The picture *)

(** Byte [o] of a pixel: white is 0xFFFFFF, black is 0. *)
Definition pixel_byte (white : bool) (o : Z) : Z := if white && (o <? 3) then 255 else 0.

(** A row of [w] pixels at [a]: the low [w] bits of [bits], the highest first. *)
Definition row_picture (bits w a : Z) (m : Z -> Z) (z : Z) : Z :=
  let d := z - a in
  if (0 <=? d) && (d <? 4 * w) then pixel_byte (Z.testbit bits (w - 1 - d / 4)) (d `mod` 4) else m z.

(** [n] rows, [p] bytes apart; row [j] has the bits [glyph j]. *)
Definition glyph_picture (glyph : Z -> Z) (n w p a : Z) (m : Z -> Z) (z : Z) : Z :=
  let d := z - a in
  if (0 <=? d) && (d / p <? n) && (d `mod` p <? 4 * w)
  then pixel_byte (Z.testbit (glyph (d / p)) (w - 1 - (d `mod` p) / 4)) ((d `mod` p) `mod` 4) else m z.

(** A text, a column of pixels between two characters; [glyph c j] has the bits
    of row [j] of the character [c]. *)
Definition picture (glyph : Z -> Z -> Z) (text : list Z) (n w p a : Z) (m : Z -> Z) (z : Z) : Z :=
  let d := z - a in
  let column := (d `mod` p) / (4 * (w + 1)) in
  let within := (d `mod` p) `mod` (4 * (w + 1)) in
  if (0 <=? d) && (d / p <? n) && (within <? 4 * w)
  then match text !! Z.to_nat column with
       | Some c => pixel_byte (Z.testbit (glyph c (d / p)) (w - 1 - within / 4)) (within `mod` 4)
       | None => m z
       end
  else m z.

Lemma pixel_word (white : bool) a m z : a <= z < a + 4 ->
  write_le 4 a (if white then 0xFFFFFF else 0) m z = pixel_byte white (z - a).
Proof.
  intros Hz. unfold write_le, pixel_byte. rewrite (proj2 (Z.leb_le _ _)), (proj2 (Z.ltb_lt z _)) by lia. cbn [andb].
  assert (H : z - a = 0 \/ z - a = 1 \/ z - a = 2 \/ z - a = 3) by lia.
  destruct white; destruct H as [-> | [-> | [-> | ->]]]; done.
Qed.

(** The first pixel of a row and the rest of it. *)
Lemma row_picture_cons b n a m m1 z : 0 <= n ->
  (forall y, m1 y = if (a <=? y) && (y <? a + 4) then pixel_byte (Z.testbit b n) (y - a) else m y) ->
  row_picture b n (a + 4) m1 z = row_picture b (n + 1) a m z.
Proof.
  intros Hn Hm. unfold row_picture. destruct (Z.leb_spec 0 (z - (a + 4))), (Z.ltb_spec (z - (a + 4)) (4 * n)); cbn [andb].
  - rewrite (proj2 (Z.leb_le 0 (z - a))), (proj2 (Z.ltb_lt (z - a) _)) by lia. cbn [andb].
    f_equal; [f_equal|]; Z.div_mod_to_equations; lia.
  - rewrite Hm. range_cases; try lia; done.
  - rewrite Hm. range_cases; cbn [andb]; try lia; try done.
    f_equal; [f_equal|]; Z.div_mod_to_equations; lia.
  - rewrite Hm. range_cases; try lia; done.
Qed.

(** The first row and the rest. *)
Lemma glyph_picture_cons glyph n w p a m m1 z : 0 <= n -> 0 <= w -> 4 * w <= p -> 0 < p ->
  (forall y, m1 y = row_picture (glyph 0) w a m y) ->
  glyph_picture (fun j => glyph (j + 1)) n w p (a + p) m1 z = glyph_picture glyph (n + 1) w p a m z.
Proof.
  intros Hn Hw Hp H0 Hm. unfold glyph_picture. rewrite Hm. unfold row_picture.
  assert (Ed : (z - (a + p)) / p = (z - a) / p - 1 /\ (z - (a + p)) `mod` p = (z - a) `mod` p).
  { replace (z - (a + p)) with (z - a + (-1) * p) by lia. rewrite Z.div_add, Z_mod_plus_full by lia. lia. }
  destruct Ed as [-> ->]. rewrite Z.sub_add. pose proof (Z.div_mod (z - a) p ltac:(lia)) as E.
  pose proof (Z.mod_pos_bound (z - a) p ltac:(lia)). set (q := (z - a) / p) in *. set (r := (z - a) `mod` p) in *.
  destruct (Z.leb_spec 0 (z - a)) as [Hd|Hd].
  - assert (0 <= q) by (apply Z.div_pos; lia). destruct (Z.eqb_spec q 0) as [Eq|Eq].
    + rewrite (proj2 (Z.leb_gt 0 (z - (a + p)))) by nia. rewrite Eq. cbn [andb].
      replace (z - a) with r by lia. range_cases; try lia; done.
    + rewrite (proj2 (Z.leb_le 0 (z - (a + p)))) by nia. cbn [andb].
      rewrite (proj2 (Z.ltb_ge (z - a) (4 * w))) by nia.
      assert ((q - 1 <? n) = (q <? n + 1)) as ->; [|done]. apply eq_true_iff_eq. rewrite !Z.ltb_lt. lia.
  - rewrite (proj2 (Z.leb_gt 0 (z - (a + p)))) by lia. done.
Qed.

Lemma glyph_picture_ext glyph glyph' n w p a m m' z :
  (forall j, glyph' j = glyph j) -> m' z = m z -> glyph_picture glyph' n w p a m' z = glyph_picture glyph n w p a m z.
Proof. intros Hg Hm. unfold glyph_picture. by rewrite Hg, Hm. Qed.

(** The first character and the rest. *)
Lemma picture_cons glyph c text n w p a m m1 z :
  0 <= w -> 4 * (w + 1) * (Z.of_nat (length text) + 1) <= p ->
  (forall y, m1 y = glyph_picture (glyph c) n w p a m y) ->
  picture glyph text n w p (a + 4 * (w + 1)) m1 z = picture glyph (c :: text) n w p a m z.
Proof.
  intros Hw Hp Hm. set (L := 4 * (w + 1)) in *. unfold picture. rewrite Hm. unfold glyph_picture. fold L.
  assert (0 < L <= p) by nia. pose proof (Z.div_mod (z - a) p ltac:(lia)) as E.
  pose proof (Z.mod_pos_bound (z - a) p ltac:(lia)). set (q := (z - a) / p) in *. set (o := (z - a) `mod` p) in *.
  destruct (decide (L <= o)) as [Ho|Ho].
  - assert (Ed : (z - (a + L)) / p = q /\ (z - (a + L)) `mod` p = o - L).
    { split; symmetry; [apply (Z.div_unique_pos _ _ _ (o - L))|apply (Z.mod_unique_pos _ _ q)]; lia. }
    destruct Ed as [-> ->]. assert ((0 <=? z - (a + L)) = (0 <=? z - a)) as ->.
    { apply eq_true_iff_eq. rewrite !Z.leb_le. split; intros; [lia|]. assert (0 <= q) by (apply Z.div_pos; lia). nia. }
    rewrite (proj2 (Z.ltb_ge o (4 * w))) by lia. rewrite andb_false_r.
    replace (o - L) with (o + (-1) * L) by lia. rewrite Z.div_add, Z_mod_plus_full by lia.
    assert (1 <= o / L) by (apply Z.div_le_lower_bound; lia).
    replace (Z.to_nat (o / L)) with (S (Z.to_nat (o / L + -1))) by lia. done.
  - assert (Ed : (z - (a + L)) `mod` p = o - L + p).
    { symmetry. apply (Z.mod_unique_pos _ _ (q - 1)); lia. }
    rewrite Ed. assert (text !! Z.to_nat ((o - L + p) / L) = None) as ->.
    { apply lookup_ge_None. assert (Z.of_nat (length text) <= (o - L + p) / L); [|lia].
      apply Z.div_le_lower_bound; [lia|]. nia. }
    rewrite (Z.div_small o L), (Z.mod_small o L) by lia. by destruct (_ && _ && (_ <? 4 * w)).
Qed.

Lemma glyph_picture_outside glyph n w p a m z : 0 < p -> z < a \/ a + n * p <= z -> glyph_picture glyph n w p a m z = m z.
Proof.
  intros Hp Hz. unfold glyph_picture. destruct (Z.leb_spec 0 (z - a)); [|done].
  rewrite (proj2 (Z.ltb_ge _ n)); [done|]. apply Z.div_le_lower_bound; lia.
Qed.

Lemma row_picture_outside b w a m z : z < a \/ a + 4 * w <= z -> row_picture b w a m z = m z.
Proof. intros Hz. unfold row_picture. range_cases; try done; lia. Qed.

Lemma picture_ext glyph glyph' text n w p a m z : 0 < p -> chars text ->
  (forall c j, 0 <= c -> 0 <= j < n -> glyph' c j = glyph c j) ->
  picture glyph' text n w p a m z = picture glyph text n w p a m z.
Proof.
  intros Hp Hc Hg. unfold picture. destruct (Z.leb_spec 0 (z - a)); [|done]. cbn [andb].
  destruct (Z.ltb_spec ((z - a) / p) n); [|done]. cbn [andb]. destruct (_ <? _); [|done].
  destruct (text !! _) as [c|] eqn:E; [|done]. rewrite Hg; [done| |split; [apply Z.div_pos|]; lia].
  unfold chars in Hc. rewrite Forall_forall in Hc. pose proof (Hc c ltac:(by eapply list_elem_of_lookup_2)). lia.
Qed.

(** ** The loops *)

Section Drawing.
Context {U : Type} (font fb p w h hs ng bpg : Z).
Implicit Types (s : screen U).

(** [s] has the font at [font], of [h] rows of [w] pixels, and the mode of the screen. *)
Record ready s : Prop := mkReady {
  ready_address : framebuffer_address s = fb;
  ready_pitch : pitch s = p;
  ready_headersize : read_le 4 (screen_ram s) (font + 8) = hs;
  ready_numglyph : read_le 4 (screen_ram s) (font + 16) = ng;
  ready_bytesperglyph : read_le 4 (screen_ram s) (font + 20) = bpg;
  ready_height : read_le 4 (screen_ram s) (font + 24) = h;
  ready_width : read_le 4 (screen_ram s) (font + 28) = w;
}.

(** The row [j] of the character [c]. *)
Definition glyph_row (m : Z -> Z) (c j : Z) : Z := m (font + hs + (if c <? ng then c else 0) * bpg + j).

(** The bytes from [a] to [a + n] are not drawn over when the screen is, from
    [line] on, for [rows] rows. *)
Definition away (a n line rows : Z) : Prop := a + n <= fb + line \/ fb + line + rows * p <= a.

Lemma draw_row_done n g line s :
  ready s -> 0 <= g < 2 ^ 64 -> 0 <= fb -> 0 <= line -> line + 4 * Z.of_nat n < 2 ^ 31 ->
  fb + line + 4 * Z.of_nat n < 2 ^ 64 -> g < fb + line \/ fb + line + 4 * Z.of_nat n <= g ->
  exists m, draw_row n g (Z.shiftl 1 (Z.of_nat n - 1)) line s = Done tt (set_screen_ram m s) /\
    forall z, m z = row_picture (screen_ram s g) (Z.of_nat n) (fb + line) (screen_ram s) z.
Proof.
  intros [Ha _ _ _ _ _ _] Hg Hfb. revert line s Ha.
  induction n as [|n IH]; intros line s Ha Hl Hm Hb Hout.
  - exists (screen_ram s). split; [by destruct s|]. intros z. by rewrite row_picture_outside by lia.
  - cbn [draw_row]. unfold load_byte, set_pixel, mbind, exec_bind, gets, modify. rewrite (u64_id g) by lia.
    replace (Z.of_nat (S n) - 1) with (Z.of_nat n) by lia. rewrite Ha. rewrite (u64_id (fb + line)), (s32_id (line + 4)) by lia.
    set (white := has _ _). set (m1 := write_le 4 _ _ _). replace (Z.shiftr (Z.shiftl 1 (Z.of_nat n)) 1) with (Z.shiftl 1 (Z.of_nat n - 1)).
    2: { rewrite <- (Z.opp_involutive 1), Z.shiftr_opp_r, Z.shiftl_shiftl by lia. f_equal. }
    destruct (IH (line + 4) (set_screen_ram m1 s)) as (m & E & Hm'); [done|lia|lia|lia|lia|].
    exists m. split; [rewrite E; by destruct s|]. intros z. rewrite Hm'. cbn [screen_ram set_screen_ram].
    assert (Hg1 : m1 g = screen_ram s g).
    { unfold m1, write_le. destruct (Z.leb_spec (fb + line) g), (Z.ltb_spec g (fb + line + Z.of_nat 4)); try done. lia. }
    rewrite Hg1. replace (fb + (line + 4)) with (fb + line + 4) by lia. rewrite Nat2Z.inj_succ, <- Z.add_1_r.
    apply row_picture_cons; [lia|]. intros y. destruct (Z.leb_spec (fb + line) y), (Z.ltb_spec y (fb + line + 4)); cbn [andb].
    + unfold m1. rewrite pixel_word by lia. f_equal. unfold white, has. by rewrite land_pow2_testbit, negb_involutive by lia.
    + unfold m1, write_le. rewrite (proj2 (Z.ltb_ge y _)) by lia. by rewrite andb_false_r.
    + unfold m1, write_le. by rewrite (proj2 (Z.leb_gt _ y)) by lia.
    + lia.
Qed.

Lemma ready_same s m : ready s -> (forall b, font <= b < font + 32 -> m b = screen_ram s b) -> ready (set_screen_ram m s).
Proof.
  intros [] E. constructor; cbn [framebuffer_address pitch screen_ram set_screen_ram]; [done|done|..];
    (etransitivity; [|eassumption]; apply read_le_ext; intros b Hb; apply E; lia).
Qed.

(** A row that is drawn leaves alone what is away from the rows. *)
Lemma away_row a k line n z : away a k line (Z.of_nat (S n)) -> 0 <= 4 * w <= p -> a <= z < a + k ->
  z < fb + line \/ fb + line + 4 * w <= z.
Proof. unfold away. intros. nia. Qed.

Lemma away_next a k line n : 0 < p -> away a k line (Z.of_nat (S n)) -> away a k (line + p) (Z.of_nat n).
Proof. unfold away. intros. nia. Qed.

Context (Hw : 0 < w <= 8) (Hp : 4 * w <= p) (Hfb : 0 <= fb).

Lemma draw_rows_done n g line s :
  ready s -> 0 <= g -> g + Z.of_nat n < 2 ^ 64 -> 0 <= line -> line + Z.of_nat n * p < 2 ^ 31 ->
  fb + line + Z.of_nat n * p < 2 ^ 64 -> away g (Z.of_nat n) line (Z.of_nat n) -> away font 32 line (Z.of_nat n) ->
  exists m, draw_rows font n g 1 line s = Done tt (set_screen_ram m s) /\
    forall z, m z = glyph_picture (fun j => screen_ram s (g + j)) (Z.of_nat n) w p (fb + line) (screen_ram s) z.
Proof using All.
  revert g line s. induction n as [|n IH]; intros g line s Hr Hg Hg2 Hl Hm Hb Hag Haf.
  - exists (screen_ram s). split; [by destruct s|]. intros z. by rewrite glyph_picture_outside by lia.
  - cbn [draw_rows]. unfold font_width, font_field. unfold mbind at 1, exec_bind at 1, gets at 1. rewrite (ready_width _ Hr).
    destruct (draw_row_done (Z.to_nat w) g line s) as (m1 & E1 & Hm1);
      [done|lia|done|lia|nia|nia|rewrite Z2Nat.id by lia; apply (away_row g (Z.of_nat (S n)) line n); [done|lia|lia]|].
    rewrite Z2Nat.id in E1, Hm1 by lia. rewrite s32_id by (rewrite Z.shiftl_1_l; split;
      [pose proof (Z.pow_pos_nonneg 2 (w - 1)); lia|apply Z.lt_le_trans with (2 ^ 8); [apply Z.pow_lt_mono_r|]; lia]).
    unfold mbind at 1, exec_bind at 1. rewrite E1. unfold mbind, exec_bind, gets. cbn [pitch set_screen_ram].
    rewrite (ready_pitch _ Hr), (u32_id line), s32_id by nia.
    assert (Hsame : forall b, b < fb + line \/ fb + line + 4 * w <= b -> m1 b = screen_ram s b).
    { intros b Hb'. rewrite Hm1. by apply row_picture_outside. }
    destruct (IH (g + 1) (line + p) (set_screen_ram m1 s)) as (m & E & Hm'); [|lia|lia|lia|nia|nia|..].
    + apply ready_same; [done|]. intros b Hb'. apply Hsame, (away_row font 32 line n); [done|lia|done].
    + unfold away in *. nia.
    + apply away_next; [lia|done].
    + exists m. split; [rewrite E; by destruct s|]. intros z. rewrite Hm', Nat2Z.inj_succ, <- Z.add_1_r.
      replace (fb + (line + p)) with (fb + line + p) by lia. cbn [screen_ram set_screen_ram].
      rewrite <- (glyph_picture_cons (fun j => screen_ram s (g + j)) (Z.of_nat n) w p (fb + line) (screen_ram s) m1) by
        (lia || (intros y; rewrite Hm1, Z.add_0_r; done)).
      unfold glyph_picture. destruct (Z.leb_spec 0 (z - (fb + line + p))) as [Hz|]; [|done]; cbn [andb].
      destruct (Z.ltb_spec ((z - (fb + line + p)) / p) (Z.of_nat n)) as [Hq|]; [|done]; cbn [andb].
      pose proof (Z.div_pos (z - (fb + line + p)) p). replace (g + 1 + (z - (fb + line + p)) / p) with (g + ((z - (fb + line + p)) / p + 1)) by lia.
      rewrite Hsame; [done|]. apply (away_row g (Z.of_nat (S n)) line n); [done|lia|lia].
Qed.

(** ** Text *)

(** The font has [size] bytes; what is drawn is between [lo] and [hi], and
    neither the font nor the text is there. *)
Context (size lo hi : Z).
Context (Hh : 0 <= h) (Hhs : 32 <= hs) (Hng : 0 < ng) (Hbpg : h <= bpg) (Hsize : hs + ng * bpg <= size).
Context (Hfont : 0 <= font) (Hend : font + size < 2 ^ 32 + font < 2 ^ 64).

Definition outside (a n : Z) : Prop := a + n <= lo \/ hi <= a.

Context (Hout : outside font size).

Lemma header_fits : 32 <= size.
Proof using All. assert (0 <= ng * bpg) by nia. lia. Qed.

(** A row of a character is in the font. *)
Lemma glyph_fits c j : 0 <= j < h -> 0 <= hs + (if c <? ng then c else 0) * bpg + j < size \/ c < 0.
Proof using All.
  intros Hj. destruct (Z.ltb_spec c ng); [|left; nia]. destruct (decide (c < 0)); [by right|left].
  assert (c * bpg + bpg <= ng * bpg) by nia. nia.
Qed.

Lemma draw_character_done x y c s :
  let line := y * p + 4 * x in
  ready s -> 0 <= c -> 0 <= x -> 0 <= y -> line + h * p < 2 ^ 31 -> fb + line + h * p < 2 ^ 64 ->
  lo <= fb + line -> fb + line + h * p <= hi ->
  exists m, draw_character font x y c s = Done tt (set_screen_ram m s) /\
    forall z, m z = glyph_picture (glyph_row (screen_ram s) c) h w p (fb + line) (screen_ram s) z.
Proof using All.
  intros line Hr Hc Hx Hy Hm Hb Hlo Hhi. assert (El : line = y * p + 4 * x) by done. clearbody line. unfold draw_character, font_headersize, font_numglyph, font_bytesperglyph,
    font_width, font_height, font_field, mbind, exec_bind, gets.
  rewrite (ready_headersize _ Hr), (ready_numglyph _ Hr), (ready_bytesperglyph _ Hr), (ready_width _ Hr),
    (ready_height _ Hr), (ready_pitch _ Hr).
  set (k := if c <? ng then c else 0). assert (Hk : 0 <= k < ng) by (unfold k; destruct (Z.ltb_spec c ng); lia).
  assert (Hkb : k * bpg + bpg <= ng * bpg) by nia. unfold outside in Hout.
  rewrite (u32_id (k * bpg)) by nia. assert (Ew : u32 (w + 7) / 8 = 1).
  { rewrite u32_id by lia. symmetry. apply (Z.div_unique_pos _ _ _ (w - 1)); lia. }
  rewrite Ew. assert (0 <= y * p /\ 0 <= h * p) by nia. rewrite (u32_id (y * p)), (u32_id (x * 4)) by lia.
  rewrite (u32_id (y * p + x * 4)), s32_id by lia. replace (y * p + x * 4) with line by lia.
  destruct (draw_rows_done (Z.to_nat h) (font + hs + k * bpg) line s) as (m & E & Hm');
    [done|nia|rewrite Z2Nat.id by lia; nia|lia|rewrite Z2Nat.id by lia; lia|rewrite Z2Nat.id by lia; lia|
     rewrite Z2Nat.id by lia; unfold away; nia|rewrite Z2Nat.id by lia; unfold away; nia|].
  exists m. split; [exact E|]. intros z. rewrite Hm', Z2Nat.id by lia. done.
Qed.

(** Characters that are drawn. *)
Definition printable (text : list Z) : Prop := Forall (fun c => c <> 10 /\ c <> 13) text.

Lemma framebuffer_print_done n text x y str s :
  let line := y * p + 4 * x in
  ready s -> printable text -> string_at (screen_ram s) str text -> outside str (Z.of_nat (length text) + 1) ->
  (length text < n)%nat -> 0 <= x -> 0 <= y -> 4 * (w + 1) * Z.of_nat (length text) <= p ->
  line + h * p + 4 * (w + 1) * Z.of_nat (length text) < 2 ^ 31 -> hi < 2 ^ 64 ->
  lo <= fb + line -> fb + line + h * p + 4 * (w + 1) * Z.of_nat (length text) <= hi ->
  exists m, framebuffer_print font n x y str s = Done tt (set_screen_ram m s) /\
    forall z, m z = picture (glyph_row (screen_ram s)) text h w p (fb + line) (screen_ram s) z.
Proof using All.
  revert n x str s. induction text as [|c text IH]; intros n x str s line Hr Hpr (Hc & Hs & Hi1 & Hi2) Hos Hn Hx Hy Hlen Hm Hb Hlo Hhi.
  all: assert (El : line = y * p + 4 * x) by done; clearbody line.
  all: destruct n as [|n]; [simpl in Hn; lia|]; cbn [framebuffer_print]; unfold load_byte; unfold mbind at 1, exec_bind at 1, gets at 1.
  all: rewrite (u64_id str) by lia.
  - pose proof (Hs 0%nat 0 eq_refl) as E. rewrite Z.add_0_r in E. rewrite E. exists (screen_ram s).
    split; [by destruct s|]. intros z. unfold picture. rewrite lookup_nil. by destruct (_ && _).
  - pose proof (Hs 0%nat c eq_refl) as E. rewrite Z.add_0_r in E. rewrite E. apply Forall_cons in Hc as [Hc1 Hc].
    apply Forall_cons in Hpr as [[Hp1 Hp2] Hpr].
    simpl length in *. rewrite Nat2Z.inj_succ, Z.mul_succ_r in Hlen, Hm, Hhi.
    set (rest := 4 * (w + 1) * Z.of_nat (length text)) in *. assert (0 <= rest) by lia.
    rewrite (proj2 (Z.eqb_neq c 0)), (proj2 (Z.eqb_neq c 13)), (proj2 (Z.eqb_neq c 10)) by lia.
    assert (0 <= y * p /\ 0 <= h * p) by nia.
    destruct (draw_character_done x y c s) as (m1 & E1 & Hm1); [exact Hr|lia..|]. rewrite <- El in Hm1.
    unfold mbind at 1, exec_bind at 1. rewrite E1. unfold font_width, font_field, mbind, exec_bind, gets.
    assert (Hsame : forall b, b < lo \/ hi <= b -> m1 b = screen_ram s b).
    { intros b Hb'. rewrite Hm1. apply glyph_picture_outside; lia. }
    assert (Hr1 : ready (set_screen_ram m1 s)).
    { apply ready_same; [done|]. intros b Hb'. apply Hsame. pose proof header_fits. unfold outside in *. lia. }
    rewrite (ready_width _ Hr1), s32_id by lia.
    destruct (IH n (x + (w + 1)) (str + 1) (set_screen_ram m1 s)) as (m & E2 & Hm2); [exact Hr1|exact Hpr| |..].
    + split; [done|]. split; [|split; lia]. intros i d Hi. rewrite <- (Hs (S i) d Hi). cbn [screen_ram set_screen_ram].
      rewrite Hsame; [f_equal; lia|]. pose proof (lookup_lt_Some _ _ _ Hi) as Hl. rewrite length_app in Hl.
      unfold outside in Hos. simpl in Hl. lia.
    + unfold outside in *. lia.
    + lia.
    + lia.
    + lia.
    + lia.
    + lia.
    + lia.
    + lia.
    + lia.
    + exists m. split; [rewrite E2; by destruct s|]. intros z. rewrite Hm2. cbn [screen_ram set_screen_ram].
      replace (fb + (y * p + 4 * (x + (w + 1)))) with (fb + line + 4 * (w + 1)) by lia.
      rewrite (picture_ext (glyph_row (screen_ram s))); [|lia|done|].
      * apply picture_cons; [lia|lia|done].
      * intros d j Hd Hj. unfold glyph_row. apply Hsame. pose proof (glyph_fits d j Hj). unfold outside in Hout. lia.
Qed.
End Drawing.
