(* ===== verification/ScreenTheorems.v ===== *)
(** * Text on the screen *)

From S2P Require Import Prelude Exec Kernel Devices Memory Mm Cstring Mailbox ScreenLogic.

(** A font of [ng] characters of [h] rows of at most eight pixels, and a text to
    draw from [line] bytes after the start of the framebuffer on: it fits a line
    of the screen and the integers of the code, and neither the font nor the
    text is where it is drawn. *)
Record drawable (font fb p w h hs ng bpg str line : Z) (text : list Z) : Prop := mkDrawable {
  drawable_width : 0 < w <= 8;
  drawable_height : 0 <= h <= bpg;
  drawable_header : 32 <= hs;
  drawable_glyphs : 0 < ng;
  drawable_size : 0 <= font /\ hs + ng * bpg < 2 ^ 32 /\ 2 ^ 32 + font < 2 ^ 64;
  drawable_line : 4 * (w + 1) * Z.of_nat (length text) <= p /\ 4 * w <= p;
  drawable_int : line + h * p + 4 * (w + 1) * Z.of_nat (length text) < 2 ^ 31;
  drawable_pointer : 0 <= fb /\ fb + line + h * p + 4 * (w + 1) * Z.of_nat (length text) < 2 ^ 64;
  drawable_font : outside (fb + line) (fb + line + h * p + 4 * (w + 1) * Z.of_nat (length text)) font (hs + ng * bpg);
  drawable_text : outside (fb + line) (fb + line + h * p + 4 * (w + 1) * Z.of_nat (length text)) str (Z.of_nat (length text) + 1);
}.

(** C37: [framebuffer_print] draws the text: byte by byte, the memory afterwards
    is the reference picture, in which pixel [i] of row [j] of character [k] is
    white when bit [w - 1 - i] of row [j] of its glyph is set, the first glyph
    standing for characters the font lacks, and every byte that belongs to no
    pixel of the text is as it was. *)
Theorem framebuffer_print_picture {U : Type} (font fb p w h hs ng bpg : Z) (n : nat) (x y str : Z) (text : list Z)
    (s : screen U) :
  ready font fb p w h hs ng bpg s -> drawable font fb p w h hs ng bpg str (y * p + 4 * x) text ->
  string_at (screen_ram s) str text -> printable text -> (length text < n)%nat -> 0 <= x -> 0 <= y ->
  exists m, framebuffer_print font n x y str s = Done tt (set_screen_ram m s) /\
    forall z, m z = picture (glyph_row font hs ng bpg (screen_ram s)) text h w p (fb + (y * p + 4 * x)) (screen_ram s) z.
Proof.
  intros Hr [Hw [Hh Hb] Hhs Hng (Hf & Hsz & Hf2) [Hl Hp] Hi [Hfb Hend] Hof Hot] Hs Hpr Hn Hx Hy.
  eapply (framebuffer_print_done font fb p w h hs ng bpg); eauto; lia.
Qed.

(** A font of two characters of two rows, the text "\001" at 0x2000, and a screen
    at 0x10000 with lines of 64 bytes. *)
Definition demo_screen : screen unit :=
  mkScreen 0x10000 16 16 64 1
    (stored_bytes 0x1000 ([0; 0; 0; 0; 0; 0; 0; 0; 32; 0; 0; 0; 0; 0; 0; 0; 2; 0; 0; 0; 2; 0; 0; 0; 2; 0; 0; 0; 8; 0; 0; 0] ++
                          [0; 0; 0x80; 0x01]) (stored_bytes 0x2000 [1; 0] (fun _ => 0))) tt.

(** The first pixel of the first row and the last one of the second row are white. *)
Lemma framebuffer_print_picture_witness :
  exists m, framebuffer_print 0x1000 2 4 1 0x2000 demo_screen = Done tt (set_screen_ram m demo_screen) /\
    read_le 4 m (0x10000 + 64 + 16) = 0xFFFFFF /\ read_le 4 m (0x10000 + 128 + 16 + 28) = 0xFFFFFF /\
    read_le 4 m (0x10000 + 128 + 16) = 0.
Proof.
  destruct (framebuffer_print_picture 0x1000 0x10000 64 8 2 32 2 2 2 4 1 0x2000 [1] demo_screen) as (m & E & Hm).
  - by constructor.
  - constructor; simpl; unfold outside; lia.
  - split; [by repeat constructor|split; [|split; simpl; lia]].
    intros i c Hi. do 2 (destruct i as [|i]; [injection Hi as <-; reflexivity|]). by destruct i.
  - by repeat constructor.
  - simpl. lia.
  - lia.
  - lia.
  - exists m. split; [exact E|]. clear E.
    assert (R : forall a, read_le 4 m a = read_le 4 (picture (glyph_row 0x1000 32 2 2 (screen_ram demo_screen)) [1] 2 8 64
      (0x10000 + (1 * 64 + 4 * 4)) (screen_ram demo_screen)) a) by (intros a; apply read_le_ext; intros b _; apply Hm).
    rewrite !R. split; [|split]; vm_compute; reflexivity.
Defined.
