(* ===== verification/Machine.v ===== *)
(** * The machine: kernel, files and devices

    The state of the parts that sit between components: the kernel of
    [Kernel], the FAT32 library of [FatTypes] with the structures the system
    calls allocate for it, the input ring of [drivers/uart/uart.c] and the
    registers of the devices. *)

From S2P Require Import Prelude Exec Kernel Devices FatTypes.

(** ** The state *)

Definition RESOURCE_TYPE_FILE : Z := 0.
Definition RESOURCE_TYPE_FOLDER : Z := 1.

(** [FatResource]: [f] and [d] share their storage. *)
Record FatResource : Type := mkResource {
  resource_type : Z;
  f_or_d : option Z;
}.

Definition UART_BUFFER_SIZE : Z := 64.

Record machine (D U : Type) : Type := mkMachine {
  kern : kstate;
  storage : fstate D;
  resources : gmap Z FatResource;  (* the FatResource structures, by address *)
  uart_owner : option pcb_ptr;
  uart_buffer : list Z;  (* char uart_buffer[UART_BUFFER_SIZE] *)
  uart_head : Z;
  uart_tail : Z;
  curVal : Z;  (* the next value of the timer comparator *)
  devices : U;
}.

Arguments mkMachine {D U}.
Arguments kern {D U}.
Arguments storage {D U}.
Arguments resources {D U}.
Arguments uart_owner {D U}.
Arguments uart_buffer {D U}.
Arguments uart_head {D U}.
Arguments uart_tail {D U}.
Arguments curVal {D U}.
Arguments devices {D U}.

Section Updates.
Context {D U : Type}.
Implicit Types (m : machine D U).

Definition set_kern v m := mkMachine v (storage m) (resources m) (uart_owner m) (uart_buffer m)
  (uart_head m) (uart_tail m) (curVal m) (devices m).
Definition set_storage (v : fstate D) m := mkMachine (kern m) v (resources m) (uart_owner m) (uart_buffer m)
  (uart_head m) (uart_tail m) (curVal m) (devices m).
Definition set_resources v m := mkMachine (kern m) (storage m) v (uart_owner m) (uart_buffer m)
  (uart_head m) (uart_tail m) (curVal m) (devices m).
Definition set_uart_owner v m := mkMachine (kern m) (storage m) (resources m) v (uart_buffer m)
  (uart_head m) (uart_tail m) (curVal m) (devices m).
Definition set_uart_buffer v m := mkMachine (kern m) (storage m) (resources m) (uart_owner m) v
  (uart_head m) (uart_tail m) (curVal m) (devices m).
Definition set_uart_head v m := mkMachine (kern m) (storage m) (resources m) (uart_owner m) (uart_buffer m)
  v (uart_tail m) (curVal m) (devices m).
Definition set_uart_tail v m := mkMachine (kern m) (storage m) (resources m) (uart_owner m) (uart_buffer m)
  (uart_head m) v (curVal m) (devices m).
Definition set_curVal v m := mkMachine (kern m) (storage m) (resources m) (uart_owner m) (uart_buffer m)
  (uart_head m) (uart_tail m) v (devices m).
Definition set_devices (v : U) m := mkMachine (kern m) (storage m) (resources m) (uart_owner m) (uart_buffer m)
  (uart_head m) (uart_tail m) (curVal m) v.
End Updates.

Abbreviation M D U := (Exec (machine D U)).

(** ** Running a component *)

Section Components.
Context {D U : Type}.

#[export] Instance machine_kernel : Kernel (machine D U) := fun A m s =>
  match m (kern s) with
  | Done a k => Done a (set_kern k s)
  | Stuck => Stuck
  | OutOfFuel => OutOfFuel
  end.

(** A call of the FAT32 library and the error it returns. *)
Definition library {A} (m : FM D A) : M D U (result A) := fun s =>
  match m (storage s) with
  | Done r v => Done r (set_storage v s)
  | Stuck => Stuck
  | OutOfFuel => OutOfFuel
  end.

(** The [int] a library call returns. *)
Definition error_of {A} (r : result A) : Z := match r with Ok _ => FAT_ERR_NONE | Err e => e end.

#[export] Instance machine_bus : Bus (machine D U) U := mkBus _ _ devices set_devices.
#[export] Instance machine_bus_laws : BusLaws (machine D U) U.
Proof. constructor; try done. by intros []. Qed.
End Components.

(** ** Rules *)

Section Rules.
Context {D U : Type}.
Implicit Types (s : machine D U).

Lemma wp_call {A} (m : K A) (Q : A -> machine D U -> Prop) s :
  wp m (fun a k => Q a (set_kern k s)) (kern s) -> wp (call m) Q s.
Proof. unfold wp, call, machine_kernel. by destruct (m (kern s)). Qed.

Lemma wp_library {A} (m : FM D A) (Q : result A -> machine D U -> Prop) s :
  wp m (fun r v => Q r (set_storage v s)) (storage s) -> wp (library m) Q s.
Proof. unfold wp, library. by destruct (m (storage s)). Qed.

Lemma wp_mmio_read regs reg (Q : Z -> machine D U -> Prop) s :
  Q (u32 (reg_read regs reg (devices s)).1) (set_devices (reg_read regs reg (devices s)).2 s) ->
  wp (mmio_read regs reg) Q s.
Proof. intros HQ. by apply wp_bus_read. Qed.

Lemma wp_mmio_write regs reg data (Q : unit -> machine D U -> Prop) s :
  Q tt (set_devices (reg_write regs reg (u32 data) (devices s)) s) -> wp (mmio_write regs reg data) Q s.
Proof. done. Qed.
End Rules.
