(* ===== verification/Uart.v ===== *)
(** * The UART and the interrupts

    [drivers/uart/uart.c], [drivers/timer/timer.c] and the dispatch of
    [drivers/irq/controller.c]: printing, the ring of input characters and the
    two interrupts the kernel serves.  [fuel] bounds the iterations of a loop
    that waits for a device. *)

From Stdlib Require Import Strings.Ascii Strings.String.
From S2P Require Import Prelude Exec Kernel Devices Memory Queue Sched System Waking FatTypes Machine.

(** ** Registers *)


Definition TIMER_CS : Z := 0x3000.
Definition TIMER_C1 : Z := 0x3010.
Definition TIMER_CS_M1 : Z := 2.
Definition TIMER_PERIOD : Z := 10000.

Definition IRQ_PENDING_1 : Z := 0xB204.
Definition IRQ_PENDING_2 : Z := 0xB208.
Definition ENABLE_IRQS_1 : Z := 0xB210.
Definition ENABLE_IRQS_2 : Z := 0xB214.
Definition SYSTEM_TIMER_IRQ_1 : Z := 2.
Definition UART0_IRQ_BIT : Z := Z.shiftl 1 25.

Section Uart.
Context {D U : Type} (regs : Registers U) (fuel : nat).

(** [uart_puts] of a string in memory. *)
Fixpoint uart_puts (n : nat) (str : Z) : M D U unit :=
  match n with
  | O => out_of_fuel
  | S n =>
    c ← call (load8 str);
    if c =? 0 then mret tt else uart_putc regs fuel c;; uart_puts n (u64 (str + 1))
  end.

(** ** The receive interrupt *)

Definition uart_rx_fifo_not_empty : M D U bool :=
  v ← mmio_read regs UART0_FR;
  mret (negb (has v (Z.shiftl 1 4))).

(** A character enters the ring, unless the ring is full. *)
Definition buffer_char (c : Z) : M D U unit :=
  head ← gets uart_head;
  tail ← gets uart_tail;
  let next_head := Z.rem (head + 1) UART_BUFFER_SIZE in
  when (negb (next_head =? tail))
    (b ← gets uart_buffer;
     b ← defined (array_set b head c);
     modify (set_uart_buffer b);;
     modify (set_uart_head next_head)).

(** One iteration of the loop that wakes the readers. *)
Definition wake_reader (i : Z) : K unit := wake_if PROCESS_WAITING_UART_INPUT i.

Definition wake_readers : K unit :=
  n ← gets n_processes;
  for_loop (Z.to_nat n) 0 wake_reader.

(** One word of the data register: a character, or the errors of one. *)
Definition receive_word (dr : Z) : M D U unit :=
  let err := Z.land (Z.shiftr dr 8) 0xF in
  if negb (err =? 0) then
    puts regs fuel (literal "UART RX error ");;
    uart_hex regs fuel err;;
    puts regs fuel [13; 10]
  else
    buffer_char (Z.land dr 0xFF);;
    call wake_readers.

Fixpoint receive_words (n : nat) : M D U unit :=
  more ← uart_rx_fifo_not_empty;
  if negb more then mret tt else
  match n with
  | O => out_of_fuel
  | S n =>
    dr ← mmio_read regs UART0_DR;
    receive_word dr;;
    receive_words n
  end.

(** The loop of the receive timeout: the characters are echoed and lost. *)
Fixpoint echo_words (n : nat) : M D U unit :=
  more ← uart_rx_fifo_not_empty;
  if negb more then mret tt else
  match n with
  | O => out_of_fuel
  | S n =>
    dr ← mmio_read regs UART0_DR;
    uart_putc regs fuel (Z.land dr 0xFF);;
    puts regs fuel [10];;
    echo_words n
  end.

Definition handle_uart_irq : M D U unit :=
  mis ← mmio_read regs UART0_MIS;
  when (has mis (Z.shiftl 1 4))
    (receive_words fuel;;
     mmio_write regs UART0_ICR (Z.shiftl 1 4));;
  when (has mis (Z.shiftl 1 5))
    (imsc ← mmio_read regs UART0_IMSC;
     mmio_write regs UART0_IMSC (Z.land imsc (Z.lnot (Z.shiftl 1 5)));;
     mmio_write regs UART0_ICR (Z.shiftl 1 5));;
  when (has mis (Z.shiftl 1 6))
    (puts regs fuel (literal ": timeout" ++ [13; 10]);;
     echo_words fuel;;
     mmio_write regs UART0_ICR (Z.shiftl 1 6)).

(** ** The timer and the dispatch *)

Definition timer_init : M D U unit :=
  v ← call mmio_read_timer;
  modify (set_curVal (u32 (v + TIMER_PERIOD)));;
  c ← gets curVal;
  mmio_write regs TIMER_C1 c.

Definition handle_timer_irq : M D U unit :=
  mmio_write regs TIMER_CS TIMER_CS_M1;;
  c ← gets curVal;
  modify (set_curVal (u32 (c + TIMER_PERIOD)));;
  c ← gets curVal;
  mmio_write regs TIMER_C1 c;;
  call handle_timer_tick.

Definition enable_interrupt_controller : M D U unit :=
  v1 ← mmio_read regs ENABLE_IRQS_1;
  mmio_write regs ENABLE_IRQS_1 (Z.lor v1 SYSTEM_TIMER_IRQ_1);;
  v2 ← mmio_read regs ENABLE_IRQS_2;
  mmio_write regs ENABLE_IRQS_2 (Z.lor v2 UART0_IRQ_BIT).

Definition handle_irq : M D U unit :=
  p1 ← mmio_read regs IRQ_PENDING_1;
  p2 ← mmio_read regs IRQ_PENDING_2;
  if has p1 SYSTEM_TIMER_IRQ_1 then handle_timer_irq
  else if has p2 UART0_IRQ_BIT then handle_uart_irq
  else
    puts regs fuel (literal "Unknown pending irq: ");;
    uart_hex regs fuel (Z.lor (u64 (Z.shiftl p1 32)) p2);;
    puts regs fuel [13; 10].
End Uart.
