(* ===== verification/Filesystem.v ===== *)
(** * The file system of the kernel

    [libs/filesystem.c]: the volume on the SD card is mounted as "mnt", and a
    path of a process is looked up below it. *)

From S2P Require Import Prelude Exec Kernel Devices Memory Cstring Arrays FatTypes FatNames FatTable FatDir FatFile Sd Machine.

Definition FAT_MAX_PATH_SIZE : Z := 128.
Definition SD_FILESYSTEM_INIT_OK : Z := 0.
Definition SD_FILESYSTEM_INIT_ERROR : Z := 1.

(** [complete_path] is a local array of [FAT_MAX_PATH_SIZE] characters. *)
Definition path_fuel : nat := S (Z.to_nat FAT_MAX_PATH_SIZE).
#[global] Arguments path_fuel : simpl never.

Definition mnt_name : list Z := [109; 110; 116].  (* "mnt" *)
Definition mnt : list Z := [47; 109; 110; 116; 47].  (* "/mnt/" *)

Section Filesystem.
Context {D U : Type} (fuel : nat).

(** The first part of [create_dir], [open_dir] and [open_file]: the path below
    the volume, or [None] when it does not fit.  [stack] is what the local
    array holds. *)
Definition complete_path (stack : list Z) (path : Z) : K (option (list Z)) :=
  complete ← into_array stack (copy_loop (cell (mnt ++ [0])) set_cell path_fuel 0 0);
  n ← strlen_loop (cell complete) path_fuel 0 0;
  k ← strlen fuel path;
  if FAT_MAX_PATH_SIZE <=? u64 (n + k) then mret None else
  memory ← gets ram;
  complete ← into_array complete
    (pointer ← end_of get_cell path_fuel 0;
     copy_loop (fun a => mret (memory a)) set_cell path_fuel pointer path);
  mret (Some (c_text complete)).

(** Runs a library function on the completed path. *)
Definition on_path {A} (stack : list Z) (path : Z) (f : list Z -> FM D A) : M D U Z :=
  complete ← call (complete_path stack path);
  match complete with
  | None => mret (-1)
  | Some complete => r ← library (f complete); mret (error_of r)
  end.

Definition create_dir (stack : list Z) (dir_path created_dir : Z) : M D U Z :=
  on_path stack dir_path (fat_dir_create fuel (user_dir created_dir)).

Definition open_dir (stack : list Z) (dir_path dir : Z) : M D U Z :=
  on_path stack dir_path (fat_dir_open fuel (user_dir dir)).

Definition open_file (stack : list Z) (file_path flags file : Z) : M D U Z :=
  on_path stack file_path (fun path => fat_file_open fuel file path flags).

(** A call of the driver of the block device. *)
Definition block_device {A} (m : Exec D A) : M D U A := fun s =>
  match m (disk (storage s)) with
  | Done a d => Done a (set_storage (set_disk d (storage s)) s)
  | Stuck => Stuck
  | OutOfFuel => OutOfFuel
  end.
End Filesystem.

(** The volume on the SD card; [g_fat] is the address of the static structure,
    and [regs] are the registers of the card. *)
Definition sd_filesystem_init {V U : Type} (regs : Registers V) (fuel : nat) (g_fat : Z) : M (sd_state V) U Z :=
  sd_result ← block_device (sd_init regs fuel);
  if negb (sd_result =? SD_OK) then mret SD_FILESYSTEM_INIT_ERROR else
  probe_error ← library (fat_probe (sd_disk_operations regs fuel) 0);
  if negb (error_of probe_error =? 0) then mret SD_FILESYSTEM_INIT_ERROR else
  mount_error ← library (fat_mount (sd_disk_operations regs fuel) 0 g_fat mnt_name);
  if negb (error_of mount_error =? 0) then mret SD_FILESYSTEM_INIT_ERROR else
  mret SD_FILESYSTEM_INIT_OK.

(** ** The completed path *)

Section Paths.
Implicit Types (l t : list Z) (s : kstate).

Lemma mnt_chars : chars mnt.
Proof. unfold mnt. repeat (constructor; [lia|]). constructor. Qed.

(** The path fits with its prefix and its terminator, or the call is refused. *)
Lemma wp_complete_path fuel stack path text Q s :
  string_at (ram s) path text -> Z.of_nat (length text) < 2 ^ 63 -> (length text < fuel)%nat -> length stack = Z.to_nat FAT_MAX_PATH_SIZE ->
  Q (if decide (5 + Z.of_nat (length text) < FAT_MAX_PATH_SIZE) then Some (mnt ++ text) else None) s ->
  wp (complete_path fuel stack path) Q s.
Proof.
  intros Hs Hlen Hf Hk HQ. pose proof Hs as (Hc & Hb & [Hp Hp']). unfold FAT_MAX_PATH_SIZE in *. unfold complete_path.
  wp_step. eapply wp_into_array.
  { apply (wp_copy_array _ _ 0 0 mnt); [apply mnt_chars| |split; simpl; lia|unfold path_fuel, FAT_MAX_PATH_SIZE; simpl; lia| |].
    - intros i c t' Hi. by apply (cell_gives mnt []).
    - rewrite Hk. simpl. lia.
    - rewrite Hk. lia. }
  rewrite splice_start. set (rest := drop _ stack). wp_step.
  eapply wp_done.
  { apply (strlen_loop_gives _ _ 0 0 mnt); [apply mnt_chars|apply cell_gives|lia|lia|unfold path_fuel, FAT_MAX_PATH_SIZE; simpl; lia|simpl; lia]. }
  wp_step. eapply wp_mono; [by apply wp_strlen|]. intros ? ? [-> ->].
  rewrite u64_id by (simpl; lia). unfold FAT_MAX_PATH_SIZE.
  change (0 + Z.of_nat (length mnt)) with 5. case_decide as Hd.
  - destruct (Z.leb_spec 128 (5 + Z.of_nat (length text))); [lia|]. wp_step. wp_step. wp_step. eapply wp_into_array.
    { unfold mbind at 1, exec_bind at 1. rewrite (end_of_gives _ _ _ mnt);
        [|apply mnt_chars|apply get_cell_gives|lia|unfold path_fuel, FAT_MAX_PATH_SIZE; simpl; lia|simpl; lia].
      apply (wp_copy_array _ _ (length mnt) _ text); [done| |done|unfold path_fuel, FAT_MAX_PATH_SIZE; lia| |].
      - intros i c t' Hi. unfold mret, exec_ret. f_equal. by apply Hb.
      - rewrite length_app, length_cons. unfold rest. rewrite length_drop, Hk. simpl. lia.
      - rewrite length_app, length_cons. unfold rest. rewrite length_drop, Hk. simpl. lia. }
    unfold rest. rewrite splice_after by (rewrite Hk; simpl; lia). wp_step.
    rewrite c_text_string; [done|]. apply Forall_app. split; [apply mnt_chars|done].
  - destruct (Z.leb_spec 128 (5 + Z.of_nat (length text))); [|lia]. by wp_step.
Qed.
End Paths.
