(* ===== verification/Boot.v ===== *)
(** * The start of the kernel

    [kernel/kernel.c]: the parts are initialised in order, and the first kernel
    thread becomes the first user process.  The vector table and the mask of
    the interrupts are set by assembly; the mask is in [kstate].  [kernel_main]
    is the function up to its endless loop, in which the idle process spends
    its time. *)

From Stdlib Require Import Strings.String.
From S2P Require Import Prelude Exec Kernel Devices Memory Mailbox Sched Fork FatTypes Sd Machine Uart Filesystem.

Section Boot.
Context {V U : Type} (sd_regs : Registers V) (regs : Registers U) (fuel : nat).
(** The addresses the linker gives to [mbox], [g_fat], [ret_from_fork],
    [kernel_process], [init_process_main], [user_begin] and [user_end]. *)
Context (mbox g_fat ret_from_fork kernel_process_address init_process_main user_begin user_end : Z).

(** [uart_puts] of [m] and the end of the line. *)
Definition print {D} (m : string) : M D U unit := puts regs fuel (literal m ++ [10]).

Definition kernel_main : M (sd_state V) U unit :=
  uart_init regs fuel mbox;;
  print "demoOS v.0.0.1";;
  print "[DONE] irq vector init";;
  enable_interrupt_controller regs;;
  print "[DONE] enable interrupt controller";;
  call enable_irq;;
  print "[DONE] enable irq";;
  fs_ok ← sd_filesystem_init sd_regs fuel g_fat;
  (if fs_ok =? SD_FILESYSTEM_INIT_OK then print "[DONE] SD filesystem init success"
   else print "[ERROR] SD filesystem init error");;
  res ← call (copy_process ret_from_fork PF_KTHREAD kernel_process_address 0);
  when (res <? 0) (print "[ERROR] Cannot create kernel process.");;
  timer_init regs;;
  print "[DONE] timer init".

Definition kernel_process {D} : M D U unit :=
  print "[DEBUG] Kernel process started.";;
  let size := u64 (user_end - user_begin) in
  let pc := u64 (init_process_main - user_begin) in
  error ← call (move_to_user_mode user_begin size pc);
  when (error <? 0) (print "[ERROR] Cannot move process from kernel mode to user mode").
End Boot.
