(* ===== verification/Syscalls.v ===== *)
(** * System calls

    [libs/syscalls.c]: the calls of user programs, which compose the scheduler,
    process creation, messages, the page allocator, the FAT32 library and the
    UART, and their dispatch on the registers a process saved.

    The structures a call allocates with [allocate_kernel_page] are cells of
    [fat_files], [dirs] and [resources] at the address of the page, which is
    also cleared in [ram].  [others] lists what the other processes do each
    time this one has given the CPU away; [fuel] bounds strings, device waits
    and directory searches. *)

From S2P Require Import Prelude Exec Kernel Devices Memory Cstring Mm Queue Sched System Ipc Fork FatTypes FatFile Machine Uart Filesystem.

Definition SYSCALLS_NUMBER : Z := 21.
Definition SYSCALL_EXEC_ARGUMENT_DIMENSION : Z := 64.
Definition FAT_MAX_NAME_SIZE : Z := 64.

Definition SYSCALL_WRITE_NUMBER : Z := 0.
Definition SYSCALL_MALLOC_NUMBER : Z := 1.
Definition SYSCALL_EXIT_NUMBER : Z := 2.
Definition SYSCALL_CREATE_DIR_NUMBER : Z := 3.
Definition SYSCALL_OPEN_DIR_NUMBER : Z := 4.
Definition SYSCALL_OPEN_FILE_NUMBER : Z := 5.
Definition SYSCALL_CLOSE_FILE_NUMBER : Z := 6.
Definition SYSCALL_WRITE_FILE_NUMBER : Z := 7.
Definition SYSCALL_READ_FILE_NUMBER : Z := 8.
Definition SYSCALL_YIELD_NUMBER : Z := 9.
Definition SYSCALL_INPUT_NUMBER : Z := 10.
Definition SYSCALL_GET_NEXT_ENTRY_NUMBER : Z := 11.
Definition SYSCALL_FORK_NUMBER : Z := 12.
Definition SYSCALL_SEND_MESSAGE_NUMBER : Z := 13.
Definition SYSCALL_RECEIVE_MESSAGE_NUMBER : Z := 14.
Definition SYSCALL_SEND_SIGNAL_NUMBER : Z := 15.
Definition SYSCALL_EXEC_NUMBER : Z := 16.
Definition SYSCALL_WAIT_NUMBER : Z := 17.
Definition SYSCALL_WRITE_HEX_NUMBER : Z := 18.
Definition SYSCALL_GET_TIME_NUMBER : Z := 19.
Definition SYSCALL_SET_SCHED_PARAM_NUMBER : Z := 20.

(** ** Processes and memory *)

(** The loop of [search_process], from entry [i]. *)
Fixpoint search_from (n : nat) (i pid_ : Z) : K (option pcb_ptr) :=
  match n with
  | O => mret None
  | S n =>
    o ← read_array processes i;
    match o with
    | None => search_from n (i + 1) pid_
    | Some p => x ← deref p; if pid x =? pid_ then mret (Some p) else search_from n (i + 1) pid_
    end
  end.

Definition search_process (pid_ : Z) : K (option pcb_ptr) := search_from (Z.to_nat N_PROCESSES) 0 pid_.

Definition syscall_malloc : K Z :=
  address ← allocate_kernel_page;
  mret (if address =? 0 then u64 (-1) else address).

Definition syscall_send_signal (destination_pid signal_flag : Z) : K Z :=
  o ← search_process destination_pid;
  match o with None => mret (-1) | Some p => send_signal p signal_flag end.

Definition syscall_set_sched_param (pid_ param value : Z) : K Z :=
  o ← search_process pid_;
  match o with None => mret (-1) | Some p => sched_set_param (Some p) param value end.

Definition syscall_get_time : K Z := mmio_read_timer.

(** [((T* )address)->... = v] on a four-byte field. *)
Definition store32 (a v : Z) : K unit := modify (fun s => set_ram (write_le 4 a v (ram s)) s).
Definition store_bytes (a : Z) (l : list Z) : K unit := modify (fun s => set_ram (stored_bytes a l (ram s)) s).
Definition load_bytes (a : Z) (n : nat) : K (list Z) :=
  gets (fun s => (fun i => u8 (ram s (a + Z.of_nat i))) <$> seq 0 n).

Section Syscalls.
Context {D U : Type} (regs : Registers U) (ret_from_fork : Z) (fuel : nat).
Implicit Types (others : list (M D U unit)).

(** The process gives the CPU away; the result is what remains of [others]
    once it is switched in again. *)
Definition wait_turn others : M D U (list (M D U unit)) :=
  call schedule;;
  match others with
  | [] => out_of_fuel
  | resumed :: others => resumed;; mret others
  end.

Definition syscall_write (buffer : Z) : M D U unit := uart_puts regs fuel fuel buffer.
Definition syscall_write_hex (number : Z) : M D U unit := uart_hex regs fuel number.

Definition syscall_clone : M D U Z := call (copy_process ret_from_fork 0 0 0).
Definition syscall_fork : M D U Z := call (copy_process ret_from_fork 0 0 0).

(** The process never comes back from [exit_process]. *)
Definition syscall_exit : M D U unit := call exit_process.

Definition syscall_yield others : M D U unit :=
  call (current ← gets current_process; update current (set_counter 0));;
  _ ← wait_turn others;
  mret tt.

Definition syscall_wait others (pid_ : Z) : M D U Z :=
  o ← call (search_process pid_);
  match o with
  | None => mret (-1)
  | Some p =>
    x ← call (deref p);
    if state x =? PROCESS_ZOMBIE then mret 0 else
    call (current ← gets current_process;
          update current (set_state PROCESS_WAITING_ANOTHER_PROCESS);;
          update current (set_pid_to_wait pid_));;
    _ ← wait_turn others;
    mret 0
  end.

Definition syscall_send_message others (stack : list Z) (destination_pid body : Z) : M D U Z :=
  o ← call (search_process destination_pid);
  match o with
  | None => mret (-1)
  | Some p => current ← call (gets current_process); send_message current p body stack others
  end.

Definition syscall_receive_message others (stack : Message) (body : Z) : M D U unit :=
  current ← call (gets current_process);
  receive_message current body stack others.

(** ** Descriptors *)

(** The loop of [get_first_free_file_descriptor], from descriptor [i]. *)
Fixpoint free_descriptor (n : nat) (l : list (option Z)) (i : Z) : option Z :=
  match n with
  | O => Some (-1)
  | S n =>
    match array_get l i with
    | None => None
    | Some None => Some i
    | Some (Some _) => free_descriptor n l (i + 1)
    end
  end.

Definition get_first_free_file_descriptor (process : pcb_ptr) : K Z :=
  x ← deref process;
  defined (free_descriptor (Z.to_nat MAX_FILES_PER_PROCESS) (files x) 0).

(** [(T* )allocate_kernel_page()] for each type of structure. *)
Definition new_dir : M D U Z :=
  a ← call allocate_kernel_page;
  (if a =? 0 then mret tt else
   modify (fun s => set_storage (set_dirs (<[user_dir a := zero_Dir]> (dirs (storage s))) (storage s)) s));;
  mret a.

Definition new_file : M D U Z :=
  a ← call allocate_kernel_page;
  (if a =? 0 then mret tt else
   modify (fun s => set_storage (set_fat_files (<[a := zero_File]> (fat_files (storage s))) (storage s)) s));;
  mret a.

Definition free_dir (a : Z) : M D U unit :=
  _ ← call (free_page a);
  modify (fun s => set_storage (set_dirs (delete (user_dir a) (dirs (storage s))) (storage s)) s).

Definition free_file (a : Z) : M D U unit :=
  _ ← call (free_page a);
  modify (fun s => set_storage (set_fat_files (delete a (fat_files (storage s))) (storage s)) s).

(** [current_process->files[file_descriptor] = v] *)
Definition set_descriptor (file_descriptor : Z) (v : option Z) : K unit :=
  current ← gets current_process;
  x ← deref current;
  l ← defined (array_set (files x) file_descriptor v);
  update current (set_files l).

(** [current_process->files[file_descriptor]] *)
Definition get_descriptor (file_descriptor : Z) : K (option Z) :=
  x ← get_current;
  defined (array_get (files x) file_descriptor).

(** [*resource], [resource] being the address of a [FatResource]. *)
Definition get_resource (resource : option Z) : M D U FatResource :=
  a ← defined resource;
  m ← gets resources;
  defined (m !! a).

(** A new [FatResource] in the descriptor: without memory its fields are
    written through a null pointer. *)
Definition install (file_descriptor type : Z) (f : option Z) : M D U unit :=
  a ← call allocate_kernel_page;
  call (set_descriptor file_descriptor (if a =? 0 then None else Some a));;
  if a =? 0 then stuck else
  modify (fun s => set_resources (<[a := mkResource type f]> (resources s)) s).

(** A pointer a page address stands for. *)
Definition page_pointer (a : Z) : option Z := if a =? 0 then None else Some a.

Definition syscall_create_dir (stack : list Z) (dir_path : Z) : M D U Z :=
  file_descriptor ← call (current ← gets current_process; get_first_free_file_descriptor current);
  if file_descriptor =? -1 then mret (-1) else
  created_dir ← new_dir;
  error ← create_dir fuel stack dir_path created_dir;
  if negb (error =? 0) then free_dir created_dir;; mret error else
  install file_descriptor RESOURCE_TYPE_FOLDER (page_pointer created_dir);;
  mret file_descriptor.

Definition syscall_open_dir (stack : list Z) (dir_path : Z) : M D U Z :=
  file_descriptor ← call (current ← gets current_process; get_first_free_file_descriptor current);
  if file_descriptor =? -1 then mret (-1) else
  dir ← new_dir;
  error ← open_dir fuel stack dir_path dir;
  if negb (error =? 0) then free_dir dir;; mret (-1) else
  install file_descriptor RESOURCE_TYPE_FOLDER (page_pointer dir);;
  mret file_descriptor.

Definition syscall_open_file (stack : list Z) (file_path flags : Z) : M D U Z :=
  file_descriptor ← call (current ← gets current_process; get_first_free_file_descriptor current);
  if file_descriptor =? -1 then mret (-1) else
  file ← new_file;
  error ← open_file fuel stack file_path flags file;
  if negb (error =? 0) then free_file file;; mret (-1) else
  install file_descriptor RESOURCE_TYPE_FILE (page_pointer file);;
  mret file_descriptor.

(** The structure a closed descriptor gets is never released. *)
Definition syscall_close_file (file_descriptor : Z) : M D U Z :=
  if (file_descriptor <? 0) || (MAX_FILES_PER_PROCESS <=? file_descriptor) then mret (-1) else
  resource ← call (get_descriptor file_descriptor);
  r ← get_resource resource;
  file ← defined (f_or_d r);
  error ← library (fat_file_close file);
  if negb (error_of error =? 0) then mret (error_of error) else
  free_file file;;
  install file_descriptor 0 None;;
  mret 0.

(** The error of a library call and what it puts in [*bytes]. *)
Definition io_result {A} (r : result (Z * A)) (none : A) : Z * A :=
  match r with Ok v => v | Err e => (e, none) end.

(** A negative [len] is outside the model. *)
Definition syscall_write_file (file_descriptor buffer len bytes : Z) : M D U Z :=
  resource ← call (get_descriptor file_descriptor);
  match resource with
  | None => mret (-1)
  | Some _ =>
    r ← get_resource resource;
    file ← defined (f_or_d r);
    if len <? 0 then stuck else
    src ← call (load_bytes buffer (Z.to_nat len));
    r ← library (fat_file_write file src);
    let (error, n) := io_result r 0 in
    call (store32 bytes n);;
    mret error
  end.

(** [syscall_read_file], whose last argument may be a local variable: the error
    and [*bytes]. *)
Definition read_file (file_descriptor buffer len : Z) : M D U (Z * Z) :=
  resource ← call (get_descriptor file_descriptor);
  r ← get_resource resource;
  file ← defined (f_or_d r);
  _ ← library (fat_file_seek file 0 FAT_SEEK_START);
  r ← library (fat_file_read file len);
  let (error, data) := io_result r [] in
  call (store_bytes buffer data);;
  mret (error, Z.of_nat (length data)).

Definition syscall_read_file (file_descriptor buffer len bytes : Z) : M D U Z :=
  '(error, n) ← read_file file_descriptor buffer len;
  call (store32 bytes n);;
  mret error.

(** Fields of [FatEntryInfo]. *)
Definition entry_name (entry_info : Z) : Z := entry_info + 4.
Definition entry_is_dir (entry_info : Z) : Z := entry_info + 4 + FAT_MAX_NAME_SIZE.

(** The name is copied whole: a name longer than [FAT_MAX_NAME_SIZE] leaves
    the array of the structure. *)
Definition syscall_get_next_entry (file_descriptor entry_info : Z) : M D U Z :=
  resource ← call (get_descriptor file_descriptor);
  fat_resource ← get_resource resource;
  match f_or_d fat_resource with
  | None => mret (-1)
  | Some dir =>
    r ← library (fat_dir_read fuel (user_dir dir));
    match r with
    | Err _ => mret (-1)
    | Ok dir_info =>
      let name := take 255 (i_name dir_info) in
      if FAT_MAX_NAME_SIZE <? Z.of_nat (length name) then stuck else
      call (store_bytes (entry_name entry_info) name;;
            store8 (entry_is_dir entry_info) (if has (i_attr dir_info) FAT_ATTR_DIR then 1 else 0));;
      r ← library (fat_dir_next (user_dir dir));
      mret (if negb (error_of r =? 0) then -1 else 0)
    end
  end.
End Syscalls.

(** ** Reading a line *)

Section Input.
Context {D U : Type} (regs : Registers U) (fuel : nat).
Implicit Types (others : list (M D U unit)).

(** The loop that waits for the UART. *)
Fixpoint wait_for_uart (n : nat) others : M D U (list (M D U unit)) :=
  owner ← gets uart_owner;
  current ← call (gets current_process);
  if bool_decide (owner = None) || bool_decide (owner = Some current) then mret others else
  match n with
  | O => out_of_fuel
  | S n => others ← wait_turn others; wait_for_uart n others
  end.

(** The inner loop: takes characters off the ring.  The result is the length
    of the line and whether it is complete. *)
Fixpoint input_chars (n : nat) (buffer max_len current_len : Z) : M D U (Z * bool) :=
  head ← gets uart_head;
  tail ← gets uart_tail;
  if tail =? head then mret (current_len, false) else
  match n with
  | O => out_of_fuel
  | S n =>
    b ← gets uart_buffer;
    c ← defined (array_get b tail);
    modify (set_uart_tail (Z.rem (tail + 1) UART_BUFFER_SIZE));;
    uart_putc regs fuel c;;
    if (c =? 13) || (c =? 10) then
      modify (set_uart_owner None);;
      call (store8 (buffer + current_len) 0);;
      mret (current_len, true)
    else if c =? 0x7F then
      if 0 <? current_len then
        puts regs fuel [8; 32; 8];;
        call (store8 (buffer + (current_len - 1)) 0);;
        input_chars n buffer max_len (current_len - 1)
      else input_chars n buffer max_len current_len
    else
      if current_len <? max_len then
        call (store8 (buffer + current_len) c;;
              store8 (buffer + (current_len + 1)) 0);;
        input_chars n buffer max_len (current_len + 1)
      else input_chars n buffer max_len current_len
  end.

(** The outer loop: blocks whenever the ring is empty. *)
Fixpoint input_loop (n : nat) others (buffer max_len current_len : Z) : M D U Z :=
  '(current_len, finished) ← input_chars (Z.to_nat UART_BUFFER_SIZE) buffer max_len current_len;
  if (finished : bool) then mret current_len else
  match n with
  | O => out_of_fuel
  | S n =>
    call (current ← gets current_process;
          update current (set_state PROCESS_WAITING_UART_INPUT));;
    others ← wait_turn others;
    input_loop n others buffer max_len current_len
  end.

Definition syscall_input others (buffer len : Z) : M D U Z :=
  others ← wait_for_uart (length others) others;
  current ← call (gets current_process);
  modify (set_uart_owner (Some current));;
  let max_len := if 0 <? len then len - 1 else 0 in
  input_loop (S (length others)) others buffer max_len 0.
End Input.

(** ** Executing a program *)

(** [T safe_arguments[n_arguments][SYSCALL_EXEC_ARGUMENT_DIMENSION]], cleared.
    Without rows the eight bytes [memzero] clears are in the frame of the
    caller, which is not represented. *)
Definition argument_rows (n_arguments : Z) : list Z :=
  replicate (Z.to_nat (n_arguments * SYSCALL_EXEC_ARGUMENT_DIMENSION)) 0.

Definition argument_fuel (n_arguments : Z) : nat :=
  S (Z.to_nat (n_arguments * SYSCALL_EXEC_ARGUMENT_DIMENSION)).

(** The copy of the arguments, from argument [i]. *)
Fixpoint save_arguments (n : nat) (i : Z) (fuel : nat) (arguments : Z) (safe_arguments : list Z) : K (list Z) :=
  match n with
  | O => mret safe_arguments
  | S n =>
    let row := i * SYSCALL_EXEC_ARGUMENT_DIMENSION in
    memory ← gets ram;
    safe_arguments ← into_array safe_arguments
      (copy_loop (fun a => mret (memory a)) set_cell fuel row (u64 (arguments + row)));
    save_arguments n (i + 1) fuel arguments safe_arguments
  end.

(** One iteration of the loop that releases the memory of the old program. *)
Definition release_user_page (i : Z) : K unit :=
  current ← gets current_process;
  m ← get_mm current;
  page ← defined (array_get (user_pages m) i);
  _ ← free_page (u64 (physical_address page + VA_START));
  update_mm current (fun m =>
    mkMm (pgd m) (s32 (n_user_pages m - 1)) (<[Z.to_nat i := mkUserPage 0 0]> (user_pages m))
      (n_kernel_pages m) (kernel_pages m)).

(** The loop that writes the arguments on the new stack, from argument [i];
    returns the stack pointer. *)
Fixpoint push_arguments (n : nat) (i : Z) (fuel : nat) (trap_frame stack_pointer : Z) (safe_arguments : list Z) : K Z :=
  match n with
  | O => mret stack_pointer
  | S n =>
    let stack_pointer := u64 (stack_pointer - SYSCALL_EXEC_ARGUMENT_DIMENSION) in
    copy_loop (cell safe_arguments) store8 fuel stack_pointer (i * SYSCALL_EXEC_ARGUMENT_DIMENSION);;
    store64 (u64 (trap_frame + 8 * (i + 1))) stack_pointer;;
    push_arguments n (i + 1) fuel trap_frame stack_pointer safe_arguments
  end.

(** The part of [syscall_exec] after the program has been read. *)
Definition start_program (buffer read_bytes trap_frame n_arguments arguments : Z) : K Z :=
  if PAGE_SIZE * 15 <? read_bytes then mret (-1) else
  if n_arguments <? 0 then stuck else
  let fuel := argument_fuel n_arguments in
  safe_arguments ← save_arguments (Z.to_nat n_arguments) 0 fuel arguments (argument_rows n_arguments);
  current ← gets current_process;
  m ← get_mm current;
  for_loop (Z.to_nat (n_user_pages m)) 0 release_user_page;;
  copy_code current buffer (u64 read_bytes);;
  store64 trap_frame n_arguments;;
  stack_pointer ← push_arguments (Z.to_nat n_arguments) 0 fuel trap_frame (16 * PAGE_SIZE) safe_arguments;
  update current (fun x => set_ctx (set_sp_pc stack_pointer 0 (ctx x)) x);;
  store64 (u64 (trap_frame + 8 * 31)) stack_pointer;;
  store64 (u64 (trap_frame + 8 * 32)) 0;;
  mret 0.

(** ** The dispatcher *)

Section Dispatcher.
Context {D U : Type} (regs : Registers U) (ret_from_fork : Z) (fuel : nat).
Implicit Types (others : list (M D U unit)).

(** Sixteen pages are read into a buffer of one. *)
Definition syscall_exec (stack : list Z) (path trap_frame n_arguments arguments : Z) : M D U Z :=
  fd ← syscall_open_file fuel stack path FAT_READ;
  if fd =? -1 then mret (-1) else
  buffer ← call allocate_kernel_page;
  '(_, read_bytes) ← read_file fd buffer (PAGE_SIZE * 16);
  _ ← syscall_close_file fd;
  call (start_program buffer read_bytes trap_frame n_arguments arguments).

(** [registers[i]] *)
Definition register (registers i : Z) : M D U Z := call (load64 (u64 (registers + 8 * i))).

(** [registers[0] = v]: an [int] is extended with its sign. *)
Definition return_value (registers : Z) (m : M D U Z) : M D U unit :=
  v ← m;
  call (store64 registers (u64 v)).

(** [stack] and [message] are what the local array of paths and the local
    message of a call hold. *)
Definition syscall_dispatcher others (stack : list Z) (message : Message) (registers : Z) : M D U unit :=
  syscall_number ← register registers 8;
  if SYSCALLS_NUMBER <? syscall_number then mret tt else
  r0 ← register registers 0;
  r1 ← register registers 1;
  r2 ← register registers 2;
  r3 ← register registers 3;
  if syscall_number =? SYSCALL_WRITE_NUMBER then syscall_write regs fuel r0
  else if syscall_number =? SYSCALL_WRITE_HEX_NUMBER then syscall_write_hex regs fuel (s32 r0)
  else if syscall_number =? SYSCALL_MALLOC_NUMBER then return_value registers (call syscall_malloc)
  else if syscall_number =? SYSCALL_EXIT_NUMBER then syscall_exit
  else if syscall_number =? SYSCALL_CREATE_DIR_NUMBER then
    return_value registers (syscall_create_dir fuel stack r0)
  else if syscall_number =? SYSCALL_OPEN_DIR_NUMBER then
    return_value registers (syscall_open_dir fuel stack r0)
  else if syscall_number =? SYSCALL_OPEN_FILE_NUMBER then
    return_value registers (syscall_open_file fuel stack r0 (u8 r1))
  else if syscall_number =? SYSCALL_CLOSE_FILE_NUMBER then
    return_value registers (syscall_close_file (s32 r0))
  else if syscall_number =? SYSCALL_WRITE_FILE_NUMBER then
    return_value registers (syscall_write_file (s32 r0) r1 (s32 r2) r3)
  else if syscall_number =? SYSCALL_READ_FILE_NUMBER then
    return_value registers (syscall_read_file (s32 r0) r1 (s32 r2) r3)
  else if syscall_number =? SYSCALL_YIELD_NUMBER then syscall_yield others
  else if syscall_number =? SYSCALL_INPUT_NUMBER then
    return_value registers (syscall_input regs fuel others r0 (s32 r1))
  else if syscall_number =? SYSCALL_GET_NEXT_ENTRY_NUMBER then
    return_value registers (syscall_get_next_entry fuel (s32 r0) r1)
  else if syscall_number =? SYSCALL_FORK_NUMBER then
    return_value registers (syscall_fork ret_from_fork)
  else if syscall_number =? SYSCALL_SEND_MESSAGE_NUMBER then
    return_value registers (syscall_send_message others (body message) (s32 r0) r1)
  else if syscall_number =? SYSCALL_RECEIVE_MESSAGE_NUMBER then
    syscall_receive_message others message r0
  else if syscall_number =? SYSCALL_SEND_SIGNAL_NUMBER then
    return_value registers (call (syscall_send_signal (s32 r0) (s32 r1)))
  else if syscall_number =? SYSCALL_EXEC_NUMBER then
    _ ← syscall_exec stack r0 registers (s32 r1) r2;
    mret tt
  else if syscall_number =? SYSCALL_WAIT_NUMBER then
    return_value registers (syscall_wait others (s32 r0))
  else if syscall_number =? SYSCALL_GET_TIME_NUMBER then
    return_value registers (call syscall_get_time)
  else if syscall_number =? SYSCALL_SET_SCHED_PARAM_NUMBER then
    return_value registers (call (syscall_set_sched_param (s32 r0) (s32 r1) (s32 r2)))
  else mret tt.
End Dispatcher.
