(* ===== verification/Diagnostics.v ===== *)
(** * What the kernel prints about itself

    [show_invalid_entry_message] of [drivers/irq/controller.c], which the
    vectors of [drivers/irq/entry.S] call for an exception the kernel does not
    serve, and [print_circular_buffer] of [libs/ipc.c].  Both only print. *)

From Stdlib Require Import Strings.Ascii Strings.String.
From S2P Require Import Prelude Exec Kernel Devices Memory Queue Sched Ipc FatTypes Machine Uart.

(** The types of an entry, in the order of entry.h. *)
Definition SYNC_INVALID_EL1t : Z := 0.
Definition IRQ_INVALID_EL1t : Z := 1.
Definition FIQ_INVALID_EL1t : Z := 2.
Definition ERROR_INVALID_EL1t : Z := 3.
Definition SYNC_INVALID_EL1h : Z := 4.
Definition IRQ_INVALID_EL1h : Z := 5.
Definition FIQ_INVALID_EL1h : Z := 6.
Definition ERROR_INVALID_EL1h : Z := 7.
Definition SYNC_INVALID_EL0_64 : Z := 8.
Definition IRQ_INVALID_EL0_64 : Z := 9.
Definition FIQ_INVALID_EL0_64 : Z := 10.
Definition ERROR_INVALID_EL0_64 : Z := 11.
Definition SYNC_INVALID_EL0_32 : Z := 12.
Definition IRQ_INVALID_EL0_32 : Z := 13.
Definition FIQ_INVALID_EL0_32 : Z := 14.
Definition ERROR_INVALID_EL0_32 : Z := 15.
Definition DATA_ABORT_ERROR : Z := 15.
Definition SYNC_ERROR : Z := 16.
Definition SYSCALL_ERROR : Z := 17.

Definition entry_error_messages : list string :=
  ["SYNC_INVALID_EL1t"; "IRQ_INVALID_EL1t";
   "FIQ_INVALID_EL1t"; "ERROR_INVALID_EL1T";

   "SYNC_INVALID_EL1h"; "IRQ_INVALID_EL1h";
   "FIQ_INVALID_EL1h"; "ERROR_INVALID_EL1h";

   "SYNC_INVALID_EL0_64"; "IRQ_INVALID_EL0_64";
   "FIQ_INVALID_EL0_64"; "ERROR_INVALID_EL0_64";

   "SYNC_INVALID_EL0_32"; "IRQ_INVALID_EL0_32";
   "FIQ_INVALID_EL0_32"; "ERROR_INVALID_EL0_32"]%string.

Section Diagnostics.
Context {D U : Type} (regs : Registers U) (fuel : nat).

Definition show_invalid_entry_message (type esr address : Z) : M D U unit :=
  puts regs fuel (literal "[KERNEL PANIC] ");;
  message ← defined (array_get entry_error_messages type);
  puts regs fuel (literal message);;
  puts regs fuel (literal ", ESR: ");;
  uart_hex regs fuel esr;;
  puts regs fuel (literal ", address: ");;
  uart_hex regs fuel address;;
  puts regs fuel (literal ", process: ");;
  current ← call (gets current_process);
  x ← call (deref current);
  uart_hex regs fuel (pid x);;
  puts regs fuel [13; 10].

(** [uart_puts] of the array [l] from its cell [i] on, of which at most [n]
    cells are read: a string without its terminator ends outside the array. *)
Fixpoint puts_array (n : nat) (l : list Z) (i : Z) : M D U unit :=
  match n with
  | O => stuck
  | S n =>
    c ← defined (array_get l i);
    if c =? 0 then mret tt else uart_putc regs fuel c;; puts_array n l (i + 1)
  end.

(** The body of the loop of [print_circular_buffer]. *)
Definition print_message (owner : pcb_ptr) (i : Z) : M D U unit :=
  uart_hex regs fuel i;;
  puts regs fuel [9];;
  x ← call (deref owner);
  m ← defined (array_get (buffer (messages_buffer x)) i);
  puts_array body_fuel (body m) 0;;
  puts regs fuel [10].

(** The loop of [print_circular_buffer] from the message [i] on, [n] being left. *)
Fixpoint print_messages (n : nat) (owner : pcb_ptr) (i : Z) : M D U unit :=
  match n with
  | O => mret tt
  | S n => print_message owner i;; print_messages n owner (i + 1)
  end.

Definition print_circular_buffer (owner : pcb_ptr) : M D U unit :=
  puts regs fuel (literal "[BUFFER] Head: ");;
  x ← call (deref owner);
  uart_hex regs fuel (head (messages_buffer x));;
  puts regs fuel (literal " | Tail: ");;
  x ← call (deref owner);
  uart_hex regs fuel (tail (messages_buffer x));;
  puts regs fuel [10];;
  print_messages (Z.to_nat MAX_MESSAGES_PER_PROCESS) owner 0.
End Diagnostics.
