(* ===== verification/Vectors.v ===== *)
(** * The exception vectors

    [drivers/irq/entry.S]: the frame an exception saves on the kernel stack,
    which is the [struct pt_regs] of [libs/fork.h], the vector table, what is
    done for an exception of a user program, and how a new process reaches its
    program.  A handler runs between
    [kernel_entry] and [kernel_exit]; it keeps [sp], by the calling convention,
    and may leave anything in the other registers. *)

From S2P Require Import Prelude Exec Kernel Devices Memory Queue Sched Mm Fork FatTypes Machine Uart Syscalls Diagnostics.

Definition S_FRAME_SIZE : Z := 272.

Definition ESR_ELx_EC_SHIFT : Z := 26.
Definition ESR_ELx_EC_SVC64 : Z := 0x15.
Definition ESR_ELx_EC_DABT_LOW : Z := 0x24.

(** The registers of the processor: [x0] to [x30], the two stack pointers, and
    the registers that describe the exception. *)
Record registers : Type := mkRegs {
  xs : list Z;
  sp : Z;
  sp_el0 : Z;
  elr_el1 : Z;
  spsr_el1 : Z;
  esr_el1 : Z;
  far_el1 : Z;
}.

Definition reg (c : registers) (i : nat) : Z := nth i (xs c) 0.

(** ** Saving and loading pairs *)

Definition stp (a v w : Z) : K unit :=
  store64 a v;;
  store64 (u64 (a + 8)) w.

Definition ldp (a : Z) : K (Z * Z) :=
  v ← load64 a;
  w ← load64 (u64 (a + 8));
  mret (v, w).

(** [stp] of each pair of [ps], 16 bytes apart. *)
Fixpoint stp_all (a : Z) (ps : list (Z * Z)) : K unit :=
  match ps with
  | [] => mret tt
  | (v, w) :: ps => stp a v w;; stp_all (u64 (a + 16)) ps
  end.

(** [n] times [ldp], 16 bytes apart. *)
Fixpoint ldp_all (n : nat) (a : Z) : K (list Z) :=
  match n with
  | O => mret []
  | S n =>
    '(v, w) ← ldp a;
    rest ← ldp_all n (u64 (a + 16));
    mret (v :: w :: rest)
  end.

(** [(x0, x1)] to [(x28, x29)]. *)
Definition pairs (c : registers) : list (Z * Z) :=
  (fun i => (reg c (2 * i), reg c (2 * i + 1))) <$> seq 0 15.

(** ** The frame *)

(** [el] is the exception level the exception comes from. *)
Definition kernel_entry (el : Z) (c : registers) : K registers :=
  let sp' := u64 (sp c - S_FRAME_SIZE) in
  stp_all sp' (pairs c);;
  let x21 := if el =? 0 then sp_el0 c else u64 (sp' + S_FRAME_SIZE) in
  let x22 := elr_el1 c in
  let x23 := spsr_el1 c in
  stp (u64 (sp' + 16 * 15)) (reg c 30) x21;;
  stp (u64 (sp' + 16 * 16)) x22 x23;;
  mret (mkRegs (<[21%nat := x21]> (<[22%nat := x22]> (<[23%nat := x23]> (xs c))))
          sp' (sp_el0 c) (elr_el1 c) (spsr_el1 c) (esr_el1 c) (far_el1 c)).

(** The registers after [eret]. *)
Definition kernel_exit (el : Z) (c : registers) : K registers :=
  '(x22, x23) ← ldp (u64 (sp c + 16 * 16));
  '(x30, x21) ← ldp (u64 (sp c + 16 * 15));
  let sp_el0' := if el =? 0 then x21 else sp_el0 c in
  l ← ldp_all 15 (sp c);
  mret (mkRegs (l ++ [x30]) (u64 (sp c + S_FRAME_SIZE)) sp_el0' x22 x23 (esr_el1 c) (far_el1 c)).

(** ** The handlers *)

Section Vectors.
Context {D U : Type} (regs : Registers U) (ret_from_fork : Z) (fuel : nat).
(** What the other processes do, and what the local variables of the
    system call hold. *)
Context (others : list (M D U unit)) (stack : list Z) (message : Message).

(** An exception ends in [eret], with these registers, or in [err_hang]. *)
Definition ending : Type := option registers.
Definition err_hang : ending := None.

Definition handle_invalid_entry (el type : Z) (c : registers) : M D U ending :=
  c ← call (kernel_entry el c);
  show_invalid_entry_message regs fuel type (esr_el1 c) (elr_el1 c);;
  mret err_hang.

Definition leave (el : Z) (c : registers) : M D U ending :=
  c ← call (kernel_exit el c);
  mret (Some c).

Definition el1_irq (c : registers) : M D U ending :=
  c ← call (kernel_entry 1 c);
  handle_irq regs fuel;;
  leave 1 c.

Definition el0_irq (c : registers) : M D U ending :=
  c ← call (kernel_entry 0 c);
  handle_irq regs fuel;;
  leave 0 c.

Definition el0_svc (c : registers) : M D U ending :=
  call enable_irq;;
  syscall_dispatcher regs ret_from_fork fuel others stack message (sp c);;
  call disable_irq;;
  leave 0 c.

Definition el0_da (c : registers) : M D U ending :=
  call enable_irq;;
  res ← call (do_mem_abort (far_el1 c) (esr_el1 c));
  if res =? 0 then
    call disable_irq;;
    leave 0 c
  else handle_invalid_entry 0 DATA_ABORT_ERROR c.

(** The class of the exception decides. *)
Definition el0_sync (c : registers) : M D U ending :=
  c ← call (kernel_entry 0 c);
  let class := Z.shiftr (esr_el1 c) ESR_ELx_EC_SHIFT in
  if class =? ESR_ELx_EC_SVC64 then el0_svc c
  else if class =? ESR_ELx_EC_DABT_LOW then el0_da c
  else handle_invalid_entry 0 SYNC_ERROR c.

(** The table at [vectors], one entry for each kind of exception of each
    level: synchronous, IRQ, FIQ and error, of EL1t, EL1h and the two modes of EL0. *)
Definition vectors : list (registers -> M D U ending) :=
  [ handle_invalid_entry 1 SYNC_INVALID_EL1t;
    handle_invalid_entry 1 IRQ_INVALID_EL1t;
    handle_invalid_entry 1 FIQ_INVALID_EL1t;
    handle_invalid_entry 1 ERROR_INVALID_EL1t;

    handle_invalid_entry 1 SYNC_INVALID_EL1h;
    el1_irq;
    handle_invalid_entry 1 FIQ_INVALID_EL1h;
    handle_invalid_entry 1 ERROR_INVALID_EL1h;

    el0_sync;
    el0_irq;
    handle_invalid_entry 0 FIQ_INVALID_EL0_64;
    handle_invalid_entry 0 ERROR_INVALID_EL0_64;

    handle_invalid_entry 0 SYNC_INVALID_EL0_32;
    handle_invalid_entry 0 IRQ_INVALID_EL0_32;
    handle_invalid_entry 0 FIQ_INVALID_EL0_32;
    handle_invalid_entry 0 ERROR_INVALID_EL0_32 ].
End Vectors.

(** ** The first return of a process *)

Section FirstReturn.
Context {D U : Type}.
(** The code at an address, with its argument: what [blr] calls. *)
Context (routine : Z -> Z -> M D U unit).

Definition ret_to_user (c : registers) : M D U ending :=
  call disable_irq;;
  leave 0 c.

(** [cpu_switch_to_process] returns here in a new process.  A kernel thread
    runs its function, the address of which is in [x19], and goes to user mode
    if that returns. *)
Definition ret_from_fork (c : registers) : M D U ending :=
  call schedule_tail;;
  (if reg c 19 =? 0 then mret tt else routine (reg c 19) (reg c 20));;
  ret_to_user c.
End FirstReturn.
