(* ===== verification/Shell.v ===== *)
(** * The shell

    [app/shell.c].  Paths and commands are arrays of [MAX_COMMAND_DIMENSION]
    characters, cleared before they are used; a handler that changes the working
    directory returns it.  [fuel] bounds the loops that depend on the kernel:
    entries of a directory, commands, and the depth of a tree. *)

From Stdlib Require Import Strings.String.
From S2P Require Import Prelude Exec Kernel Devices Memory Cstring Arrays User FatTypes Syscalls.

Definition MAX_COMMAND_DIMENSION : nat := 64.
Definition MAX_FILE_DIMENSION : nat := 256.
Definition MAX_EXEC_ARGUMENTS : nat := 4.

(** The character ESC, that starts the sequences for the terminal. *)
Definition escape (s : string) : string := String (Ascii.ascii_of_nat 27) s.
Definition UART_GREEN_COLOR : string := escape "[32m".
Definition UART_BLUE_COLOR : string := escape "[34m".
Definition UART_WHITE_COLOR : string := escape "[37m".
Definition UART_CLEAR_SCREEN : string := escape ("[1;1H" ++ escape "[2J").

(** ['/'], ['.'] and [' ']. *)
Definition slash : Z := 47.
Definition dot : Z := 46.
Definition space : Z := 32.

Section Shell.
Context {W : Type} `{!System W} (fuel : nat).
Implicit Types (buffer working_directory path : list Z).

(** An array of a command or a path, after [memzero]. *)
Definition command_array : list Z := zeroed MAX_COMMAND_DIMENSION.

(** A row of [arguments]. *)
Definition argument_array : list Z := zeroed (Z.to_nat SYSCALL_EXEC_ARGUMENT_DIMENSION).

(** The user's versions of the string functions. *)
Definition strlen (str : list Z) : User W Z := local (array_strlen str).
Definition strcat (dest src : list Z) : User W (list Z) := local (array_strcat dest src).
Definition strcpy (dest src : list Z) : User W (list Z) := local (array_strcpy dest src).
Definition strsplit (src : list Z) (delimiter : Z) (dest1 dest2 : list Z) : User W (list Z * list Z) :=
  local (array_strsplit src delimiter dest1 dest2).
Definition memcpy (dest src : list Z) (count : nat) : User W (list Z) := local (array_memcpy dest src (Z.of_nat count)).
Definition char_at (l : list Z) (i : Z) : User W Z := local (cell l i).

(** [memcmp(buffer, s, n) == 0] *)
Definition same (buffer : list Z) (s : string) (n : Z) : User W bool :=
  r ← local (array_memcmp buffer (constant s) n);
  mret (r =? 0).

(** [call_syscall_write] of a text between two constants, and the end of the line. *)
Definition say_about (before : string) (text : list Z) (after : string) : User W unit :=
  say before;;
  call_syscall_write text;;
  say_line after.

(** ** Paths *)

(** [while (write > 0 && path[write - 1] != '/') write--;] *)
Fixpoint drop_name (n : nat) path (write : Z) : User W Z :=
  if negb (0 <? write) then mret write else
  c ← char_at path (write - 1);
  if c =? slash then mret write else
  match n with
  | O => no_fuel
  | S n => drop_name n path (write - 1)
  end.

(** The loop of [normalize_path]: the array and [write]. *)
Fixpoint normalize_loop (n : nat) path (read write : Z) : User W (list Z * Z) :=
  match n with
  | O => no_fuel
  | S n =>
    c ← char_at path read;
    if c =? 0 then mret (path, write) else
    let copy : User W (list Z * Z) :=
      path ← local (set_element path write c);
      normalize_loop n path (read + 1) (write + 1) in
    if negb (c =? dot) then copy else
    c1 ← char_at path (read + 1);
    if (c1 =? slash) || (c1 =? 0) then
      normalize_loop n path (read + if c1 =? slash then 2 else 1) write
    else if negb (c1 =? dot) then copy else
    c2 ← char_at path (read + 2);
    if (c2 =? slash) || (c2 =? 0) then
      let read := read + if c2 =? slash then 3 else 2 in
      write ← drop_name (length path) path (write - 1);
      normalize_loop n path read write
    else copy
  end.

Definition normalize_path path : User W (list Z) :=
  '(path, write) ← normalize_loop (S (length path)) path 0 0;
  path ← local (set_element path write 0);
  if negb (write =? 0) then mret path else
  path ← local (set_element path write slash);
  local (set_element path (write + 1) 0).

(** A path given to [cd] or [show], from the working directory when it is
    relative. *)
Definition join_paths working_directory (destination : list Z) : User W (list Z) :=
  let temp := command_array in
  c ← char_at destination 0;
  if c =? slash then memcpy temp destination MAX_COMMAND_DIMENSION else
  temp ← memcpy temp working_directory MAX_COMMAND_DIMENSION;
  len ← strlen temp;
  temp ← (if 2 <? len then
      last ← char_at temp (len - 1);
      if negb (last =? slash) then
        temp ← local (set_element temp len slash);
        local (set_element temp (len + 1) 0)
      else mret temp
    else mret temp);
  strcat temp destination.

Definition resolve working_directory (destination : list Z) : User W (list Z) :=
  temp ← join_paths working_directory destination;
  normalize_path temp.

(** ** Commands *)

Definition handle_help : User W unit :=
  say_line "[demoos shell]";;
  say_line "Available commands:";;
  say_line "  help       - Show this help message";;
  say_line "  pwd        - Show the current working directory";;
  say_line "  ls         - Show content of the current folder";;
  say_line "  tree       - Show directory tree";;
  say_line "  mkdir      - Create a directory in the working directory";;
  say_line "  write      - Creates a file and writes the given content in it";;
  say_line "  show       - Shows the content of the given file";;
  say_line "  clear      - Clears the screen";;
  say_line "  exec       - Forks the current process and launches a new one from the file system, given its path";;
  say_line "  any        - If '/bin/any.bin' is a file, launches it as a new process".

(** The loop over the entries of a directory. *)
Fixpoint list_entries (n : nat) (fd : Z) : User W unit :=
  match n with
  | O => no_fuel
  | S n =>
    '(result, name, is_dir) ← call_syscall_get_next_entry fd (zeroed (Z.to_nat FAT_MAX_NAME_SIZE));
    if negb (result =? 0) then mret tt else
    (if negb (is_dir =? 0) then
       say (escape "[34m");;
       call_syscall_write name;;
       say (escape "[0m")
     else call_syscall_write name);;
    say_line EmptyString;;
    list_entries n fd
  end.

Definition handle_ls working_directory : User W unit :=
  fd ← call_syscall_open_dir working_directory;
  if fd =? -1 then say_about "[SHELL] Error opening folder '" working_directory "'." else
  list_entries fuel fd;;
  say_line EmptyString.

Definition handle_pwd working_directory : User W unit :=
  call_syscall_write working_directory;;
  say_line EmptyString.

Definition handle_mkdir buffer working_directory : User W unit :=
  '(command, dir_name) ← strsplit buffer space command_array command_array;
  c ← char_at dir_name 0;
  if c =? 0 then say_line "[SHELL] Error: please specify the directory name." else
  n ← strlen working_directory;
  if negb (n <? Z.of_nat MAX_COMMAND_DIMENSION) then
    say_line "[SHELL] Error: working directory string is too big."
  else
    temp ← strcat command_array working_directory;
    temp ← (if negb (c =? slash) then strcat temp (constant "/") else mret temp);
    temp ← strcat temp dir_name;
    fd ← call_syscall_create_dir temp;
    run_if (fd =? -1) (say_about "[SHELL] Cannot create '" temp "'.").

(** The argument of [cd], with a slash at the end. *)
Definition cd_destination buffer : User W (list Z) :=
  '(command, destination) ← strsplit buffer space command_array command_array;
  destination_len ← strlen destination;
  last ← char_at destination (destination_len - 1);
  if negb (last =? slash) then strcat destination (constant "/") else mret destination.

(** The working directory afterwards. *)
Definition handle_cd buffer working_directory : User W (list Z) :=
  destination ← cd_destination buffer;
  temp ← resolve working_directory destination;
  fd ← call_syscall_open_dir temp;
  if fd =? -1 then
    say_about "[SHELL] Error: cannot change directory to '" temp "'.";;
    mret working_directory
  else memcpy working_directory temp MAX_COMMAND_DIMENSION.

(** [stack] is what the array [file_content] holds before: only its first
    characters are cleared. *)
Definition handle_show (stack buffer working_directory : list Z) : User W unit :=
  '(command, destination) ← strsplit buffer space command_array command_array;
  temp ← resolve working_directory destination;
  fd ← call_syscall_open_file temp FAT_READ;
  run_if (fd =? -1) (say_about "[SHELL] Cannot open '" temp "'.");;
  run_if (-1 <? fd)
    (file_content ← local (array_memzero stack (Z.of_nat MAX_COMMAND_DIMENSION));
     '(error, file_content, read_bytes) ← call_syscall_read_file fd file_content (Z.of_nat MAX_FILE_DIMENSION);
     (if negb (error =? 0) then say_about "[SHELL] Cannot read '" temp "'."
      else
        call_syscall_write file_content;;
        say_line EmptyString);;
     call_syscall_close_file fd).

(** [call_syscall_write("   ")], [n] times. *)
Fixpoint indent (n : nat) : User W unit :=
  match n with
  | O => mret tt
  | S n => say "   ";; indent n
  end.

(** The path of a child of the directory [path]. *)
Definition child_of path (name : list Z) : User W (list Z) :=
  child_path ← strcpy command_array path;
  len ← strlen child_path;
  last ← char_at child_path (len - 1);
  child_path ← (if negb (last =? slash) then strcat child_path (constant "/") else mret child_path);
  child_path ← strcat child_path name;
  normalize_path child_path.

(** [print_tree] and its loop; the entries of an open directory are those
    that follow. *)
Fixpoint print_entries (n : nat) path (fd depth : Z) : User W unit :=
  match n with
  | O => no_fuel
  | S n =>
    '(result, name, is_dir) ← call_syscall_get_next_entry fd (zeroed (Z.to_nat FAT_MAX_NAME_SIZE));
    if negb (result =? 1) then mret tt else
    self ← same name "." 2;
    parent ← (if (self : bool) then mret true else same name ".." 3);
    if (parent : bool) then print_entries n path fd depth else
    indent (Z.to_nat depth);;
    (if negb (is_dir =? 0) then
       say (escape "[34m");;
       call_syscall_write name;;
       say_line ("/" ++ escape "[0m")
     else
       call_syscall_write name;;
       say_line EmptyString);;
    (if negb (is_dir =? 0) then
       child_path ← child_of path name;
       fd ← call_syscall_open_dir child_path;
       if fd =? -1 then mret tt else print_entries n child_path fd (depth + 1)
     else mret tt);;
    print_entries n path fd depth
  end.

Definition print_tree path (depth : Z) : User W unit :=
  fd ← call_syscall_open_dir path;
  if fd =? -1 then mret tt else print_entries fuel path fd depth.

Definition handle_tree buffer working_directory : User W unit :=
  '(command, target) ← strsplit buffer space command_array command_array;
  c ← char_at target 0;
  fullpath ← (if c =? 0 then memcpy command_array working_directory MAX_COMMAND_DIMENSION
    else if c =? slash then memcpy command_array target MAX_COMMAND_DIMENSION
    else
      fullpath ← memcpy command_array working_directory MAX_COMMAND_DIMENSION;
      len ← strlen fullpath;
      fullpath ← (if 1 <? len then
          last ← char_at fullpath (len - 1);
          if negb (last =? slash) then strcat fullpath (constant "/") else mret fullpath
        else mret fullpath);
      strcat fullpath target);
  fullpath ← normalize_path fullpath;
  fd ← call_syscall_open_dir fullpath;
  if fd =? -1 then say_about "[SHELL] Error: cannot open directory '" fullpath "'." else
  call_syscall_write fullpath;;
  say_line EmptyString;;
  print_tree fullpath 0.

(** [while ( *p != '\0' && *p != ' ') p++;], from offset [p] of the buffer,
    and the copying loops: [stop] tells the characters that end them.  The
    results are [p], and the array and [i]. *)
Fixpoint skip_word (n : nat) buffer (p : Z) : User W Z :=
  match n with
  | O => no_fuel
  | S n =>
    c ← char_at buffer p;
    if (c =? 0) || (c =? space) then mret p else skip_word n buffer (p + 1)
  end.

Fixpoint copy_word (stop : Z -> bool) (n : nat) buffer (p : Z) (dest : list Z) (i : Z) : User W (list Z * Z * Z) :=
  match n with
  | O => no_fuel
  | S n =>
    c ← char_at buffer p;
    if stop c then mret (dest, p, i) else
    dest ← local (set_element dest i c);
    copy_word stop n buffer (p + 1) dest (i + 1)
  end.

(** [file_content] has [MAX_COMMAND_DIMENSION] characters, but the call is
    told [MAX_FILE_DIMENSION]. *)
Definition handle_write buffer working_directory : User W unit :=
  let n := array_fuel buffer in
  p ← skip_word n buffer 0;
  '(file_name, p, i) ← copy_word (fun c => (c =? 0) || (c =? space)) n buffer (p + 1) command_array 0;
  file_name ← local (set_element file_name i 0);
  '(file_content, p, i) ← copy_word (fun c => c =? 0) n buffer (p + 1) command_array 0;
  file_content ← local (set_element file_content i 0);
  a ← strlen working_directory;
  b ← strlen file_name;
  file_path ← (if a + b <? Z.of_nat MAX_COMMAND_DIMENSION then
      file_path ← strcat command_array working_directory;
      strcat file_path file_name
    else
      say_line "[SHELL] Error: file path is too big";;
      mret command_array);
  fd ← call_syscall_open_file file_path (Z.lor FAT_CREATE FAT_WRITE);
  run_if (fd =? -1) (say_about "[SHELL] Error: cannot open file '" file_path "'.");;
  run_if (negb (fd =? -1) && (0 <? i))
    ('(error, written_bytes) ← call_syscall_write_file fd file_content (Z.of_nat MAX_FILE_DIMENSION);
     run_if (negb (error =? 0)) (say_about "[SHELL] Error: cannot write on file '" file_path "'."));;
  _ ← call_syscall_close_file fd;
  mret tt.

(** [while (1)] after a call of exec that has returned no error. *)
Fixpoint never_printed (n : nat) : User W unit :=
  match n with
  | O => no_fuel
  | S n => say_line "[SON] This line should never be printed.";; never_printed n
  end.

(** The parent waits for the process it has created. *)
Definition wait_for (pid : Z) : User W unit :=
  ok ← call_syscall_wait pid;
  run_if (negb (ok =? 0))
    (say "[SHELL] Cannot find process '";;
     call_syscall_write_hex pid;;
     say_line "'").

Definition handle_exec buffer working_directory : User W unit :=
  '(command, path) ← strsplit buffer space command_array command_array;
  n ← strlen path;
  if n =? 0 then say_line "[SHELL] Please specify the path of the new program to execute." else
  m ← strlen working_directory;
  if Z.of_nat MAX_COMMAND_DIMENSION <=? m + n then say_line "[SHELL] Path is too long." else
  complete_path ← strcat command_array working_directory;
  complete_path ← strcat complete_path path;
  complete_path ← normalize_path complete_path;
  pid ← call_syscall_fork;
  if pid =? 0 then
    say_line "[SON] I am the son.";;
    error ← call_syscall_exec complete_path 0 [];
    run_if (negb (error =? 0)) (say_line "[SON] Error running new process.";; call_syscall_exit);;
    never_printed fuel
  else wait_for pid.

(** The loop over the arguments, [n] rows being left. *)
Fixpoint split_arguments (n : nat) (arguments_raw : list Z) : User W (list (list Z)) :=
  len ← strlen arguments_raw;
  if negb (0 <? len) then mret [] else
  match n with
  | O => mret []
  | S n =>
    '(argument, temp) ← strsplit arguments_raw space argument_array argument_array;
    arguments_raw ← strcpy arguments_raw temp;
    arguments ← split_arguments n arguments_raw;
    mret (argument :: arguments)
  end.

Definition handle_exec_from_bin buffer : User W unit :=
  '(file_name, arguments_raw) ← strsplit buffer space command_array command_array;
  a ← strlen (constant "/bin/");
  b ← strlen file_name;
  c ← strlen (constant ".bin");
  if Z.of_nat MAX_COMMAND_DIMENSION <=? a + b + c then say_line "[SHELL] Path is too long." else
  complete_path ← strcat command_array (constant "/bin/");
  complete_path ← strcat complete_path file_name;
  complete_path ← strcat complete_path (constant ".bin");
  complete_path ← normalize_path complete_path;
  arguments ← split_arguments MAX_EXEC_ARGUMENTS arguments_raw;
  pid ← call_syscall_fork;
  if pid =? 0 then
    error ← call_syscall_exec complete_path (Z.of_nat (length arguments)) arguments;
    run_if (negb (error =? 0)) (say_about "[SHELL] Cannot find '" file_name "' binary file.";; call_syscall_exit);;
    call_syscall_exit
  else wait_for pid.

(** ** The shell *)

(** What the command in [buffer] does; the working directory afterwards. *)
Definition run_command (stack buffer working_directory : list Z) : User W (list Z) :=
  let keep (m : User W unit) : User W (list Z) := m;; mret working_directory in
  b ← same buffer "help" 4;
  if (b : bool) then keep handle_help else
  b ← same buffer "ls" 2;
  if (b : bool) then keep (handle_ls working_directory) else
  b ← same buffer "pwd" 3;
  if (b : bool) then keep (handle_pwd working_directory) else
  b ← same buffer "mkdir" 5;
  if (b : bool) then keep (handle_mkdir buffer working_directory) else
  b ← same buffer "cd" 2;
  if (b : bool) then handle_cd buffer working_directory else
  b ← same buffer "tree" 4;
  if (b : bool) then keep (handle_tree buffer working_directory) else
  b ← same buffer "clear" 5;
  if (b : bool) then keep (say UART_CLEAR_SCREEN) else
  b ← same buffer "write" 5;
  if (b : bool) then keep (handle_write buffer working_directory) else
  b ← same buffer "show" 4;
  if (b : bool) then keep (handle_show stack buffer working_directory) else
  b ← same buffer "exec" 4;
  if (b : bool) then keep (handle_exec buffer working_directory) else
  keep (handle_exec_from_bin buffer).

(** The loop of the shell, for [n] commands. *)
Fixpoint command_loop (n : nat) (stack working_directory : list Z) : User W unit :=
  match n with
  | O => no_fuel
  | S n =>
    say UART_GREEN_COLOR;;
    say "demoos:";;
    say UART_BLUE_COLOR;;
    call_syscall_write working_directory;;
    say UART_WHITE_COLOR;;
    say "$ ";;
    '(_, buffer) ← call_syscall_input command_array (Z.of_nat MAX_COMMAND_DIMENSION);
    say_line EmptyString;;
    len ← strlen buffer;
    if len =? 0 then command_loop n stack working_directory else
    working_directory ← run_command stack buffer working_directory;
    command_loop n stack working_directory
  end.

Definition ascii_art : list string := [
  "▄▄▄▄▄▄                          ▄▄▄▄▄    ▄▄▄▄▄▄▄ ";
  "███▀▀██▄                      ▄███████▄ █████▀▀▀ ";
  "███  ███ ▄█▀█▄ ███▄███▄ ▄███▄ ███   ███  ▀████▄  ";
  "███  ███ ██▄█▀ ██ ██ ██ ██ ██ ███▄▄▄███    ▀████ ";
  "██████▀  ▀█▄▄▄ ██ ██ ██ ▀███▀  ▀█████▀  ███████▀ "]%string.

Fixpoint print_lines (lines : list string) : User W unit :=
  match lines with
  | [] => mret tt
  | s :: lines => say s;; say_line EmptyString;; print_lines lines
  end.

(** [stack] is what [file_content] of [handle_show] holds. *)
Definition shell (stack : list Z) : User W unit :=
  say UART_GREEN_COLOR;;
  print_lines ascii_art;;
  say UART_WHITE_COLOR;;
  say_line EmptyString;;
  working_directory ← strcpy command_array (constant "/");
  command_loop fuel stack working_directory;;
  call_syscall_exit.
End Shell.
