(* ===== verification/ShellLogic.v ===== *)
(** * Paths of the shell: proofs

    [normalize_path] against a walk on the names of the path. *)

From S2P Require Import Prelude Exec Kernel Memory Cstring Arrays User Shell.

(** ** Names *)

(** Names that end with a slash, and what comes after the last one. *)
Definition path_text (names : list (list Z)) (last : list Z) : list Z :=
  concat (map (fun w => w ++ [slash]) names) ++ last.

(** The path of a stack of names, the last one on top. *)
Definition render (stack : list (list Z)) : list Z := path_text (rev stack) [].

(** The meaning of a path: "." is dropped, ".." drops the name before it, and
    is undefined when there is none.  The empty name before the slash a path
    begins with counts as a name, as it does in the code: ".." takes it away, so
    "/../x" means "x". *)
Fixpoint normal (stack names : list (list Z)) (last : list Z) : option (list Z) :=
  match names with
  | [] =>
    if decide (last = [] \/ last = [dot]) then Some (render stack)
    else if decide (last = [dot; dot]) then
      match stack with [] => None | _ :: stack => Some (render stack) end
    else Some (render stack ++ last)
  | w :: names =>
    if decide (w = [dot]) then normal stack names last
    else if decide (w = [dot; dot]) then
      match stack with [] => None | _ :: stack => normal stack names last end
    else normal (w :: stack) names last
  end.

(** A name whose last character is not a dot. *)
Fixpoint no_final_dot (l : list Z) : Prop :=
  match l with
  | [] => True
  | [c] => c <> dot
  | _ :: l => no_final_dot l
  end.

(** The names [normalize_path] understands. *)
Definition plain (w : list Z) : Prop :=
  Forall (fun c => 0 < c < 2 ^ 8 /\ c <> slash) w /\ (w = [dot] \/ w = [dot; dot] \/ no_final_dot w).

(** ** The loop *)

Section Loop.
Context {W : Type}.
Implicit Types (a l w out text : list Z) (n r k : nat) (s : W).

(** The array while the loop runs: what is left to read, and what has been
    written. *)
Definition at_work a r k text out : Prop :=
  (exists rest, drop r a = text ++ 0 :: rest) /\ take k a = out /\ length out = k /\ (k <= r)%nat.

Lemma at_work_char a r k c text out : at_work a r k (c :: text) out -> a !! r = Some c.
Proof. intros ((rest & H) & _). rewrite <- (Nat.add_0_r r), <- lookup_drop, H. done. Qed.

Lemma at_work_end a r k out : at_work a r k [] out -> a !! r = Some 0.
Proof. intros ((rest & H) & _). rewrite <- (Nat.add_0_r r), <- lookup_drop, H. done. Qed.

Lemma at_work_skip a r k l text out : at_work a r k (l ++ text) out -> at_work a (r + length l) k text out.
Proof.
  intros ((rest & H) & H1 & H2 & H3). split; [|split; [done|split; [done|lia]]]. exists rest.
  rewrite <- drop_drop, H, <- app_assoc. apply drop_app_length.
Qed.

Lemma at_work_copy a r k c text out :
  at_work a r k (c :: text) out -> at_work (<[k := c]> a) (S r) (S k) text (out ++ [c]).
Proof.
  intros H. pose proof (at_work_char _ _ _ _ _ _ H) as Hc. apply lookup_lt_Some in Hc.
  assert (Hk : (k <= r)%nat) by apply H. apply (at_work_skip _ _ _ [c]) in H as ((rest & H) & H1 & H2 & H3). rewrite Nat.add_1_r in H.
  split; [exists rest; rewrite drop_insert_lt by lia; done|]. split; [|split; [rewrite length_app; simpl; lia|lia]].
  rewrite (take_S_r _ k c) by (apply list_lookup_insert_eq; lia). rewrite take_insert_ge by lia. by rewrite H1.
Qed.

(** Characters after [r]. *)
Lemma at_work_nth a r k i text out c : at_work a r k text out -> (text ++ [0]) !! i = Some c -> a !! (r + i)%nat = Some c.
Proof.
  intros ((rest & H) & _) Hi. rewrite <- lookup_drop, H. replace (text ++ 0 :: rest) with ((text ++ [0]) ++ rest) by by rewrite <- app_assoc.
  by apply lookup_app_l_Some.
Qed.

Lemma char_at_nat a i c s : a !! i = Some c -> char_at a (Z.of_nat i) s = Done (Some c) s.
Proof. intros H. unfold char_at, local. by rewrite (cell_lookup _ _ _ _ H). Qed.

Lemma local_set_nat a i c s : (i < length a)%nat -> local (set_element a (Z.of_nat i) c) s = Done (Some (<[i := c]> a)) s.
Proof. intros H. unfold local. by rewrite set_element_nat. Qed.

(** One step that copies a character. *)
Lemma loop_copy n a r k c text out s :
  at_work a r k (c :: text) out -> c <> 0 ->
  (c = dot -> exists c1, (text ++ [0]) !! 0%nat = Some c1 /\ c1 <> slash /\ c1 <> 0 /\
     (c1 = dot -> exists c2, (text ++ [0]) !! 1%nat = Some c2 /\ c2 <> slash /\ c2 <> 0)) ->
  normalize_loop (S n) a (Z.of_nat r) (Z.of_nat k) s = normalize_loop n (<[k := c]> a) (Z.of_nat (S r)) (Z.of_nat (S k)) s.
Proof.
  intros H Hc Hdot. pose proof (at_work_char _ _ _ _ _ _ H) as Hr. pose proof (lookup_lt_Some _ _ _ Hr) as Hlt.
  assert (Hk : (k <= r)%nat) by apply H. cbn [normalize_loop]. unfold mbind at 1, user_bind at 1.
  rewrite (char_at_nat _ _ _ _ Hr). destruct (Z.eqb_spec c 0); [done|].
  assert (Hcopy : (path ← local (set_element a (Z.of_nat k) c);
      normalize_loop n path (Z.of_nat r + 1) (Z.of_nat k + 1)) s
    = normalize_loop n (<[k := c]> a) (Z.of_nat (S r)) (Z.of_nat (S k)) s).
  { unfold mbind, user_bind. rewrite local_set_nat by lia. f_equal; lia. }
  cbv zeta. destruct (Z.eqb_spec c dot) as [->|]; [|exact Hcopy]. cbn [negb orb].
  destruct (Hdot eq_refl) as (c1 & H1 & Hs1 & Hz1 & Hdot1).
  pose proof (at_work_nth a r k 1 _ _ c1 H H1) as L1. replace (Z.of_nat r + 1) with (Z.of_nat (r + 1)) by lia.
  unfold mbind at 1, user_bind at 1. rewrite (char_at_nat _ _ _ _ L1).
  destruct (Z.eqb_spec c1 slash); [done|]. destruct (Z.eqb_spec c1 0); [done|]. cbn [negb orb].
  replace (Z.of_nat (r + 1)) with (Z.of_nat r + 1) by lia.
  destruct (Z.eqb_spec c1 dot) as [->|]; [|exact Hcopy]. cbn [negb orb].
  destruct (Hdot1 eq_refl) as (c2 & H2 & Hs2 & Hz2).
  pose proof (at_work_nth a r k 2 _ _ c2 H H2) as L2. replace (Z.of_nat r + 2) with (Z.of_nat (r + 2)) by lia.
  unfold mbind at 1, user_bind at 1. rewrite (char_at_nat _ _ _ _ L2).
  destruct (Z.eqb_spec c2 slash); [done|]. destruct (Z.eqb_spec c2 0); [done|]. exact Hcopy.
Qed.

(** A name is copied. *)
Lemma loop_name n w a r k text out s :
  at_work a r k (w ++ text) out -> Forall (fun c => 0 < c < 2 ^ 8 /\ c <> slash) w -> no_final_dot w ->
  exists a', normalize_loop (length w + n) a (Z.of_nat r) (Z.of_nat k) s
    = normalize_loop n a' (Z.of_nat (r + length w)) (Z.of_nat (k + length w)) s /\
  at_work a' (r + length w) (k + length w) text (out ++ w) /\ length a' = length a.
Proof.
  revert a r k out. induction w as [|c w IH]; intros a r k out H Hw Hd.
  { exists a. simpl. rewrite !Nat.add_0_r, app_nil_r. done. }
  apply Forall_cons in Hw as [[Hc Hcs] Hw]. cbn [length Nat.add app] in *.
  rewrite (loop_copy _ _ _ _ c (w ++ text) out s); [|done|lia|].
  - destruct (IH (<[k := c]> a) (S r) (S k) (out ++ [c])) as (a' & E & H' & Hlen).
    + by apply at_work_copy.
    + done.
    + destruct w; [done|]. by destruct Hd || exact Hd.
    + exists a'. rewrite !Nat.add_succ_r. rewrite <- !Nat.add_succ_l. split; [done|]. rewrite length_insert in Hlen.
      split; [|done]. by rewrite <- app_assoc in H'.
  - intros ->. destruct w as [|c1 w]; [done|]. exists c1. apply Forall_cons in Hw as [[Hc1 Hs1] Hw].
    split; [done|]. split; [done|]. split; [lia|]. intros ->. destruct w as [|c2 w]; [done|].
    apply Forall_cons in Hw as [[Hc2 Hs2] Hw]. exists c2. split; [done|]. split; [done|lia].
Qed.
End Loop.

(** ** Dots *)

Section Dots.
Context {W : Type}.
Implicit Types (a l w out text : list Z) (n r k : nat) (s : W).

(** [drop_name] goes back over the characters of a name. *)
Lemma drop_name_back n a s k w :
  (forall i c, w !! i = Some c -> a !! (k + i)%nat = Some c) -> Forall (fun c => c <> slash) w ->
  (k = 0%nat \/ exists j, k = S j /\ a !! j = Some slash) -> (length w <= n)%nat ->
  drop_name n a (Z.of_nat (k + length w)) s = Done (Some (Z.of_nat k)) s.
Proof.
  revert n. induction w as [|c w IH] using rev_ind; intros n Ha Hw Hk Hn.
  - cbn [length]. rewrite Nat.add_0_r. destruct Hk as [->|(j & -> & Hj)]; [by destruct n|].
    assert (E : Z.of_nat (S j) - 1 = Z.of_nat j) by lia.
    destruct n as [|n]; cbn [drop_name]; (destruct (Z.ltb_spec 0 (Z.of_nat (S j))); [|lia]); cbn [negb];
      unfold mbind, user_bind; rewrite E, (char_at_nat _ _ _ _ Hj); by rewrite Z.eqb_refl.
  - rewrite length_app in *. cbn [length] in *. apply Forall_app in Hw as [Hw Hc]. apply Forall_cons in Hc as [Hc _].
    destruct n as [|n]; [lia|]. cbn [drop_name]. destruct (Z.ltb_spec 0 (Z.of_nat (k + (length w + 1)))); [|lia]. cbn [negb].
    unfold mbind, user_bind. replace (Z.of_nat (k + (length w + 1)) - 1) with (Z.of_nat (k + length w)) by lia.
    rewrite (char_at_nat _ _ c).
    2: { apply Ha. by rewrite lookup_app_r, Nat.sub_diag by lia. }
    destruct (Z.eqb_spec c slash); [done|]. apply IH; [|done|done|lia].
    intros i d Hi. apply Ha. by apply lookup_app_l_Some.
Qed.

(** A negative index is not brought back. *)
Lemma drop_name_negative n a i s : i < 0 -> drop_name n a i s = Done (Some i) s.
Proof. intros H. destruct n; cbn [drop_name]; destruct (Z.ltb_spec 0 i); try lia; done. Qed.

(** The array has [text] from [r] on. *)
Definition unread a r text : Prop := exists rest, drop r a = text ++ 0 :: rest.

Lemma unread_nth a r text i z c (s : W) :
  unread a r text -> (text ++ [0]) !! i = Some c -> z = Z.of_nat r + Z.of_nat i -> char_at a z s = Done (Some c) s.
Proof.
  intros (rest & H) Hi ->. rewrite <- Nat2Z.inj_add. apply char_at_nat.
  rewrite <- lookup_drop, H. replace (text ++ 0 :: rest) with ((text ++ [0]) ++ rest) by by rewrite <- app_assoc.
  by apply lookup_app_l_Some.
Qed.

Lemma unread_skip a r l text : unread a r (l ++ text) -> unread a (r + length l) text.
Proof. intros (rest & H). exists rest. rewrite <- drop_drop, H, <- app_assoc. apply drop_app_length. Qed.

End Dots.

(** Reads the character [c] at index [i] of what is left, and decides the
    comparisons with it. *)
Ltac peek H i c :=
  unfold mbind at 1, user_bind at 1; rewrite (unread_nth _ _ _ i _ c _ H eq_refl) by lia; cbv zeta;
  change (dot =? 0) with false; change (dot =? dot) with true; change (dot =? slash) with false;
  change (slash =? slash) with true; change (0 =? slash) with false; change (0 =? 0) with true; cbn [negb orb].

(** The cases of the loop. *)

Section Cases.
Context {W : Type}.
Implicit Types (a l w out text : list Z) (n r k : nat) (s : W).

Lemma loop_end n a r z s : unread a r [] -> normalize_loop (S n) a (Z.of_nat r) z s = Done (Some (a, z)) s.
Proof. intros H. cbn [normalize_loop]. by peek H 0%nat 0. Qed.

Lemma loop_self n a r z text s :
  unread a r ([dot; slash] ++ text) ->
  normalize_loop (S n) a (Z.of_nat r) z s = normalize_loop n a (Z.of_nat (r + 2)) z s.
Proof. intros H. cbn [normalize_loop]. peek H 0%nat dot. peek H 1%nat slash. f_equal. lia. Qed.

Lemma loop_self_end n a r z s :
  unread a r [dot] -> normalize_loop (S n) a (Z.of_nat r) z s = normalize_loop n a (Z.of_nat (r + 1)) z s.
Proof. intros H. cbn [normalize_loop]. peek H 0%nat dot. peek H 1%nat 0. f_equal. lia. Qed.

(** A parent: [write] goes back to [z']. *)
Lemma loop_parent n a r z z' text s :
  unread a r ([dot; dot; slash] ++ text) -> drop_name (length a) a (z - 1) s = Done (Some z') s ->
  normalize_loop (S n) a (Z.of_nat r) z s = normalize_loop n a (Z.of_nat (r + 3)) z' s.
Proof.
  intros H Hz. cbn [normalize_loop]. peek H 0%nat dot. peek H 1%nat dot. peek H 2%nat slash.
  unfold mbind, user_bind. rewrite Hz. f_equal. lia.
Qed.

Lemma loop_parent_end n a r z z' s :
  unread a r [dot; dot] -> drop_name (length a) a (z - 1) s = Done (Some z') s ->
  normalize_loop (S n) a (Z.of_nat r) z s = normalize_loop n a (Z.of_nat (r + 2)) z' s.
Proof.
  intros H Hz. cbn [normalize_loop]. peek H 0%nat dot. peek H 1%nat dot. peek H 2%nat 0.
  unfold mbind, user_bind. rewrite Hz. f_equal. lia.
Qed.
End Cases.

(** ** The whole path *)

Section Normalize.
Context {W : Type}.
Implicit Types (a l w out text last : list Z) (names stack : list (list Z)) (n r k : nat) (s : W).

Lemma set_negative a z c s : z < 0 -> local (set_element a z c) s = Stuck.
Proof. intros H. unfold local, set_element, array_set. destruct (Z.leb_spec 0 z); [lia|done]. Qed.

(** Once [write] is negative the path is lost. *)
Definition lost (o : outcome W (option (list Z * Z))) (s : W) : Prop :=
  o = Stuck \/ exists a z, z < 0 /\ o = Done (Some (a, z)) s.

Lemma loop_negative n a r z text s :
  z < 0 -> Forall (fun c => c <> 0) text -> unread a r text -> (length text < n)%nat ->
  lost (normalize_loop n a (Z.of_nat r) z s) s.
Proof.
  revert r z text. induction n as [|n IH]; intros r z text Hz Ht Hu Hn; [lia|].
  destruct text as [|c text].
  { right. exists a, z. by rewrite loop_end. }
  assert (Hcopy : forall m, (path ← local (set_element a z c); normalize_loop n path (Z.of_nat r + 1) (z + 1)) s = m -> lost m s).
  { intros m <-. left. unfold mbind, user_bind. by rewrite set_negative. }
  apply Forall_cons in Ht as [Hc Ht]. destruct (decide (c = dot)) as [->|Hd].
  - destruct text as [|c1 text].
    { rewrite loop_self_end by done. apply (IH _ _ []); [done|done|by apply (unread_skip a r [dot])|simpl in *; lia]. }
    apply Forall_cons in Ht as [Hc1 Ht]. destruct (decide (c1 = slash)) as [->|Hs1].
    { rewrite (loop_self _ _ _ _ text) by done.
      apply (IH _ _ text); [done|done|by apply (unread_skip a r [dot; slash])|simpl in *; lia]. }
    destruct (decide (c1 = dot)) as [->|Hd1].
    + destruct text as [|c2 text].
      { rewrite (loop_parent_end _ _ _ _ (z - 1)) by (try apply drop_name_negative; done || lia).
        apply (IH _ _ []); [lia|done|by apply (unread_skip a r [dot; dot])|simpl in *; lia]. }
      apply Forall_cons in Ht as [Hc2 Ht]. destruct (decide (c2 = slash)) as [->|Hs2].
      { rewrite (loop_parent _ _ _ _ (z - 1) text) by (try apply drop_name_negative; done || lia).
        apply (IH _ _ text); [lia|done|by apply (unread_skip a r [dot; dot; slash])|simpl in *; lia]. }
      cbn [normalize_loop]. peek Hu 0%nat dot. peek Hu 1%nat dot. peek Hu 2%nat c2.
      destruct (Z.eqb_spec c2 slash); [done|]. destruct (Z.eqb_spec c2 0); [done|]. by apply Hcopy.
    + cbn [normalize_loop]. peek Hu 0%nat dot. peek Hu 1%nat c1.
      destruct (Z.eqb_spec c1 slash); [done|]. destruct (Z.eqb_spec c1 0); [done|].
      destruct (Z.eqb_spec c1 dot); [done|]. by apply Hcopy.
  - cbn [normalize_loop]. peek Hu 0%nat c. destruct (Z.eqb_spec c 0); [done|].
    destruct (Z.eqb_spec c dot); [done|]. by apply Hcopy.
Qed.

Lemma render_cons w stack : render (w :: stack) = render stack ++ w ++ [slash].
Proof.
  unfold render, path_text. cbn [rev]. rewrite map_app, concat_app. simpl. by rewrite !app_nil_r.
Qed.

Lemma path_text_cons w names last : path_text (w :: names) last = w ++ slash :: path_text names last.
Proof. unfold path_text. simpl. rewrite <- !app_assoc. reflexivity. Qed.

(** The text of the stack is empty or ends with a slash. *)
Lemma render_end stack a k :
  take k a = render stack -> length (render stack) = k -> k = 0%nat \/ exists j, k = S j /\ a !! j = Some slash.
Proof.
  intros Ha Hk. destruct stack as [|w stack]; [left; by rewrite <- Hk|right]. exists (length (render stack ++ w)).
  rewrite render_cons, app_assoc in *. rewrite length_app in Hk. cbn [length] in Hk. split; [lia|].
  assert (E : take k a !! length (render stack ++ w) = Some slash) by (rewrite Ha; by rewrite lookup_app_r, Nat.sub_diag by lia).
  by apply lookup_take_Some in E as [? _].
Qed.

Lemma at_work_unread a r k text out : at_work a r k text out -> unread a r text.
Proof. by intros (H & _). Qed.

(** Going back over the last name. *)
Lemma drop_last a r w stack text s :
  at_work a r (length (render (w :: stack))) text (render (w :: stack)) -> Forall (fun c => c <> slash) w ->
  drop_name (length a) a (Z.of_nat (length (render (w :: stack))) - 1) s
  = Done (Some (Z.of_nat (length (render stack)))) s /\
  at_work a r (length (render stack)) text (render stack).
Proof.
  intros (Hr & Ht & _ & Hle) Hw. rewrite render_cons in *. rewrite !length_app in *. cbn [length] in *.
  assert (Htake : take (length (render stack)) a = render stack).
  { apply (f_equal (take (length (render stack)))) in Ht. rewrite take_take, Nat.min_l in Ht by lia.
    rewrite Ht. apply take_app_length. }
  split; [|split; [done|split; [done|split; [done|lia]]]].
  replace (Z.of_nat (length (render stack) + (length w + 1)) - 1) with (Z.of_nat (length (render stack) + length w)) by lia.
  apply drop_name_back.
  - intros i c Hi. apply (lookup_take_Some a (length (render stack) + (length w + 1))).
    rewrite Ht. rewrite lookup_app_r by lia.
    replace (length (render stack) + i - length (render stack))%nat with i by lia. by apply lookup_app_l_Some.
  - done.
  - by eapply render_end.
  - apply (f_equal length) in Ht. rewrite length_take, !length_app in Ht. cbn [length] in Ht. lia.
Qed.

Lemma path_text_nonzero names last :
  Forall plain names -> plain last -> Forall (fun c => c <> 0) (path_text names last).
Proof.
  intros Hn [Hl _]. assert (Hc : forall w, Forall (fun c => 0 < c < 2 ^ 8 /\ c <> slash) w -> Forall (fun c => c <> 0) w).
  { intros w Hw. eapply Forall_impl; [exact Hw|]. simpl. lia. }
  induction Hn as [|w names [Hw _] _ IH]; [by apply Hc|]. rewrite path_text_cons. apply Forall_app. split; [by apply Hc|].
  constructor; [done|exact IH].
Qed.

(** The name after the last slash. *)
Lemma loop_last n stack a r last s :
  at_work a r (length (render stack)) last (render stack) -> plain last -> Forall (Forall (fun c => c <> slash)) stack ->
  (length last < n)%nat ->
  match normal stack [] last with
  | Some out => exists a' r', normalize_loop n a (Z.of_nat r) (Z.of_nat (length (render stack))) s
      = Done (Some (a', Z.of_nat (length out))) s /\ at_work a' r' (length out) [] out /\ length a' = length a
  | None => lost (normalize_loop n a (Z.of_nat r) (Z.of_nat (length (render stack))) s) s
  end.
Proof.
  intros Hw [Hlc Hl] Hst Hlen. cbn [normal]. destruct n as [|n]; [lia|].
  destruct (decide (last = [] \/ last = [dot])) as [[->| ->]|Hd]; [| |destruct (decide (last = [dot; dot])) as [->|Hdd]].
  - exists a, r. rewrite loop_end by by eapply at_work_unread. done.
  - exists a, (r + 1)%nat. apply (at_work_skip _ _ _ [dot] []) in Hw as Hw'.
    rewrite loop_self_end by by eapply at_work_unread. destruct n as [|n]; [simpl in Hlen; lia|].
    rewrite loop_end by by eapply at_work_unread. done.
  - destruct n as [|n]; [simpl in Hlen; lia|]. destruct stack as [|v stack].
    + rewrite (loop_parent_end _ _ _ _ (-1)); [|by eapply at_work_unread|by apply drop_name_negative].
      apply (loop_negative _ _ _ _ []); [lia|done| |simpl; lia].
      apply (unread_skip _ _ [dot; dot]). by eapply at_work_unread.
    + apply Forall_cons in Hst as [Hv Hst]. destruct (drop_last _ _ _ _ _ s Hw Hv) as [Hz Hw'].
      rewrite (loop_parent_end _ _ _ _ (Z.of_nat (length (render stack)))); [|by eapply at_work_unread|done].
      apply (at_work_skip _ _ _ [dot; dot] []) in Hw'. exists a, (r + 2)%nat.
      rewrite loop_end by by eapply at_work_unread. done.
  - assert (Hl' : no_final_dot last) by naive_solver. rewrite <- (app_nil_r last) in Hw.
    replace (S n) with (length last + S (n - length last))%nat by lia.
    destruct (loop_name (S (n - length last)) last _ _ _ _ _ s Hw Hlc Hl') as (a' & -> & Hw' & Hla).
    exists a', (r + length last)%nat. rewrite loop_end by by eapply at_work_unread. by rewrite length_app.
Qed.

(** The loop computes the meaning of the path. *)
Lemma loop_normal n names stack a r last s :
  at_work a r (length (render stack)) (path_text names last) (render stack) ->
  Forall plain names -> plain last -> Forall (Forall (fun c => c <> slash)) stack ->
  (length (path_text names last) < n)%nat ->
  match normal stack names last with
  | Some out => exists a' r', normalize_loop n a (Z.of_nat r) (Z.of_nat (length (render stack))) s
      = Done (Some (a', Z.of_nat (length out))) s /\ at_work a' r' (length out) [] out /\ length a' = length a
  | None => lost (normalize_loop n a (Z.of_nat r) (Z.of_nat (length (render stack))) s) s
  end.
Proof.
  revert stack n a r. induction names as [|w names IH]; intros stack n a r Hw Hn [Hlc Hl] Hst Hlen; cbn [normal].
  - by apply loop_last.
  - rewrite path_text_cons in *. apply Forall_cons in Hn as [[Hwc Hwd] Hn].
    destruct (decide (w = [dot])) as [->|Hself]; [|destruct (decide (w = [dot; dot])) as [->|Hparent]].
    + destruct n as [|n]; [simpl in Hlen; lia|].
      rewrite (loop_self _ _ _ _ (path_text names last)) by by eapply at_work_unread.
      apply IH; [by apply (at_work_skip _ _ _ [dot; slash])|done|done|done|simpl in *; lia].
    + destruct n as [|n]; [simpl in Hlen; lia|]. destruct stack as [|v stack].
      * rewrite (loop_parent _ _ _ _ (-1) (path_text names last));
          [|by eapply at_work_unread|by apply drop_name_negative].
        apply (loop_negative _ _ _ _ (path_text names last)); [lia|by apply path_text_nonzero| |simpl in *; lia].
        apply (unread_skip _ _ [dot; dot; slash]). by eapply at_work_unread.
      * apply Forall_cons in Hst as [Hv Hst]. destruct (drop_last _ _ _ _ _ s Hw Hv) as [Hz Hw'].
        rewrite (loop_parent _ _ _ _ (Z.of_nat (length (render stack))) (path_text names last));
          [|by eapply at_work_unread|done].
        apply IH; [by apply (at_work_skip _ _ _ [dot; dot; slash])|done|done|done|simpl in *; lia].
    + assert (Hwd' : no_final_dot w) by naive_solver. rewrite length_app in Hlen. cbn [length] in Hlen.
      replace n with (length w + S (n - length w - 1))%nat by lia.
      destruct (loop_name (S (n - length w - 1)) w _ _ _ _ _ s Hw Hwc Hwd') as (a' & -> & Hw' & Hla).
      rewrite (loop_copy _ _ _ _ slash (path_text names last) (render stack ++ w)); [|done|done|done].
      apply at_work_copy in Hw'. specialize (IH (w :: stack) (n - length w - 1)%nat (<[length (render stack) + length w := slash]> a')%nat
        (S (r + length w))).
      rewrite render_cons, app_assoc in IH. rewrite !length_app in IH. cbn [length] in IH.
      replace (length (render stack) + length w + 1)%nat with (S (length (render stack) + length w)) in IH by lia.
      rewrite length_insert in IH. rewrite <- Hla. apply IH; try done; [|lia].
      constructor; [|done]. eapply Forall_impl; [exact Hwc|]. by intros c [_ ?].
Qed.

(** A property of the characters of the names and of the slash holds of those
    of the result. *)
Lemma render_Forall (P : Z -> Prop) stack : P slash -> Forall (Forall P) stack -> Forall P (render stack).
Proof.
  intros Hs. induction 1 as [|w stack Hw _ IH]; [constructor|]. rewrite render_cons. apply Forall_app. split; [exact IH|].
  apply Forall_app. split; [exact Hw|by constructor].
Qed.

Lemma normal_Forall (P : Z -> Prop) stack names last out :
  P slash -> Forall (Forall P) stack -> Forall (Forall P) names -> Forall P last ->
  normal stack names last = Some out -> Forall P out.
Proof.
  intros Hs Hst Hn Hl. revert stack Hst. induction Hn as [|w names Hw Hn IH]; intros stack Hst; cbn [normal].
  - destruct (decide _); [intros [= <-]; by apply render_Forall|]. destruct (decide _).
    + destruct Hst as [|v stack Hv Hst]; [done|]. intros [= <-]. by apply render_Forall.
    + intros [= <-]. apply Forall_app. split; [by apply render_Forall|done].
  - destruct (decide _); [by apply IH|]. destruct (decide _); [|by apply IH; constructor].
    destruct Hst as [|v stack Hv Hst]; [done|]. by apply IH.
Qed.

Lemma plain_chars w : plain w -> chars w.
Proof. intros [H _]. eapply Forall_impl; [exact H|]. by intros c [? _]. Qed.

Lemma normal_chars names last out : Forall plain names -> plain last -> normal [] names last = Some out -> chars out.
Proof.
  intros Hn Hl. apply normal_Forall; [done|done| |by apply plain_chars].
  eapply Forall_impl; [exact Hn|]. intros w. apply plain_chars.
Qed.

(** A path without dots is its own meaning. *)
Definition dots (w : list Z) : Prop := w = [dot] \/ w = [dot; dot].

Lemma path_text_app names last : path_text names last = path_text names [] ++ last.
Proof. unfold path_text. by rewrite app_nil_r. Qed.

Lemma normal_identity stack names last :
  Forall (fun w => ~ dots w) names -> ~ dots last -> normal stack names last = Some (render (rev names ++ stack) ++ last).
Proof.
  intros Hn Hl. unfold dots in *. revert stack. induction Hn as [|w names Hw Hn IH]; intros stack; cbn [normal].
  - destruct (decide (last = [] \/ last = [dot])) as [[->|?]|?]; [by rewrite app_nil_r|tauto|].
    by destruct (decide _); [tauto|].
  - destruct (decide (w = [dot])); [tauto|]. destruct (decide (w = [dot; dot])); [tauto|]. rewrite IH.
    cbn [rev]. by rewrite <- app_assoc.
Qed.

Lemma normal_identity_text names last :
  Forall (fun w => ~ dots w) names -> ~ dots last -> normal [] names last = Some (path_text names last).
Proof.
  intros Hn Hl. rewrite normal_identity by done. unfold render. by rewrite app_nil_r, rev_involutive, <- path_text_app.
Qed.

(** An empty result stands for the root. *)
Definition or_root (out : list Z) : list Z := if decide (out = []) then [slash] else out.

Lemma normalize_path_normal m a names last s :
  holds m a (path_text names last) -> (2 <= m)%nat -> Forall plain names -> plain last ->
  match normal [] names last with
  | Some out => exists a', normalize_path a s = Done (Some a') s /\ holds m a' (or_root out)
  | None => normalize_path a s = Stuck
  end.
Proof.
  intros Ha Hm Hn Hl. pose proof (holds_length _ _ _ Ha) as Hlen. destruct Ha as (_ & Hma & rest & Hr).
  assert (Hw : at_work a 0 (length (render [])) (path_text names last) (render [])) by (split; [by exists rest|done]).
  pose proof (loop_normal (S (length a)) names [] a 0 last s Hw Hn Hl (Forall_nil_2 _) ltac:(lia)) as H.
  change (Z.of_nat (length (render []))) with 0 in H. change (Z.of_nat 0) with 0 in H.
  unfold normalize_path, mbind, user_bind. destruct (normal [] names last) as [out|] eqn:E.
  - destruct H as (a' & r' & -> & ((rest' & Hd) & Ht & Hk & Hle) & Hla). cbv beta iota zeta.
    assert (Hlt : (length out < length a')%nat).
    { assert (r' < length a')%nat; [|lia]. apply (f_equal length) in Hd. rewrite length_drop in Hd. simpl in Hd. lia. }
    rewrite local_set_nat by done. pose proof (normal_chars _ _ _ Hn Hl E) as Hc. unfold or_root.
    assert (Hset : forall c, <[length out := c]> a' = out ++ c :: drop (S (length out)) a').
    { intros c. rewrite insert_take_drop by done. by rewrite Ht. }
    destruct (decide (out = [])) as [->|Hne].
    + change (Z.of_nat (length [])) with 0. change (0 =? 0) with true. cbn [negb length] in *.
      pose proof (local_set_nat (<[0%nat := 0]> a') 0 slash s) as E0. change (Z.of_nat 0) with 0 in E0.
      rewrite E0 by (rewrite length_insert; lia).
      pose proof (local_set_nat (<[0%nat := slash]> (<[0%nat := 0]> a')) 1 0 s) as E1. change (Z.of_nat 1) with (0 + 1) in E1.
      rewrite E1 by (rewrite !length_insert; lia).
      eexists. split; [reflexivity|]. split; [by repeat constructor|]. split; [rewrite !length_insert; lia|].
      destruct a' as [|x [|y a']]; simpl in *; [lia|lia|]. by exists a'.
    + destruct (Z.eqb_spec (Z.of_nat (length out)) 0) as [H0|H0]; [destruct out; [done|simpl in H0; lia]|]. cbn [negb].
      eexists. split; [reflexivity|]. split; [done|]. split; [rewrite length_insert; lia|]. rewrite Hset. by eexists.
  - destruct H as [->|(a' & z & Hz & ->)]; [done|]. cbv beta iota zeta. by rewrite set_negative.
Qed.
End Normalize.
