(* ===== verification/Commands.v ===== *)
(** * Commands of the shell: proofs

    The handlers of [cd] and of the programs in [/bin], on lines of words. *)

From Stdlib Require Import Strings.String.
From S2P Require Import Prelude Exec Kernel Devices Memory Cstring Arrays User FatTypes Syscalls Shell ShellLogic.

(** ** Rules of the string functions *)

Section Strings.
Context {W : Type}.
Implicit Types (a l b d : list Z) (n m : nat) (E : W -> Prop) (w : W).

Lemma uwp_strlen n a l (Q : Z -> W -> Prop) E w :
  small n -> holds n a l -> Q (Z.of_nat (length l)) w -> uwp (strlen a) Q E w.
Proof. intros Hn Ha HQ. by apply (uwp_local _ (Z.of_nat (length l))); [eapply array_strlen_holds|]. Qed.

Lemma uwp_strcat n m d a l b (Q : list Z -> W -> Prop) E w :
  small n -> small m -> holds n d l -> holds m a b -> (length l + length b < n)%nat ->
  (forall d', holds n d' (l ++ b) -> Q d' w) -> uwp (strcat d a) Q E w.
Proof.
  intros Hn Hm Hd Ha Hlen HQ. destruct (array_strcat_holds n m d l a b w) as (d' & H & Hd'); [done..|].
  by apply (uwp_local _ d'); [|apply HQ].
Qed.

Lemma uwp_strcpy n m d a l b (Q : list Z -> W -> Prop) E w :
  small n -> small m -> holds n d l -> holds m a b -> (length b < n)%nat ->
  (forall d', holds n d' b -> Q d' w) -> uwp (strcpy d a) Q E w.
Proof.
  intros Hn Hm Hd Ha Hlen HQ. destruct (array_strcpy_holds n m d l a b w) as (d' & H & Hd'); [done..|].
  by apply (uwp_local _ d'); [|apply HQ].
Qed.

Lemma uwp_strsplit m n1 n2 src l c (Q : list Z * list Z -> W -> Prop) E w :
  holds m src l -> Forall in_line l -> (length l < n1)%nat -> (length l < n2)%nat -> small m -> small n1 -> small n2 ->
  (forall a b, holds n1 a (fields c l).1 -> holds n2 b (default [] (fields c l).2) -> Q (a, b) w) ->
  uwp (strsplit src c (zeroed n1) (zeroed n2)) Q E w.
Proof.
  intros Hs Hl H1 H2 Hm Hn1 Hn2 HQ. destruct (array_strsplit_holds m n1 n2 src c l w) as (a & b & H & Ha & Hb); [done..|].
  by apply (uwp_local _ (a, b)); [|apply HQ].
Qed.

Lemma uwp_memcpy n d a (Q : list Z -> W -> Prop) E w :
  (0 < n)%nat -> length d = n -> length a = n -> Q a w -> uwp (memcpy d a n) Q E w.
Proof. intros Hn Hd Ha HQ. by apply (uwp_local _ a); [apply array_memcpy_all|]. Qed.

Lemma uwp_char a i z c (Q : Z -> W -> Prop) E w : a !! i = Some c -> z = Z.of_nat i -> Q c w -> uwp (char_at a z) Q E w.
Proof. intros H -> HQ. unfold uwp, wp. by rewrite (char_at_nat _ _ _ _ H). Qed.

Lemma uwp_normalize m a names last out (Q : list Z -> W -> Prop) E w :
  holds m a (path_text names last) -> (2 <= m)%nat -> Forall plain names -> plain last -> normal [] names last = Some out ->
  (forall a', holds m a' (or_root out) -> Q a' w) -> uwp (normalize_path a) Q E w.
Proof.
  intros Ha Hm Hn Hl Hout HQ. pose proof (normalize_path_normal m a names last w Ha Hm Hn Hl) as H. rewrite Hout in H.
  destruct H as (a' & H & Ha'). unfold uwp, wp. rewrite H. by apply HQ.
Qed.

(** The array of a command. *)
Lemma command_array_holds : holds MAX_COMMAND_DIMENSION command_array [].
Proof. apply holds_zeroed. unfold MAX_COMMAND_DIMENSION. lia. Qed.

Lemma small_command : small MAX_COMMAND_DIMENSION.
Proof. unfold small, MAX_COMMAND_DIMENSION. lia. Qed.

Lemma small_constant l : (length l < MAX_COMMAND_DIMENSION)%nat -> small (S (length l)).
Proof. unfold small, MAX_COMMAND_DIMENSION. lia. Qed.
End Strings.

(** ** Words *)

(** Words with a space between them. *)
Definition words_text (ws : list (list Z)) : list Z :=
  match ws with
  | [] => []
  | w :: ws => w ++ concat (map (cons space) ws)
  end.

Definition word (w : list Z) : Prop := w <> [] /\ Forall (fun c => 0 < c < 2 ^ 8 /\ c <> space /\ in_line c) w.

Lemma words_text_cons w ws : words_text (w :: ws) = w ++ match ws with [] => [] | _ => space :: words_text ws end.
Proof. destruct ws; done. Qed.

Lemma fields_words w ws : word w ->
  fields space (words_text (w :: ws)) = (w, match ws with [] => None | _ => Some (words_text ws) end).
Proof.
  intros [_ Hw]. assert (space ∉ w).
  { intros H. eapply Forall_forall in Hw; [|exact H]. naive_solver. }
  rewrite words_text_cons. destruct ws; [by rewrite app_nil_r, fields_none|by apply fields_app].
Qed.

Lemma words_in_line ws : Forall word ws -> Forall in_line (words_text ws) /\ chars (words_text ws).
Proof.
  assert (Hw : forall w, word w -> Forall in_line w /\ chars w).
  { intros w [_ Hw]. split; (eapply Forall_impl; [exact Hw|]; naive_solver). }
  induction 1 as [|w ws H Hws [IH1 IH2]]; [split; constructor|]. rewrite words_text_cons. destruct (Hw w H) as [H1 H2].
  split; apply Forall_app; split; try done; (destruct ws; [constructor|]); by constructor.
Qed.

Section Exec_from_bin.
Context {W : Type} `{!System W}.
Implicit Types (a l b d raw : list Z) (ws : list (list Z)) (n m : nat) (E : W -> Prop) (w : W).

(** The rows of the arguments. *)
Lemma uwp_split_arguments n raw ws (Q : list (list Z) -> W -> Prop) E w :
  holds MAX_COMMAND_DIMENSION raw (words_text ws) -> Forall word ws ->
  (forall rows, Forall2 (holds MAX_COMMAND_DIMENSION) rows (take n ws) -> Q rows w) ->
  uwp (split_arguments n raw) Q E w.
Proof.
  revert raw ws Q. induction n as [|n IH]; intros raw ws Q Hraw Hws HQ; cbn [split_arguments]; apply uwp_bind;
    (eapply uwp_strlen; [exact small_command|exact Hraw|]).
  { destruct (negb _); apply uwp_ret, HQ; constructor. }
  destruct Hws as [|v ws Hv Hws]; [apply uwp_ret, HQ; constructor|].
  pose proof (holds_length _ _ _ Hraw) as Hlen. destruct (words_in_line (v :: ws)) as [Hin _]; [by constructor|].
  destruct (Z.ltb_spec 0 (Z.of_nat (length (words_text (v :: ws))))) as [_|H0].
  2: { destruct Hv as [Hv _]. destruct v; [done|]. simpl in H0. lia. }
  cbn [negb]. apply uwp_bind. eapply (uwp_strsplit _ MAX_COMMAND_DIMENSION MAX_COMMAND_DIMENSION);
    [exact Hraw|exact Hin|exact Hlen|exact Hlen|exact small_command..|].
  intros a b Ha Hb. rewrite fields_words in * by done. cbn [fst snd] in *. apply uwp_bind.
  assert (Hb' : holds MAX_COMMAND_DIMENSION b (words_text ws)) by by destruct ws.
  eapply uwp_strcpy; [exact small_command|exact small_command|exact Hraw|exact Hb'|by eapply holds_length|].
  intros raw' Hraw'. apply uwp_bind. eapply IH; [exact Hraw'|exact Hws|]. intros rows Hrows. apply uwp_ret, HQ.
  simpl. by constructor.
Qed.

(** The strings of the rows are what the kernel is given. *)
Lemma uwp_rows_text rows ws (Q : list (list Z) -> W -> Prop) E w :
  Forall2 (holds MAX_COMMAND_DIMENSION) rows ws -> Q ws w -> uwp (rows_text (length rows) rows) Q E w.
Proof.
  intros H. revert Q. induction H as [|row v rows ws Hr H IH]; intros Q HQ; cbn [rows_text length]; [exact HQ|].
  apply uwp_bind. eapply uwp_text; [exact small_command|exact Hr|]. apply uwp_bind, IH. exact HQ.
Qed.

Lemma uwp_exec n path l rows ws (Q : Z -> W -> Prop) E w :
  small n -> holds n path l -> Forall2 (holds MAX_COMMAND_DIMENSION) rows ws ->
  uwp (call (Execute l ws)) (fun r w => Q (s32 (value r)) w) E w ->
  uwp (call_syscall_exec path (Z.of_nat (length rows)) rows) Q E w.
Proof.
  intros Hn Hp Hr H. unfold call_syscall_exec. apply uwp_bind. eapply uwp_text; [exact Hn|exact Hp|].
  apply uwp_bind. rewrite Nat2Z.id. eapply uwp_rows_text; [exact Hr|]. by apply uwp_result.
Qed.
End Exec_from_bin.

(** ** Messages *)

(** Calls that only tell the user something, or end the process. *)
Definition message (c : syscall) : Prop :=
  match c with Write _ | WriteHex _ | Exit => True | _ => False end.

(** [h'] has only messages more than [h]. *)
Definition told (h h' : list syscall) : Prop := exists rest, h' = h ++ rest /\ Forall message rest.

#[export] Instance told_preorder : PreOrder told.
Proof.
  split.
  - intros h. exists []. rewrite app_nil_r. split; [done|constructor].
  - intros h1 h2 h3 (r1 & -> & H1) (r2 & -> & H2). exists (r1 ++ r2). split; [by rewrite app_assoc|by apply Forall_app].
Qed.

Section Messages.
Context (answer : list syscall -> syscall -> option reply).
#[local] Existing Instance transcript.
Implicit Types (h : list syscall) (E : list syscall -> Prop).

(** A program that only tells something. *)
Definition talks {A} (m : User (list syscall) A) : Prop := forall h, uwp m (fun _ => told h) (told h) h.

Lemma talks_ret {A} (a : A) : talks (mret a).
Proof. intros h. apply uwp_ret. reflexivity. Qed.

Lemma talks_bind {A B} (m : User (list syscall) A) (f : A -> User (list syscall) B) :
  talks m -> (forall a, talks (f a)) -> talks (m ≫= f).
Proof.
  intros Hm Hf h. apply uwp_bind. eapply uwp_mono; [apply Hm| |done]. intros a h' H.
  eapply uwp_mono; [apply Hf|intros b h'' H2|intros h'' H2]; simpl in *; by transitivity h'.
Qed.

Lemma talks_call c : message c -> talks (call (System0 := transcript answer) c).
Proof.
  intros Hc h. apply uwp_call. assert (H : told h (h ++ [c])) by (exists [c]; by repeat constructor).
  by destruct (answer h c).
Qed.

Lemma talks_ignore c : message c -> talks (ignore (System0 := transcript answer) c).
Proof. intros Hc. apply talks_bind; [by apply talks_call|]. intros r. apply talks_ret. Qed.

Lemma talks_write n a l : small n -> holds n a l -> talks (call_syscall_write (System0 := transcript answer) a).
Proof. intros Hn Ha h. eapply uwp_write; [exact Hn|exact Ha|]. by apply talks_call. Qed.

Lemma talks_say s :
  forallb (fun c => (0 <? c) && (c <? 2 ^ 8)) (literal s) && (Z.of_nat (S (length (literal s))) <? 2 ^ 62) = true ->
  talks (say (System0 := transcript answer) s).
Proof.
  rewrite andb_true_iff, forallb_forall, Z.ltb_lt. intros [Hs Hn] h. apply uwp_say; [|exact Hn|by apply talks_call].
  apply Forall_forall. intros c Hc. apply list_elem_of_In, Hs, andb_true_iff in Hc as [? ?]. lia.
Qed.

Lemma talks_run_if {A} b (m : User (list syscall) A) : talks m -> talks (run_if b m).
Proof. intros Hm. destruct b; [|apply talks_ret]. apply talks_bind; [done|]. intros ?. apply talks_ret. Qed.

(** To tell something does not spoil a condition that messages keep. *)
Lemma uwp_talks {A} (m : User (list syscall) A) (Q : A -> list syscall -> Prop) E h :
  talks m -> (forall a h', told h h' -> Q a h') -> (forall h', told h h' -> E h') -> uwp m Q E h.
Proof. intros Hm HQ HE. eapply uwp_mono; [apply Hm|exact HQ|exact HE]. Qed.
End Messages.

Create HintDb talks.
#[export] Hint Resolve talks_ret talks_ignore talks_run_if : talks.
#[export] Hint Extern 1 (talks (say _)) => (apply talks_say; reflexivity) : talks.
#[export] Hint Extern 1 (talks (say_line _)) => (apply talks_say; reflexivity) : talks.
#[export] Hint Extern 2 (talks (_ ≫= _)) => (apply talks_bind; [|intros ?]) : talks.
#[export] Hint Extern 1 (message _) => exact I : talks.

(** ** A program in [/bin] *)

Section Program.
Context (answer : list syscall -> syscall -> option reply).
#[local] Existing Instance transcript.
Implicit Types (h : list syscall) (name : list Z) (args : list (list Z)).

(** The file of the program [name]. *)
Definition program_file name : list Z := literal "/bin/" ++ name ++ literal ".bin".

Lemma program_file_plain name : word name -> Forall (fun c => c <> slash) name ->
  program_file name = path_text [[]; literal "bin"] (name ++ literal ".bin") /\ plain (name ++ literal ".bin").
Proof.
  intros [_ Hw] Hs. split; [reflexivity|]. split; [|right; right].
  - apply Forall_app. split; [|repeat constructor; done]. rewrite Forall_forall in *. intros c Hc. split; [|by apply Hs].
    by apply Hw in Hc as [? _].
  - clear. induction name as [|c [|c' name] IH]; [done|done|exact IH].
Qed.

Lemma program_names_plain :
  Forall plain [[]; literal "bin"] /\ Forall (fun w => ~ dots w) [[]; literal "bin"].
Proof.
  split.
  - apply Forall_cons; split; [split; [constructor|by right; right]|]. apply Forall_singleton.
    split; [by repeat constructor|by right; right].
  - apply Forall_cons; split; [by intros [?|?]|]. apply Forall_singleton. by intros [?|?].
Qed.

Lemma wait_for_talks pid h :
  uwp (wait_for (System0 := transcript answer) pid) (fun _ => told (h ++ [Wait pid])) (told (h ++ [Wait pid])) h.
Proof.
  apply uwp_bind, uwp_result, uwp_call. destruct (answer h (Wait pid)) as [r|]; [|done].
  apply uwp_talks; [|done..]. apply talks_run_if. unfold call_syscall_write_hex. auto 10 with talks.
Qed.

(** The calls of [handle_exec_from_bin]. *)
Definition program_calls name args (pid : Z) : list syscall :=
  if pid =? 0 then [Fork; Execute (program_file name) (take MAX_EXEC_ARGUMENTS args)] else [Fork; Wait pid].

Lemma uwp_handle_exec_from_bin buffer name args r h :
  holds MAX_COMMAND_DIMENSION buffer (words_text (name :: args)) -> Forall word (name :: args) ->
  Forall (fun c => c <> slash) name -> (length (program_file name) < MAX_COMMAND_DIMENSION)%nat ->
  answer h Fork = Some r ->
  let after := told (h ++ program_calls name args (s32 (value r))) in
  uwp (handle_exec_from_bin (System0 := transcript answer) buffer) (fun _ => after) after h.
Proof.
  intros Hb Hws Hs Hfit Hr after. pose proof (holds_length _ _ _ Hb) as Hlen. pose proof small_command as Hsm.
  pose proof command_array_holds as Hca. destruct (words_in_line _ Hws) as [Hin _].
  apply Forall_cons in Hws as [Hname Hargs]. unfold handle_exec_from_bin. apply uwp_bind.
  eapply (uwp_strsplit _ MAX_COMMAND_DIMENSION MAX_COMMAND_DIMENSION); [exact Hb|exact Hin|exact Hlen|exact Hlen|done..|].
  intros file_name raw Hf Hraw. rewrite fields_words in * by done. cbn [fst snd] in *.
  assert (Hraw' : holds MAX_COMMAND_DIMENSION raw (words_text args)) by by destruct args.
  assert (Hbin : holds 6 (constant "/bin/") (literal "/bin/")) by (apply (holds_constant (literal "/bin/")); by repeat constructor).
  assert (Hdot : holds 5 (constant ".bin") (literal ".bin")) by (apply (holds_constant (literal ".bin")); by repeat constructor).
  assert (H6 : small 6) by done. assert (H5 : small 5) by done.
  apply uwp_bind, (uwp_strlen 6 _ (literal "/bin/")); [done..|]. apply uwp_bind, (uwp_strlen MAX_COMMAND_DIMENSION _ name); [done..|].
  apply uwp_bind, (uwp_strlen 5 _ (literal ".bin")); [done..|].
  unfold program_file in Hfit. rewrite !length_app in Hfit. cbn [length literal] in Hfit.
  destruct (Z.leb_spec (Z.of_nat MAX_COMMAND_DIMENSION) (Z.of_nat (length (literal "/bin/")) + Z.of_nat (length name) + Z.of_nat (length (literal ".bin")))) as [Hle|_];
    [cbn [length literal] in Hle; lia|].
  apply uwp_bind. eapply uwp_strcat; [exact Hsm|exact H6|exact Hca|exact Hbin|cbn [length literal]; lia|]. intros p1 Hp1.
  apply uwp_bind. eapply uwp_strcat; [exact Hsm|exact Hsm|exact Hp1|exact Hf|rewrite length_app; cbn [length literal]; lia|]. intros p2 Hp2.
  apply uwp_bind. eapply uwp_strcat; [exact Hsm|exact H5|exact Hp2|exact Hdot|rewrite !length_app; cbn [length literal]; lia|]. intros p3 Hp3.
  rewrite app_nil_l, <- app_assoc in Hp3. fold (program_file name) in Hp3. destruct (program_file_plain name) as [Hpf Hpl]; [done..|].
  apply uwp_bind. rewrite Hpf in Hp3. destruct program_names_plain as [Hpn Hpd].
  eapply uwp_normalize; [exact Hp3|unfold MAX_COMMAND_DIMENSION; lia|exact Hpn|exact Hpl| |].
  { apply normal_identity_text; [exact Hpd|]. intros [E|E]; apply (f_equal length) in E; rewrite length_app in E; cbn in E; lia. }
  rewrite <- Hpf. intros p4 Hp4. apply uwp_bind. eapply uwp_split_arguments; [exact Hraw'|exact Hargs|]. intros rows Hrows.
  apply uwp_bind, uwp_result, uwp_call. rewrite Hr. unfold after, program_calls. destruct (s32 (value r) =? 0).
  - apply uwp_bind. eapply uwp_exec; [exact Hsm|exact Hp4|exact Hrows|]. apply uwp_call. rewrite <- app_assoc.
    destruct (answer (h ++ [Fork]) _) as [e|]; [|reflexivity]. apply uwp_talks; [|done..].
    apply talks_bind; [|intros ?; unfold call_syscall_exit; auto with talks]. apply talks_run_if, talks_bind.
    + unfold say_about. apply talks_bind; [auto with talks|intros ?]. apply talks_bind; [|intros ?; auto with talks].
      eapply talks_write; [exact Hsm|exact Hf].
    + intros ?. unfold call_syscall_exit. auto with talks.
  - replace (h ++ [Fork; Wait (s32 (value r))]) with ((h ++ [Fork]) ++ [Wait (s32 (value r))]) by by rewrite <- app_assoc.
    apply wait_for_talks.
Qed.

(** The words the shell takes for a command when a line begins with them. *)
Definition commands : list string :=
  ["help"; "ls"; "pwd"; "mkdir"; "cd"; "tree"; "clear"; "write"; "show"; "exec"]%string.

Lemma uwp_not_same n buffer line (s : string) k (Q : bool -> list syscall -> Prop) E h :
  holds n buffer line -> ~ literal s `prefix_of` line -> chars (literal s) -> k = Z.of_nat (length (literal s)) ->
  Q false h -> uwp (same buffer s k) Q E h.
Proof.
  intros (Hc & _ & t & ->) Hp Hs -> HQ. unfold same, array_memcmp. rewrite Nat2Z.id.
  destruct (compare_cells_differs (literal s) 0 (line ++ 0 :: t) (constant s) line t [0] h) as (r & Hr & Er); [done..|].
  apply uwp_bind, (uwp_local _ r); [exact Er|]. apply uwp_ret. by rewrite (proj2 (Z.eqb_neq r 0)).
Qed.

(** A line that begins with no command. *)
Lemma uwp_run_program fuel stack buffer working line (P : list syscall -> Prop) h :
  holds MAX_COMMAND_DIMENSION buffer line -> Forall (fun s => ~ literal s `prefix_of` line) commands ->
  uwp (handle_exec_from_bin (System0 := transcript answer) buffer) (fun _ => P) P h ->
  uwp (run_command (System0 := transcript answer) fuel stack buffer working) (fun working' h' => working' = working /\ P h') P h.
Proof.
  intros Hb Hn H. unfold run_command. cbv zeta. unfold commands in Hn. rewrite !Forall_cons in Hn.
  destruct Hn as (H1 & H2 & H3 & H4 & H5 & H6 & H7 & H8 & H9 & H10 & _).
  do 10 (apply uwp_bind; eapply (uwp_not_same MAX_COMMAND_DIMENSION); [exact Hb|eassumption|by repeat constructor|reflexivity|]).
  apply uwp_bind. eapply uwp_mono; [exact H| |done]. by intros [] h' HP.
Qed.
End Program.

(** ** Changing the directory *)

(** The text of a directory: every name ends with a slash, and there are no
    dots. *)
Definition name (w : list Z) : Prop := plain w /\ ~ dots w.
Definition directory (text : list Z) : Prop := exists names, names <> [] /\ Forall name names /\ text = path_text names [].

(** What [cd] makes of its argument, and the names it starts from. *)
Definition with_slash (dest : list Z) : list Z := if decide (last dest = Some slash) then dest else dest ++ [slash].
Definition joined (working dest : list (list Z)) : list (list Z) :=
  if decide (dest !! 0%nat = Some []) then dest else working ++ dest.

Lemma normal_directory stack names out :
  Forall name stack -> Forall plain names -> normal stack names [] = Some out -> directory (or_root out).
Proof.
  intros Hst Hn. revert stack Hst. induction Hn as [|w names Hw Hn IH]; intros stack Hst; cbn [normal].
  - destruct (decide _) as [_|Hd]; [|by destruct Hd; left]. intros [= <-]. unfold or_root. destruct stack as [|v stack].
    + exists [[]]. split; [done|]. split; [|done]. apply Forall_singleton. split; [by split; [constructor|by right; right]|by intros [?|?]].
    + destruct (decide _) as [E|_].
      { apply (f_equal length) in E. rewrite render_cons, !length_app in E. simpl in E. lia. }
      exists (rev (v :: stack)). split; [|split; [|done]].
      * intros E. apply (f_equal length) in E. by rewrite length_rev in E.
      * by apply Forall_rev.
  - destruct (decide (w = [dot])) as [->|H1]; [by apply IH|]. destruct (decide (w = [dot; dot])) as [->|H2].
    + destruct Hst as [|v stack Hv Hst]; [done|]. by apply IH.
    + apply IH. constructor; [|done]. split; [done|]. by intros [?|?].
Qed.

(** What a path means has no dots, so it means itself. *)
Lemma normal_result stack names last out :
  Forall name stack -> Forall plain names -> plain last -> normal stack names last = Some out ->
  exists names' last', or_root out = path_text names' last' /\ Forall name names' /\ plain last' /\ ~ dots last'.
Proof.
  intros Hst Hn Hl. revert stack Hst. induction Hn as [|w names Hw Hn IH]; intros stack Hst; cbn [normal].
  - assert (Hnil : plain [] /\ ~ dots []) by (split; [split; [constructor|by right; right]|by intros [?|?]]).
    assert (Hdir : forall st, Forall name st -> normal st [] [] = Some (render st)) by (intros st _; cbn [normal]; by rewrite decide_True by by left).
    assert (Hrender : forall st, Forall name st -> exists names' last', or_root (render st) = path_text names' last' /\
        Forall name names' /\ plain last' /\ ~ dots last').
    { intros st H. destruct (normal_directory st [] (render st)) as (ns & _ & H1 & H2); [done|done|by apply Hdir|].
      exists ns, []. by split. }
    destruct (decide (last = [] \/ last = [dot])); [intros [= <-]; by apply Hrender|].
    destruct (decide (last = [dot; dot])) as [|Hdd].
    + destruct Hst as [|v stack Hv Hst]; [done|]. intros [= <-]. by apply Hrender.
    + intros [= <-]. exists (rev stack), last. unfold or_root. destruct (decide _) as [E|_].
      { apply app_eq_nil in E as [_ ->]. tauto. }
      split; [unfold render; by rewrite (path_text_app _ last)|]. split; [by apply Forall_rev|]. split; [done|].
      intros [?|?]; tauto.
  - destruct (decide (w = [dot])) as [->|H1]; [by apply IH|]. destruct (decide (w = [dot; dot])) as [->|H2].
    + destruct Hst as [|v stack Hv Hst]; [done|]. by apply IH.
    + apply IH. constructor; [|done]. split; [done|]. by intros [?|?].
Qed.

Lemma or_root_twice out : or_root (or_root out) = or_root out.
Proof.
  unfold or_root. destruct (decide (out = [])); [by rewrite decide_False|]. by rewrite decide_False.
Qed.

Lemma normalize_twice {W} m a names last out (s : W) :
  holds m a (or_root out) -> (2 <= m)%nat -> Forall plain names -> plain last -> normal [] names last = Some out ->
  exists a', normalize_path a s = Done (Some a') s /\ holds m a' (or_root out).
Proof.
  intros Ha Hm Hn Hl Hout. destruct (normal_result [] names last out) as (ns & l & E & H1 & H2 & H3); [done..|].
  rewrite E in *. assert (Hp : Forall plain ns) by (eapply Forall_impl; [exact H1|]; by intros w [? _]).
  pose proof (normalize_path_normal m a ns l s Ha Hm Hp H2) as H.
  rewrite normal_identity_text in H; [|eapply Forall_impl; [exact H1|]; by intros w [_ ?]|done].
  destruct H as (a' & E' & Ha'). exists a'. split; [done|]. rewrite <- E in Ha'.
  rewrite or_root_twice, E in Ha'. done.
Qed.

Lemma path_text_last w names : exists l, path_text (w :: names) [] = l ++ [slash].
Proof.
  unfold path_text. rewrite app_nil_r. destruct (exists_last (l := w :: names)) as (ns & v & ->); [done|].
  rewrite map_app, concat_app. exists (concat (map (fun w => w ++ [slash]) ns) ++ v). simpl. by rewrite app_nil_r, app_assoc.
Qed.

Section Directory.
Context {W : Type}.
Implicit Types (E : W -> Prop) (s : W).

(** The path before it is normalised. *)
Lemma uwp_join_paths wd dest wn dn (Q : list Z -> W -> Prop) E s :
  holds MAX_COMMAND_DIMENSION wd (path_text wn []) -> holds MAX_COMMAND_DIMENSION dest (path_text dn []) ->
  wn <> [] -> dn <> [] -> Forall plain dn -> (length (path_text (joined wn dn) []) < MAX_COMMAND_DIMENSION)%nat ->
  (forall a, holds MAX_COMMAND_DIMENSION a (path_text (joined wn dn) []) -> Q a s) -> uwp (join_paths wd dest) Q E s.
Proof.
  intros Hwd Hd Hwn Hdn Hpl Hfit HQ. pose proof small_command as Hsm.
  assert (Hca : length command_array = MAX_COMMAND_DIMENSION) by apply length_replicate.
  assert (H0 : (0 < MAX_COMMAND_DIMENSION)%nat) by (unfold MAX_COMMAND_DIMENSION; lia).
  destruct dn as [|v dn]; [done|]. unfold joined in *. pose proof Hd as (_ & Hdl & rest & Hdr). rewrite path_text_cons in Hdr.
  unfold join_paths. cbv zeta. apply uwp_bind. destruct v as [|c v]; cbn [lookup list_lookup] in *.
  - apply (uwp_char _ 0 _ slash); [by rewrite Hdr|done|]. rewrite Z.eqb_refl. apply uwp_memcpy; [done|done|done|].
    apply HQ. by destruct (decide _).
  - apply Forall_cons in Hpl as [[Hc _] _]. apply Forall_cons in Hc as [[_ Hc] _].
    apply (uwp_char _ 0 _ c); [by rewrite Hdr|done|]. destruct (Z.eqb_spec c slash); [done|].
    destruct (decide (Some (c :: v) = Some [])); [done|]. pose proof Hwd as (_ & Hwl & rest' & Hwr).
    apply uwp_bind, uwp_memcpy; [done|done|done|]. apply uwp_bind. eapply uwp_strlen; [exact Hsm|exact Hwd|]. apply uwp_bind.
    destruct wn as [|w wn]; [done|]. destruct (path_text_last w wn) as (l & Hl).
    assert (Happ : path_text (w :: wn) [] ++ path_text ((c :: v) :: dn) [] = path_text ((w :: wn) ++ (c :: v) :: dn) []).
    { unfold path_text. by rewrite !app_nil_r, map_app, concat_app. }
    assert (Hcat : uwp (strcat wd dest) Q E s).
    { eapply uwp_strcat; [exact Hsm|exact Hsm|exact Hwd|exact Hd| |].
      - rewrite <- Happ, length_app in Hfit. done.
      - intros d'. rewrite Happ. apply HQ. }
    destruct (2 <? _); [|by apply uwp_ret]. apply uwp_bind. rewrite Hl in *. rewrite length_app in *. cbn [length] in *.
    apply (uwp_char _ (length l) _ slash); [|lia|].
    + rewrite Hwr, <- app_assoc. by rewrite lookup_app_r, Nat.sub_diag by lia.
    + rewrite Z.eqb_refl. by apply uwp_ret.
Qed.

Lemma uwp_cd_destination buffer dest (Q : list Z -> W -> Prop) E s :
  holds MAX_COMMAND_DIMENSION buffer (literal "cd" ++ space :: dest) -> Forall in_line dest -> dest <> [] ->
  (forall d, holds MAX_COMMAND_DIMENSION d (with_slash dest) -> Q d s) -> uwp (cd_destination buffer) Q E s.
Proof.
  intros Hb Hin Hne HQ. pose proof small_command as Hsm. pose proof (holds_length _ _ _ Hb) as Hlen.
  unfold cd_destination. apply uwp_bind.
  eapply (uwp_strsplit _ MAX_COMMAND_DIMENSION MAX_COMMAND_DIMENSION); [exact Hb| |exact Hlen|exact Hlen|exact Hsm..|].
  { repeat (constructor; [done|]). done. }
  intros command d _ Hd. rewrite fields_app in Hd by by apply (bool_decide_unpack _). cbn [snd] in Hd.
  change (default [] (Some dest)) with dest in Hd. apply uwp_bind. eapply uwp_strlen; [exact Hsm|exact Hd|]. apply uwp_bind.
  unfold with_slash in HQ. rewrite last_lookup in HQ. rewrite length_app in Hlen. cbn [length literal] in Hlen.
  destruct (lookup_lt_is_Some_2 dest (pred (length dest))) as [c Hc]; [destruct dest; [done|simpl; lia]|].
  pose proof (lookup_lt_Some _ _ _ Hc). apply (uwp_char _ (pred (length dest)) _ c); [|lia|].
  { destruct Hd as (_ & _ & rest & ->). by apply lookup_app_l_Some. }
  rewrite Hc in HQ. destruct (Z.eqb_spec c slash) as [->|Hcs]; cbn [negb].
  - apply uwp_ret, HQ. by destruct (decide _).
  - eapply (uwp_strcat _ 2 _ _ dest [slash]); [exact Hsm|done|exact Hd| |simpl; lia|].
    + apply (holds_constant [slash]). by repeat constructor.
    + intros d' Hd'. apply HQ. destruct (decide _) as [E'|_]; [congruence|done].
Qed.
End Directory.

Section Cd.
Context (answer : list syscall -> syscall -> option reply).
#[local] Existing Instance transcript.
Implicit Types (h : list syscall) (wd buffer dest : list Z) (wn dn : list (list Z)).

(** The conditions of the commands [cd dest] below. *)
Record cd_command buffer wd dest wn dn : Prop := mkCd {
  cd_buffer : holds MAX_COMMAND_DIMENSION buffer (literal "cd" ++ space :: dest);
  cd_line : Forall in_line dest;
  cd_some : dest <> [];
  cd_working : holds MAX_COMMAND_DIMENSION wd (path_text wn []);
  cd_working_names : wn <> [] /\ Forall name wn;
  cd_names : with_slash dest = path_text dn [] /\ dn <> [] /\ Forall plain dn;
  cd_fits : (length (path_text (joined wn dn) []) < MAX_COMMAND_DIMENSION)%nat;
}.

Lemma joined_plain wn dn : Forall name wn -> Forall plain dn -> Forall plain (joined wn dn).
Proof.
  intros Hw Hd. unfold joined. destruct (decide _); [done|]. apply Forall_app. split; [|done].
  eapply Forall_impl; [exact Hw|]. by intros w [? _].
Qed.

Lemma uwp_handle_cd buffer wd dest wn dn out r h :
  cd_command buffer wd dest wn dn -> normal [] (joined wn dn) [] = Some out -> answer h (OpenDir (or_root out)) = Some r ->
  let asked := told (h ++ [OpenDir (or_root out)]) in
  uwp (handle_cd (System0 := transcript answer) buffer wd)
    (fun wd' h' => asked h' /\
       (if s32 (value r) =? -1 then wd' = wd else h' = h ++ [OpenDir (or_root out)] /\ holds MAX_COMMAND_DIMENSION wd' (or_root out)))
    asked h.
Proof.
  intros [Hb Hin Hne Hwd [Hwn Hpw] (Hdn & Hdn0 & Hpd) Hfit] Hout Hr asked. pose proof small_command as Hsm.
  assert (Hpn : Forall plain (joined wn dn)) by by apply joined_plain.
  unfold handle_cd. apply uwp_bind. apply (uwp_cd_destination _ dest); [done..|]. intros d Hd. rewrite Hdn in Hd.
  apply uwp_bind. unfold resolve. apply uwp_bind. apply (uwp_join_paths _ _ wn dn); [done..|]. intros temp Htemp.
  eapply uwp_normalize; [exact Htemp|unfold MAX_COMMAND_DIMENSION; lia|exact Hpn|split; [constructor|by right; right]|exact Hout|].
  intros temp' Htemp'. apply uwp_bind. unfold call_syscall_open_dir. apply uwp_bind.
  eapply uwp_text; [exact Hsm|exact Htemp'|]. apply uwp_result, uwp_call. rewrite Hr. destruct (s32 (value r) =? -1).
  - apply uwp_bind, uwp_talks; [|intros _ h' Hh'; by apply uwp_ret|done]. unfold say_about.
    apply talks_bind; [auto with talks|intros ?]. apply talks_bind; [|intros ?; auto with talks].
    eapply talks_write; [exact Hsm|exact Htemp'].
  - destruct Hwd as (_ & Hwl & _). destruct Htemp' as (H1 & H2 & H3). apply uwp_memcpy; [unfold MAX_COMMAND_DIMENSION; lia|done|done|].
    split; [unfold asked; reflexivity|]. by split.
Qed.

(** Above the root. *)
Lemma handle_cd_stuck buffer wd dest wn dn h :
  cd_command buffer wd dest wn dn -> normal [] (joined wn dn) [] = None ->
  handle_cd (System0 := transcript answer) buffer wd h = Stuck.
Proof.
  intros [Hb Hin Hne Hwd [Hwn Hpw] (Hdn & Hdn0 & Hpd) Hfit] Hout. unfold handle_cd.
  apply bind_stuck. apply (uwp_cd_destination _ dest); [done..|]. intros d Hd. rewrite Hdn in Hd.
  unfold mbind at 1, user_bind at 1. unfold resolve.
  rewrite (bind_stuck (join_paths wd d)); [done|]. apply (uwp_join_paths _ _ wn dn); [done..|]. intros temp Htemp.
  pose proof (normalize_path_normal _ temp (joined wn dn) [] h Htemp) as H. rewrite Hout in H.
  apply H; [unfold MAX_COMMAND_DIMENSION; lia|by apply joined_plain|split; [constructor|by right; right]].
Qed.
End Cd.
