(* ===== verification/Console.v ===== *)
(** * The console: the input ring and the line editor

    What [Uart] and [Syscalls] do with the characters of the UART, for a device
    that behaves as the PL011 does. *)

From S2P Require Import Prelude Exec Kernel Devices Memory Cstring Arrays Mm Queue QueueLogic Sched SchedInv SchedSteps Dispatch Algorithms Handlers Processes System Waking FatTypes Machine Uart Syscalls.

(** ** The ring *)

(** The characters [cs] are between [tail] and [head]. *)
Record input_ring (buffer : list Z) (head tail : Z) (cs : list Z) : Prop := mkInputRing {
  in_head : 0 <= head < UART_BUFFER_SIZE;
  in_tail : 0 <= tail < UART_BUFFER_SIZE;
  in_cells : length buffer = Z.to_nat UART_BUFFER_SIZE;
  in_count : Z.of_nat (length cs) = (head - tail) `mod` UART_BUFFER_SIZE;
  in_lookup i c : cs !! i = Some c -> array_get buffer ((tail + Z.of_nat i) `mod` UART_BUFFER_SIZE) = Some c;
}.

(** The ring keeps one cell empty. *)
Definition ring_capacity : nat := 63.

Section Ring.
Implicit Types (b cs : list Z) (head tail c : Z).

Lemma in_bound b head tail cs : input_ring b head tail cs -> (length cs <= ring_capacity)%nat.
Proof.
  intros Hr. pose proof (in_count _ _ _ _ Hr) as E. unfold ring_capacity, UART_BUFFER_SIZE in *.
  Z.div_mod_to_equations. lia.
Qed.

Lemma in_empty b head tail cs : input_ring b head tail cs -> (tail =? head) = bool_decide (cs = []).
Proof.
  intros [Hh Ht _ Hl _]. unfold UART_BUFFER_SIZE in *.
  destruct (Z.eqb_spec tail head), cs; simpl in Hl; case_bool_decide; try done; exfalso; Z.div_mod_to_equations; lia.
Qed.

Lemma in_next tail : 0 <= tail < UART_BUFFER_SIZE -> Z.rem (tail + 1) UART_BUFFER_SIZE = (tail + 1) `mod` UART_BUFFER_SIZE.
Proof. intros. unfold UART_BUFFER_SIZE in *. apply Z.rem_mod_nonneg; lia. Qed.

Lemma in_take b head tail c cs :
  input_ring b head tail (c :: cs) ->
  array_get b tail = Some c /\ input_ring b head (Z.rem (tail + 1) UART_BUFFER_SIZE) cs.
Proof.
  intros [Hh Ht Hb Hl Hc]. pose proof (Hc 0%nat c eq_refl) as H0. rewrite in_next by done.
  unfold UART_BUFFER_SIZE in *. simpl Z.of_nat in H0. rewrite Z.add_0_r, Z.mod_small in H0 by lia.
  split; [done|]. simpl in Hl. constructor; unfold UART_BUFFER_SIZE; [done|apply Z.mod_pos_bound; lia|done|..].
  - Z.div_mod_to_equations. lia.
  - intros i d Hi. rewrite <- (Hc (S i) d Hi). f_equal. rewrite Z.add_mod_idemp_l by lia. f_equal. lia.
Qed.

Lemma in_full b head tail cs :
  input_ring b head tail cs ->
  (Z.rem (head + 1) UART_BUFFER_SIZE =? tail) = bool_decide (length cs = ring_capacity).
Proof.
  intros [Hh Ht _ Hl _]. rewrite in_next by done. unfold ring_capacity, UART_BUFFER_SIZE in *.
  destruct (Z.eqb_spec ((head + 1) `mod` 64) tail); case_bool_decide; try done; exfalso; Z.div_mod_to_equations; lia.
Qed.

Lemma in_put b head tail c cs :
  input_ring b head tail cs -> (length cs < ring_capacity)%nat ->
  exists b', array_set b head c = Some b' /\ input_ring b' (Z.rem (head + 1) UART_BUFFER_SIZE) tail (cs ++ [c]).
Proof.
  intros [Hh Ht Hb Hl Hc] Hf. rewrite in_next by done. unfold ring_capacity, UART_BUFFER_SIZE in *.
  exists (<[Z.to_nat head := c]> b). split.
  { unfold array_set. rewrite Hb. by range_cases; try lia. }
  constructor; unfold UART_BUFFER_SIZE; [apply Z.mod_pos_bound; lia|done|by rewrite length_insert|..].
  { rewrite length_app. simpl. Z.div_mod_to_equations. lia. }
  intros i d Hi. unfold array_get. set (k := (tail + Z.of_nat i) `mod` 64).
  assert (Hk : 0 <= k < 64) by (apply Z.mod_pos_bound; lia). rewrite (proj2 (Z.ltb_ge _ _)) by lia.
  apply lookup_snoc_Some in Hi as [[Hi Hi']|[-> <-]].
  - specialize (Hc i d Hi'). unfold array_get in Hc. fold k in Hc. rewrite (proj2 (Z.ltb_ge _ _)) in Hc by lia.
    rewrite list_lookup_insert_ne; [done|]. assert (head <> k); [|lia]. subst k. Z.div_mod_to_equations. lia.
  - assert (k = head) as -> by (subst k; Z.div_mod_to_equations; lia). apply list_lookup_insert_eq. lia.
Qed.
End Ring.

(** ** Printing *)

Section Printing.
Context {D U : Type} (regs : Registers U) `{!Pl011 regs} (fuel : nat) (Hfuel : (busy_limit < fuel)%nat).
Implicit Types (m : machine D U).

Lemma wp_uart_putc c m (Q : unit -> machine D U -> Prop) :
  (forall u, received u = received (devices m) -> Q tt (set_devices u m)) -> wp (uart_putc regs fuel c) Q m.
Proof using Hfuel. exact (wp_bus_putc regs fuel Hfuel c m Q). Qed.

Lemma wp_puts l m (Q : unit -> machine D U -> Prop) :
  (forall u, received u = received (devices m) -> Q tt (set_devices u m)) -> wp (puts regs fuel l) Q m.
Proof using Hfuel. exact (wp_bus_puts regs fuel Hfuel l m Q). Qed.

Lemma wp_uart_hex num m (Q : unit -> machine D U -> Prop) :
  (forall u, received u = received (devices m) -> Q tt (set_devices u m)) -> wp (uart_hex regs fuel num) Q m.
Proof using Hfuel. exact (wp_bus_hex regs fuel Hfuel num m Q). Qed.
End Printing.

(** ** The line editor *)

(** What a character other than the end of the line does to the line typed so
    far, of at most [max] characters: DEL removes the last one, and there is no
    room for more than [max]. *)
Definition edit (max : nat) (line : list Z) (c : Z) : list Z :=
  if c =? 0x7F then take (pred (length line)) line
  else if decide (length line < max)%nat then line ++ [c] else line.

Definition edited (max : nat) (cs : list Z) : list Z := foldl (edit max) [] cs.

(** Without deletions the line is what was typed, cut at its room. *)
Lemma edited_take max cs : 0x7F ∉ cs -> edited max cs = take max cs.
Proof.
  unfold edited. induction cs as [|c cs IH] using rev_ind; intros H; [by rewrite take_nil|].
  rewrite foldl_snoc, IH by set_solver. unfold edit at 1.
  destruct (Z.eqb_spec c 0x7F) as [->|_]; [set_solver|]. rewrite length_take.
  case_decide; [rewrite !take_ge by (rewrite ?length_app; simpl; lia); done|by rewrite take_app_le by lia].
Qed.

Definition ends_input (c : Z) : bool := (c =? 13) || (c =? 10).

Lemma edit_length max line c : (length line <= max)%nat -> (length (edit max line c) <= max)%nat.
Proof.
  intros H. unfold edit. destruct (c =? 127); [rewrite length_take; lia|].
  case_decide; [rewrite length_app; simpl; lia|done].
Qed.

Lemma edited_length max cs : (length (edited max cs) <= max)%nat.
Proof.
  unfold edited. assert (H : (length (@nil Z) <= max)%nat) by (simpl; lia). revert H. generalize (@nil Z).
  induction cs as [|c cs IH]; intros line H; [done|]. by apply IH, edit_length.
Qed.

Section Editor.
Context {D U : Type} (regs : Registers U) `{!Pl011 regs} (fuel : nat) (Hfuel : (busy_limit < fuel)%nat).
Context (buffer : Z) (max : nat).
Implicit Types (m : machine D U) (cs line : list Z).

Definition machine_ring m cs : Prop := input_ring (uart_buffer m) (uart_head m) (uart_tail m) cs.

(** [m'] is [m] after some input: [line] lies in the buffer and [cs] has not
    been taken off the ring. *)
Record typed m line cs m' : Prop := mkTyped {
  typed_ring : machine_ring m' cs;
  typed_owner : uart_owner m' = uart_owner m;
  typed_memory : kern m' = set_ram (ram (kern m')) (kern m);
  typed_line : bytes_at (ram (kern m')) buffer line;
  typed_room : (length line <= max)%nat;
  typed_frame b : b < buffer \/ buffer + Z.of_nat max < b -> ram (kern m') b = ram (kern m) b;
  typed_received : received (devices m') = received (devices m);
  typed_rest : storage m' = storage m /\ resources m' = resources m /\ curVal m' = curVal m;
}.

Lemma typed_start m cs : machine_ring m cs -> typed m [] cs m.
Proof. intros Hr. constructor; try done; [by destruct m as [[] ? ? ? ? ? ? ? ?]|simpl; lia]. Qed.

(** Taking a character off the ring and echoing it. *)
Lemma typed_taken m line c cs m' u :
  typed m line (c :: cs) m' -> received u = received (devices m') ->
  typed m line cs (set_devices u (set_uart_tail (Z.rem (uart_tail m' + 1) UART_BUFFER_SIZE) m')).
Proof.
  intros [Hr Ho Hk Hl Hn Hf Hd Hs] Hu. apply in_take in Hr as [_ Hr].
  constructor; simpl; try done. congruence.
Qed.

Lemma typed_echo m line cs m' u : typed m line cs m' -> received u = received (devices m') ->
  typed m line cs (set_devices u m').
Proof. intros [Hr Ho Hk Hl Hn Hf Hd Hs] Hu. constructor; simpl; try done. congruence. Qed.

(** Rewriting the memory of the buffer. *)
Lemma typed_store m line cs m' line' mem :
  typed m line cs m' -> bytes_at mem buffer line' -> (length line' <= max)%nat ->
  (forall b, b < buffer \/ buffer + Z.of_nat max < b -> mem b = ram (kern m') b) ->
  typed m line' cs (set_kern (set_ram mem (kern m')) m').
Proof.
  intros [Hr Ho Hk Hl Hn Hf Hd Hs] Hl' Hn' Hm. constructor; simpl; try done.
  - rewrite Hk. by destruct m as [[] ? ? ? ? ? ? ? ?].
  - intros b Hb. rewrite Hm by done. by apply Hf.
Qed.

(** One character that does not end the line. *)
Lemma wp_input_char n m line c cs m' Q :
  typed m line (c :: cs) m' -> ends_input c = false -> 0 <= c < 2 ^ 8 ->
  (forall m2, typed m (edit max line c) cs m2 ->
     wp (input_chars regs fuel n buffer (Z.of_nat max) (Z.of_nat (length (edit max line c)))) Q m2) ->
  wp (input_chars regs fuel (S n) buffer (Z.of_nat max) (Z.of_nat (length line))) Q m'.
Proof using Hfuel.
  intros Ht Hc Hb HQ. pose proof (typed_ring _ _ _ _ Ht) as Hr. cbn [input_chars]. wp_step. wp_step. wp_step. wp_step.
  rewrite (in_empty _ _ _ _ Hr), bool_decide_false by done. wp_step. wp_step.
  wp_step. eapply wp_defined; [by apply (in_take _ _ _ _ _ Hr)|]. wp_step. wp_step. wp_step.
  apply (wp_uart_putc regs fuel Hfuel). intros u Hu. pose proof (typed_taken _ _ _ _ _ u Ht Hu) as Ht'.
  set (m1 := set_devices u _) in *. clearbody m1. clear Ht Hr Hu m'. fold (ends_input c). rewrite Hc.
  pose proof (typed_line _ _ _ _ Ht') as Hl. pose proof (typed_room _ _ _ _ Ht') as Hn. unfold edit in HQ.
  destruct (c =? 127).
  - destruct (Z.ltb_spec 0 (Z.of_nat (length line))) as [Hlen|Hlen].
    + wp_step. apply (wp_puts regs fuel Hfuel). intros u' Hu'.
      pose proof (typed_echo _ _ _ _ u' Ht' Hu') as Ht2. wp_step. apply wp_call. unfold store8. wp_step.
      rewrite length_take, Nat.min_l in HQ by lia.
      replace (Z.of_nat (length line) - 1) with (Z.of_nat (pred (length line))) by lia. apply HQ.
      apply (typed_store _ _ _ _ _ _ Ht2); [|rewrite length_take; lia|].
      * intros i d Hi. apply lookup_take_Some in Hi as [Hi Hlt]. rewrite write_byte by done.
        destruct (Z.eqb_spec (buffer + Z.of_nat i) (buffer + Z.of_nat (pred (length line)))); [lia|]. by apply Hl.
      * intros b Hb'. rewrite write_byte by done. destruct (Z.eqb_spec b (buffer + Z.of_nat (pred (length line)))); [lia|done].
    + destruct line; [|simpl in Hlen; lia]. by apply HQ.
  - destruct (Z.ltb_spec (Z.of_nat (length line)) (Z.of_nat max)).
    + rewrite decide_True in HQ by lia. wp_step. apply wp_call. unfold store8. wp_step. wp_step.
      rewrite length_app in HQ. simpl in HQ.
      replace (Z.of_nat (length line) + 1) with (Z.of_nat (length line + 1)) by lia. apply HQ.
      apply (typed_store m line cs m1); [done| |rewrite length_app; simpl; lia|].
      * intros i d Hi. simpl. rewrite !write_byte by done.
        destruct (Z.eqb_spec (buffer + Z.of_nat i) (buffer + Z.of_nat (length line + 1))) as [E|E].
        { apply lookup_lt_Some in Hi. rewrite length_app in Hi. simpl in Hi. lia. }
        destruct (Z.eqb_spec (buffer + Z.of_nat i) (buffer + Z.of_nat (length line))) as [E'|E'].
        { replace i with (length line) in Hi by lia. rewrite lookup_app_r, Nat.sub_diag in Hi by done. by injection Hi. }
        apply Hl. apply lookup_app_Some in Hi as [?|[Hi1 Hi2]]; [done|].
        assert (i = length line) as -> by (apply lookup_lt_Some in Hi2; simpl in Hi2; lia). done.
      * intros b Hb'. simpl. rewrite !write_byte by done.
        destruct (Z.eqb_spec b (buffer + Z.of_nat (length line + 1))); [lia|].
        destruct (Z.eqb_spec b (buffer + Z.of_nat (length line))); [lia|done].
    + rewrite decide_False in HQ by lia. by apply HQ.
Qed.

Lemma wp_input_chars cs n m line rest m' Q :
  typed m line (cs ++ rest) m' -> Forall (fun c => 0 <= c < 2 ^ 8 /\ ends_input c = false) cs ->
  (forall m2, typed m (foldl (edit max) line cs) rest m2 ->
     wp (input_chars regs fuel n buffer (Z.of_nat max) (Z.of_nat (length (foldl (edit max) line cs)))) Q m2) ->
  wp (input_chars regs fuel (length cs + n) buffer (Z.of_nat max) (Z.of_nat (length line))) Q m'.
Proof using Hfuel.
  revert line m'. induction cs as [|c cs IH]; intros line m' Ht Hcs HQ; [by apply HQ|].
  apply Forall_cons in Hcs as [[Hb Hc] Hcs]. eapply wp_input_char; [done..|]. intros m2 Ht2. by apply IH.
Qed.

(** The end of the line: the UART is released and the line terminated. *)
Definition finished m line rest m' : Prop :=
  machine_ring m' rest /\ uart_owner m' = None /\
  kern m' = set_ram (ram (kern m')) (kern m) /\ bytes_at (ram (kern m')) buffer (line ++ [0]) /\
  (forall b, b < buffer \/ buffer + Z.of_nat max < b -> ram (kern m') b = ram (kern m) b).

Lemma wp_input_end n m line c rest m' Q :
  typed m line (c :: rest) m' -> ends_input c = true ->
  (forall m2, finished m line rest m2 -> Q (Z.of_nat (length line), true) m2) ->
  wp (input_chars regs fuel (S n) buffer (Z.of_nat max) (Z.of_nat (length line))) Q m'.
Proof using Hfuel.
  intros Ht Hc HQ. pose proof (typed_ring _ _ _ _ Ht) as Hr. cbn [input_chars]. wp_step. wp_step. wp_step. wp_step.
  rewrite (in_empty _ _ _ _ Hr), bool_decide_false by done. wp_step. wp_step.
  wp_step. eapply wp_defined; [by apply (in_take _ _ _ _ _ Hr)|]. wp_step. wp_step. wp_step.
  apply (wp_uart_putc regs fuel Hfuel). intros u Hu. fold (ends_input c). rewrite Hc. wp_step. wp_step. wp_step.
  apply wp_call. unfold store8. wp_step. wp_step. apply HQ.
  destruct Ht as [_ _ Hk Hl Hn Hf _ _]. apply in_take in Hr as [_ Hr]. split; [done|]. split; [done|]. simpl.
  split; [rewrite Hk; by destruct m as [[] ? ? ? ? ? ? ? ?]|]. split.
  - intros i d Hi. rewrite write_byte by done.
    destruct (Z.eqb_spec (buffer + Z.of_nat i) (buffer + Z.of_nat (length line))) as [E|E].
    + replace i with (length line) in Hi by lia. rewrite lookup_app_r, Nat.sub_diag in Hi by done. by injection Hi.
    + apply Hl. apply lookup_app_Some in Hi as [?|[Hi1 Hi2]]; [done|].
      assert (i = length line) as -> by (apply lookup_lt_Some in Hi2; simpl in Hi2; lia). done.
  - intros b Hb. rewrite write_byte by done. destruct (Z.eqb_spec b (buffer + Z.of_nat (length line))); [lia|]. by apply Hf.
Qed.

Lemma wp_syscall_input others len cs e rest m Q :
  machine_ring m (cs ++ e :: rest) -> Forall (fun c => 0 <= c < 2 ^ 8 /\ ends_input c = false) cs -> ends_input e = true ->
  uart_owner m = None \/ uart_owner m = Some (current_process (kern m)) ->
  max = Z.to_nat (len - 1) ->
  (forall m2, finished m (edited max cs) rest m2 -> Q (Z.of_nat (length (edited max cs))) m2) ->
  wp (syscall_input regs fuel others buffer len) Q m.
Proof using Hfuel.
  intros Hr Hcs He Ho Hm HQ. unfold syscall_input. wp_step.
  assert (Hw : forall Q, Q others m -> wp (wait_for_uart (length others) others) Q m).
  { intros Q' HQ'.
    assert (E : bool_decide (uart_owner m = None) || bool_decide (uart_owner m = Some (current_process (kern m))) = true).
    { apply orb_true_iff. destruct Ho; [left|right]; by apply bool_decide_eq_true_2. }
    destruct others; cbn [wait_for_uart length]; wp_step; wp_step; wp_step; apply wp_call; wp_step;
      replace (set_kern (kern m) m) with m by (by destruct m); rewrite E; by apply wp_ret. }
  apply Hw. clear Hw. wp_step. apply wp_call. wp_step. wp_step. wp_step. cbv zeta.
  replace (if 0 <? len then len - 1 else 0) with (Z.of_nat max) by (rewrite Hm; destruct (Z.ltb_spec 0 len); lia).
  set (m1 := set_uart_owner _ _). assert (Ht : typed m1 [] (cs ++ e :: rest) m1) by by apply typed_start.
  cbn [input_loop]. wp_step.
  assert (Hk : (length cs + S (63 - length cs) = Z.to_nat UART_BUFFER_SIZE)%nat).
  { pose proof (in_bound _ _ _ _ Hr) as Hb. rewrite length_app in Hb. unfold ring_capacity in Hb. simpl in Hb.
    change (Z.to_nat UART_BUFFER_SIZE) with 64%nat. lia. }
  rewrite <- Hk. apply (wp_input_chars cs _ m1 [] (e :: rest)); [done|done|]. intros m2 Ht2.
  eapply wp_input_end; [done|done|]. intros m3 Hf. cbv beta iota. wp_step. apply HQ.
  destruct Hf as (H1 & H2 & H3 & H4 & H5). split; [done|]. split; [done|]. split; [|done].
  rewrite H3. by destruct m as [[] ? ? ? ? ? ? ? ?].
Qed.
End Editor.

(** ** The receive interrupt *)

(** The characters of the words received without error. *)
Definition good_word (dr : Z) : bool := Z.land (Z.shiftr dr 8) 0xF =? 0.
Definition accepted (ws : list Z) : list Z :=
  (fun dr => Z.land dr 0xFF) <$> filter (fun dr => good_word dr = true) ws.

(** The ring after the characters [new] arrived: those that do not fit are lost. *)
Definition kept (cs new : list Z) : list Z := take ring_capacity (cs ++ new).

(** The first entries of the table, and no other, are processes; the idle
    process does not read. *)
Definition readers_ok (a : astate) : Prop :=
  0 <= n_processes (base a) <= N_PROCESSES /\
  (forall i, 0 <= i < n_processes (base a) -> exists p, array_get (processes (base a)) i = Some (Some p)) /\
  forall x, proc a init_process x -> asleep PROCESS_WAITING_UART_INPUT x = false.

Section Interrupt.
Context {D U : Type} (regs : Registers U) `{!Pl011 regs} (fuel : nat) (Hfuel : (busy_limit < fuel)%nat).
Implicit Types (m : machine D U) (cs ws : list Z) (a : astate).

Abbreviation readers_woken a := (woken PROCESS_WAITING_UART_INPUT (n_processes (base a)) a).

(** The kernel of [m] is that of [a], its readers being woken if [b]. *)
Definition woken_by (b : bool) (a : astate) m : Prop :=
  exists a', repr (kern m) a' /\ if b then readers_woken a a' else a' = a.

Lemma kept_app cs new1 new2 : kept (kept cs new1) new2 = kept cs (new1 ++ new2).
Proof.
  unfold kept. rewrite app_assoc. generalize (cs ++ new1). intros l.
  destruct (decide (length l <= ring_capacity)%nat) as [H|H]; [by rewrite (take_ge l)|].
  rewrite !take_app_le by (rewrite ?length_take; lia). by rewrite take_take, Nat.min_id.
Qed.

Lemma accepted_cons w ws :
  accepted (w :: ws) = (if good_word w then [Z.land w 0xFF] else []) ++ accepted ws.
Proof. unfold accepted. rewrite filter_cons. destruct (good_word w); [by rewrite decide_True|by rewrite decide_False]. Qed.

Lemma wp_buffer_char c cs m (Q : unit -> machine D U -> Prop) :
  machine_ring m cs ->
  (forall m', machine_ring m' (kept cs [c]) -> kern m' = kern m -> devices m' = devices m -> Q tt m') ->
  wp (buffer_char c) Q m.
Proof.
  intros Hr HQ. unfold buffer_char. wp_step. wp_step. wp_step. wp_step. cbv zeta.
  rewrite (in_full _ _ _ _ Hr). pose proof (in_bound _ _ _ _ Hr). unfold kept in HQ. case_bool_decide as Hf; simpl.
  - wp_step. apply HQ; try done. by rewrite take_app_length'.
  - destruct (in_put _ _ _ c _ Hr) as (b & Hb & Hr'); [lia|].
    wp_step. wp_step. wp_step. eapply wp_defined; [exact Hb|]. wp_step. wp_step. wp_step. apply HQ; try done.
    rewrite take_ge; [done|]. rewrite length_app. simpl. lia.
Qed.

Lemma wp_wake_readers m a (Q : unit -> machine D U -> Prop) :
  repr (kern m) a -> inv a -> readers_ok a ->
  (forall k a', repr k a' -> readers_woken a a' -> Q tt (set_kern k m)) -> wp (call wake_readers) Q m.
Proof.
  intros Hr Hi (Hn & Hf & H0) HQ. apply wp_call. eapply wp_mono.
  - assert (Hw : awp wake_readers (fun _ => readers_woken a) a); [|exact (Hw _ Hr)].
    unfold wake_readers. awp_step. awp_step. by apply (awp_wake_loop PROCESS_WAITING_UART_INPUT eq_refl).
  - intros [] k (a' & Hr' & Hk). by eapply HQ.
Qed.

Lemma readers_ok_woken a a' : inv a -> readers_ok a -> readers_woken a a' -> readers_ok a'.
Proof.
  intros Hi (Hn & Hf & H0) Hk. unfold readers_ok. rewrite (woken_count _ _ _ _ Hk), (woken_table _ _ _ _ Hk).
  split; [done|]. split; [done|]. intros x Hx. destruct (wf_init _ _ (inv_wf _ Hi)) as (y & Hy & _).
  pose proof (woken_procs _ _ _ _ Hk _ _ Hy) as Hy'. rewrite (H0 y Hy) in Hy'.
  by rewrite (proc_fun _ _ _ _ Hx (proc_pcb _ _ _ Hy')), (H0 y Hy).
Qed.

Lemma wp_receive_word dr b a cs m (Q : unit -> machine D U -> Prop) :
  machine_ring m cs -> woken_by b a m -> inv a -> readers_ok a ->
  (forall m', machine_ring m' (kept cs (accepted [dr])) -> woken_by (b || good_word dr) a m' ->
     received (devices m') = received (devices m) -> Q tt m') ->
  wp (receive_word regs fuel dr) Q m.
Proof using Hfuel.
  intros Hr (a' & Ha & Hb) Hi Ho HQ. rewrite accepted_cons in HQ. unfold receive_word. cbv zeta.
  fold (good_word dr). destruct (good_word dr) eqn:E.
  - simpl negb. cbv iota. wp_step. eapply wp_buffer_char; [exact Hr|].
    intros m1 Hr1 Hk1 Hd1.
    assert (Hi' : inv a') by (destruct b; simpl in Hb; [exact (woken_inv _ _ _ _ Hb)|by subst]).
    assert (Ho' : readers_ok a') by (destruct b; simpl in Hb; [by apply (readers_ok_woken a)|by subst]).
    apply (wp_wake_readers m1 a'); [by rewrite Hk1|done..|]. intros k a2 Hk2 Hw2. apply HQ; [done| |by rewrite <- Hd1].
    rewrite orb_true_r. exists a2. split; [done|]. destruct b; [|by subst].
    apply (woken_again PROCESS_WAITING_UART_INPUT eq_refl _ _ a'); [done|done|]. by rewrite <- (woken_count _ _ _ _ Hb).
  - simpl negb. cbv iota. wp_step. apply (wp_puts regs fuel Hfuel). intros u Hu.
    wp_step. apply (wp_uart_hex regs fuel Hfuel). intros u' Hu'. apply (wp_puts regs fuel Hfuel). intros u2 Hu2.
    simpl in *. apply HQ; simpl; [|rewrite orb_false_r; by exists a'|congruence].
    unfold kept. rewrite app_nil_r, take_ge; [done|by eapply in_bound].
Qed.

Lemma wp_receive_words n ws b a cs m (Q : unit -> machine D U -> Prop) :
  received (devices m) = ws -> (length ws <= n)%nat -> machine_ring m cs -> woken_by b a m -> inv a -> readers_ok a ->
  (forall m', machine_ring m' (kept cs (accepted ws)) -> woken_by (b || existsb good_word ws) a m' ->
     received (devices m') = [] -> Q tt m') ->
  wp (receive_words regs fuel n) Q m.
Proof using Hfuel.
  revert n b cs m. induction ws as [|w ws IH]; intros n b cs m Hw Hn Hr Hb Hi Ho HQ.
  all: assert (HF : forall Q : bool -> machine D U -> Prop,
    (forall u, received u = received (devices m) -> Q (bool_decide (received (devices m) <> [])) (set_devices u m)) ->
    wp (uart_rx_fifo_not_empty regs) Q m).
  1, 3: intros Q' HQ'; unfold uart_rx_fifo_not_empty; wp_step; apply wp_mmio_read;
    destruct (pl011_flags (devices m)) as (-> & _ & Hrd & _); wp_step; rewrite <- bool_decide_not; by apply HQ'.
  - destruct n; cbn [receive_words]; wp_step; apply HF; intros u Hu; rewrite Hw; simpl negb; cbv iota; wp_step;
      (apply HQ; simpl; [|by rewrite orb_false_r|congruence]; unfold kept; rewrite app_nil_r, take_ge; [done|by eapply in_bound]).
  - destruct n as [|n]; simpl in Hn; [lia|]. cbn [receive_words]. wp_step. apply HF. intros u Hu. rewrite Hw.
    simpl negb. cbv iota. wp_step. apply wp_mmio_read. simpl.
    destruct (pl011_data u w ws) as [-> Hd]; [by rewrite Hu|]. wp_step.
    eapply (wp_receive_word w b a cs); try done. intros m1 Hr1 Hb1 Hd1. simpl in Hd1.
    apply (IH n (b || good_word w) (kept cs (accepted [w]))); [congruence|lia|done..|].
    intros m2 Hr2 Hb2 Hd2. apply HQ; [|by rewrite <- orb_assoc in Hb2|done].
    by rewrite kept_app, !accepted_cons, app_nil_r in Hr2; rewrite accepted_cons.
Qed.

Lemma wp_handle_uart_irq ws a cs m (Q : unit -> machine D U -> Prop) :
  let mis := u32 (reg_read regs UART0_MIS (devices m)).1 in
  has mis (Z.shiftl 1 4) = true -> has mis (Z.shiftl 1 5) = false -> has mis (Z.shiftl 1 6) = false ->
  received (devices m) = ws -> (length ws <= fuel)%nat -> machine_ring m cs -> repr (kern m) a -> inv a -> readers_ok a ->
  (forall m', machine_ring m' (kept cs (accepted ws)) -> woken_by (existsb good_word ws) a m' ->
     received (devices m') = [] -> Q tt m') ->
  wp (handle_uart_irq regs fuel) Q m.
Proof using Hfuel.
  intros mis H4 H5 H6 Hw Hn Hr Ha Hi Ho HQ. unfold handle_uart_irq. wp_step. apply wp_mmio_read. fold mis.
  rewrite H4, H5, H6. simpl when. wp_step. wp_step.
  apply (wp_receive_words _ ws false a cs); try done.
  - simpl. by rewrite pl011_status.
  - by exists a.
  - intros m' Hr' Hb' Hd'. apply wp_mmio_write. wp_step. wp_step. wp_step.
    apply HQ; [done|done|]. simpl. by rewrite pl011_write.
Qed.
End Interrupt.
