(* ===== verification/Transmit.v ===== *)
(** * What the UART sends

    [Pl011Transmit] states what writing the data register does; the printing
    functions then send exactly the characters they are given, in order. *)

From Stdlib Require Import Strings.Ascii Strings.String.
From S2P Require Import Prelude Exec Kernel Devices Memory Cstring Queue Sched FatTypes Machine Uart.

(** The characters sent so far.  A character written while the transmitter is
    not busy is sent after them; nothing else is sent. *)
Class Pl011Transmit {U : Type} (regs : Registers U) `{!Pl011 regs} : Type := mkTransmit {
  transmitted : U -> list Z;
  transmit_data v u : busy u = 0%nat -> transmitted (reg_write regs UART0_DR v u) = transmitted u ++ [u8 v];
  transmit_read reg u : transmitted (reg_read regs reg u).2 = transmitted u;
}.

(** The digits of the [n] low nibbles of [num]. *)
Fixpoint hex_digits (n : nat) (num : Z) : list Z :=
  match n with
  | O => []
  | S n => hex_digits n (Z.shiftr num 4) ++ [hex_digit (Z.land num 0xF)]
  end.

(** The value of a digit, and of a string of digits. *)
Definition digit_value (c : Z) : Z := if c <? 65 then c - 48 else c - 55.
Definition hex_value (l : list Z) : Z := foldl (fun v c => 16 * v + digit_value c) 0 l.

Lemma hex_digit_value k : 0 <= k < 16 -> digit_value (hex_digit k) = k.
Proof.
  intros Hk. assert (H : Forall (fun k => digit_value (hex_digit k) = k) (seqZ 0 16)) by by repeat constructor.
  rewrite Forall_forall in H. apply H, elem_of_seqZ. lia.
Qed.

(** The digits read back as the number. *)
Lemma hex_digits_value n num : hex_value (hex_digits n num) = num `mod` 16 ^ Z.of_nat n.
Proof.
  revert num. induction n as [|n IH]; intros num; [by rewrite Z.mod_1_r|]. cbn [hex_digits].
  unfold hex_value. rewrite foldl_snoc. fold (hex_value (hex_digits n (Z.shiftr num 4))). rewrite IH.
  change 0xF with (Z.ones 4). rewrite Z.land_ones, Z.shiftr_div_pow2 by lia. change (2 ^ 4) with 16.
  rewrite hex_digit_value by (by apply Z.mod_pos_bound). rewrite Nat2Z.inj_succ, Z.pow_succ_r by lia.
  rewrite Z.rem_mul_r by (try lia; by apply Z.pow_pos_nonneg; lia). lia.
Qed.

Lemma hex_digits_first n num :
  hex_digits (S n) num = hex_digit (Z.land (Z.shiftr num (4 * Z.of_nat n)) 0xF) :: hex_digits n num.
Proof.
  revert num. induction n as [|n IH]; intros num; [simpl; by rewrite Z.shiftr_0_r|].
  change (hex_digits (S (S n)) num) with (hex_digits (S n) (Z.shiftr num 4) ++ [hex_digit (Z.land num 0xF)]).
  rewrite IH, Z.shiftr_shiftr by lia. replace (4 + 4 * Z.of_nat n) with (4 * Z.of_nat (S n)) by lia. done.
Qed.

Lemma hex_digit_range v : 0 <= hex_digit (Z.land v 0xF) < 2 ^ 8.
Proof.
  assert (H : Forall (fun k => 0 <= hex_digit k < 2 ^ 8) (seqZ 0 16)) by by repeat constructor.
  rewrite Forall_forall in H. apply H, elem_of_seqZ. change 0xF with (Z.ones 4). rewrite Z.land_ones by lia.
  pose proof (Z.mod_pos_bound v (2 ^ 4)). lia.
Qed.

Section Transmit.
Context {M U : Type} `{!Bus M U, !BusLaws M U} (regs : Registers U) `{!Pl011 regs, !Pl011Transmit regs} (fuel : nat).
Context (Hfuel : (busy_limit < fuel)%nat).
Implicit Types (s : M) (u : U) (Q : unit -> M -> Prop).

(** Only the registers have changed: the characters [l] have been sent, and no
    word has been lost. *)
Definition transmits (l : list Z) Q s : Prop :=
  forall u, received u = received (bus s) -> transmitted u = transmitted (bus s) ++ l -> Q tt (set_bus u s).

Lemma transmits_trans l l' Q s u :
  transmits (l ++ l') Q s -> received u = received (bus s) -> transmitted u = transmitted (bus s) ++ l -> transmits l' Q (set_bus u s).
Proof using BusLaws0.
  intros HQ Hr Hs v. rewrite bus_set_bus, set_bus_set_bus, Hr, Hs, <- app_assoc. by apply HQ.
Qed.

Lemma transmits_nil Q s : transmits [] Q s -> Q tt s.
Proof using BusLaws0. intros HQ. rewrite <- (set_bus_bus s). apply HQ; [done|by rewrite app_nil_r]. Qed.

(** The loop before a character ends with the transmitter ready. *)
Lemma wp_wait_ready n s Q :
  (busy (bus s) < n)%nat ->
  (forall u, busy u = 0%nat -> received u = received (bus s) -> transmitted u = transmitted (bus s) -> Q tt (set_bus u s)) ->
  wp (wait_clear regs n UART0_FR (Z.shiftl 1 5)) Q s.
Proof using BusLaws0.
  clear Hfuel. revert s. induction n as [|n IH]; intros s Hn HQ; [lia|]. cbn [wait_clear]. wp_step.
  apply wp_bus_read. destruct (pl011_flags (bus s)) as (_ & -> & Hr & Hb).
  pose proof (transmit_read UART0_FR (bus s)) as Ht. case_bool_decide as E.
  - apply IH; [rewrite bus_set_bus, Hb; lia|]. intros u. rewrite bus_set_bus, set_bus_set_bus, Hr, Ht. apply HQ.
  - wp_step. apply HQ; [|done..]. by rewrite Hb, E.
Qed.

Lemma wp_putc_sends c s Q : transmits [u8 c] Q s -> wp (uart_putc regs fuel c) Q s.
Proof using BusLaws0 Hfuel.
  intros HQ. unfold uart_putc. wp_step. apply wp_wait_ready.
  { pose proof (pl011_busy (bus s)). lia. }
  intros u Hb Hr Hs. apply wp_bus_write. rewrite bus_set_bus, set_bus_set_bus. apply HQ.
  - by rewrite pl011_write.
  - rewrite transmit_data, Hs by done. f_equal. f_equal. unfold u32. pose proof (u8_range c). unfold u8 in *.
    rewrite (Z.mod_small (c `mod` 2 ^ 8) (2 ^ 32)) by lia. by rewrite Z.mod_mod.
Qed.

Lemma wp_puts_sends l s Q : Forall (fun c => 0 <= c < 2 ^ 8) l -> transmits l Q s -> wp (puts regs fuel l) Q s.
Proof using BusLaws0 Hfuel.
  intros Hl. revert s. induction Hl as [|c l Hc Hl IH]; intros s HQ; cbn [puts]; [by apply wp_ret, transmits_nil|].
  wp_step. apply wp_putc_sends. rewrite u8_id by done. intros u Hr Hs. apply IH. by apply (transmits_trans [c]).
Qed.

Lemma wp_hex_loop_sends n v s Q :
  transmits (hex_digits n v) Q s -> wp (hex_loop regs fuel n v (4 * Z.of_nat n - 4)) Q s.
Proof using BusLaws0 Hfuel.
  revert s. induction n as [|n IH]; intros s HQ; [by apply wp_ret, transmits_nil|].
  rewrite hex_digits_first in HQ. cbn [hex_loop]. replace (4 * Z.of_nat (S n) - 4) with (4 * Z.of_nat n) by lia.
  wp_step. apply wp_putc_sends. rewrite u8_id by apply hex_digit_range. intros u Hr Hs.
  apply IH. by eapply (transmits_trans [hex_digit _]).
Qed.

Lemma wp_hex_sends num s Q :
  transmits (literal "0x" ++ hex_digits 16 (u64 num)) Q s -> wp (uart_hex regs fuel num) Q s.
Proof using BusLaws0 Hfuel.
  intros HQ. unfold uart_hex. wp_step. apply wp_puts_sends; [by repeat constructor|]. intros u Hr Hs.
  apply (wp_hex_loop_sends 16). by apply (transmits_trans (literal "0x")).
Qed.
End Transmit.

(** ** A string in memory *)

Section Memory.
Context {D U : Type} (regs : Registers U) `{!Pl011 regs, !Pl011Transmit regs} (fuel : nat).
Context (Hfuel : (busy_limit < fuel)%nat).
Implicit Types (m : machine D U).

Lemma wp_uart_puts_sends n str l m Q :
  string_at (ram (kern m)) str l -> (length l < n)%nat -> transmits regs l Q m ->
  wp (uart_puts regs fuel n str) Q m.
Proof using Hfuel.
  intros (Hc & Hb & Hi). revert n str m Hc Hb Hi. induction l as [|c l IH]; intros n str m Hc Hb Hi Hn HQ.
  all: destruct n as [|n]; [simpl in Hn; lia|]; cbn [uart_puts]; unfold load8; wp_step; apply wp_call; wp_step.
  - pose proof (Hb 0%nat 0 eq_refl) as E. rewrite Z.add_0_r in E. rewrite E. apply wp_ret, (transmits_nil regs).
    by destruct m.
  - pose proof (Hb 0%nat c eq_refl) as E. rewrite Z.add_0_r in E. rewrite E. apply Forall_cons in Hc as [Hc Hl].
    rewrite (proj2 (Z.eqb_neq c 0)) by lia. wp_step. destruct Hi as [Hi1 Hi2]. simpl length in Hi2.
    apply (wp_putc_sends regs fuel Hfuel). rewrite u8_id by lia. intros u Hr Hs. rewrite u64_id by lia.
    apply IH; [done| |split; lia|simpl in Hn; lia|].
    + intros i c' Hi. rewrite <- (Hb (S i) c' Hi). simpl. f_equal. lia.
    + apply (transmits_trans regs [c]); [|done|done]. by destruct m.
Qed.

(** [uart_hex] sends the number in hexadecimal: what follows "0x" reads back as
    the number. *)
Lemma uart_hex_reads_back num m :
  exists l m', uart_hex regs fuel num m = Done tt m' /\ length l = 16%nat /\ hex_value l = u64 num /\
    transmitted (devices m') = transmitted (devices m) ++ literal "0x" ++ l.
Proof using Hfuel.
  assert (H : wp (uart_hex regs fuel num)
    (fun _ m' => transmitted (devices m') = transmitted (devices m) ++ literal "0x" ++ hex_digits 16 (u64 num)) m).
  { apply (wp_hex_sends regs fuel Hfuel). by intros u Hr Hs. }
  apply wp_inv in H as ([] & m' & E & Ht). exists (hex_digits 16 (u64 num)), m'. split; [done|]. split; [done|].
  split; [|done]. rewrite hex_digits_value. change (16 ^ Z.of_nat 16) with (2 ^ 64). unfold u64. by rewrite Z.mod_mod.
Qed.
End Memory.
