(* ===== verification/Descriptors.v ===== *)
(** * File descriptors

    The descriptors of a process through the calls of [Syscalls]: an open takes
    the lowest free one, and no call ever gives one back. *)

From S2P Require Import Prelude Exec Kernel Devices Memory Cstring Arrays Mm Queue Sched System Ipc Fork FatTypes FatFile Machine Uart Filesystem Syscalls.

(** ** Executions that only add descriptors *)

(** The slot [i] of the table of a process is in use. *)
Definition occupied (x : PCB) (i : nat) : Prop := exists a, files x !! i = Some (Some a).

Record grows (s s' : kstate) : Prop := mkGrows {
  grows_current : current_process s' = current_process s;
  grows_files p x : pcbs s !! p = Some x ->
    exists x', pcbs s' !! p = Some x' /\ forall i, occupied x i -> occupied x' i;
}.

#[export] Instance grows_preorder : PreOrder grows.
Proof.
  split.
  - intros s. split; [done|]. intros p x Hx. by exists x.
  - intros s1 s2 s3 [E1 H1] [E2 H2]. split; [congruence|]. intros p x Hx.
    destruct (H1 p x Hx) as (y & Hy & Hxy). destruct (H2 p y Hy) as (z & Hz & Hyz). exists z. eauto.
Qed.

Lemma grows_same s s' : current_process s' = current_process s -> pcbs s' = pcbs s -> grows s s'.
Proof. intros E1 E2. split; [done|]. intros p x Hx. exists x. by rewrite E2. Qed.

(** What [R] relates is kept by every run of [m] that returns. *)
Definition keeps {S A} (R : S -> S -> Prop) (m : Exec S A) : Prop :=
  forall s a s', m s = Done a s' -> R s s'.

Create HintDb keeps.

Section Keeps.
Context {S : Type} (R : S -> S -> Prop) `{!PreOrder R}.

Lemma keeps_ret {A} (a : A) : keeps R (mret a).
Proof. intros s b s' E. injection E as _ <-. reflexivity. Qed.

Lemma keeps_bind {A B} (m : Exec S A) (f : A -> Exec S B) : keeps R m -> (forall a, keeps R (f a)) -> keeps R (m ≫= f).
Proof.
  intros Hm Hf s b s' E. unfold mbind, exec_bind in E. destruct (m s) as [a s1| |] eqn:E1; try done.
  transitivity s1; [by eapply Hm|by eapply Hf].
Qed.

Lemma keeps_gets {A} (f : S -> A) : keeps R (gets f).
Proof. intros s b s' E. injection E as _ <-. reflexivity. Qed.

Lemma keeps_modify f : (forall s, R s (f s)) -> keeps R (modify f).
Proof. intros Hf s b s' E. injection E as _ <-. apply Hf. Qed.

Lemma keeps_defined {A} (o : option A) : keeps R (defined o).
Proof. destruct o; [apply keeps_ret|done]. Qed.

Lemma keeps_stuck {A} : keeps R (@stuck S A).
Proof. done. Qed.

Lemma keeps_out_of_fuel {A} : keeps R (@out_of_fuel S A).
Proof. done. Qed.

Lemma keeps_into_array {A} l (m : Exec (list Z) A) : keeps R (into_array l m).
Proof. intros s b s' E. unfold into_array in E. destruct (m l); try done. injection E as _ <-. reflexivity. Qed.
End Keeps.

#[export] Hint Resolve keeps_stuck keeps_out_of_fuel : keeps.

(** Goes through a program: binds, branches, and the hints for the rest. *)
Ltac keeps_step :=
  lazymatch goal with
  | |- keeps _ (_ ≫= _) => apply keeps_bind; [apply _| |intros]
  | |- keeps _ (mret _) => apply keeps_ret; apply _
  | |- keeps _ (gets _) => apply keeps_gets; apply _
  | |- keeps _ (defined _) => apply keeps_defined; apply _
  | |- keeps _ (into_array _ _) => apply keeps_into_array; apply _
  | |- keeps _ (let _ := _ in _) => cbv zeta
  | |- keeps _ (match _ with _ => _ end) => case_match
  | |- keeps _ _ => solve [auto 2 with keeps nocore]
  end.
Ltac keeps := repeat keeps_step.

(** ** The kernel functions of the calls *)

Section KernelCalls.

Lemma keeps_same f : (forall s, current_process (f s) = current_process s) -> (forall s, pcbs (f s) = pcbs s) ->
  keeps grows (modify f).
Proof. intros H1 H2. apply keeps_modify. intros s. by apply grows_same. Qed.

Lemma keeps_store8 a v : keeps grows (store8 a v).
Proof. by apply keeps_same. Qed.
Lemma keeps_store64 a v : keeps grows (store64 a v).
Proof. by apply keeps_same. Qed.
Lemma keeps_store32 a v : keeps grows (store32 a v).
Proof. by apply keeps_same. Qed.
Lemma keeps_store_bytes a l : keeps grows (store_bytes a l).
Proof. by apply keeps_same. Qed.
Lemma keeps_load_bytes a n : keeps grows (load_bytes a n).
Proof. apply keeps_gets, _. Qed.

Hint Resolve keeps_store8 keeps_store64 keeps_store32 keeps_store_bytes keeps_load_bytes : keeps.

Lemma keeps_memzero a n : keeps grows (memzero a n).
Proof.
  unfold memzero. generalize (S (Z.to_nat (s64 n / 8))). intros fuel. revert a n.
  induction fuel as [|fuel IH]; intros a n; cbn [memzero_loop]; keeps.
Qed.

Lemma keeps_set_page_slot i v : keeps grows (set_page_slot i v).
Proof.
  unfold set_page_slot, page_slot. keeps. by apply keeps_same.
Qed.

Hint Resolve keeps_memzero keeps_set_page_slot : keeps.

Lemma keeps_allocate : keeps grows allocate_kernel_page.
Proof.
  unfold allocate_kernel_page, get_free_page. apply keeps_bind; [apply _| |intros; keeps].
  generalize (Z.to_nat N_PAGES) 0. intros fuel. induction fuel as [|fuel IH]; intros i; cbn [find_free_page]; [keeps|].
  unfold page_slot. keeps.
Qed.

Lemma keeps_free_page a : keeps grows (free_page a).
Proof. unfold free_page. keeps. Qed.

Lemma keeps_deref p : keeps grows (deref p).
Proof. unfold deref. keeps. Qed.

Lemma keeps_strlen fuel str : keeps grows (strlen fuel str).
Proof.
  unfold strlen. generalize 0. induction fuel as [|fuel IH]; intros i; cbn [strlen_loop]; unfold load8; keeps.
Qed.

Lemma keeps_complete_path fuel stack path : keeps grows (complete_path fuel stack path).
Proof.
  unfold complete_path. apply keeps_bind; [apply _|keeps|intros l]. apply keeps_bind; [apply _| |intros n].
  { generalize 0 at 2. generalize path_fuel. intros k. induction k as [|k IH]; intros i; cbn [strlen_loop]; unfold cell; keeps. }
  apply keeps_bind; [apply _|apply keeps_strlen|intros]. keeps.
Qed.

Lemma keeps_get_descriptor fd : keeps grows (get_descriptor fd).
Proof. unfold get_descriptor, get_current, deref. keeps. Qed.

(** Filling a slot. *)
Lemma keeps_set_descriptor fd a : keeps grows (set_descriptor fd (Some a)).
Proof.
  intros s [] s' E. unfold set_descriptor, deref, update, deref, mbind, exec_bind, gets in E.
  destruct (pcbs s !! current_process s) as [x|] eqn:Hx; simpl in E; [|done].
  unfold array_set in E. destruct (_ && _) eqn:Eb; simpl in E; [|done]. rewrite Hx in E. simpl in E.
  injection E as <-. split; [done|]. intros p y Hy. simpl. destruct (decide (p = current_process s)) as [->|Hne].
  - rewrite lookup_alter_eq, Hx. rewrite Hx in Hy. injection Hy as ->. eexists. split; [done|]. unfold occupied. simpl.
    intros i [b Hb]. destruct (decide (i = Z.to_nat fd)) as [->|].
    + exists a. apply list_lookup_insert_eq. by eapply lookup_lt_Some.
    + exists b. by rewrite list_lookup_insert_ne.
  - exists y. by rewrite lookup_alter_ne.
Qed.

Lemma set_descriptor_occupies fd a s s' : set_descriptor fd (Some a) s = Done tt s' -> 0 <= fd ->
  exists x', pcbs s' !! current_process s = Some x' /\ occupied x' (Z.to_nat fd).
Proof.
  intros E Hfd. unfold set_descriptor, deref, update, deref, mbind, exec_bind, gets in E.
  destruct (pcbs s !! current_process s) as [x|] eqn:Hx; simpl in E; [|done].
  unfold array_set in E. destruct (_ && _) eqn:Eb; simpl in E; [|done]. rewrite Hx in E. simpl in E.
  injection E as <-. simpl. rewrite lookup_alter_eq, Hx. eexists. split; [done|]. exists a. simpl.
  apply list_lookup_insert_eq. apply andb_true_iff in Eb as [E1 E2]. lia.
Qed.
End KernelCalls.
#[export] Hint Resolve keeps_store8 keeps_store32 keeps_store_bytes keeps_load_bytes keeps_allocate keeps_free_page
  keeps_deref keeps_complete_path keeps_get_descriptor keeps_set_descriptor : keeps.

(** ** The calls on files *)

Section Calls.
Context {D U : Type} (fuel : nat).
Implicit Types (m : machine D U) (stack : list Z).

Definition machine_grows m m' : Prop := grows (kern m) (kern m').

#[export] Instance machine_grows_preorder : PreOrder machine_grows.
Proof. unfold machine_grows. split; [intros m; reflexivity|intros m1 m2 m3; apply PreOrder_Transitive]. Qed.

Lemma keeps_call {A} (k : K A) : keeps grows k -> keeps machine_grows (call k : M D U A).
Proof.
  intros Hk m a m' E. unfold call, machine_kernel in E. destruct (k (kern m)) eqn:Ek; try done.
  injection E as _ <-. by apply Hk in Ek.
Qed.

Lemma keeps_library {A} (f : FM D A) : keeps machine_grows (library f : M D U (result A)).
Proof.
  intros m a m' E. unfold library in E. destruct (f (storage m)); try done. injection E as _ <-.
  unfold machine_grows. reflexivity.
Qed.

Lemma keeps_other (f : machine D U -> machine D U) : (forall m, kern (f m) = kern m) -> keeps machine_grows (modify f).
Proof. intros H. apply keeps_modify. intros m. unfold machine_grows. by rewrite H. Qed.

Lemma keeps_get_resource r : keeps machine_grows (get_resource r : M D U FatResource).
Proof. unfold get_resource. keeps. Qed.

Hint Resolve keeps_call keeps_library keeps_get_resource : keeps.

Lemma keeps_new_dir : keeps machine_grows (new_dir : M D U Z).
Proof. unfold new_dir. keeps. by apply keeps_other. Qed.
Lemma keeps_new_file : keeps machine_grows (new_file : M D U Z).
Proof. unfold new_file. keeps. by apply keeps_other. Qed.
Lemma keeps_free_dir a : keeps machine_grows (free_dir a : M D U unit).
Proof. unfold free_dir. keeps. by apply keeps_other. Qed.
Lemma keeps_free_file a : keeps machine_grows (free_file a : M D U unit).
Proof. unfold free_file. keeps. by apply keeps_other. Qed.

Lemma keeps_on_path {A} stack path (f : list Z -> FM D A) : keeps machine_grows (on_path fuel stack path f : M D U Z).
Proof. unfold on_path. keeps. Qed.

(** A descriptor filled without memory for its resource does not return. *)
Lemma keeps_install fd type f : keeps machine_grows (install fd type f : M D U unit).
Proof.
  unfold install. apply keeps_bind; [apply _|keeps|intros a]. destruct (a =? 0).
  - intros m b m' E. unfold mbind, exec_bind in E. by destruct (call _ m).
  - keeps. by apply keeps_other.
Qed.

Hint Resolve keeps_new_dir keeps_new_file keeps_free_dir keeps_free_file keeps_on_path keeps_install : keeps.

Lemma keeps_first_free : keeps machine_grows
  (call (current ← gets current_process; get_first_free_file_descriptor current) : M D U Z).
Proof. unfold get_first_free_file_descriptor. apply keeps_call. keeps. Qed.
Hint Resolve keeps_first_free : keeps.

(** The calls of a process on its files. *)
Inductive file_call : M D U Z -> Prop :=
  | call_create_dir stack path : file_call (syscall_create_dir fuel stack path)
  | call_open_dir stack path : file_call (syscall_open_dir fuel stack path)
  | call_open_file stack path flags : file_call (syscall_open_file fuel stack path flags)
  | call_close_file fd : file_call (syscall_close_file fd)
  | call_write_file fd buffer len bytes : file_call (syscall_write_file fd buffer len bytes)
  | call_read_file fd buffer len bytes : file_call (syscall_read_file fd buffer len bytes)
  | call_get_next_entry fd entry : file_call (syscall_get_next_entry fuel fd entry).

Lemma keeps_file_call c : file_call c -> keeps machine_grows c.
Proof.
  intros []; unfold syscall_create_dir, syscall_open_dir, syscall_open_file, create_dir, open_dir, open_file,
    syscall_close_file, syscall_write_file, syscall_read_file, read_file, syscall_get_next_entry; keeps.
  apply keeps_call. keeps.
Qed.

(** ** Opening *)

(** The lowest free descriptor of a table. *)
Definition lowest_free (x : PCB) (i : nat) : Prop :=
  files x !! i = Some None /\ forall j, (j < i)%nat -> occupied x j.

Lemma free_descriptor_some n l i r :
  free_descriptor n l i = Some r -> 0 <= i -> r <> -1 ->
  i <= r < i + Z.of_nat n /\ l !! Z.to_nat r = Some None /\
  forall j, i <= Z.of_nat j < r -> exists a, l !! j = Some (Some a).
Proof.
  revert i. induction n as [|n IH]; intros i; cbn [free_descriptor]; [by intros [= <-]|].
  destruct (array_get l i) as [[a|]|] eqn:Ea; [..|done]; intros Hr Hi Hne; apply array_get_Some in Ea as [_ Ea].
  - destruct (IH (i + 1) Hr) as (H1 & H2 & H3); [lia|done|]. split; [lia|]. split; [done|].
    intros j Hj. destruct (decide (Z.of_nat j = i)) as [E|]; [|apply H3; lia].
    exists a. rewrite <- Ea. f_equal. lia.
  - injection Hr as <-. split; [lia|]. split; [done|]. lia.
Qed.

Lemma free_descriptor_none n l i :
  0 <= i -> (forall j, i <= Z.of_nat j < i + Z.of_nat n -> exists a, l !! j = Some (Some a)) ->
  free_descriptor n l i = Some (-1).
Proof.
  revert i. induction n as [|n IH]; intros i Hi Hl; cbn [free_descriptor]; [done|].
  destruct (Hl (Z.to_nat i)) as [a Ha]; [lia|]. assert (array_get l i = Some (Some a)) as -> by by apply array_get_Some.
  apply IH; [lia|]. intros j Hj. apply Hl. lia.
Qed.

Definition get_first_free : M D U Z :=
  call (current ← gets current_process; get_first_free_file_descriptor current).

Lemma first_free_run m x : pcbs (kern m) !! current_process (kern m) = Some x ->
  get_first_free m = match free_descriptor (Z.to_nat MAX_FILES_PER_PROCESS) (files x) 0 with
                     | Some r => Done r m | None => Stuck end.
Proof.
  intros Hx. unfold get_first_free, call, machine_kernel, get_first_free_file_descriptor, deref, mbind, exec_bind, gets.
  rewrite Hx. cbn [defined mret exec_ret].
  destruct (free_descriptor (Z.to_nat MAX_FILES_PER_PROCESS) (files x) 0); [by destruct m|done].
Qed.

(** A resource in the descriptor [fd] of the current process. *)
Lemma install_occupies fd type f m m' :
  install fd type f m = Done tt m' -> 0 <= fd ->
  exists x', pcbs (kern m') !! current_process (kern m) = Some x' /\ occupied x' (Z.to_nat fd).
Proof.
  intros E Hfd. unfold install in E. apply bind_done in E as (a & m1 & Ea & E).
  apply (keeps_call _ keeps_allocate) in Ea as [Ec _]. apply bind_done in E as ([] & m2 & Ed & E).
  destruct (a =? 0); [done|]. injection E as <-. rewrite <- Ec.
  unfold call, machine_kernel in Ed. destruct (set_descriptor fd (Some a) (kern m1)) as [[] k| |] eqn:Es; try done.
  injection Ed as <-. by eapply set_descriptor_occupies.
Qed.

Lemma open_file_full m x stack path flags :
  pcbs (kern m) !! current_process (kern m) = Some x ->
  (forall i, (i < Z.to_nat MAX_FILES_PER_PROCESS)%nat -> occupied x i) ->
  syscall_open_file fuel stack path flags m = Done (-1) m.
Proof.
  intros Hx Hf. unfold syscall_open_file. fold get_first_free. unfold mbind at 1, exec_bind at 1.
  rewrite (first_free_run m x Hx), free_descriptor_none; [done|done|]. intros j Hj. apply Hf. lia.
Qed.

Lemma open_file_lowest m x stack path flags r m' :
  pcbs (kern m) !! current_process (kern m) = Some x ->
  syscall_open_file fuel stack path flags m = Done r m' -> r <> -1 ->
  0 <= r < MAX_FILES_PER_PROCESS /\ lowest_free x (Z.to_nat r) /\
  exists x', pcbs (kern m') !! current_process (kern m) = Some x' /\ occupied x' (Z.to_nat r).
Proof.
  intros Hx E Hr. unfold syscall_open_file in E. fold get_first_free in E.
  apply bind_done in E as (fd & m0 & Efd & E). rewrite (first_free_run m x Hx) in Efd.
  destruct (free_descriptor (Z.to_nat MAX_FILES_PER_PROCESS) (files x) 0) as [fd'|] eqn:Ed; [|done].
  injection Efd as -> <-. destruct (Z.eqb_spec fd (-1)) as [->|Hne]; [by injection E as <- _|].
  apply free_descriptor_some in Ed as (Hfd & Hnone & Hlow); [|lia|done].
  apply bind_done in E as (file & m1 & E1 & E). apply keeps_new_file in E1 as [Ec1 _].
  apply bind_done in E as (error & m2 & E2 & E). apply keeps_on_path in E2 as [Ec2 _].
  destruct (negb (error =? 0)).
  { apply bind_done in E as (u & m3 & _ & E). by injection E as <- _. }
  apply bind_done in E as ([] & m3 & E3 & E). injection E as <- <-.
  apply install_occupies in E3; [|lia]. split; [lia|]. split.
  - split; [done|]. intros j Hj. apply Hlow. lia.
  - by rewrite <- Ec1, <- Ec2.
Qed.
End Calls.
