(* ===== verification/Arguments.v ===== *)
(** * The arguments of a new program

    The two loops of [syscall_exec] that carry the arguments of the caller over
    to the new program: [save_arguments] copies them to the kernel stack before
    the old memory goes away, [push_arguments] writes them below the new stack
    and leaves their addresses in the registers. *)

From S2P Require Import Prelude Exec Kernel Devices Memory Cstring Arrays Mm Sched Fork Machine Filesystem Syscalls.

(** The length of a row. *)
Definition row : Z := SYSCALL_EXEC_ARGUMENT_DIMENSION.

(** The row [j] of [safe] holds the string [t]. *)
Definition row_holds (safe : list Z) (j : nat) (t : list Z) : Prop :=
  chars t /\ (length t < Z.to_nat row)%nat /\
  forall k c, (t ++ [0]) !! k = Some c -> safe !! (64 * j + k)%nat = Some c.

(** The strings [ts] lie at [arguments], one in each row from [i]. *)
Definition rows_at (m : Z -> Z) (arguments : Z) (i : nat) (ts : list (list Z)) : Prop :=
  forall j t, ts !! j = Some t ->
    (length t < Z.to_nat row)%nat /\ string_at m (arguments + row * Z.of_nat (i + j)) t.

Section Arguments.
Implicit Types (s : kstate) (safe t : list Z) (ts : list (list Z)).

Lemma rows_at_cons m a i t ts : rows_at m a i (t :: ts) ->
  ((length t < Z.to_nat row)%nat /\ string_at m (a + row * Z.of_nat i) t) /\ rows_at m a (S i) ts.
Proof.
  intros H. split; [specialize (H 0%nat t eq_refl); by rewrite Nat.add_0_r in H|].
  intros j u Hj. specialize (H (S j) u Hj). by replace (S i + j)%nat with (i + S j)%nat by lia.
Qed.

Lemma splice_row safe j t : (64 * j + 64 <= length safe)%nat -> chars t -> (length t < Z.to_nat row)%nat ->
  row_holds (splice (64 * j) (t ++ [0]) safe) j t.
Proof.
  intros Hs Hc Ht. split; [done|]. split; [done|]. intros k c Hk. unfold row, SYSCALL_EXEC_ARGUMENT_DIMENSION in Ht.
  pose proof (lookup_lt_Some _ _ _ Hk). unfold splice. rewrite lookup_app_r by (rewrite length_take; lia).
  rewrite length_take. replace (64 * j + k - _)%nat with k by lia. by apply lookup_app_l_Some.
Qed.

(** Storing a row does not touch the rows before it. *)
Lemma splice_other safe i j l t : (64 * i + length l <= length safe)%nat -> (j < i)%nat ->
  row_holds safe j t -> row_holds (splice (64 * i) l safe) j t.
Proof.
  intros Hs Hj (Hc & Ht & Hr). split; [done|]. split; [done|]. intros k c Hk.
  unfold row, SYSCALL_EXEC_ARGUMENT_DIMENSION in Ht. pose proof (lookup_lt_Some _ _ _ Hk) as Hl.
  rewrite length_app in Hl. simpl in Hl. unfold splice.
  rewrite lookup_app_l by (rewrite length_take; lia). rewrite lookup_take_lt by lia. by apply Hr.
Qed.

Lemma wp_save_arguments ts i fuel arguments safe s Q :
  rows_at (ram s) arguments i ts -> 0 <= arguments -> arguments + row * Z.of_nat (i + length ts) < 2 ^ 64 ->
  length safe = (64 * (i + length ts))%nat -> Z.of_nat (length safe) < 2 ^ 31 -> (64 <= fuel)%nat ->
  (forall safe', length safe' = length safe ->
     (forall j t, ts !! j = Some t -> row_holds safe' (i + j) t) ->
     (forall j t, (j < i)%nat -> row_holds safe j t -> row_holds safe' j t) -> Q safe' s) ->
  wp (save_arguments (length ts) (Z.of_nat i) fuel arguments safe) Q s.
Proof.
  revert i safe. induction ts as [|t ts IH]; intros i safe Hr Ha Hm Hl Hb Hf HQ; cbn [save_arguments length].
  { wp_step. by apply HQ. }
  apply rows_at_cons in Hr as [[Ht Hs] Hr]. pose proof Hs as (Hc & Hby & Hin).
  simpl in Hm, Hl. unfold row, SYSCALL_EXEC_ARGUMENT_DIMENSION in *. cbv zeta. wp_step. wp_step. wp_step.
  rewrite u64_id by lia. replace (Z.of_nat i * 64) with (Z.of_nat (64 * i)) by lia.
  eapply wp_into_array.
  { replace (arguments + Z.of_nat (64 * i)) with (arguments + 64 * Z.of_nat i) by lia.
    apply (wp_copy_array _ _ (64 * i) _ t); [done| |done|lia|lia|lia].
    intros k c t' Hk. unfold mret, exec_ret. f_equal. by apply Hby. }
  assert (Hls : length (splice (64 * i) (t ++ [0]) safe) = length safe).
  { apply splice_length. rewrite length_app. simpl. lia. }
  replace (Z.of_nat i + 1) with (Z.of_nat (S i)) by lia.
  apply IH; [done|lia|lia|lia|lia|lia|]. intros safe' Hl' Hin' Hout'. apply HQ; [lia| |].
  - intros [|j] u Hj; [injection Hj as <-|].
    + rewrite Nat.add_0_r. apply Hout'; [lia|]. by apply splice_row; [lia|..].
    + replace (i + S j)%nat with (S i + j)%nat by lia. by apply Hin'.
  - intros j u Hj Hu. apply Hout'; [lia|]. apply splice_other; [rewrite length_app; simpl; lia|done|done].
Qed.

(** What [push_arguments] leaves in memory: the strings below [top], and their
    addresses in the registers from [i] + 1. *)
Record pushed (m mem : Z -> Z) (trap_frame top : Z) (i : nat) (ts : list (list Z)) : Prop := mkPushed {
  pushed_text j t : ts !! j = Some t -> string_at mem (top - row * Z.of_nat (S j)) t;
  pushed_register j : (j < length ts)%nat ->
    read64 mem (trap_frame + 8 * Z.of_nat (S (i + j))) = top - row * Z.of_nat (S j);
  pushed_frame b :
    b < top - row * Z.of_nat (length ts) \/ top <= b ->
    b < trap_frame + 8 * Z.of_nat (S i) \/ trap_frame + 8 * Z.of_nat (S (i + length ts)) <= b -> mem b = m b;
}.

Lemma wp_push_arguments ts i fuel trap_frame top safe s Q :
  (forall j t, ts !! j = Some t -> row_holds safe (i + j) t) ->
  Z.of_nat (length safe) < 2 ^ 31 -> (64 * (i + length ts) <= length safe)%nat -> (64 <= fuel)%nat ->
  row * Z.of_nat (length ts) <= top -> top < 2 ^ 63 ->
  0 <= trap_frame -> trap_frame + 8 * Z.of_nat (S (i + length ts)) < 2 ^ 64 ->
  apart (top - row * Z.of_nat (length ts)) (row * Z.of_nat (length ts)) trap_frame (8 * Z.of_nat (S (i + length ts))) ->
  (forall mem, pushed (ram s) mem trap_frame top i ts -> Q (top - row * Z.of_nat (length ts)) (set_ram mem s)) ->
  wp (push_arguments (length ts) (Z.of_nat i) fuel trap_frame top safe) Q s.
Proof.
  revert i top s. induction ts as [|t ts IH]; intros i top s Hrow Hb Hlen Hf Htop Hmax Htf Htf' Hap HQ;
    cbn [push_arguments length].
  { wp_step. replace s with (set_ram (ram s) s) by by destruct s. specialize (HQ (ram s)). simpl in HQ.
    rewrite Z.mul_0_r, Z.sub_0_r in HQ. apply HQ. by constructor; [|simpl; lia|]. }
  destruct (Hrow 0%nat t eq_refl) as (Hc & Ht & Hcells). rewrite Nat.add_0_r in Hcells.
  unfold row, SYSCALL_EXEC_ARGUMENT_DIMENSION, apart in *. simpl length in *. cbv zeta.
  rewrite u64_id by lia. wp_step. eapply wp_mono.
  { apply (wp_copy_out fuel (cell safe) (top - 64) (Z.of_nat i * 64) t s); [done|split; lia|split; lia|lia|].
    intros k c m' Hk _. unfold cell, array_get. range_cases; [lia|].
    replace (Z.to_nat (Z.of_nat i * 64 + Z.of_nat k)) with (64 * i + k)%nat by lia. by rewrite (Hcells k c Hk). }
  intros _ s1 ->. unfold store64. wp_step. wp_step. rewrite u64_id by lia.
  set (m1 := stored_bytes (top - 64) (t ++ [0]) (ram s)). set (m2 := write64 _ _ _).
  replace (Z.of_nat i + 1) with (Z.of_nat (S i)) by lia.
  assert (Hm1 : string_at m1 (top - 64) t) by (apply string_stored; [done|split; lia]).
  assert (Hl1 : length (t ++ [0]) = S (length t)) by (rewrite length_app; simpl; lia).
  apply (IH (S i) (top - 64)); try done; try lia.
  { intros j u Hj. replace (S i + j)%nat with (i + S j)%nat by lia. by apply Hrow. }
  intros mem [P1 P2 P3]. replace (top - 64 - 64 * Z.of_nat (length ts)) with (top - 64 * Z.of_nat (S (length ts))) by lia.
  replace (set_ram mem (set_ram m2 (set_ram m1 s))) with (set_ram mem s) by by destruct s.
  unfold row, SYSCALL_EXEC_ARGUMENT_DIMENSION in *.
  assert (Eq : forall b, top - 64 <= b <= top - 64 + Z.of_nat (length t) -> mem b = m1 b).
  { intros b Hb'. rewrite P3 by lia. simpl. unfold m2, write64, write_le. range_cases; try done; lia. }
  apply HQ. constructor.
  - intros [|j] u Hj; [injection Hj as <-|].
    + replace (top - row * Z.of_nat 1) with (top - 64) by (unfold row, SYSCALL_EXEC_ARGUMENT_DIMENSION; lia).
      by eapply string_at_ext.
    + replace (top - row * Z.of_nat (S (S j))) with (top - 64 - 64 * Z.of_nat (S j)) by (unfold row, SYSCALL_EXEC_ARGUMENT_DIMENSION; lia).
      by apply P1.
  - unfold row, SYSCALL_EXEC_ARGUMENT_DIMENSION. intros [|j] Hj.
    + rewrite Nat.add_0_r. unfold read64. rewrite (read_le_ext 8 mem m2); fold read64.
      * unfold m2. replace (top - 64 * Z.of_nat 1) with (top - 64) by lia.
        replace (trap_frame + 8 * Z.of_nat (S i)) with (trap_frame + 8 * (Z.of_nat i + 1)) by lia.
        apply read64_write64. lia.
      * intros b Hb'. rewrite P3 by lia. done.
    + replace (S (i + S j)) with (S (S i + j)) by lia. rewrite P2 by (simpl in Hj; lia). lia.
  - unfold row, SYSCALL_EXEC_ARGUMENT_DIMENSION. simpl length. intros b Hb1 Hb2. rewrite P3 by lia. simpl.
    unfold m2, write64, write_le. range_cases; [lia|..]; simpl; unfold m1; apply stored_outside; lia.
Qed.

(** Both loops. *)
Lemma exec_arguments s s' trap_frame arguments ts :
  let n := Z.of_nat (length ts) in
  let top := 16 * PAGE_SIZE in
  row * n <= top -> rows_at (ram s) arguments 0 ts ->
  0 <= arguments -> arguments + row * n < 2 ^ 64 ->
  0 <= trap_frame -> trap_frame + 8 * (n + 1) < 2 ^ 64 -> apart (top - row * n) (row * n) trap_frame (8 * (n + 1)) ->
  exists safe_arguments mem,
    save_arguments (length ts) 0 (argument_fuel n) arguments (argument_rows n) s = Done safe_arguments s /\
    push_arguments (length ts) 0 (argument_fuel n) trap_frame top safe_arguments s'
      = Done (top - row * n) (set_ram mem s') /\
    pushed (ram s') mem trap_frame top 0 ts.
Proof.
  intros n top Htop Hr Ha Ha' Htf Htf' Hap. change top with 65536 in *. clear top. destruct ts as [|t ts'].
  { exists [], (ram s'). split; [done|]. split; [by destruct s'|]. by constructor; [|simpl; lia|]. }
  remember (t :: ts') as ts eqn:Ets. assert (Hn : 1 <= n) by (unfold n; rewrite Ets; simpl; lia).
  assert (Hfuel : (64 <= argument_fuel n)%nat) by (unfold argument_fuel, SYSCALL_EXEC_ARGUMENT_DIMENSION; lia).
  assert (Hrows : length (argument_rows n) = (64 * (0 + length ts))%nat).
  { unfold argument_rows, SYSCALL_EXEC_ARGUMENT_DIMENSION. rewrite length_replicate. unfold n. lia. }
  unfold row, SYSCALL_EXEC_ARGUMENT_DIMENSION in *.
  assert (Hs : wp (save_arguments (length ts) (Z.of_nat 0) (argument_fuel n) arguments (argument_rows n))
    (fun safe s2 => s2 = s /\ length safe = (64 * length ts)%nat /\
       forall j t, ts !! j = Some t -> row_holds safe j t) s).
  { apply wp_save_arguments; unfold row, SYSCALL_EXEC_ARGUMENT_DIMENSION; try done; try lia.
    intros safe Hl Hin _. split; [done|]. split; [lia|]. exact Hin. }
  apply wp_inv in Hs as (safe & s2 & Es & -> & Hl & Hin).
  assert (Hp : wp (push_arguments (length ts) (Z.of_nat 0) (argument_fuel n) trap_frame 65536 safe)
    (fun r s2 => exists mem, r = 65536 - 64 * n /\ s2 = set_ram mem s' /\ pushed (ram s') mem trap_frame 65536 0 ts) s').
  { apply wp_push_arguments; unfold row, SYSCALL_EXEC_ARGUMENT_DIMENSION, apart in *; try done; try lia.
    intros mem Hm. exists mem. split; [done|]. by split. }
  apply wp_inv in Hp as (r & s2 & Ep & mem & -> & -> & Hm). exists safe, mem. by split.
Qed.
End Arguments.
