(* ===== verification/SystemTheorems.v ===== *)
(** * What the calls and the interrupts guarantee

    The theorems about [libs/syscalls.c], [libs/filesystem.c] and
    [drivers/uart/uart.c], with a machine they are run on. *)

From Stdlib Require Import Strings.String.
From S2P Require Import Prelude Exec Kernel Devices Memory Cstring Arrays Mm Queue QueueLogic Sched SchedInv SchedSteps Dispatch Algorithms Handlers Processes System Waking Ipc Crowd Fork FatTypes FatNames FatTable FatDir FatFile FatLogic FatCodec FatDemo Machine Uart Filesystem Syscalls Console Descriptors Arguments.

(** ** The console *)

(** C16: a line that waits in the ring of the UART, when no other process reads
    it: [syscall_input] returns the length of the edited line and leaves that
    line, terminated, in the buffer of the caller and nothing outside its [len]
    bytes; the characters after the line stay in the ring and the UART is free
    for the next reader.  A line ends with \r or \n and with nothing else: a
    zero is a character of it, which then ends the string earlier, and when
    there are more characters than the buffer has room for, the call goes on to
    the end of the line and drops them.  The documentation of the call says
    otherwise: that it returns when the buffer is full or a zero arrives. *)
Theorem syscall_input_edits_line {D U : Type} (regs : Registers U) (uart : Pl011 regs) (fuel : nat)
    (others : list (M D U unit)) (m : machine D U) (buffer len : Z) (cs rest : list Z) (e : Z) :
  (busy_limit < fuel)%nat -> 1 <= len ->
  input_ring (uart_buffer m) (uart_head m) (uart_tail m) (cs ++ e :: rest) ->
  Forall (fun c => 0 <= c < 2 ^ 8 /\ ends_input c = false) cs -> ends_input e = true ->
  uart_owner m = None \/ uart_owner m = Some (current_process (kern m)) ->
  let line := edited (Z.to_nat (len - 1)) cs in
  exists m', syscall_input regs fuel others buffer len m = Done (Z.of_nat (length line)) m' /\
    Z.of_nat (length line) < len /\ (0x7F ∉ cs -> line = take (Z.to_nat (len - 1)) cs) /\
    bytes_at (ram (kern m')) buffer (line ++ [0]) /\
    (forall b, b < buffer \/ buffer + len <= b -> ram (kern m') b = ram (kern m) b) /\
    kern m' = set_ram (ram (kern m')) (kern m) /\
    input_ring (uart_buffer m') (uart_head m') (uart_tail m') rest /\ uart_owner m' = None.
Proof.
  intros Hf Hlen Hr Hcs He Ho line.
  assert (Hw : wp (syscall_input regs fuel others buffer len)
    (fun r m' => r = Z.of_nat (length line) /\ finished buffer (Z.to_nat (len - 1)) m line rest m') m).
  { by apply (wp_syscall_input regs fuel Hf buffer (Z.to_nat (len - 1)) others len cs e rest). }
  apply wp_inv in Hw as (r & m' & E & -> & H1 & H2 & H3 & H4 & H5). exists m'. split; [done|].
  assert (length line <= Z.to_nat (len - 1))%nat by apply edited_length.
  split; [lia|]. split; [apply edited_take|]. split; [done|]. split; [|done]. intros b Hb. apply H5. lia.
Qed.

(** C17: the receive interrupt takes every word off the FIFO of the UART.  The
    characters received without error go to the end of the ring, those that do
    not fit are lost, and if there was one every process that waited for input
    is READY and queued; the scheduling state is otherwise unchanged. *)
Theorem uart_irq_fills_ring {D U : Type} (regs : Registers U) (uart : Pl011 regs) (fuel : nat)
    (m : machine D U) (a : astate) (cs ws : list Z) :
  let mis := u32 (reg_read regs UART0_MIS (devices m)).1 in
  (busy_limit < fuel)%nat -> (length ws <= fuel)%nat ->
  has mis (Z.shiftl 1 4) = true -> has mis (Z.shiftl 1 5) = false -> has mis (Z.shiftl 1 6) = false ->
  received (devices m) = ws -> input_ring (uart_buffer m) (uart_head m) (uart_tail m) cs ->
  repr (kern m) a -> inv a -> readers_ok a ->
  exists m' a', handle_uart_irq regs fuel m = Done tt m' /\
    received (devices m') = [] /\
    input_ring (uart_buffer m') (uart_head m') (uart_tail m') (kept cs (accepted ws)) /\
    repr (kern m') a' /\ inv a' /\
    forall p x, proc a p x ->
      if existsb good_word ws && asleep PROCESS_WAITING_UART_INPUT x && (pid x <? n_processes (base a))
      then proc a' p (set_state PROCESS_READY x) /\ queued a' p else proc a' p x.
Proof.
  intros mis Hf Hn H4 H5 H6 Hw Hr Ha Hi Ho.
  assert (Hwp : wp (handle_uart_irq regs fuel) (fun _ m' => machine_ring m' (kept cs (accepted ws)) /\
    woken_by (existsb good_word ws) a m' /\ received (devices m') = []) m).
  { by apply (wp_handle_uart_irq regs fuel Hf ws a cs). }
  apply wp_inv in Hwp as ([] & m' & E & Hr' & (a' & Ha' & Hb) & Hd). exists m', a'.
  split; [done|]. split; [done|]. split; [done|]. split; [done|]. destruct (existsb good_word ws); simpl.
  - split; [by apply (woken_inv _ _ _ _ Hb)|]. apply (woken_procs _ _ _ _ Hb).
  - by subst.
Qed.

(** ** Paths and descriptors *)

(** C18: the calls on paths complete the path of the caller with the mount
    point in an array of [FAT_MAX_PATH_SIZE] characters.  The path of the
    library is then "/mnt/" and the text; a text that does not fit with its
    terminator is refused without any effect. *)
Theorem paths_are_below_the_mount {D U : Type} (fuel : nat) (m : machine D U) (stack : list Z)
    (path flags object : Z) (text : list Z) :
  string_at (ram (kern m)) path text -> Z.of_nat (length text) < 2 ^ 63 -> (length text < fuel)%nat ->
  length stack = Z.to_nat FAT_MAX_PATH_SIZE ->
  let looked_up {A} (f : list Z -> FM D A) : M D U Z :=
    if decide (5 + Z.of_nat (length text) < FAT_MAX_PATH_SIZE)
    then r ← library (f (mnt ++ text)); mret (error_of r) else mret (-1) in
  open_file fuel stack path flags object m = looked_up (fun p => fat_file_open fuel object p flags) m /\
  open_dir fuel stack path object m = looked_up (fat_dir_open fuel (user_dir object)) m /\
  create_dir fuel stack path object m = looked_up (fat_dir_create fuel (user_dir object)) m.
Proof.
  intros Hs Hl Hf Hk looked_up.
  assert (E : complete_path fuel stack path (kern m) =
    Done (if decide (5 + Z.of_nat (length text) < FAT_MAX_PATH_SIZE) then Some (mnt ++ text) else None) (kern m)).
  { assert (Hw : wp (complete_path fuel stack path) (fun r s => r = (if decide (5 + Z.of_nat (length text) < FAT_MAX_PATH_SIZE)
      then Some (mnt ++ text) else None) /\ s = kern m) (kern m)) by by apply (wp_complete_path fuel stack path text).
    by apply wp_inv in Hw as (r & s & -> & -> & ->). }
  assert (Hon : forall A (f : list Z -> FM D A), on_path fuel stack path f m = looked_up A f m).
  { intros A f. unfold on_path, call, machine_kernel, looked_up. unfold mbind at 1, exec_bind at 1. rewrite E.
    replace (set_kern (kern m) m) with m by by destruct m. by case_decide. }
  unfold open_file, open_dir, create_dir. by rewrite !Hon.
Qed.

(** No call on files gives a descriptor back: a descriptor in use stays in
    use, [syscall_close_file] included, which puts an empty resource there. *)
Theorem descriptors_stay_in_use {D U : Type} (fuel : nat) (c : M D U Z) (m m' : machine D U) (r : Z)
    (p : pcb_ptr) (x : PCB) (i : nat) :
  file_call fuel c -> c m = Done r m' ->
  pcbs (kern m) !! p = Some x -> occupied x i ->
  exists x', pcbs (kern m') !! p = Some x' /\ occupied x' i.
Proof.
  intros Hc E Hx Hi. apply (keeps_file_call fuel c Hc) in E as [_ Hg].
  destruct (Hg p x Hx) as (x' & Hx' & Hxi). eauto.
Qed.

(** [syscall_open_file] fails with -1, without any effect, when every
    descriptor of the process is in use; a descriptor it returns is the lowest
    that was free, and is in use afterwards. *)
Theorem open_file_takes_lowest {D U : Type} (fuel : nat) (m : machine D U) (x : PCB) (stack : list Z)
    (path flags : Z) :
  pcbs (kern m) !! current_process (kern m) = Some x ->
  ((forall i, (i < Z.to_nat MAX_FILES_PER_PROCESS)%nat -> occupied x i) ->
     syscall_open_file fuel stack path flags m = Done (-1) m) /\
  (forall r m', syscall_open_file fuel stack path flags m = Done r m' -> r <> -1 ->
     0 <= r < MAX_FILES_PER_PROCESS /\ lowest_free x (Z.to_nat r) /\
     exists x', pcbs (kern m') !! current_process (kern m) = Some x' /\ occupied x' (Z.to_nat r)).
Proof. intros Hx. split; [by apply open_file_full|]. intros r m'. by apply open_file_lowest. Qed.

(** ** Starting a program *)

(** The arguments of [syscall_exec], strings of less than
    [SYSCALL_EXEC_ARGUMENT_DIMENSION] characters each, survive the change of
    memory: whatever the memory [s'] of the new program is, the strings are
    afterwards on its stack, one below the other from the top, the registers
    from x1 on hold their addresses, the stack pointer is the last of them, and
    nothing else changes. *)
Theorem exec_arguments_arrive (s s' : kstate) (trap_frame arguments : Z) (ts : list (list Z)) :
  let n := Z.of_nat (length ts) in
  let top := 16 * PAGE_SIZE in
  row * n <= top -> rows_at (ram s) arguments 0 ts ->
  0 <= arguments -> arguments + row * n < 2 ^ 64 ->
  0 <= trap_frame -> trap_frame + 8 * (n + 1) < 2 ^ 64 -> apart (top - row * n) (row * n) trap_frame (8 * (n + 1)) ->
  exists safe_arguments mem,
    save_arguments (length ts) 0 (argument_fuel n) arguments (argument_rows n) s = Done safe_arguments s /\
    push_arguments (length ts) 0 (argument_fuel n) trap_frame top safe_arguments s'
      = Done (top - row * n) (set_ram mem s') /\
    pushed (ram s') mem trap_frame top 0 ts.
Proof. apply exec_arguments. Qed.

(** ** An example machine

    A UART with nothing to wait for, the kernel [crowd] and the volume of
    [FatDemo], mounted. *)

Record demo_uart : Type := mkUart { fifo : list Z; pending : Z; sent : list Z }.

Definition demo_registers : Registers demo_uart := mkRegisters
  (fun r u =>
    if r =? UART0_FR then ((if decide (fifo u = []) then 16 else 0), u)
    else if r =? UART0_DR then
      match fifo u with [] => (0, u) | w :: ws => (w, mkUart ws (pending u) (sent u)) end
    else if r =? UART0_MIS then (pending u, u) else (0, u))
  (fun r v u => if r =? UART0_DR then mkUart (fifo u) (pending u) (sent u ++ [v]) else u).

#[export] Instance demo_pl011 : Pl011 demo_registers.
Proof.
  refine {| received u := u32 <$> fifo u; busy u := 0%nat; busy_limit := 0%nat |}.
  - done.
  - intros u. simpl. destruct (fifo u); by repeat split.
  - intros u w ws E. simpl. destruct (fifo u) as [|w' ws']; [done|]. by injection E.
  - done.
  - intros reg v u. simpl. by destruct (reg =? UART0_DR).
Defined.

Definition demo_storage : fstate ram_disk :=
  match fat_mount ram_ops 0 100 mnt_name start with Done _ v => v | _ => start end.

(** The characters [cs] wait in the ring, from the cell 60 on. *)
Definition demo_buffer (cs : list Z) : list Z :=
  (fun i => nth ((i + 4) mod 64) cs 0) <$> seq 0 64.

Definition demo_machine (k : kstate) (cs : list Z) (u : demo_uart) : machine ram_disk demo_uart :=
  mkMachine k demo_storage ∅ None (demo_buffer cs) ((60 + Z.of_nat (length cs)) `mod` 64) 60 0 u.

Definition quiet : demo_uart := mkUart [] 0 [].

(** "hellp", DEL, "o", the end of the line, and the first character of the next. *)
Definition typed_keys : list Z := [104; 101; 108; 108; 112; 127; 111].

Lemma demo_ring cs k u : (length cs <= 63)%nat ->
  let m := demo_machine k cs u in input_ring (uart_buffer m) (uart_head m) (uart_tail m) cs.
Proof.
  intros Hl m. constructor; unfold UART_BUFFER_SIZE, m, demo_machine; cbn [uart_buffer uart_head uart_tail]; try lia.
  - apply Z.mod_pos_bound. lia.
  - unfold demo_buffer. by rewrite length_fmap, length_seq.
  - rewrite Zminus_mod_idemp_l. rewrite Z.mod_small; lia.
  - intros i c Hi. pose proof (lookup_lt_Some _ _ _ Hi). unfold array_get.
    rewrite (proj2 (Z.ltb_ge _ _)) by (apply Z.mod_pos_bound; lia). unfold demo_buffer.
    apply list_lookup_fmap_Some. exists (Z.to_nat ((60 + Z.of_nat i) `mod` 64)).
    pose proof (Z.mod_pos_bound (60 + Z.of_nat i) 64). split; [|apply lookup_seq; lia].
    replace ((Z.to_nat ((60 + Z.of_nat i) `mod` 64) + 4) mod 64)%nat with i; [symmetry; by apply nth_lookup_Some|].
    apply Nat2Z.inj. rewrite Nat2Z.inj_mod, Nat2Z.inj_add, Z2Nat.id by lia. Z.div_mod_to_equations. lia.
Qed.

Lemma syscall_input_edits_line_witness :
  exists m', syscall_input demo_registers 1 [] 0x8000 32 (demo_machine (crowd 1) (typed_keys ++ 13 :: [120]) quiet) = Done 5 m' /\
    bytes_at (ram (kern m')) 0x8000 ([104; 101; 108; 108; 111] ++ [0]).
Proof.
  destruct (syscall_input_edits_line demo_registers demo_pl011 1 []
    (demo_machine (crowd 1) (typed_keys ++ 13 :: [120]) quiet) 0x8000 32 typed_keys [120] 13)
    as (m' & E & _ & _ & Hb & _).
  - simpl. lia.
  - lia.
  - apply demo_ring. simpl. lia.
  - unfold typed_keys. repeat (constructor; [split; [lia|reflexivity]|]). constructor.
  - reflexivity.
  - left. reflexivity.
  - exists m'. split; [exact E|exact Hb].
Defined.

(** Two characters and a word with a framing error arrive; process 6 waits for
    input. *)
Lemma uart_irq_fills_ring_witness :
  exists m', handle_uart_irq demo_registers 8
      (demo_machine (crowd 10) [104] (mkUart [101; 0x158; 108] 16 [])) = Done tt m' /\
    input_ring (uart_buffer m') (uart_head m') (uart_tail m') [104; 101; 108] /\
    exists a', repr (kern m') a' /\ queued a' (page_pcb 6).
Proof.
  destruct (crowd_ok 10 ltac:(lia)) as (a & Hr & Hi).
  destruct (crowd_proc 10 (page_pcb 6) (crowd_buffer 6) PROCESS_WAITING_UART_INPUT a) as (x & Hx & _ & Ex);
    [vm_compute; reflexivity|vm_compute; reflexivity|exact Hr|].
  assert (Hn : n_processes (base a) = 11) by (rewrite (repr_base _ _ Hr); reflexivity).
  destruct (uart_irq_fills_ring demo_registers demo_pl011 8
    (demo_machine (crowd 10) [104] (mkUart [101; 0x158; 108] 16 [])) a [104] [101; 0x158; 108])
    as (m' & a' & E & _ & Hring & Hr' & _ & Hp).
  - simpl. lia.
  - simpl. lia.
  - reflexivity.
  - reflexivity.
  - reflexivity.
  - reflexivity.
  - apply demo_ring. simpl. lia.
  - exact Hr.
  - exact Hi.
  - split; [rewrite Hn; unfold N_PROCESSES; lia|]. split.
    + rewrite Hn. exact (table_filled a (crowd 10) 11 ltac:(vm_compute; reflexivity) Hr).
    + apply (crowd_awake 10); [vm_compute; reflexivity|reflexivity|exact Hr].
  - specialize (Hp (page_pcb 6) x Hx). exists m'. split; [exact E|]. split; [exact Hring|]. exists a'. split; [exact Hr'|].
    unfold asleep in Hp. rewrite Ex, Hn in Hp.
    assert (Hpid : pid x = 6).
    { destruct Hx as [Hx _]. pose proof (repr_pcb_rev (crowd 10) a (page_pcb 6)) as Hrev.
      destruct (pcbs (crowd 10) !! page_pcb 6) as [z|] eqn:Hz; [|exfalso; vm_compute in Hz; discriminate Hz].
      specialize (Hrev z Hr eq_refl). rewrite Hx in Hrev. injection Hrev as ->.
      assert (E6 : pid <$> pcbs (crowd 10) !! page_pcb 6 = Some 6) by (vm_compute; reflexivity).
      rewrite Hz in E6. injection E6 as E6. exact E6. }
    rewrite Hpid in Hp. exact (proj2 Hp).
Defined.

(** ** Calls on files *)

Definition trap_registers : Z := 0x10000.

(** A system call: the registers of the process, the dispatcher, the result. *)
Definition invoke (number r0 r1 r2 r3 : Z) : M ram_disk demo_uart Z :=
  call (store64 (trap_registers + 64) number;; store64 trap_registers r0;; store64 (trap_registers + 8) r1;;
        store64 (trap_registers + 16) r2;; store64 (trap_registers + 24) r3);;
  syscall_dispatcher demo_registers 0 100 [] (replicate 128 0) zero_Message trap_registers;;
  call (load64 trap_registers).

Definition notes : list Z := str "notes.txt"%string.
Definition notes_path : Z := 0x20000.

Definition desk : machine ram_disk demo_uart :=
  demo_machine (set_ram (stored_bytes 0x21000 (str "hello"%string) (stored_bytes notes_path (notes ++ [0]) (fun _ => 0)))
    (crowd 1)) [] quiet.

Definition create_notes : M ram_disk demo_uart Z :=
  invoke SYSCALL_OPEN_FILE_NUMBER notes_path (Z.lor FAT_WRITE FAT_CREATE) 0 0.

(** A file is created, written, closed, opened again and read: the second
    descriptor is 1, since closing does not give 0 back. *)
Definition file_session : M ram_disk demo_uart (list Z * list Z)%type :=
  fd ← create_notes;
  written ← invoke SYSCALL_WRITE_FILE_NUMBER fd 0x21000 5 0x22000;
  closed ← invoke SYSCALL_CLOSE_FILE_NUMBER fd 0 0 0;
  again ← invoke SYSCALL_OPEN_FILE_NUMBER notes_path FAT_READ 0 0;
  got ← invoke SYSCALL_READ_FILE_NUMBER again 0x23000 100 0x22000;
  data ← call (load_bytes 0x23000 5);
  mret ([fd; written; closed; again; got], data).

Example file_session_result :
  returned (file_session desk) = Some ([0; 0; 0; 1; 0], str "hello"%string).
Proof. vm_compute. reflexivity. Qed.

Lemma notes_at_path : string_at (ram (kern desk)) notes_path notes.
Proof. apply string_at_compute. vm_compute. reflexivity. Qed.

Lemma paths_are_below_the_mount_witness :
  5 + Z.of_nat (length notes) < FAT_MAX_PATH_SIZE /\
  open_file 100 (replicate 128 0) notes_path FAT_READ 4096 desk
  = (if decide (5 + Z.of_nat (length notes) < FAT_MAX_PATH_SIZE)
     then r ← library (fat_file_open 100 4096 (mnt ++ notes) FAT_READ); mret (error_of r) else mret (-1)) desk.
Proof.
  split; [vm_compute; reflexivity|].
  apply (paths_are_below_the_mount 100 desk (replicate 128 0) notes_path FAT_READ 4096 notes).
  - exact notes_at_path.
  - reflexivity.
  - vm_compute. lia.
  - reflexivity.
Defined.

(** The current process of [desk] with a file open. *)
Definition reading_desk : machine ram_disk demo_uart :=
  final (create_notes desk) desk.

Lemma descriptors_stay_in_use_witness :
  exists m' x', syscall_close_file 0 reading_desk = Done 0 m' /\
    pcbs (kern m') !! init_process = Some x' /\ occupied x' 0.
Proof.
  destruct (returned_done (syscall_close_file 0 reading_desk) 0) as [m' E]; [vm_compute; reflexivity|].
  assert (Ex : (fun x => files x !! 0%nat) <$> pcbs (kern reading_desk) !! init_process = Some (Some (Some 0xffff000000401000)))
    by (vm_compute; reflexivity).
  apply fmap_Some in Ex as (x & Hx & Ex).
  destruct (descriptors_stay_in_use 100 (syscall_close_file 0) reading_desk m' 0 init_process x 0) as (x' & Hx' & Ho).
  - constructor.
  - exact E.
  - exact Hx.
  - exists 0xffff000000401000. symmetry. exact Ex.
  - exists m', x'. exact (conj E (conj Hx' Ho)).
Defined.

Lemma open_file_takes_lowest_witness :
  exists m', syscall_open_file 100 (replicate 128 0) notes_path FAT_READ reading_desk = Done 1 m' /\
    exists x', pcbs (kern m') !! init_process = Some x' /\ occupied x' 1.
Proof.
  assert (Ec : current_process (kern reading_desk) = init_process) by (vm_compute; reflexivity).
  assert (Ex : pid <$> pcbs (kern reading_desk) !! init_process = Some 0) by (vm_compute; reflexivity).
  apply fmap_Some in Ex as (x & Hx & _).
  destruct (returned_done (syscall_open_file 100 (replicate 128 0) notes_path FAT_READ reading_desk) 1) as [m' E];
    [vm_compute; reflexivity|].
  exists m'. split; [exact E|].
  rewrite <- Ec. refine (proj2 (proj2 (proj2 (open_file_takes_lowest 100 reading_desk x (replicate 128 0) notes_path FAT_READ _) 1 m' E _))).
  - rewrite Ec. exact Hx.
  - discriminate.
Defined.

(** Two arguments, "ls" and "notes.txt", in rows of 64 bytes. *)
Definition exec_state : kstate :=
  set_ram (stored_bytes 0x9000 (str "ls"%string ++ [0]) (stored_bytes 0x9040 (notes ++ [0]) (fun _ => 0))) (crowd 1).

Lemma exec_arguments_arrive_witness :
  exists safe_arguments mem,
    push_arguments 2 0 (argument_fuel 2) 0x20000 (16 * PAGE_SIZE) safe_arguments (crowd 1)
      = Done 0xFF80 (set_ram mem (crowd 1)) /\
    string_at mem 0xFFC0 (str "ls"%string) /\ string_at mem 0xFF80 notes /\
    read64 mem (0x20000 + 8) = 0xFFC0 /\ read64 mem (0x20000 + 16) = 0xFF80.
Proof.
  destruct (exec_arguments_arrive exec_state (crowd 1) 0x20000 0x9000 [str "ls"%string; notes]) as (safe & mem & _ & E & [P1 P2 _]).
  - vm_compute. discriminate.
  - intros [|[|j]] t Hj; [injection Hj as <-|injection Hj as <-|destruct j; discriminate Hj].
    + split; [vm_compute; lia|]. apply string_at_compute. vm_compute. reflexivity.
    + split; [vm_compute; lia|]. apply string_at_compute. vm_compute. reflexivity.
  - lia.
  - vm_compute. reflexivity.
  - lia.
  - vm_compute. reflexivity.
  - left. vm_compute. discriminate.
  - exists safe, mem. split; [exact E|]. split; [exact (P1 0%nat _ eq_refl)|]. split; [exact (P1 1%nat _ eq_refl)|].
    split; [apply (P2 0%nat); vm_compute; lia|apply (P2 1%nat); vm_compute; lia].
Defined.
