(* ===== verification/VectorTheorems.v ===== *)
(** * Exceptions are transparent

    The frame that [kernel_entry] saves and [kernel_exit] loads, and what an
    exception of a user program comes to. *)

From Stdlib Require Import Strings.Ascii Strings.String.
From S2P Require Import Prelude Exec Kernel Devices Memory Cstring Queue Sched Mm Fork FatTypes Machine Uart Console Transmit Syscalls Diagnostics Vectors Crowd MemoryTheorems FatCodec FatDemo SystemTheorems.

(** ** The pairs *)

Definition flat (ps : list (Z * Z)) : list Z := concat ((fun p => [p.1; p.2]) <$> ps).

Lemma stp_all_done a ps s : in_memory a (16 * Z.of_nat (length ps)) ->
  stp_all a ps s = Done tt (set_ram (store_words a (flat ps) (ram s)) s).
Proof.
  revert a s. induction ps as [|[v w] ps IH]; intros a s [Ha Hb]; simpl length in Hb; [by destruct s|].
  cbn [stp_all]. unfold stp, mbind, exec_bind, store64, modify.
  assert (E : stp_all (u64 (a + 16)) ps (set_ram (write64 (u64 (a + 8)) w (write64 a v (ram s))) s) =
    Done tt (set_ram (store_words a (flat ((v, w) :: ps)) (ram s)) s)); [|by rewrite <- E].
  rewrite (u64_id (a + 8)) by lia. destruct ps as [|p ps]; [done|]. rewrite u64_id by (simpl length in *; lia).
  rewrite IH by (split; simpl length in *; lia). cbn [flat fmap list_fmap concat app store_words fst snd].
  by replace (a + 8 + 8) with (a + 16) by lia.
Qed.

Lemma ldp_all_done n a ws s : length ws = (2 * n)%nat -> in_memory a (16 * Z.of_nat n) ->
  words_at (ram s) a ws -> ldp_all n a s = Done ws s.
Proof.
  revert a ws. induction n as [|n IH]; intros a ws Hl [Ha Hb] H; [by destruct ws|].
  destruct ws as [|v [|w ws]]; [simpl in Hl; lia..|]. apply (words_at_app _ _ [v; w] ws) in H as [H1 H2].
  pose proof (H1 0%nat v eq_refl) as Ev. pose proof (H1 1%nat w eq_refl) as Ew. simpl in Hl.
  change (8 * Z.of_nat 0) with 0 in Ev. rewrite Z.add_0_r in Ev. change (8 * Z.of_nat 1) with 8 in Ew.
  cbn [ldp_all]. unfold ldp, mbind, exec_bind, load64, gets, mret, exec_ret.
  rewrite (u64_id (a + 8)) by lia. rewrite Ev, Ew. destruct n as [|n]; [by destruct ws; [|simpl in Hl; lia]|].
  rewrite u64_id by lia. rewrite (IH (a + 16) ws); [done|lia|split; lia|]. done.
Qed.

(** ** The frame *)

(** The registers of a processor, at an exception with room for a frame below [sp]. *)
Record interrupted (c : registers) : Prop := mkInterrupted {
  interrupted_xs : length (xs c) = 31%nat;
  interrupted_words : Forall word64 (xs c ++ [sp_el0 c; elr_el1 c; spsr_el1 c]);
  interrupted_sp : S_FRAME_SIZE <= sp c < 2 ^ 64;
}.

Definition frame_at (c : registers) : Z := sp c - S_FRAME_SIZE.

(** [struct pt_regs]: the registers, then [sp], [pc] and [pstate]. *)
Definition frame (el : Z) (c : registers) : list Z :=
  xs c ++ [if el =? 0 then sp_el0 c else sp c; elr_el1 c; spsr_el1 c].

Definition entered (el : Z) (c : registers) : registers :=
  mkRegs (<[21%nat := if el =? 0 then sp_el0 c else sp c]> (<[22%nat := elr_el1 c]> (<[23%nat := spsr_el1 c]> (xs c))))
    (frame_at c) (sp_el0 c) (elr_el1 c) (spsr_el1 c) (esr_el1 c) (far_el1 c).

(** The state after [kernel_entry]. *)
Definition saved (el : Z) (c : registers) (s : kstate) : kstate :=
  set_ram (store_words (frame_at c) (frame el c) (ram s)) s.

(** The registers after [kernel_exit] from a frame that holds [l], [v], [elr] and [spsr]. *)
Definition resumed (el : Z) (c : registers) (l : list Z) (v elr spsr : Z) : registers :=
  mkRegs l (sp c + S_FRAME_SIZE) (if el =? 0 then v else sp_el0 c) elr spsr (esr_el1 c) (far_el1 c).

Lemma pairs_xs c : length (xs c) = 31%nat -> xs c = flat (pairs c) ++ [reg c 30].
Proof.
  unfold flat, pairs, reg. destruct (xs c) as [|? l]; [done|]. simpl. intros H.
  do 30 (destruct l as [|? l]; [done|]). by destruct l.
Qed.

Lemma frame_words el c : interrupted c -> length (frame el c) = 34%nat /\ Forall word64 (frame el c).
Proof.
  intros [Hl Hw Hs]. unfold frame. split; [rewrite length_app, Hl; done|].
  apply Forall_app in Hw as [H1 H2]. apply Forall_app. split; [done|]. inversion_clear H2.
  constructor; [|done]. destruct (el =? 0); [done|]. unfold word64, S_FRAME_SIZE in *. lia.
Qed.

Lemma kernel_entry_done el c s : interrupted c -> kernel_entry el c s = Done (entered el c) (saved el c s).
Proof.
  intros [Hl Hw Hs]. unfold kernel_entry, S_FRAME_SIZE in *. rewrite (u64_id (sp c - 272)) by lia.
  unfold mbind, exec_bind. rewrite stp_all_done by (simpl; unfold in_memory; lia).
  unfold stp, mbind, exec_bind, store64, modify.
  rewrite (u64_id (_ + 16 * 15)), (u64_id (_ + 16 * 16)) by lia. rewrite !u64_id by lia. unfold mret, exec_ret, entered, saved, frame, frame_at, S_FRAME_SIZE.
  replace (sp c - 272 + 272) with (sp c) by lia. f_equal.
  rewrite (pairs_xs c Hl). rewrite <- app_assoc, store_words_app. cbn [app store_words].
  change (8 * Z.of_nat (length (flat (pairs c)))) with 240. by rewrite <- !Z.add_assoc.
Qed.

Lemma kernel_exit_done el c s l v elr spsr : length l = 31%nat -> 0 <= sp c < 2 ^ 64 - S_FRAME_SIZE ->
  words_at (ram s) (sp c) (l ++ [v; elr; spsr]) -> kernel_exit el c s = Done (resumed el c l v elr spsr) s.
Proof.
  intros Hl Hs H. unfold kernel_exit, resumed, S_FRAME_SIZE in *.
  destruct (exists_last (l := l)) as (l' & x30 & ->); [by intros ->|]. rewrite length_app in Hl. simpl in Hl.
  rewrite <- app_assoc in H. apply words_at_app in H as [H1 H2]. replace (length l') with 30%nat in H2 by lia.
  pose proof (H2 0%nat _ eq_refl) as E0. pose proof (H2 1%nat _ eq_refl) as E1.
  pose proof (H2 2%nat _ eq_refl) as E2. pose proof (H2 3%nat _ eq_refl) as E3.
  change (8 * Z.of_nat 30) with 240 in *. rewrite <- Z.add_assoc in E0, E1, E2, E3.
  change (240 + 8 * Z.of_nat 0) with 240 in E0. change (240 + 8 * Z.of_nat 1) with 248 in E1.
  change (240 + 8 * Z.of_nat 2) with 256 in E2. change (240 + 8 * Z.of_nat 3) with 264 in E3.
  unfold ldp, mbind, exec_bind, load64, gets, mret, exec_ret. change (16 * 16) with 256. change (16 * 15) with 240.
  rewrite (u64_id (sp c + 256)), (u64_id (sp c + 240)) by lia. rewrite !u64_id by lia. rewrite <- !Z.add_assoc. change (256 + 8) with 264. change (240 + 8) with 248.
  rewrite E0, E1, E2, E3, (ldp_all_done 15 (sp c) l') by (done || lia || unfold in_memory; lia). done.
Qed.

(** An exception that keeps the frame and the stack pointer gives every
    register back. *)
Lemma kernel_exit_resumes el c c' s' : interrupted c -> sp c' = frame_at c -> words_at (ram s') (frame_at c) (frame el c) ->
  kernel_exit el c' s' = Done (mkRegs (xs c) (sp c) (if el =? 0 then sp_el0 c else sp_el0 c') (elr_el1 c) (spsr_el1 c)
    (esr_el1 c') (far_el1 c')) s'.
Proof.
  intros [Hl Hw Hs] Hsp H. rewrite <- Hsp in H. unfold frame_at, S_FRAME_SIZE in *.
  rewrite (kernel_exit_done el c' s' _ _ _ _ Hl) by first [exact H|unfold S_FRAME_SIZE; lia].
  unfold resumed, S_FRAME_SIZE. rewrite Hsp. f_equal. f_equal; [lia|]. by destruct (el =? 0).
Qed.

(** ** Properties *)

(** C23: an exception gives every register back: whatever the handler leaves in
    the registers and in memory, if it keeps the stack pointer and the frame
    that [kernel_entry] saved, which is the [struct pt_regs] of [libs/fork.h],
    [kernel_exit] loads [x0] to [x30], the program counter and the processor
    state of the interrupted code, and its stack pointer. *)
Theorem kernel_exit_restores (el : Z) (c c1 c' : registers) (s s1 s' : kstate) :
  interrupted c -> kernel_entry el c s = Done c1 s1 ->
  sp c' = sp c1 -> (forall b, sp c1 <= b < sp c -> ram s' b = ram s1 b) ->
  words_at (ram s1) (sp c1) (frame el c) /\
  kernel_exit el c' s' = Done (mkRegs (xs c) (sp c) (if el =? 0 then sp_el0 c else sp_el0 c') (elr_el1 c) (spsr_el1 c)
    (esr_el1 c') (far_el1 c')) s'.
Proof.
  intros Hc. rewrite kernel_entry_done by done. intros [= <- <-] Hsp Hm. destruct (frame_words el c Hc) as [Hl Hw].
  assert (H : words_at (ram (saved el c s)) (frame_at c) (frame el c)) by by apply store_words_at.
  split; [done|]. apply kernel_exit_resumes; [done..|]. eapply words_at_ext; [|exact H].
  intros b Hb. apply Hm. simpl. unfold frame_at, S_FRAME_SIZE in *. lia.
Qed.

Section Properties.
Context {D U : Type} (regs : Registers U) `{!Pl011 regs} (ret_from_fork : Z) (fuel : nat).
Context (others : list (M D U unit)) (stack : list Z) (message : Message).
Implicit Types (m : machine D U) (c : registers).

Definition class (c : registers) : Z := Z.shiftr (esr_el1 c) ESR_ELx_EC_SHIFT.

(** The machine when the handler of an exception of EL0 starts. *)
Definition started c m : machine D U := set_kern (saved 0 c (kern m)) m.

Lemma entered_class c m : interrupted c -> el0_sync regs ret_from_fork fuel others stack message c m =
  (if class c =? ESR_ELx_EC_SVC64 then el0_svc regs ret_from_fork fuel others stack message (entered 0 c)
   else if class c =? ESR_ELx_EC_DABT_LOW then el0_da regs fuel (entered 0 c)
   else handle_invalid_entry regs fuel 0 SYNC_ERROR (entered 0 c)) (started c m).
Proof.
  intros Hc. unfold el0_sync, mbind, exec_bind, call, machine_kernel. rewrite kernel_entry_done by done. done.
Qed.

(** The dispatcher returns with [v] in the first word of the frame. *)
Lemma el0_svc_returns c m m1 v : interrupted c -> class c = ESR_ELx_EC_SVC64 -> 
  syscall_dispatcher regs ret_from_fork fuel others stack message (frame_at c)
    (set_kern (set_irq_enabled true (kern (started c m))) (started c m)) = Done tt m1 ->
  words_at (ram (kern m1)) (frame_at c) (<[0%nat := v]> (frame 0 c)) ->
  el0_sync regs ret_from_fork fuel others stack message c m =
  Done (Some (mkRegs (<[0%nat := v]> (xs c)) (sp c) (sp_el0 c) (elr_el1 c) (spsr_el1 c) (esr_el1 c) (far_el1 c)))
    (set_kern (set_irq_enabled false (kern m1)) m1).
Proof.
  intros Hc Hk Hd Hw. rewrite entered_class, Hk by done. rewrite Z.eqb_refl. unfold el0_svc, leave, mbind, exec_bind.
  change (kern (started c m)) with (saved 0 c (kern m)) in Hd. cbn. rewrite Hd. unfold call, machine_kernel.
  destruct Hc as [Hl Hws Hs]. unfold frame in Hw. rewrite insert_app_l in Hw by lia.
  rewrite (kernel_exit_done 0 (entered 0 c) _ (<[0%nat := v]> (xs c)) (sp_el0 c) (elr_el1 c) (spsr_el1 c)).
  - unfold resumed. cbn [sp entered esr_el1 far_el1]. unfold frame_at, mret, exec_ret. by rewrite Z.sub_add.
  - by rewrite length_insert.
  - simpl. unfold frame_at, S_FRAME_SIZE in *. lia.
  - by destruct m1.
Qed.

(** The handler of an exception can be interrupted in turn. *)
Lemma entered_interrupted c : interrupted c -> 2 * S_FRAME_SIZE <= sp c -> interrupted (entered 0 c).
Proof.
  intros [Hl Hw Hs] H2. apply Forall_app in Hw as [H1 H3]. pose proof H3 as H4.
  rewrite !Forall_cons in H4. destruct H4 as (He & Hr & Hp & _). constructor; simpl.
  - by rewrite !length_insert.
  - apply Forall_app. split; [|done]. by repeat (apply Forall_insert; [|done]).
  - unfold frame_at, S_FRAME_SIZE in *. lia.
Qed.

Context (Hfuel : (busy_limit < fuel)%nat).

(** What is printed about an exception of type [t] of the process [p]. *)
Definition panic_text (t : string) (esr address : Z) (p : PCB) : list Z :=
  literal "[KERNEL PANIC] " ++ literal t ++ literal ", ESR: " ++ (literal "0x" ++ hex_digits 16 (u64 esr)) ++
  literal ", address: " ++ (literal "0x" ++ hex_digits 16 (u64 address)) ++
  literal ", process: " ++ (literal "0x" ++ hex_digits 16 (u64 (pid p))) ++ [13; 10].

(** The next piece of the text [Q] expects is printed. *)
Ltac print_step transmit Q :=
  wp_step; first [apply (wp_puts_sends regs fuel Hfuel); [by repeat constructor|]|apply (wp_hex_sends regs fuel Hfuel)];
  let u := fresh "u" in let Hr := fresh in let Ht := fresh in intros u Hr Ht;
  apply (transmits_trans regs _ _ _ _ u) in Q; [|exact Hr|exact Ht]; clear Hr Ht.

Lemma wp_panic (transmit : Pl011Transmit regs) type t esr address p (m : machine D U) (Q : unit -> machine D U -> Prop) :
  array_get entry_error_messages type = Some t -> Forall (fun z => 0 <= z < 2 ^ 8) (literal t) ->
  pcbs (kern m) !! current_process (kern m) = Some p ->
  transmits regs (panic_text t esr address p) Q m -> wp (show_invalid_entry_message regs fuel type esr address) Q m.
Proof using Hfuel.
  intros Ht Hc Hp HQ. unfold show_invalid_entry_message, panic_text in *.
  print_step transmit HQ. wp_step. eapply wp_defined; [done|].
  wp_step. apply (wp_puts_sends regs fuel Hfuel); [done|]. intros u1 Hr1 Ht1.
  apply (transmits_trans regs _ _ _ _ u1) in HQ; [|done..]. do 5 print_step transmit HQ.
  wp_step. apply wp_call. wp_step. wp_step. apply wp_call. eapply wp_deref; [exact Hp|].
  print_step transmit HQ. apply (wp_puts_sends regs fuel Hfuel); [by repeat constructor|exact HQ].
Qed.

(** A type outside the table of messages. *)
Lemma panic_stuck type esr address (m : machine D U) :
  array_get entry_error_messages type = None ->
  show_invalid_entry_message regs fuel type esr address m = Stuck.
Proof using Hfuel.
  intros Ht. unfold show_invalid_entry_message, mbind at 1, exec_bind at 1.
  assert (H : wp (puts regs fuel (literal "[KERNEL PANIC] ")) (fun _ _ => True) m)
    by by apply (wp_bus_puts regs fuel Hfuel).
  apply wp_inv in H as (? & s & -> & _). by rewrite Ht.
Qed.

(** C24: of the synchronous exceptions of a user program only the system calls
    are served.  A data abort ends in [err_hang], because [do_mem_abort] reports
    an error for every address, and the kernel has sent a line with the message
    of another entry of the vector table, the one of an error in 32-bit code, and
    the syndrome, the program counter and the identifier of the process in
    hexadecimal; any other class reads [entry_error_messages] past its end. *)
Theorem el0_fault_never_returns (transmit : Pl011Transmit regs) c m p :
  interrupted c -> 2 * S_FRAME_SIZE <= sp c -> pcbs (kern m) !! current_process (kern m) = Some p ->
  class c <> ESR_ELx_EC_SVC64 ->
  if class c =? ESR_ELx_EC_DABT_LOW
  then exists m' esr address id, el0_sync regs ret_from_fork fuel others stack message c m = Done err_hang m' /\
         transmitted (devices m') = transmitted (devices m) ++
           literal "[KERNEL PANIC] ERROR_INVALID_EL0_32, ESR: 0x" ++ esr ++ literal ", address: 0x" ++ address ++
           literal ", process: 0x" ++ id ++ [13; 10] /\
         hex_value esr = u64 (esr_el1 c) /\ hex_value address = u64 (elr_el1 c) /\ hex_value id = u64 (pid p) /\
         length esr = 16%nat /\ length address = 16%nat /\ length id = 16%nat
  else el0_sync regs ret_from_fork fuel others stack message c m = Stuck.
Proof using Hfuel.
  intros Hc H2 Hp Hk. rewrite entered_class by done. rewrite (proj2 (Z.eqb_neq _ _) Hk).
  pose proof (entered_interrupted c Hc H2) as He.
  destruct (Z.eqb_spec (class c) ESR_ELx_EC_DABT_LOW) as [Hd|Hd].
  - assert (H : wp (el0_da regs fuel (entered 0 c)) (fun r m' => r = err_hang /\ transmitted (devices m') =
      transmitted (devices m) ++ panic_text "ERROR_INVALID_EL0_32" (esr_el1 c) (elr_el1 c) p) (started c m)).
    { unfold el0_da. wp_step. apply wp_call. unfold enable_irq. wp_step. wp_step. apply wp_call.
      eapply wp_done; [apply do_mem_abort_fails|]. cbn [Z.eqb]. unfold handle_invalid_entry.
      wp_step. apply wp_call. eapply wp_done; [by apply kernel_entry_done|]. wp_step.
      eapply (wp_panic transmit); [done|by repeat constructor|exact Hp|]. intros u Hr Ht. wp_step. done. }
    apply wp_inv in H as (r & m' & E & -> & Ht).
    exists m', (hex_digits 16 (u64 (esr_el1 c))), (hex_digits 16 (u64 (elr_el1 c))), (hex_digits 16 (u64 (pid p))).
    split; [exact E|]. split; [exact Ht|]. rewrite !hex_digits_value. change (16 ^ Z.of_nat 16) with (2 ^ 64).
    unfold u64. by rewrite !Z.mod_mod.
  - unfold handle_invalid_entry, mbind, exec_bind, call, machine_kernel.
    rewrite kernel_entry_done by done. by rewrite panic_stuck.
Qed.
End Properties.

Section Time.
Context {D U : Type} (regs : Registers U) (ret_from_fork : Z) (fuel : nat).
Context (others : list (M D U unit)) (stack : list Z) (message : Message).
Implicit Types (m : machine D U) (c : registers).

Lemma frame_register c s i w : interrupted c -> xs c !! i = Some w ->
  read64 (ram (saved 0 c s)) (u64 (frame_at c + 8 * Z.of_nat i)) = w.
Proof.
  intros Hc Hi. pose proof (frame_words 0 c Hc) as [_ Hw]. destruct Hc as [Hl _ Hs].
  pose proof (lookup_lt_Some _ _ _ Hi). rewrite u64_id by (unfold frame_at, S_FRAME_SIZE in *; lia).
  apply (store_words_at (frame_at c) (frame 0 c) (ram s) Hw). unfold frame. by apply lookup_app_l_Some.
Qed.

(** The dispatcher reads the number of the call, which [H8] says, and compares
    it with the numbers of the calls. *)
Ltac dispatch c m H8 number :=
  unfold syscall_dispatcher, register, load64; wp_step; apply wp_call; wp_step;
  let E := fresh in pose proof (frame_register c (kern m) 8 _ ltac:(assumption) H8) as E;
  cbn [kern set_kern ram set_irq_enabled started] in E |- *;
  change (8 * 8) with (8 * Z.of_nat 8); rewrite E; clear E;
  change (SYSCALLS_NUMBER <? number) with false; cbv beta iota.

Ltac choose_call number :=
  repeat match goal with |- context [number =? ?n] =>
    let b := eval vm_compute in (number =? n) in change (number =? n) with b end;
  cbv beta iota.

(** The system call that reads the clock, from the [svc] instruction to
    the [eret]: the user program goes on with the timer in [x0] and every other
    register, the stack pointer and the program counter as they were. *)
Theorem get_time_system_call c m w :
  interrupted c -> class c = ESR_ELx_EC_SVC64 -> xs c !! 8%nat = Some SYSCALL_GET_TIME_NUMBER ->
  w = u32 (system_timer (kern m) (timer_reads (kern m))) ->
  exists m', el0_sync regs ret_from_fork fuel others stack message c m =
    Done (Some (mkRegs (<[0%nat := w]> (xs c)) (sp c) (sp_el0 c) (elr_el1 c) (spsr_el1 c) (esr_el1 c) (far_el1 c))) m' /\
    (forall b, b < frame_at c \/ sp c <= b -> ram (kern m') b = ram (kern m) b) /\ irq_enabled (kern m') = false.
Proof.
  intros Hc Hk H8 Hw.
  assert (H : wp (syscall_dispatcher regs ret_from_fork fuel others stack message (frame_at c))
    (fun _ m1 => ram (kern m1) = write64 (frame_at c) (u64 w) (ram (saved 0 c (kern m))))
    (set_kern (set_irq_enabled true (kern (started c m))) (started c m))).
  { dispatch c m H8 SYSCALL_GET_TIME_NUMBER. do 4 (wp_step; apply wp_call; wp_step). choose_call SYSCALL_GET_TIME_NUMBER.
    unfold return_value, syscall_get_time, mmio_read_timer. wp_step. apply wp_call.
    wp_steps. apply wp_call. unfold store64. wp_step. simpl. by rewrite Hw. }
  apply wp_inv in H as ([] & m1 & Hd & Hr).
  assert (Hw' : word64 w) by (subst w; pose proof (u32_range (system_timer (kern m) (timer_reads (kern m)))); unfold word64; lia).
  exists (set_kern (set_irq_enabled false (kern m1)) m1). split; [|split; [|done]].
  - apply el0_svc_returns; [done|done|exact Hd|]. rewrite Hr, u64_id by done. simpl.
    apply words_at_first; [done|]. apply store_words_at. by apply frame_words.
  - intros b Hb. simpl. rewrite Hr. unfold write64, write_le. destruct Hc as [Hl _ Hs].
    range_cases; try (unfold frame_at, S_FRAME_SIZE in *; lia); apply store_words_outside;
      unfold frame; rewrite length_app, Hl; simpl; unfold frame_at, S_FRAME_SIZE in *; lia.
Qed.

(** C25: a system call that writes a string, from the [svc] instruction to the
    [eret]: the UART sends exactly the characters of the string, in order, and
    the user program goes on with every register, the stack pointer and the
    program counter as they were. *)
Theorem write_system_call (uart : Pl011 regs) (transmit : Pl011Transmit regs) c m str text :
  (busy_limit < fuel)%nat -> (length text < fuel)%nat ->
  interrupted c -> class c = ESR_ELx_EC_SVC64 ->
  xs c !! 8%nat = Some SYSCALL_WRITE_NUMBER -> xs c !! 0%nat = Some str ->
  string_at (ram (kern m)) str text -> (str + Z.of_nat (length text) < frame_at c \/ sp c <= str) ->
  exists m', el0_sync regs ret_from_fork fuel others stack message c m = Done (Some c) m' /\
    transmitted (devices m') = transmitted (devices m) ++ text /\ received (devices m') = received (devices m) /\
    (forall b, b < frame_at c \/ sp c <= b -> ram (kern m') b = ram (kern m) b).
Proof.
  intros Hf Hn Hc Hk H8 H0 Hs Hd.
  assert (Hout : forall b, b < frame_at c \/ sp c <= b -> ram (saved 0 c (kern m)) b = ram (kern m) b).
  { intros b Hb. apply store_words_outside. destruct Hc as [Hl _ _]. unfold frame. rewrite length_app, Hl.
    simpl. unfold frame_at, S_FRAME_SIZE in *. lia. }
  assert (H : wp (syscall_dispatcher regs ret_from_fork fuel others stack message (frame_at c))
    (fun _ m1 => kern m1 = set_irq_enabled true (saved 0 c (kern m)) /\ received (devices m1) = received (devices m) /\
       transmitted (devices m1) = transmitted (devices m) ++ text)
    (set_kern (set_irq_enabled true (kern (started c m))) (started c m))).
  { dispatch c m H8 SYSCALL_WRITE_NUMBER. wp_step. apply wp_call. wp_step.
    pose proof (frame_register c (kern m) 0 _ Hc H0) as E. cbn [kern set_kern ram set_irq_enabled started] in E |- *.
    change (8 * 0) with (8 * Z.of_nat 0). rewrite E.
    do 3 (wp_step; apply wp_call; wp_step). choose_call SYSCALL_WRITE_NUMBER. unfold syscall_write.
    apply (wp_uart_puts_sends regs fuel Hf fuel str text); [|done|intros u Hr Hu; done].
    destruct Hs as (H1 & H2 & H3). split; [done|]. split; [|done]. intros i d Hi. rewrite <- (H2 i d Hi). apply Hout.
    pose proof (lookup_lt_Some _ _ _ Hi) as Hl. rewrite length_app in Hl. simpl in Hl. lia. }
  apply wp_inv in H as ([] & m1 & E & Hk1 & Hr & Ht). exists (set_kern (set_irq_enabled false (kern m1)) m1).
  split; [|split; [done|split; [done|]]].
  - rewrite (el0_svc_returns regs ret_from_fork fuel others stack message c m m1 str Hc Hk E).
    + rewrite list_insert_id by done. by destruct c.
    + rewrite Hk1. rewrite list_insert_id by (unfold frame; by apply lookup_app_l_Some).
      apply store_words_at. by apply frame_words.
  - intros b Hb. cbn [kern set_kern]. rewrite Hk1. by apply Hout.
Qed.
End Time.

(** ** Witnesses *)

(** A user program at the address 0x40, about to make the system call [number],
    or interrupted for the reason [esr]. *)
Definition demo_program (esr number : Z) : registers :=
  mkRegs (<[8%nat := number]> (Z.of_nat <$> seq 100 31)) 0xFFFF000000108000 0x10000 0x40 PSR_MODE_EL0t esr 0x3000.

Lemma demo_interrupted esr number : 0 <= number < 2 ^ 64 -> interrupted (demo_program esr number).
Proof.
  intros Hn. constructor; simpl; [done| |by unfold S_FRAME_SIZE; lia].
  repeat (constructor; [unfold word64, PSR_MODE_EL0t; lia|]). constructor.
Qed.

Definition demo_kernel : machine ram_disk demo_uart := 
  demo_machine (set_system_timer (fun n => 0x100000BEEF + Z.of_nat n) (crowd 1)) [] quiet.

Lemma same_sp c l : sp (mkRegs l (frame_at c) 0 0 0 0 0) = sp (entered 0 c).
Proof. done. Qed.

Lemma same_ram v s b : ram (set_irq_enabled v s) b = ram s b.
Proof. done. Qed.

Lemma kernel_exit_restores_witness :
  let c := demo_program 0 1 in let s := crowd 1 in
  kernel_exit 0 (mkRegs [] (frame_at c) 0 0 0 0 0) (set_irq_enabled false (saved 0 c s)) =
    Done (mkRegs (xs c) (sp c) (sp_el0 c) (elr_el1 c) (spsr_el1 c) 0 0) (set_irq_enabled false (saved 0 c s)).
Proof.
  cbv zeta. assert (Hc : interrupted (demo_program 0 1)) by (apply demo_interrupted; lia).
  destruct (kernel_exit_restores 0 _ _ (mkRegs [] (frame_at (demo_program 0 1)) 0 0 0 0 0) _ _
    (set_irq_enabled false (saved 0 (demo_program 0 1) (crowd 1))) Hc (kernel_entry_done 0 _ (crowd 1) Hc)
    (same_sp _ []) (fun b _ => same_ram _ _ b)) as [_ H]. exact H.
Defined.

Lemma get_time_system_call_witness :
  let c := demo_program (Z.shiftl 0x15 26) SYSCALL_GET_TIME_NUMBER in
  exists m', el0_sync demo_registers 0 1 [] [] zero_Message c demo_kernel =
    Done (Some (mkRegs (<[0%nat := 0xBEEF]> (xs c)) (sp c) (sp_el0 c) (elr_el1 c) (spsr_el1 c) (esr_el1 c) (far_el1 c))) m'.
Proof.
  intros c. destruct (get_time_system_call demo_registers 0 1 [] [] zero_Message c demo_kernel 0xBEEF) as (m' & H & _);
    [by apply demo_interrupted|done|done|done|]. by exists m'.
Defined.

#[export] Instance demo_transmit : Pl011Transmit demo_registers.
Proof.
  refine {| transmitted u := u8 <$> sent u |}.
  - intros v u _. simpl. by rewrite fmap_app.
  - intros reg u. simpl. repeat case_match; done.
Defined.

(** The line a data abort at 0x40 leaves; the esr is 0x90000000. *)
Lemma el0_fault_never_returns_witness :
  (exists m', el0_sync demo_registers 0 1 [] [] zero_Message (demo_program (Z.shiftl 0x24 26) 1) demo_kernel = Done err_hang m' /\
     exists l, transmitted (devices m') = literal "[KERNEL PANIC] ERROR_INVALID_EL0_32, ESR: 0x" ++ l) /\
  el0_sync demo_registers 0 1 [] [] zero_Message (demo_program 0 1) demo_kernel = Stuck.
Proof.
  assert (Hp : exists p, pcbs (kern demo_kernel) !! current_process (kern demo_kernel) = Some p) by by eexists.
  destruct Hp as [p Hp]. assert (Hf : (@busy_limit _ demo_registers _ < 1)%nat) by (simpl; lia). split.
  - destruct (el0_fault_never_returns demo_registers 0 1 [] [] zero_Message Hf demo_transmit
      (demo_program (Z.shiftl 0x24 26) 1) demo_kernel p) as (m' & esr & address & id & H & Ht & _); [by apply demo_interrupted|done|done|done|].
    exists m'. split; [exact H|]. eexists. rewrite Ht. reflexivity.
  - apply (el0_fault_never_returns demo_registers 0 1 [] [] zero_Message Hf demo_transmit
      (demo_program 0 1) demo_kernel p); [by apply demo_interrupted|done|done|done].
Defined.

(** A program that writes "ok". *)
Definition demo_writer : registers :=
  mkRegs (<[0%nat := 0x8000]> (xs (demo_program 0 SYSCALL_WRITE_NUMBER))) 0xFFFF000000108000 0x10000 0x40 PSR_MODE_EL0t
    (Z.shiftl 0x15 26) 0x3000.

Lemma write_system_call_witness :
  let m := set_kern (set_ram (stored_bytes 0x8000 [111; 107; 0] (ram (kern demo_kernel))) (kern demo_kernel)) demo_kernel in
  exists m', el0_sync demo_registers 0 3 [] [] zero_Message demo_writer m = Done (Some demo_writer) m' /\
    transmitted (devices m') = [111; 107].
Proof.
  intros m. destruct (write_system_call demo_registers 0 3 [] [] zero_Message demo_pl011 demo_transmit demo_writer m 0x8000 [111; 107])
    as (m' & E & Ht & _); [simpl; lia|simpl; lia| |done|done|done| |left; vm_compute; done|].
  - constructor; simpl; [done| |by unfold S_FRAME_SIZE; lia].
    repeat (constructor; [unfold word64, PSR_MODE_EL0t, SYSCALL_WRITE_NUMBER; lia|]). constructor.
  - split; [by repeat constructor|split; [|split; simpl; lia]].
    intros i c Hi. do 3 (destruct i as [|i]; [injection Hi as <-; done|]). by destruct i.
  - exists m'. split; [exact E|exact Ht].
Defined.
