(* ===== verification/LoadTheorems.v ===== *)
(** * The first user program

    [ret_from_fork] of [drivers/irq/entry.S], the kernel thread of
    [kernel/kernel.c] and [move_to_user_mode] of [libs/fork.c], composed. *)

From S2P Require Import Prelude Exec Kernel Devices Memory Cstring Mmu Mm Paging AddressSpace Queue QueueLogic Sched SchedInv System Fork Creation Loading FatTypes Machine Uart Console Boot Vectors Crowd MemoryTheorems SystemTheorems VectorTheorems.

(** The return to user mode of a process that is about to start a program. *)
Lemma ret_to_user_starts {D U} (c : registers) (m : machine D U) kp pc :
  0 <= kp < N_PAGES -> words_at (ram (kern m)) (regs_of kp) (start_frame pc) -> Vectors.sp c = regs_of kp ->
  ret_to_user c m = Done (Some (mkRegs (replicate 31 0) (va (page kp) + PAGE_SIZE) (16 * PAGE_SIZE) pc PSR_MODE_EL0t
    (esr_el1 c) (far_el1 c))) (set_kern (set_irq_enabled false (kern m)) m).
Proof.
  intros Hk Hw Hsp. unfold ret_to_user, leave, mbind, exec_bind. cbn. unfold call, machine_kernel.
  assert (Hr : regs_of kp + S_FRAME_SIZE = va (page kp) + PAGE_SIZE) by (unfold regs_of, S_FRAME_SIZE, sizeof_pt_regs; lia).
  rewrite (kernel_exit_done 0 c _ (replicate 31 0) (16 * PAGE_SIZE) pc PSR_MODE_EL0t); [|done| |by rewrite Hsp].
  - unfold resumed. rewrite Hsp, Hr. by destruct m.
  - rewrite Hsp. unfold S_FRAME_SIZE in *. page_lia.
Qed.

Section FirstProgram.
Context {D U : Type} (regs : Registers U) `{!Pl011 regs} (fuel : nat) (Hfuel : (busy_limit < fuel)%nat).
Context (kernel_process_address init_process_main user_begin user_end : Z).
Implicit Types (m : machine D U) (c : registers).

(** The code that a kernel thread runs. *)
Definition kernel_code (function argument : Z) : M D U unit :=
  if function =? kernel_process_address then kernel_process regs fuel init_process_main user_begin user_end else stuck.

(** C22: the kernel thread that [kernel_main] creates becomes the first user
    program.  From its first instruction, [ret_from_fork], with the registers
    [copy_process] gave it, it reaches the [eret] to EL0 with the program counter
    at [init_process_main] in the program, its stack 16 pages up, interrupts off
    until then and every other register zero; the address space of the process is in
    [ttbr0_el1], and there the first 16 pages are fresh pages that hold the bytes
    from [user_begin] to [user_end] and zeros after them.  Memory that was in use
    is as it was, but for the saved registers at the end of the page of the PCB. *)
Theorem first_user_program_starts m x kp c :
  let process := page_pcb (va (page kp)) in
  current_process (kern m) = process -> pcbs (kern m) !! process = Some x -> preempt_disabled x = 1 ->
  0 <= kp < N_PAGES -> page_used (memory_pages (kern m)) kp -> blank (mm x) -> free_pages (memory_pages (kern m)) 20 ->
  0 <= user_begin <= init_process_main -> user_begin <= user_end <= va (page 0) -> init_process_main < 2 ^ 64 ->
  reg c 19 = kernel_process_address -> kernel_process_address <> 0 -> Vectors.sp c = regs_of kp ->
  exists m' mm', ret_from_fork kernel_code c m =
      Done (Some (mkRegs (replicate 31 0) (va (page kp) + PAGE_SIZE) (16 * PAGE_SIZE) (init_process_main - user_begin)
        PSR_MODE_EL0t (esr_el1 c) (far_el1 c))) m' /\
    irq_enabled (kern m') = false /\
    pcbs (kern m') !! process = Some (set_mm mm' (set_preempt_disabled 0 x)) /\ ttbr0 (kern m') = pgd mm' /\
    (forall o, 0 <= o < 16 * PAGE_SIZE ->
       exists k, translate (ram (kern m')) (ttbr0 (kern m')) o = Some (page k + o mod PAGE_SIZE) /\ ~ page_used (memory_pages (kern m)) k /\
         ram (kern m') (va (page k) + o mod PAGE_SIZE) =
           if o <? user_end - user_begin then u8 (ram (kern m) (user_begin + o)) else 0) /\
    (forall k b, 0 <= k < N_PAGES -> page_used (memory_pages (kern m)) k -> va (page k) <= b < va (page k) + PAGE_SIZE ->
       b < regs_of kp \/ regs_of kp + sizeof_pt_regs <= b -> ram (kern m') b = ram (kern m) b).
Proof using All.
  intros process Hcur Hx Hpre Hk Hu Hbl Hf Hb He Hi H19 H0 Hsp. pose proof PAGE_SIZE_eq as HP.
  assert (H : wp (call schedule_tail;; (if reg c 19 =? 0 then mret tt else kernel_code (reg c 19) (reg c 20)))
    (fun _ m1 => exists mm' ram' pages', pcbs (kern m1) !! process = Some (set_mm mm' (set_preempt_disabled 0 x)) /\
       ttbr0 (kern m1) = pgd mm' /\ ram (kern m1) = ram' /\
       runnable kp user_begin (user_end - user_begin) (init_process_main - user_begin) (ram (kern m))
         (memory_pages (kern m)) mm' ram' pages') m).
  { wp_step. apply wp_call. unfold schedule_tail, preempt_enable. wp_step. wp_step. rewrite Hcur.
    unfold update, deref. wp_steps; [exact Hx|].
    set (k1 := set_pcbs _ (kern m)).
    assert (Hx1 : pcbs k1 !! process = Some (set_preempt_disabled 0 x)).
    { simpl. rewrite lookup_alter_eq, Hx. simpl. by rewrite Hpre. }
    rewrite H19, (proj2 (Z.eqb_neq _ _)) by done. unfold kernel_code. rewrite Z.eqb_refl. unfold kernel_process, print.
    wp_step. apply (wp_bus_puts regs fuel Hfuel). intros u _. wp_step. apply wp_call.
    rewrite (u64_id (user_end - _)), (u64_id (init_process_main - _)) by page_lia.
    apply (wp_move_to_user_mode k1 (set_preempt_disabled 0 x) kp); [done..|lia|lia|lia|lia|].
    intros mm' m' pages' Hst. cbn [when Z.ltb Z.compare]. wp_step. exists mm', m', pages'.
    split; [apply mm_state_pcb|done]. }
  apply wp_inv in H as ([] & m1 & E & mm' & ram' & pages' & Hp & Ht & Hr & Hst).
  exists (set_kern (set_irq_enabled false (kern m1)) m1), mm'.
  split; [|split; [done|split; [done|split; [done|split]]]].
  - unfold ret_from_fork. unfold mbind, exec_bind in E |- *. destruct (call schedule_tail m) as [[] m2| |]; [|done..].
    rewrite E. apply (ret_to_user_starts c m1 kp); [done| |done]. rewrite Hr. by apply Hst.
  - intros o Ho. destruct (runnable_program _ _ _ _ _ _ _ _ _ Hst o Ho) as (k & Hk1 & Hk2 & _ & Hk3).
    exists k. simpl. rewrite Ht, Hr. done.
  - intros k b Hk1 Hk2 Hb' Hout. simpl. rewrite Hr. apply (runnable_same _ _ _ _ _ _ _ _ _ Hst (page k)); [by exists k|done..].
Qed.

End FirstProgram.

(** A program of three bytes in the image of the kernel, which starts at its
    second byte, and the thread that [copy_process] created to run it. *)
Definition demo_begin : Z := VA_START + 0x9000.

Definition thread_running : K unit :=
  preempt_disable;;
  modify (fun s => set_ram (stored_bytes demo_begin [1; 2; 3] (ram s)) s).

Definition demo_thread : kstate := final (thread_running fork_running) fork_running.

Lemma demo_thread_facts :
  current_process demo_thread = page_pcb (va (page 0)) /\
  (fun x => (preempt_disabled x, mm x)) <$> pcbs demo_thread !! page_pcb (va (page 0)) = Some (1, zero_mm) /\
  memory_pages demo_thread = {[0 := 1]}.
Proof. split; [|split]; vm_compute; reflexivity. Qed.

Lemma demo_thread_bytes : (fun o => ram demo_thread (demo_begin + o)) <$> [0; 1; 2] = [1; 2; 3].
Proof. vm_compute. reflexivity. Qed.

Lemma demo_thread_free : free_pages {[0 := 1]} 20.
Proof.
  exists (Z.of_nat <$> seq 1 20). split; [apply NoDup_fmap; [apply _|apply NoDup_seq]|].
  rewrite length_fmap, length_seq. split; [done|]. apply Forall_fmap, Forall_seq. intros j Hj. simpl.
  split; [page_lia|]. unfold page_used. rewrite lookup_singleton_ne by lia. simpl. lia.
Qed.

(** The registers [cpu_switch_to_process] loads for it. *)
Definition demo_thread_registers : registers :=
  mkRegs (<[19%nat := 0x90000]> (<[20%nat := 7]> (replicate 31 0))) (regs_of 0) 0 0 0 0 0.

Lemma first_user_program_starts_witness :
  let m := demo_machine demo_thread [] quiet in
  exists m', ret_from_fork (kernel_code demo_registers 1 0x90000 (demo_begin + 1) demo_begin (demo_begin + 3))
      demo_thread_registers m =
    Done (Some (mkRegs (replicate 31 0) (va (page 0) + PAGE_SIZE) (16 * PAGE_SIZE) 1 PSR_MODE_EL0t 0 0)) m' /\
    (exists k, translate (ram (kern m')) (ttbr0 (kern m')) 1 = Some (page k + 1) /\ ram (kern m') (va (page k) + 1) = 2) /\
    (exists k, translate (ram (kern m')) (ttbr0 (kern m')) 0x5003 = Some (page k + 3) /\ ram (kern m') (va (page k) + 3) = 0).
Proof.
  pose proof demo_thread_facts as Hf. pose proof demo_thread_bytes as Hb. revert Hf Hb. generalize demo_thread.
  intros s (Hc & Hx & Hm) Hb m. injection Hb as Hb0 Hb1 Hb2. pose proof PAGE_SIZE_eq as HP.
  destruct (pcbs s !! page_pcb (va (page 0))) as [x|] eqn:Ex; [|discriminate]. injection Hx as Hp Hmm.
  assert (Hfuel : (@busy_limit _ demo_registers _ < 1)%nat) by (simpl; lia).
  destruct (first_user_program_starts demo_registers 1 Hfuel 0x90000 (demo_begin + 1) demo_begin (demo_begin + 3)
    m x 0 demo_thread_registers) as (m' & mm' & E & _ & _ & _ & Hprog & _).
  - exact Hc.
  - exact Ex.
  - exact Hp.
  - page_lia.
  - change (page_used (memory_pages s) 0). by rewrite Hm.
  - by rewrite Hmm.
  - change (free_pages (memory_pages s) 20). rewrite Hm. apply demo_thread_free.
  - unfold demo_begin. page_lia.
  - unfold demo_begin. page_lia.
  - unfold demo_begin. page_lia.
  - reflexivity.
  - done.
  - reflexivity.
  - exists m'. split; [|split].
    + replace 1 with (demo_begin + 1 - demo_begin) at 3 by lia. exact E.
    + destruct (Hprog 1) as (k & Hk & _ & Hv); [lia|]. exists k.
      change (1 mod PAGE_SIZE) with 1 in Hv, Hk. split; [exact Hk|]. rewrite Hv. rewrite (proj2 (Z.ltb_lt _ _)) by lia.
      change (ram (kern m)) with (ram s). by rewrite Hb1.
    + destruct (Hprog 0x5003) as (k & Hk & _ & Hv); [lia|]. exists k.
      change (0x5003 mod PAGE_SIZE) with 3 in Hv, Hk. split; [exact Hk|]. rewrite Hv. by rewrite (proj2 (Z.ltb_ge _ _)) by lia.
Defined.
