(* ===== verification/UserTheorems.v ===== *)
(** * The user programs: properties *)

From Stdlib Require Import Strings.String.
From S2P Require Import Prelude Exec Kernel Devices Memory Cstring Arrays User Programs ProgramLogic FatTypes Syscalls Shell ShellLogic Commands.

(** ** The shell *)

(** C38: [normalize_path] computes the meaning of a path: names are
    kept, "." is dropped, ".." drops the name before it, and nothing left is the
    root.  Normalising the result changes nothing.  A path that goes above its
    start writes before the array.  The empty name before a leading slash is a
    name that ".." drops: "/../x" becomes "x". *)
Theorem normalize_path_meaning {W : Type} (m : nat) (a : list Z) (names : list (list Z)) (last : list Z) (s : W) :
  holds m a (path_text names last) -> (2 <= m)%nat -> Forall plain names -> plain last ->
  match normal [] names last with
  | Some out => exists a', normalize_path a s = Done (Some a') s /\ holds m a' (or_root out) /\
      exists a'', normalize_path a' s = Done (Some a'') s /\ holds m a'' (or_root out)
  | None => normalize_path a s = Stuck
  end.
Proof.
  intros Ha Hm Hn Hl. pose proof (normalize_path_normal m a names last s Ha Hm Hn Hl) as H.
  destruct (normal [] names last) as [out|] eqn:E; [|exact H]. destruct H as (a' & H1 & H2). exists a'.
  split; [done|]. split; [done|]. by eapply normalize_twice.
Qed.

(** "/a/../b/./c" is "/b/c". *)
Lemma normalize_path_meaning_witness :
  let a := literal "/a/../b/./c" ++ 0 :: zeroed 20 in
  exists a', normalize_path a tt = Done (Some a') tt /\ holds 32 a' (literal "/b/c").
Proof.
  pose proof (normalize_path_meaning 32 (literal "/a/../b/./c" ++ 0 :: zeroed 20)
    [[]; literal "a"; [dot; dot]; literal "b"; [dot]] (literal "c") tt) as H.
  destruct H as (a' & H1 & H2 & _).
  - split; [by repeat constructor|]. split; [reflexivity|]. by exists (zeroed 20).
  - lia.
  - repeat (apply Forall_cons; split); try (split; [by repeat constructor|]); try (by left); try (by right; left); try (by right; right); done.
  - split; [by repeat constructor|by right; right].
  - exists a'. split; [exact H1|exact H2].
Defined.

(** C39: [cd] asks the kernel for the directory its argument means
    from the working directory, and moves there when the kernel opens it; a
    refused directory leaves the working directory alone.  The working directory
    always ends with a slash and has no dots.  An argument that goes above the
    root is undefined behaviour. *)
Theorem cd_changes_directory (answer : list syscall -> syscall -> option reply) (buffer wd dest : list Z)
    (wn dn : list (list Z)) (h : list syscall) :
  cd_command buffer wd dest wn dn ->
  match normal [] (joined wn dn) [] with
  | Some out => directory (or_root out) /\
      forall r, answer h (OpenDir (or_root out)) = Some r ->
      let asked := told (h ++ [OpenDir (or_root out)]) in
      uwp (handle_cd (System0 := transcript answer) buffer wd)
        (fun wd' h' => asked h' /\
           (if s32 (value r) =? -1 then wd' = wd
            else h' = h ++ [OpenDir (or_root out)] /\ holds MAX_COMMAND_DIMENSION wd' (or_root out)))
        asked h
  | None => handle_cd (System0 := transcript answer) buffer wd h = Stuck
  end.
Proof.
  intros Hcd. destruct (normal [] (joined wn dn) []) as [out|] eqn:E; [|by eapply handle_cd_stuck].
  split; [|intros r Hr asked; by eapply uwp_handle_cd]. destruct Hcd. eapply normal_directory; [constructor| |exact E].
  apply joined_plain; tauto.
Qed.

(** A kernel that opens everything as 3. *)
Definition opens (h : list syscall) (c : syscall) : option reply := Some (mkReply 3 [] 0).

Definition cd_up : list Z := literal "cd ../.." ++ 0 :: zeroed 55.
Definition root_directory : list Z := slash :: 0 :: zeroed 62.

(** [cd ../..] in the root directory. *)
Lemma cd_changes_directory_witness : handle_cd (System0 := transcript opens) cd_up root_directory [] = Stuck.
Proof.
  apply (cd_changes_directory opens cd_up root_directory (literal "../..") [[]] [[dot; dot]; [dot; dot]] []). split.
  - split; [by repeat constructor|]. split; [reflexivity|]. by exists (zeroed 55).
  - by repeat constructor.
  - done.
  - split; [by repeat constructor|]. split; [reflexivity|]. by exists (zeroed 62).
  - split; [done|]. apply Forall_singleton. split; [split; [constructor|by right; right]|by intros [?|?]].
  - split; [reflexivity|]. split; [done|]. repeat (apply Forall_cons; split); try done; (split; [by repeat constructor|by right; left]).
  - apply Nat.ltb_lt. reflexivity.
Defined.

(** C40: a line that begins with no command of the shell runs the program of its
    first word in /bin: the shell forks, the child executes "/bin/name.bin" with
    the words that follow as arguments, the first four of them, and the parent
    waits for it.  Apart from that the shell only writes messages, and the working
    directory stays.  A line such as "lsof" begins with a command, so the program
    of that name is not run. *)
Theorem line_runs_program (answer : list syscall -> syscall -> option reply) (fuel : nat) (stack buffer working name : list Z)
    (args : list (list Z)) (r : reply) (h : list syscall) :
  holds MAX_COMMAND_DIMENSION buffer (words_text (name :: args)) -> Forall word (name :: args) ->
  Forall (fun s => ~ literal s `prefix_of` words_text (name :: args)) commands ->
  Forall (fun c => c <> slash) name -> (length (program_file name) < MAX_COMMAND_DIMENSION)%nat ->
  answer h Fork = Some r ->
  let after := told (h ++
    if s32 (value r) =? 0 then [Fork; Execute (literal "/bin/" ++ name ++ literal ".bin") (take 4 args)]
    else [Fork; Wait (s32 (value r))]) in
  uwp (run_command (System0 := transcript answer) fuel stack buffer working) (fun working' h' => working' = working /\ after h') after h.
Proof.
  intros Hb Hw Hc Hs Hl Hr. apply (uwp_run_program answer fuel stack buffer working _ _ h Hb Hc).
  exact (uwp_handle_exec_from_bin answer buffer name args r h Hb Hw Hs Hl Hr).
Qed.

(** A child that is replaced. *)
Definition replaced (h : list syscall) (c : syscall) : option reply :=
  match c with Execute _ _ => None | _ => Some (mkReply 0 [] 0) end.

Lemma line_runs_program_witness :
  uwp (run_command (System0 := transcript replaced) 0 [] (literal "test a b" ++ 0 :: zeroed 55) (constant "/"))
    (fun working _ => working = constant "/")
    (fun h => exists rest, h = Fork :: Execute (literal "/bin/test.bin") [literal "a"; literal "b"] :: rest) [].
Proof.
  eapply uwp_mono; [apply (line_runs_program replaced 0 [] (literal "test a b" ++ 0 :: zeroed 55) (constant "/") (literal "test")
    [literal "a"; literal "b"] (mkReply 0 [] 0) [])| |].
  - split; [by repeat constructor|]. split; [reflexivity|]. by exists (zeroed 55).
  - repeat (apply Forall_cons; split); try done; split; try done; by repeat constructor.
  - unfold commands. repeat (apply Forall_cons; split); try done; intros [k Hk]; discriminate.
  - by repeat constructor.
  - apply Nat.ltb_lt. reflexivity.
  - reflexivity.
  - by intros working h [-> _].
  - intros h (rest & -> & _). by exists rest.
Defined.

(** ** The library and the programs *)

(** The parent of [spawn_process] forks, sets exactly the
    parameters that are not negative on the new process, in order, and returns
    its pid; when the fork fails it returns -1 and does nothing else.  The child
    executes the program, and ends if that fails. *)
Theorem spawn_process_calls (answer : list syscall -> syscall -> option reply) (n : nat) (a path : list Z)
    (priority tickets queue_priority : Z) (r : reply) (h : list syscall) :
  params_return answer -> small n -> holds n a path -> answer h Fork = Some r ->
  let pid := s32 (value r) in
  let spawn := spawn_process (System0 := transcript answer) a priority tickets queue_priority in
  (0 < pid -> spawn h = Done (Some pid) (h ++ Fork :: param_calls pid priority tickets queue_priority)) /\
  (pid < 0 -> spawn h = Done (Some (-1)) (h ++ [Fork])) /\
  (pid = 0 -> answer (h ++ [Fork]) (Execute path []) = None -> spawn h = Done None (h ++ [Fork; Execute path []])) /\
  (pid = 0 -> forall e, answer (h ++ [Fork]) (Execute path []) = Some e -> s32 (value e) <> 0 ->
     answer (h ++ [Fork; Execute path []]) Exit = None -> spawn h = Done None (h ++ [Fork; Execute path []; Exit])).
Proof.
  intros Hp Hn Ha Hr pid spawn.
  assert (Huse : forall v h', uwp spawn (fun v' h'' => v' = v /\ h'' = h') (fun _ => False) h -> spawn h = Done (Some v) h').
  { intros v h' H. apply wp_inv in H as ([x|] & s & -> & H); [|done]. by destruct H as [-> ->]. }
  split; [|split]; [intros Hpid|intros Hpid|split; intros Hpid].
  - apply Huse. by eapply uwp_spawn_parent.
  - apply Huse. by eapply uwp_spawn_failed.
  - intros He. unfold spawn. rewrite (spawn_child answer n a path _ _ _ r) by done. cbv zeta. by rewrite He.
  - intros e He Hne Hexit. unfold spawn. rewrite (spawn_child answer n a path _ _ _ r) by done. cbv zeta. rewrite He.
    by destruct (Z.eqb_spec (s32 (value e)) 0); [|rewrite Hexit].
Qed.

(** A kernel that gives every child the pid 7. *)
Definition seven (h : list syscall) (c : syscall) : option reply := Some (mkReply 7 [] 0).

Lemma spawn_process_calls_witness :
  spawn_process (System0 := transcript seven) (constant "/bin/a.bin") 3 (-1) 0 []
  = Done (Some 7) [Fork; SetSchedParam 7 SCHED_PARAM_PRIORITY 3; SetSchedParam 7 SCHED_PARAM_QUEUE_PRIORITY 0].
Proof.
  apply (spawn_process_calls seven 11 (constant "/bin/a.bin") (literal "/bin/a.bin") 3 (-1) 0 (mkReply 7 [] 0) []);
    [done|done| |reflexivity|reflexivity].
  split; [by repeat constructor|]. split; [reflexivity|]. by exists [].
Defined.

(** [print_int] writes one text: the digits of the number, without
    zeros before them.  Reading the text back gives the number. *)
Theorem print_int_reads_back (answer : list syscall -> syscall -> option reply) (fuel : nat) (buffer : list Z) (num : Z)
    (h : list syscall) :
  0 <= num < 10 ^ 10 -> (10 <= fuel)%nat -> length buffer = 32%nat ->
  exists text, print_int (System0 := transcript answer) fuel buffer num h =
    Done (match answer h (Write text) with Some _ => Some tt | None => None end) (h ++ [Write text]) /\
  Forall digit text /\ parse text = num /\ (num <> 0 -> exists c rest, text = c :: rest /\ c <> 48).
Proof.
  intros Hnum Hf Hb. destruct (print_int_text answer fuel buffer num h Hnum Hf Hb) as (text & E & Hd & Hp & Hh).
  exists text. split; [done|]. split; [done|]. split; [done|]. intros H0.
  destruct (Hh H0) as [Hne Hc]. destruct text as [|c text]; [done|]. exists c, text. split; [done|]. by eapply Hc.
Qed.

Lemma print_int_reads_back_witness :
  exists text, print_int (System0 := transcript seven) 10 (zeroed 32) 2024 [] = Done (Some tt) [Write text] /\ parse text = 2024.
Proof.
  destruct (print_int_reads_back seven 10 (zeroed 32) 2024 []) as (text & E & _ & H & _); [lia|lia|reflexivity|].
  exists text. split; [exact E|exact H].
Defined.
